(* ===== verification/_CoqProject ===== *)
-Q . S2P
Prelude.v
IntrusiveList.v
PipeDevice.v
PipeDeviceProofs.v
PipeDeviceTheorems.v
PipeProtocol.v
PipeWitnesses.v
GuestDriver.v
GuestDriverProofs.v
GuestDeviceLaws.v
GuestSystem.v
GuestWrite.v
GuestWitnesses.v
LooperQemu.v
LooperQemuProofs.v
LooperQemuTheorems.v
QemuTimer.v
QemuTimerProofs.v
QemuTimerTheorems.v
SockAddr.v
SockAddrProofs.v
SocketCalls.v
SocketCallsProofs.v
NetPipe.v
NetPipeProofs.v
NetPipeTheorems.v
NetPipeWitnesses.v
Refset.v
RefsetProofs.v
RefsetTheorems.v
IoLooper.v
IoLooperProofs.v
LooperGeneric.v
LooperGenericProofs.v
LooperGenericTheorems.v
LooperGenericWitnesses.v
Opengles.v
OpenglesProofs.v
CArray.v
Gic.v
GicProofs.v
GicOps.v
GicRegs.v
GicDelivery.v
GicTheorems.v
GicSystem.v
GicWitnesses.v
Virtqueue.v
VirtqueueProofs.v
VirtqueueTheorems.v
VirtioMmio.v
VirtioDevs.v
VirtioMigrate.v
VirtioMmioProofs.v
VirtioMigrateProofs.v
VirtioMigrateTheorems.v
VirtioLoadProofs.v
VirtioMsgProofs.v
VirtioTheorems.v
VirtioWitnesses.v
VirtioSystem.v
VirtioSystemWitnesses.v
