(* ===== verification/Prelude.v ===== *)
(** * The QEMU pipe of the ARM Android emulator: a verification

    The repository is a QEMU that runs an Android guest on an ARM phone.  What is
    its own, and what this library verifies, is the path of data between the
    guest and the services of the host:

    - the guest's kernel driver, a character device
      ([src/vm-kernel-qemupipe/qemu_pipe.c]);
    - the pipe device of the emulator, a block of memory-mapped registers
      ([src/host-qemu/hw/android/pipe.c]);
    - the services on the host, which forward a pipe to a socket
      ([src/host-qemu/android/hw-pipe-net.c], with the connector of
      [async-utils.c] and the renderer's address of [opengles.c]);
    - the two event loops ([looper-qemu.c] on QEMU's main loop and
      [looper-generic.c] on [select]), their timers ([src/host-qemu/qemu-timer.c])
      and what they are built from ([iolooper-select.c], [refset.c], [vector.h]);
    - the wrappers of the host's sockets ([sockets.c]);
    - the interrupt controller ([src/host-qemu/hw/intc/arm_gic.c]) and the board
      that wires the pipe device to it ([src/host-qemu/hw/arm/virt.c]);
    - two virtio devices that give the guest the phone's screen and touch panel
      ([src/host-qemu/hw/virtio/virtio-msg.c] with [fb_backend.c], and
      [virtio-tp.c]), the queues they are built on ([virtio.c]) and the MMIO
      transport through which the guest drives them ([virtio-mmio.c]).

    A write in the guest goes through all of them: the driver cuts the user's
    buffer into pages and issues device commands; the device hands the bytes to
    the service of the pipe; the service sends them to a socket, or asks the
    event loop to watch the socket; an event of the socket wakes the pipe, whose
    line the interrupt controller turns into the IRQ of a processor of the guest,
    whose handler wakes the sleeping thread.  The virtio devices are a second
    path: the guest leaves chains of buffers in rings in its memory and writes a
    register of the transport; the device takes the requests, calls the host,
    returns the buffers in the used ring and raises its interrupt line.

    ** How the C code is modelled

    A C function is a Rocq function into [res] (this file): it returns, or it
    reports what the C program must never do ([NullDeref], [BadPointer] for an
    object that is not live, [OutOfBounds], [BadUnlock], [AssertFailed],
    [DivByZero]).  The virtio code also ends the process on what a guest must not
    do; its functions go into [outcome], which has [Exit] besides.
    Objects live in finite maps from addresses ([gmap Z]); a [w]-bit integer is
    a [Z] and every narrowing assignment is written with [wrap] or [signed];
    bytes are [Z]s.  Linked lists are chains through the heap ([IntrusiveList]),
    with the C code's pointers to links.  A loop that is not structural has fuel;
    running out of it is the fault [OutOfFuel], so a theorem that an operation
    returns [Ok] also says that its loops end within the fuel.  The fuel of a
    walk over a list is the number of live objects plus one ([walk_fuel]), of a
    search in a hash table its size plus one, of a system call the number of
    signals the host still has to deliver plus one, of a transfer the number of
    bytes, of loading subsections the bytes left in the stream plus four, of
    collecting a request the capacity of its two arrays plus one ([collect_fuel]),
    of serving a queue the greatest size of a queue plus one ([msg_fuel]): in each
    case a loop that needs more does not end in C either, or, for the last three,
    cannot occur.
    Concurrency in the guest is a step function per thread with the decisions of
    the kernel as arguments; the theorems quantify over all interleavings.

    ** Files

    [Prelude] outcomes, machine integers, memory, tactics, hints.
    [IntrusiveList] lists chained through a heap, sorted lists.

    [PipeDevice] data and operations of [pipe.c]: the lists of pipes, the
    connector, the services table, the commands, the registers, the parameter
    block.  The services are a parameter (record [GoldfishPipeFuncs]);
    [PipeDeviceProofs] states what they promise (class [ServiceLaws]), the
    invariant [wf] and its preservation.  [PipeDeviceTheorems] C1, C4: memory
    safety on every reachable state, delivery of wakes; error answers, open and
    close.  [PipeProtocol] C6, C7: the connection
    request in any number of writes, the equivalence of the batched access with
    the register accesses; also the buffer commands and the services table.
    [PipeWitnesses] runs on a loopback service.

    [GuestDriver] data and operations of [qemu_pipe.c].  [GuestDriverProofs]
    C10, C11: safety of reads and writes against the interface [MMIOLaws] of any
    device, and two defects of the locking.  [GuestDeviceLaws] shows that the
    pipe device implements that interface.  [GuestSystem] C12-C14 and
    [GuestWrite] C16: driver and device together, from the interrupt to the
    sleeping thread, and from the user's buffer to the service.
    [GuestWitnesses] concrete runs.

    [LooperQemu], [LooperQemuProofs], [LooperQemuTheorems] C17, C18: the watchers
    of [looper-qemu.c], the pending list, the bottom half.
    [QemuTimer], [QemuTimerProofs], [QemuTimerTheorems] C19-C21: the timer lists,
    the run of the expired timers, the deadlines, a timer that is freed while it
    is active.

    [SockAddr], [SockAddrProofs] C23: addresses, their conversion, printing
    and resolution.  [SocketCalls], [SocketCallsProofs] C26: the socket calls over
    a host that is a parameter (classes [Host] and [HostLaws]); no call leaks a
    descriptor and all of them end.

    [NetPipe], [NetPipeProofs], [NetPipeTheorems] C27-C29, C31: the network services
    implement [ServiceLaws], so the theorems on the device hold of the composed
    system; bytes reach the socket in order; events wake the guest for what it
    asked; two ways in which the code fails.  [NetPipeWitnesses] concrete runs.

    [Refset], [RefsetProofs], [RefsetTheorems] C32: the hash set of pointers
    refines a finite set, within limits that three defects set.
    [IoLooper], [IoLooperProofs] C34: the wait for descriptors (classes
    [SelectHost] and [SelectLaws]).  [LooperGeneric], [LooperGenericProofs],
    [LooperGenericTheorems] C36, C37, [LooperGenericWitnesses]: the loop built from
    them, what one turn delivers, four defects.
    [Opengles], [OpenglesProofs]: the start of the renderer, which never
    succeeds in this build, and the copies of its strings.

    [CArray] C arrays with their bounds, loops, bits.  [Gic] data and operations of
    [arm_gic.c], its reset and the board's configuration.  [GicProofs] types, the
    declarative specification of the interrupt a processor is shown ([signals]),
    the stack of active interrupts, the invariant.  [GicOps], [GicRegs] every
    operation keeps it.  [GicDelivery] the life of an interrupt.  [GicTheorems]
    C30: the selection; C39: safety on every reachable state, within obligations
    of the guest that are spelled out; C40: what happens outside of them.
    [GicSystem] device, controller and driver together, C38: from a service's wake
    to the handler and back; C5: the wakes that a line left up loses.
    [GicWitnesses] concrete runs.

    [Virtqueue] the guest's memory (one region of RAM, unassigned memory around
    it, the bounce buffer) and the operations of [virtio.c] on the rings.
    [VirtqueueProofs] the logic of code that may exit and the invariant of the
    queues, whatever the guest wrote.  [VirtqueueTheorems] chains of descriptors as
    an inductive relation, the used ring, C25: the exact condition for an
    interrupt.  [VirtioMmio] the rest of [virtio.c] over a record of methods of the
    device, and the registers, event descriptors and guest notifiers of
    [virtio-mmio.c].
    [VirtioMmioProofs] what a device promises to its transport (class
    [DeviceLaws]), and that every operation keeps the invariant [mmio_ok].
    [VirtioDevs] the message device and the touch panel over a host that is a
    parameter (class [FbHost]).  [VirtioMigrate] the stream of
    [migration/qemu-file.c] and the subsections of [migration/vmstate.c] as lists
    of bytes, saving and loading a device, and the notifiers the two devices
    register.  [VirtioMigrateProofs] what a device promises about its own part of
    the stream (class [SaveLaws]), and reading back what was written, field by
    field.  [VirtioMigrateTheorems] the two devices keep that promise, C8: the
    round trip of a whole device, which goes on with the same requests.
    [VirtioLoadProofs] C33: what loading guarantees on any stream (class
    [LoadLaws]).
    [VirtioMsgProofs] a specification of the frame
    buffer calls on the bytes of a request ([msg_spec]) and its refinement by the
    handler.  [VirtioTheorems] C2: the transport on every reachable state; C3: the
    touch panel; C9: taking a request; C15: the message device end to end; C24:
    hostile guests.  [VirtioWitnesses] concrete guests, C22: what the two devices
    do not handle.  [VirtioSystem] a transport and the interrupt controller as the
    board wires them, C35: from a notification to the guest's handler and back.
    [VirtioSystemWitnesses] a concrete run.

    ** Not modelled

    Whatever the parameters stand for: the host's system calls, the resolver, the
    allocator, the guest kernel's memory management and scheduler.  Of the timers,
    the clock sources, the instruction-counting mode and the locks between
    threads.  Of virtio, the types and their registration, the PCI and modern
    transports (the accessors they use are in [VirtioMmio]), the threads (a round
    of the touch panel's poll thread is atomic), dirty pages and mappings of other
    devices' registers; of migration, everything around the section of a virtio
    device.  The host renderer ([src/host-opengl-render], C++ and generated code)
    and the rest of QEMU, which is not specific to this program: the CPU
    emulation, the other devices, the block layer, the user interface. *)

From Stdlib Require Export ZArith Lia Sorted.
From stdpp Require Export prelude gmap.

#[global] Open Scope Z_scope.

(** ** Outcomes of C code

    A C function is a Rocq function into [res]: it either returns, or it does
    something the C program must never do.  [NullDeref] is a dereference of the
    null pointer, [BadPointer] one of a pointer to no live object (a freed one,
    say), [OutOfBounds] an array access outside of the array, [OutOfFuel] a
    loop that did not stop within the bound the model gives it, [BadUnlock] the
    release of a lock by a thread that does not hold it, [AssertFailed] an
    [assert] that does not hold, [DivByZero] a division by zero. *)

Inductive fault : Type :=
  NullDeref | BadPointer | OutOfBounds | OutOfFuel | BadUnlock | AssertFailed | DivByZero.

#[global] Instance fault_eq_dec : EqDecision fault.
Proof. solve_decision. Defined.

Inductive res (A : Type) : Type :=
| Ok (a : A)
| Fault (f : fault).
Arguments Ok {A} _.
Arguments Fault {A} _.

#[global] Instance res_ret : MRet res := fun A a => Ok a.
#[global] Instance res_bind : MBind res := fun A B f m =>
  match m with Ok a => f a | Fault e => Fault e end.
#[global] Instance res_fmap : FMap res := fun A B f m =>
  match m with Ok a => Ok (f a) | Fault e => Fault e end.

Definition is_ok {A} (m : res A) : Prop := exists a, m = Ok a.

(** [of_opt e o]: a map lookup that faults with [e] where there is nothing. *)
Definition of_opt {A} (e : fault) (o : option A) : res A :=
  match o with Some a => Ok a | None => Fault e end.

(** Loading the object a pointer designates. *)
Definition deref {A} (h : gmap Z A) (p : Z) : res A :=
  if p =? 0 then Fault NullDeref else of_opt BadPointer (h !! p).

(** ** Machine integers

    A [w]-bit unsigned integer is a [Z] in [0, 2^w); the assignments of the C
    code that narrow a value are written with these wrap-around functions. *)

Definition wrap (w z : Z) : Z := z mod 2 ^ w.
Abbreviation u8 := (wrap 8).
Abbreviation u16 := (wrap 16).
Abbreviation u32 := (wrap 32).
Abbreviation u64 := (wrap 64).

(** Two's-complement reading of a [w]-bit pattern. *)
Definition signed (w z : Z) : Z :=
  let v := wrap w z in if v <? 2 ^ (w - 1) then v else v - 2 ^ w.
Abbreviation s32 := (signed 32).
Abbreviation s64 := (signed 64).

Definition in_range (w z : Z) : Prop := 0 <= z < 2 ^ w.

(** [flag_set x m]: the C test [(x & m) != 0]. *)
Definition flag_set (x m : Z) : bool := negb (Z.land x m =? 0).

(** ** Strings and byte arrays

    A C string is the list of its bytes, without the final zero. *)

(** [memchr(b, c, n)]: the index of the first [c]. *)
Fixpoint memchr (c : Z) (b : list Z) : option nat :=
  match b with
  | [] => None
  | x :: b' => if x =? c then Some 0%nat else S <$> memchr c b'
  end.

(** The C string that starts at the beginning of [b]: the bytes before the
    first zero. *)
Definition c_string (b : list Z) : list Z :=
  match memchr 0 b with Some n => take n b | None => b end.

Definition list_eqb (a b : list Z) : bool := bool_decide (a = b).

(** [memcpy(dst + off, src, length src)] on an array. *)
Definition blit (dst : list Z) (off : nat) (src : list Z) : list Z :=
  take off dst ++ src ++ drop (off + length src) dst.

(** ** Byte-addressed memory

    A RAM is a finite map from addresses to bytes; a byte never written reads
    as zero, as in freshly allocated guest memory. *)

Fixpoint read_mem (m : gmap Z Z) (a : Z) (n : nat) : list Z :=
  match n with
  | O => []
  | S k => default 0 (m !! a) :: read_mem m (a + 1) k
  end.

Fixpoint write_mem (m : gmap Z Z) (a : Z) (bs : list Z) : gmap Z Z :=
  match bs with
  | [] => m
  | b :: bs' => <[a := b]> (write_mem m (a + 1) bs')
  end.

(** Little-endian encoding of an integer on [n] bytes, and its decoding: how
    the hosts and the guests of this emulator lay out [uint32_t] and
    [uint64_t] in memory. *)
Fixpoint le_bytes (n : nat) (z : Z) : list Z :=
  match n with
  | O => []
  | S k => (z mod 256) :: le_bytes k (z / 256)
  end.

Fixpoint of_le (bs : list Z) : Z :=
  match bs with
  | [] => 0
  | b :: bs' => b + 256 * of_le bs'
  end.

Lemma bind_Ok {A B} (m : res A) (f : A -> res B) b :
  m ≫= f = Ok b -> exists a, m = Ok a /\ f a = Ok b.
Proof. destruct m; cbn; [eauto|discriminate]. Qed.

(** ** Tactics *)

(** Splits the hypotheses that are conjunctions, existentials, pairs and
    constructor equalities. *)
Ltac dest :=
  repeat match goal with
  | H : _ /\ _ |- _ => destruct H
  | H : exists _, _ |- _ => destruct H
  | H : Ok _ = Ok _ |- _ => injection H as H; try subst
  | H : (_, _) = (_, _) |- _ => injection H as ? ?; try subst
  | H : Fault _ = Ok _ |- _ => discriminate H
  | H : Ok _ = Fault _ |- _ => discriminate H
  end.

(** Exposes the sequence of a monadic computation in [res]. *)
Ltac mon := cbn [mbind res_bind mret res_ret fst snd] in *.

(** Turns the boolean integer tests of the context into arithmetic facts. *)
Ltac zb :=
  repeat match goal with
  | H : (_ =? _) = true |- _ => apply Z.eqb_eq in H
  | H : (_ =? _) = false |- _ => apply Z.eqb_neq in H
  | H : (_ <? _) = true |- _ => apply Z.ltb_lt in H
  | H : (_ <? _) = false |- _ => apply Z.ltb_ge in H
  | H : (_ <=? _) = true |- _ => apply Z.leb_le in H
  | H : (_ <=? _) = false |- _ => apply Z.leb_gt in H
  | H : (_ >? _) = _ |- _ => rewrite Z.gtb_ltb in H
  | H : (_ >=? _) = _ |- _ => rewrite Z.geb_leb in H
  | H : negb _ = true |- _ => apply negb_true_iff in H
  | H : negb _ = false |- _ => apply negb_false_iff in H
  | H : _ && _ = true |- _ => apply andb_true_iff in H; destruct H
  | H : _ || _ = false |- _ => apply orb_false_iff in H; destruct H
  end.

(** Evaluates both sides of an equation between closed terms. *)
Ltac run_vm := vm_compute; reflexivity.

(** Inverts a computation of [res] that returned: every intermediate result
    becomes a variable with its equation. *)
Ltac inv_res :=
  repeat match goal with
  | H : _ ≫= _ = Ok _ |- _ =>
      apply bind_Ok in H; destruct H as (? & ? & H)
  | H : (let '(_, _) := ?x in _) = Ok _ |- _ => destruct x
  | H : (if ?b then _ else _) = Ok _ |- _ => destruct b eqn:?
  | H : (match ?o with Some _ => _ | None => _ end) = Ok _ |- _ => destruct o eqn:?
  | H : Ok _ = Ok _ |- _ => injection H as H; try subst
  | H : (_, _) = (_, _) |- _ => injection H as ? ?; try subst
  | H : Fault _ = Ok _ |- _ => discriminate H
  end.

(** ** Generic lemmas *)

Lemma deref_Some {A} (h : gmap Z A) p a : p <> 0 -> h !! p = Some a -> deref h p = Ok a.
Proof. intros Hp Hh. unfold deref. rewrite Hh. by apply Z.eqb_neq in Hp as ->. Qed.

Lemma deref_Ok {A} (h : gmap Z A) p a : deref h p = Ok a -> p <> 0 /\ h !! p = Some a.
Proof.
  unfold deref. destruct (p =? 0) eqn:E; [done|]. zb.
  destruct (h !! p); cbn; naive_solver.
Qed.

Lemma wrap_range w z : 0 <= w -> in_range w (wrap w z).
Proof. intros. apply Z.mod_pos_bound. lia. Qed.

Lemma wrap_small w z : in_range w z -> wrap w z = z.
Proof. apply Z.mod_small. Qed.

Lemma wrap_wrap w z : 0 <= w -> wrap w (wrap w z) = wrap w z.
Proof. intros. by apply wrap_small, wrap_range. Qed.

Lemma in_range_bits w z :
  0 <= w -> in_range w z <-> (0 <= z /\ forall i, w <= i -> Z.testbit z i = false).
Proof.
  intros Hw. split.
  - intros [H0 H1]. split; [done|]. intros i Hi.
    destruct (decide (z = 0)) as [->|Hz]; [apply Z.bits_0|].
    apply Z.bits_above_log2; [done|]. apply Z.log2_lt_pow2 in H1; lia.
  - intros [H0 H1]. split; [done|].
    destruct (decide (z < 2 ^ w)) as [|Hn]; [done|]. exfalso.
    assert (0 < z) by lia.
    specialize (H1 (Z.log2 z)). rewrite Z.bit_log2 in H1 by lia.
    assert (w <= Z.log2 z) by (apply Z.log2_le_pow2; lia). naive_solver.
Qed.

Lemma lor_range w a b : 0 <= w -> in_range w a -> in_range w b -> in_range w (Z.lor a b).
Proof.
  intros Hw Ha Hb. apply in_range_bits in Ha; [|done]. apply in_range_bits in Hb; [|done].
  apply in_range_bits; [done|].
  split; [apply Z.lor_nonneg; tauto|].
  intros i Hi. rewrite Z.lor_spec, (proj2 Ha), (proj2 Hb) by done. done.
Qed.

Lemma land_range w a b : 0 <= w -> in_range w a -> 0 <= b -> in_range w (Z.land a b).
Proof.
  intros Hw Ha Hb. apply in_range_bits in Ha; [|done]. apply in_range_bits; [done|].
  split; [apply Z.land_nonneg; tauto|].
  intros i Hi. rewrite Z.land_spec, (proj2 Ha) by done. done.
Qed.

Lemma length_read_mem m a n : length (read_mem m a n) = n.
Proof. revert a; induction n; intros; cbn; [done|]. by rewrite IHn. Qed.

Lemma read_mem_lookup m a n i :
  (i < n)%nat -> read_mem m a n !! i = Some (default 0 (m !! (a + Z.of_nat i))).
Proof.
  revert a i; induction n as [|n IH]; intros a i Hi; [lia|].
  destruct i as [|i]; cbn; [by rewrite Z.add_0_r|].
  rewrite IH by lia. do 3 f_equal. lia.
Qed.

Lemma write_mem_lookup m a bs x :
  write_mem m a bs !! x =
    if decide (a <= x < a + Z.of_nat (length bs)) then bs !! Z.to_nat (x - a) else m !! x.
Proof.
  revert a; induction bs as [|b bs IH]; intros a; cbn.
  - case_decide; [lia|done].
  - rewrite lookup_insert. case_decide as E.
    + subst. rewrite decide_True by lia. by rewrite Z.sub_diag.
    + rewrite IH. repeat case_decide; try lia; [|done].
      replace (Z.to_nat (x - a)) with (S (Z.to_nat (x - (a + 1)))) by lia. done.
Qed.

Lemma read_mem_ext m m' a n :
  (forall i, a <= i < a + Z.of_nat n -> m !! i = m' !! i) -> read_mem m a n = read_mem m' a n.
Proof.
  revert a; induction n as [|n IH]; intros a H; cbn; [done|].
  rewrite (H a) by lia. f_equal. apply IH. intros. apply H. lia.
Qed.

Lemma read_write_mem m a bs : read_mem (write_mem m a bs) a (length bs) = bs.
Proof.
  apply list_eq. intros i. destruct (decide (i < length bs)%nat) as [Hi|Hi].
  - rewrite read_mem_lookup, write_mem_lookup by done.
    rewrite decide_True by lia.
    replace (Z.to_nat (a + Z.of_nat i - a)) with i by lia.
    destruct (lookup_lt_is_Some_2 bs i Hi) as [x ->]. done.
  - rewrite !lookup_ge_None_2; [done|lia|]. rewrite length_read_mem. lia.
Qed.

Lemma read_write_mem_other m a b bs n :
  b + Z.of_nat n <= a \/ a + Z.of_nat (length bs) <= b ->
  read_mem (write_mem m a bs) b n = read_mem m b n.
Proof.
  intros H. apply read_mem_ext. intros i Hi. rewrite write_mem_lookup.
  by rewrite decide_False by lia.
Qed.

Lemma read_mem_app m a n k :
  read_mem m a (n + k) = read_mem m a n ++ read_mem m (a + Z.of_nat n) k.
Proof.
  revert a; induction n as [|n IH]; intros a; cbn; [by rewrite Z.add_0_r|].
  rewrite IH. do 3 f_equal. lia.
Qed.

Lemma length_le_bytes n z : length (le_bytes n z) = n.
Proof. revert z; induction n; intros; cbn; [done|]. by rewrite IHn. Qed.

Lemma of_le_bytes n z : of_le (le_bytes n z) = z mod 256 ^ Z.of_nat n.
Proof.
  revert z; induction n as [|n IH]; intros z; cbn [le_bytes of_le].
  - by rewrite Z.mod_1_r.
  - rewrite IH. rewrite Nat2Z.inj_succ, Z.pow_succ_r by lia.
    rewrite (Z.rem_mul_r z 256 (256 ^ Z.of_nat n)); lia.
Qed.

Lemma filter_id {A} (P : A -> Prop) `{forall x, Decision (P x)} (l : list A) :
  (forall x, x ∈ l -> P x) -> filter P l = l.
Proof.
  induction l as [|x l IH]; intros HP; [done|].
  rewrite filter_cons_True by (apply HP; set_solver). f_equal. apply IH. set_solver.
Qed.

(** Removing the one occurrence of an element. *)
Lemma filter_ne_split (l1 l2 : list Z) x :
  NoDup (l1 ++ x :: l2) -> filter (fun q => q <> x) (l1 ++ x :: l2) = l1 ++ l2.
Proof.
  intros Hnd. apply NoDup_app in Hnd as (_ & Hdis & Hnd). apply NoDup_cons in Hnd as [Hx _].
  rewrite filter_app, filter_cons_False by tauto.
  rewrite !filter_id; [done|set_solver..].
Qed.

Lemma fmap_eq_lookup {A B} (f : A -> B) (h h' : gmap Z A) x :
  f <$> h' = f <$> h -> f <$> h' !! x = f <$> h !! x.
Proof. intros E. by rewrite <- !lookup_fmap, E. Qed.

Lemma fmap_eq_is_Some {A B} (f : A -> B) (h h' : gmap Z A) x :
  f <$> h' = f <$> h -> is_Some (h' !! x) <-> is_Some (h !! x).
Proof.
  intros E. rewrite <- (fmap_is_Some f), <- (fmap_is_Some f (h !! x)).
  by rewrite (fmap_eq_lookup f h h' x E).
Qed.

Lemma length_blit dst off src :
  (off + length src <= length dst)%nat -> length (blit dst off src) = length dst.
Proof. intros. unfold blit. rewrite !length_app, length_take, length_drop. lia. Qed.

Lemma signed_small w z : 0 < w -> 0 <= z < 2 ^ (w - 1) -> signed w z = z.
Proof.
  intros Hw Hz. unfold signed. rewrite wrap_small.
  - by rewrite (proj2 (Z.ltb_lt _ _)) by lia.
  - split; [lia|]. replace w with (Z.succ (w - 1)) by lia. rewrite Z.pow_succ_r; lia.
Qed.

Lemma blit_nil dst off : blit dst off [] = dst.
Proof. unfold blit. cbn [length app]. by rewrite Nat.add_0_r, take_drop. Qed.

Lemma memchr_None c l : c ∉ l -> memchr c l = None.
Proof.
  induction l as [|x l IH]; intros Hc; [done|]. apply not_elem_of_cons in Hc as [Hx Hc].
  cbn. rewrite (proj2 (Z.eqb_neq x c)) by done. by rewrite IH.
Qed.

Lemma memchr_app c l r : c ∉ l -> memchr c (l ++ c :: r) = Some (length l).
Proof.
  induction l as [|x l IH]; intros Hc; cbn; [by rewrite Z.eqb_refl|].
  apply not_elem_of_cons in Hc as [Hx Hc].
  rewrite (proj2 (Z.eqb_neq x c)) by done. by rewrite IH.
Qed.

Lemma c_string_app l r : 0 ∉ l -> c_string (l ++ 0 :: r) = l.
Proof. intros Hl. unfold c_string. rewrite memchr_app by done. apply take_app_length. Qed.

Lemma blit_app a z b : blit (a ++ z) (length a) b = a ++ b ++ drop (length b) z.
Proof.
  unfold blit. rewrite take_app_length. do 2 f_equal.
  rewrite <- drop_drop. by rewrite drop_app_length.
Qed.

Lemma of_le_range bs :
  Forall (in_range 8) bs -> 0 <= of_le bs < 256 ^ Z.of_nat (length bs).
Proof.
  induction 1 as [|b bs [Hb1 Hb2] _ IH]; cbn [of_le length]; [lia|].
  rewrite Nat2Z.inj_succ, Z.pow_succ_r by lia. change (2 ^ 8) with 256 in Hb2. nia.
Qed.

Lemma land_disjoint_low a b : in_range 32 a -> Z.land (Z.lor (Z.land b 0xFFFFFFFF00000000) a) 0xFFFFFFFF = a.
Proof.
  intros Ha. apply Z.bits_inj'. intros i Hi.
  rewrite Z.land_spec, Z.lor_spec, Z.land_spec.
  change 0xFFFFFFFF with (Z.ones 32).
  change 0xFFFFFFFF00000000 with (Z.shiftl (Z.ones 32) 32).
  rewrite Z.shiftl_spec by done. rewrite (Z.testbit_ones_nonneg 32 i) by lia.
  destruct (Z.ltb_spec i 32).
  - rewrite (Z.testbit_neg_r _ (i - 32)) by lia. by rewrite andb_false_r, andb_true_r.
  - rewrite andb_false_r. symmetry. apply (proj1 (in_range_bits 32 a ltac:(lia)) Ha). lia.
Qed.

Definition is_byte (b : Z) : bool := (0 <=? b) && (b <? 256).

Lemma bytes_ok l : forallb is_byte l = true -> Forall (in_range 8) l.
Proof.
  intros H. apply List.Forall_forall. intros x Hx.
  apply (proj1 (forallb_forall _ _) H) in Hx. unfold is_byte in Hx. zb.
  unfold in_range. lia.
Qed.

(** ** Bits of flags *)

Lemma flag_set_bit x i : 0 <= i -> flag_set x (2 ^ i) = Z.testbit x i.
Proof.
  intros Hi. unfold flag_set. destruct (Z.eqb_spec (Z.land x (2 ^ i)) 0) as [E|E]; cbn.
  - apply (f_equal (fun z => Z.testbit z i)) in E.
    by rewrite Z.land_spec, Z.pow2_bits_true, Z.bits_0, andb_true_r in E.
  - destruct (Z.testbit x i) eqn:B; [done|]. destruct E. apply Z.bits_inj'. intros j Hj.
    rewrite Z.land_spec, Z.pow2_bits_eqb, Z.bits_0 by done.
    destruct (Z.eqb_spec i j); [subst; by rewrite B|apply andb_false_r].
Qed.

Lemma flag_set_lxor x y i : 0 <= i -> flag_set (Z.lxor x y) (2 ^ i) = xorb (flag_set x (2 ^ i)) (flag_set y (2 ^ i)).
Proof. intros. by rewrite !flag_set_bit, Z.lxor_spec. Qed.

(** ** Automation

    [emu]: side conditions of heaps and machine integers; [heap]: rewriting of
    lookups and updates of heaps. *)

Create HintDb emu.
#[export] Hint Resolve wrap_range wrap_small wrap_wrap : emu.
#[export] Hint Extern 1 (_ !! _ = Some _) => apply lookup_insert_eq : emu.
#[export] Hint Extern 1 (is_Some (Some _)) => eexists; reflexivity : emu.

Create Rewrite HintDb heap.
#[export] Hint Rewrite @lookup_insert_eq @insert_insert_eq @fmap_insert @lookup_fmap : heap.

(** [heap]: simplifies lookups in updated heaps and their images. *)
Ltac heap := autorewrite with heap in *.

(** [m ⇓ a]: the C code [m] returns [a]. *)
Declare Scope emu_scope.
Notation "m ⇓ a" := (m = Ok a) (at level 70) : emu_scope.
Open Scope emu_scope.
