(* ===== verification/IntrusiveList.v ===== *)
(** * Intrusive linked lists

    The emulator chains its objects through a [next] field of the objects
    themselves ([Pipe.next], [Pipe.next_waked], [QLoopIo.next],
    [QLoopIo.pendingNext], [GLoopTimer.activeNext]) and walks a chain with a
    pointer to the link it stands on ([Pipe** pnode = list]).  This file has
    the executable operations on such links, the predicate that says which list
    a chain represents, and the lemmas every client uses. *)

From S2P Require Import Prelude.

(** A value of type [T**] the walks produce: the address of the list head, or
    that of the [next] field of a node. *)
Inductive link : Type := LHead | LNext (p : Z).

Section ops.
Context {N : Type} (next : N -> Z) (set_next : Z -> N -> N).

(** [*pnode] *)
Definition load_link (h : gmap Z N) (head : Z) (c : link) : res Z :=
  match c with
  | LHead => Ok head
  | LNext p => n ← deref h p; Ok (next n)
  end.

(** [*pnode = v] *)
Definition store_link (h : gmap Z N) (head : Z) (c : link) (v : Z) : res (gmap Z N * Z) :=
  match c with
  | LHead => Ok (h, v)
  | LNext p => n ← deref h p; Ok (<[p := set_next v n]> h, head)
  end.

(** [for (;;) { node = *pnode; if (node == NULL || stop(node)) break;
    pnode = &node->next; }] *)
Fixpoint find_link (stop : Z -> res bool) (fuel : nat) (h : gmap Z N) (head : Z) (c : link)
    : res link :=
  match fuel with
  | O => Fault OutOfFuel
  | S k =>
      node ← load_link h head c;
      if node =? 0 then Ok c
      else b ← stop node;
           if (b : bool) then Ok c else find_link stop k h head (LNext node)
  end.

(** The bound given to the walks: a chain without repetition is at most as
    long as there are objects. *)
Definition walk_fuel (h : gmap Z N) : nat := S (size h).

(** [chain h p l]: following [next] from [p] visits exactly the nodes [l] and
    ends at the null pointer. *)
Fixpoint chain (h : gmap Z N) (p : Z) (l : list Z) : Prop :=
  match l with
  | [] => p = 0
  | q :: l' => p = q /\ q <> 0 /\ exists n, h !! q = Some n /\ chain h (next n) l'
  end.

(** The link reached after walking over [l]. *)
Definition link_after (l : list Z) : link :=
  match last l with Some p => LNext p | None => LHead end.
End ops.

Arguments load_link {_} _ _ _ _.
Arguments store_link {_} _ _ _ _ _.
Arguments find_link {_} _ _ _ _ _ _.
Arguments chain {_} _ _ _ _.

Section walks.
Context {N : Type} {next : N -> Z}.
Implicit Types (h : gmap Z N) (l : list Z).
Local Abbreviation chain := (chain next).
Local Abbreviation load_link := (load_link next).
Local Abbreviation find_link := (find_link next).

Lemma chain_head h p l : chain h p l -> p = default 0 (head l).
Proof. destruct l; cbn; naive_solver. Qed.

Lemma chain_elem h p l x : chain h p l -> x ∈ l -> x <> 0 /\ is_Some (h !! x).
Proof.
  revert p; induction l as [|q l IH]; intros p Hc Hx; [set_solver|].
  destruct Hc as (-> & Hq & n & Hn & Hc). apply elem_of_cons in Hx as [->|Hx]; eauto.
Qed.

Lemma chain_det h p l l' : chain h p l -> chain h p l' -> l = l'.
Proof.
  revert p l'; induction l as [|q l IH]; intros p [|q' l']; cbn; [done|naive_solver..|].
  intros (-> & ? & n & Hn & Hc) (<- & ? & n' & Hn' & Hc'). f_equal.
  simplify_eq. eauto.
Qed.

Lemma chain_suffix h p l1 q l2 :
  chain h p (l1 ++ q :: l2) -> exists n, h !! q = Some n /\ q <> 0 /\ chain h (next n) l2.
Proof. revert p; induction l1 as [|x l1 IH]; intros p; cbn; naive_solver. Qed.

Lemma chain_NoDup h p l : chain h p l -> NoDup l.
Proof.
  intros Hc. apply NoDup_alt. intros i j x Hi Hj.
  destruct (decide (i = j)) as [|Hne]; [done|exfalso].
  assert (Hsuf : forall k, l !! k = Some x ->
            exists n, h !! x = Some n /\ chain h (next n) (drop (S k) l)).
  { intros k Hk. rewrite <- (take_drop_middle l k x Hk) in Hc.
    apply chain_suffix in Hc. naive_solver. }
  destruct (Hsuf i Hi) as (n & Hn & H1), (Hsuf j Hj) as (n' & Hn' & H2).
  simplify_eq. pose proof (chain_det _ _ _ _ H1 H2) as E.
  apply (f_equal length) in E. rewrite !length_drop in E.
  apply lookup_lt_Some in Hi, Hj. lia.
Qed.

Lemma chain_length h p l : chain h p l -> (length l < walk_fuel h)%nat.
Proof.
  intros Hc. unfold walk_fuel. apply Nat.lt_succ_r.
  assert (Hs : list_to_set l ⊆ dom h).
  { intros x Hx. apply elem_of_list_to_set in Hx. apply elem_of_dom.
    by eapply chain_elem. }
  apply subseteq_size in Hs. rewrite size_list_to_set in Hs; [|by eapply chain_NoDup].
  by rewrite size_dom in Hs.
Qed.

Lemma chain_frame h h' p l :
  (forall x, x ∈ l -> next <$> h' !! x = next <$> h !! x) -> chain h p l -> chain h' p l.
Proof.
  revert p; induction l as [|q l IH]; intros p Hf; cbn; [done|].
  intros (-> & Hq & n & Hn & Hc). split; [done|]. split; [done|].
  pose proof (Hf q ltac:(set_solver)) as E. rewrite Hn in E. cbn in E.
  apply fmap_Some in E as (n' & Hn' & E). exists n'. split; [done|].
  rewrite <- E. apply IH; [|done]. intros. apply Hf. set_solver.
Qed.

Lemma load_link_after h p l1 l2 :
  chain h p (l1 ++ l2) -> load_link h p (link_after l1) = Ok (default 0 (head l2)).
Proof.
  destruct l1 as [|x l1 _] using rev_ind.
  - cbn. intros Hc%chain_head. by subst.
  - rewrite <- app_assoc. cbn. intros (n & Hn & Hx & Hc)%chain_suffix.
    unfold link_after. rewrite last_snoc. cbn.
    rewrite (deref_Some h x n) by done. mon. by apply chain_head in Hc as ->.
Qed.

Lemma find_link_from stop fuel h p l0 l1 l2 :
  chain h p (l0 ++ l1 ++ l2) ->
  (forall x, x ∈ l1 -> stop x = Ok false) ->
  (forall x, head l2 = Some x -> stop x = Ok true) ->
  (length l1 < fuel)%nat ->
  find_link stop fuel h p (link_after l0) = Ok (link_after (l0 ++ l1)).
Proof.
  revert fuel l0; induction l1 as [|q l1 IH]; intros fuel l0 Hc Hno Hyes Hf;
    (destruct fuel as [|fuel]; [cbn in *; lia|]); cbn.
  - rewrite (load_link_after _ _ l0 l2) by done. cbn. rewrite app_nil_r.
    destruct l2 as [|x l2]; [done|].
    pose proof (chain_elem _ _ _ x Hc ltac:(set_solver)) as [Hx _].
    cbn. apply Z.eqb_neq in Hx. rewrite Hx, Hyes; done.
  - rewrite (load_link_after _ _ l0 (q :: l1 ++ l2)) by done. cbn.
    pose proof (chain_elem _ _ _ q Hc ltac:(set_solver)) as [Hx _].
    apply Z.eqb_neq in Hx. rewrite Hx, Hno by set_solver. cbn.
    replace (LNext q) with (link_after (l0 ++ [q])) by (unfold link_after; by rewrite last_snoc).
    rewrite (IH fuel (l0 ++ [q])); [by rewrite <- app_assoc| |set_solver|done|cbn in Hf; lia].
    by rewrite <- app_assoc.
Qed.

(** The walk of a chain [l1 ++ l2] whose test fails on [l1] and succeeds on
    the first node of [l2] stops on the link to [l2]. *)
Lemma find_link_spec stop h p l1 l2 :
  chain h p (l1 ++ l2) ->
  (forall x, x ∈ l1 -> stop x = Ok false) ->
  (forall x, head l2 = Some x -> stop x = Ok true) ->
  find_link stop (walk_fuel h) h p LHead = Ok (link_after l1).
Proof.
  intros Hc Hno Hyes.
  apply (find_link_from stop _ h p [] l1 l2); [done..|].
  apply chain_length in Hc. rewrite length_app in Hc. lia.
Qed.

End walks.

Section updates.
Context {N : Type} {next : N -> Z} {set_next : Z -> N -> N}.
Hypothesis next_set : forall v n, next (set_next v n) = v.
Implicit Types (h : gmap Z N) (l : list Z).
Local Abbreviation chain := (chain next).
Local Abbreviation store_link := (store_link set_next).

(** Unlinking: [*pnode = q->next] on the link to [q]. *)
Lemma store_link_unlink h p l1 q l2 n :
  chain h p (l1 ++ q :: l2) -> h !! q = Some n ->
  exists h' p', store_link h p (link_after l1) (next n) = Ok (h', p') /\
    chain h' p' (l1 ++ l2) /\ h' !! q = h !! q /\
    (forall A (f : N -> A), (forall v m, f (set_next v m) = f m) -> f <$> h' = f <$> h).
Proof.
  intros Hc Hn. pose proof (chain_NoDup _ _ _ Hc) as Hnd.
  destruct l1 as [|x l1 _] using rev_ind.
  - exists h, (next n). split_and!; try done.
    destruct Hc as (-> & _ & n' & Hn' & Hc). by simplify_eq.
  - rewrite <- app_assoc in *. cbn in *.
    pose proof Hc as (m & Hm & Hx & Hc')%chain_suffix.
    destruct Hc' as (Hmq & Hq & n' & Hn' & Hc'). assert (n' = n) as -> by congruence.
    unfold link_after. rewrite last_snoc. cbn. rewrite (deref_Some h x m) by done. mon.
    apply NoDup_app in Hnd as (Hnd1 & Hdis & Hnd2).
    apply NoDup_cons in Hnd2 as [Hx2 Hnd2]. apply NoDup_cons in Hnd2 as [Hq2 Hnd2].
    eexists _, _. split; [done|]. split_and!.
    + assert (Hpre : forall r, chain h r (l1 ++ x :: q :: l2) ->
                chain (<[x:=set_next (next n) m]> h) r (l1 ++ x :: l2)); [|by apply Hpre].
      clear Hc Hnd1. induction l1 as [|y l1 IH]; intros r; cbn.
      * intros (-> & _ & m' & Hm' & _). split; [done|]. split; [done|].
        rewrite lookup_insert_eq. eexists. split; [done|]. rewrite next_set.
        eapply chain_frame; [|exact Hc'].
        intros z Hz. rewrite lookup_insert_ne; [done|]. set_solver.
      * intros (-> & Hy & m' & Hm' & Hr). split; [done|]. split; [done|].
        assert (x <> y) by set_solver.
        rewrite lookup_insert_ne by done. eexists. split; [done|].
        apply IH; [set_solver|done].
    + rewrite lookup_insert_ne; [done|]. set_solver.
    + intros A f Hf. rewrite fmap_insert, Hf. apply insert_id. by rewrite lookup_fmap, Hm.
Qed.

(** Unlinking and clearing: [*pnode = q->next; q->next = NULL]. *)
Lemma unlink_clear h p l1 q l2 n :
  chain h p (l1 ++ q :: l2) -> h !! q = Some n ->
  exists h' p', store_link h p (link_after l1) (next n) = Ok (h', p') /\
    h' !! q = Some n /\
    chain (<[q := set_next 0 n]> h') p' (l1 ++ l2) /\
    (forall A (f : N -> A), (forall v m, f (set_next v m) = f m) ->
       f <$> <[q := set_next 0 n]> h' = f <$> h).
Proof.
  intros Hc Hn. pose proof (chain_NoDup _ _ _ Hc) as Hnd.
  destruct (store_link_unlink _ _ _ _ _ _ Hc Hn) as (h' & p' & E & Hc' & Eq & Hf).
  rewrite Hn in Eq. eexists _, _. split; [exact E|]. split_and!; [done| |].
  - eapply chain_frame; [|exact Hc']. intros x Hx. rewrite lookup_insert_ne; [done|].
    intros ->. apply NoDup_app in Hnd as (_ & Hdis & Hnd). apply NoDup_cons in Hnd. set_solver.
  - intros A f Hif. rewrite fmap_insert, Hif, (Hf A f Hif).
    apply insert_id. by rewrite lookup_fmap, Hn.
Qed.

(** Pushing [q] on the front: [q->next = head; head = q]. *)
Lemma chain_push h p l q n :
  chain h p l -> q ∉ l -> q <> 0 -> chain (<[q := set_next p n]> h) q (q :: l).
Proof.
  intros Hc Hq Hq0. cbn. split; [done|]. split; [done|].
  rewrite lookup_insert_eq. eexists. split; [done|]. rewrite next_set.
  eapply chain_frame; [|exact Hc]. intros x Hx. rewrite lookup_insert_ne; [done|]. set_solver.
Qed.
End updates.

(** A store changes no node outside of the part of the chain walked over. *)
Lemma store_link_frame {N : Type} (set_next : Z -> N -> N) (h h' : gmap Z N) p p' l1 v x :
  store_link set_next h p (link_after l1) v = Ok (h', p') -> x ∉ l1 -> h' !! x = h !! x.
Proof.
  destruct l1 as [|y l1 _] using rev_ind.
  - cbn. intros [= <- <-]. done.
  - unfold link_after. rewrite last_snoc. cbn. intros E Hx. inv_res.
    apply lookup_insert_ne. set_solver.
Qed.

(** Storing a link does not touch a node that does not hold the link. *)
Lemma store_link_comm {N : Type} (set_next : Z -> N -> N) (h : gmap Z N) p l1 v q n h' p' :
  store_link set_next h p (link_after l1) v = Ok (h', p') -> q ∉ l1 ->
  store_link set_next (<[q := n]> h) p (link_after l1) v = Ok (<[q := n]> h', p').
Proof.
  destruct l1 as [|y l1 _] using rev_ind.
  - cbn. by intros [= <- <-].
  - intros E Hq. assert (q <> y) by set_solver. revert E. unfold link_after. rewrite last_snoc. cbn.
    unfold deref. destruct (y =? 0); [done|]. rewrite lookup_insert_ne by done. destruct (h !! y); [|done]. cbn.
    intros [= <- <-]. by rewrite insert_insert_ne.
Qed.

Section inserts.
Context {N : Type} {next : N -> Z} {set_next : Z -> N -> N}.
Hypothesis next_set : forall v n, next (set_next v n) = v.
Local Abbreviation chain := (chain next).
Local Abbreviation store_link := (store_link set_next).

(** Redirecting the link that leaves [x]. *)
Lemma chain_redirect h p l1 x l2 m v l2' :
  chain h p (l1 ++ x :: l2) -> h !! x = Some m ->
  chain (<[x := set_next v m]> h) v l2' -> chain (<[x := set_next v m]> h) p (l1 ++ x :: l2').
Proof.
  intros Hc Hm Hv. pose proof (chain_NoDup _ _ _ Hc) as Hnd. revert p Hc Hnd.
  induction l1 as [|y l1 IH]; intros p; cbn; rewrite NoDup_cons.
  - intros (-> & Hx & _) _. split; [done|]. split; [done|]. rewrite lookup_insert_eq.
    eexists. split; [done|]. by rewrite next_set.
  - intros (-> & Hy & n & Hn & Hc) [Hny Hnd]. split; [done|]. split; [done|]. exists n.
    rewrite lookup_insert_ne by set_solver. split; [done|]. by apply IH.
Qed.

(** Linking [q] between [l1] and [l2]: [q->next = *pnode; *pnode = q]. *)
Lemma store_link_insert h p l1 l2 q n :
  chain h p (l1 ++ l2) -> q ∉ l1 ++ l2 -> q <> 0 -> next n = default 0 (head l2) ->
  exists h' p', store_link (<[q := n]> h) p (link_after l1) q = Ok (h', p') /\
    chain h' p' (l1 ++ q :: l2) /\
    (forall A (f : N -> A), (forall v m, f (set_next v m) = f m) -> f <$> h' = f <$> <[q := n]> h).
Proof.
  intros Hc Hq Hq0 En.
  assert (Hc1 : chain (<[q := n]> h) p (l1 ++ l2)).
  { eapply chain_frame; [|exact Hc]. intros x Hx. rewrite lookup_insert_ne; [done|]. set_solver. }
  assert (Hc2 : forall h', (forall x, x ∈ q :: l2 -> next <$> h' !! x = next <$> <[q := n]> h !! x) ->
    (exists p, chain (<[q := n]> h) p l2) -> chain h' q (q :: l2)).
  { intros h' Hf [p2 H2]. apply chain_frame with (h := <[q := n]> h); [done|].
    split; [done|]. split; [done|]. exists n. split; [apply lookup_insert_eq|].
    rewrite En. by rewrite (chain_head _ _ _ H2) in H2. }
  destruct l1 as [|x l1 _] using rev_ind.
  - eexists _, _. split; [done|]. split; [|done]. apply (Hc2 (<[q := n]> h)); [done|by exists p].
  - rewrite <- app_assoc in *. cbn [app] in *.
    destruct (chain_suffix _ _ _ _ _ Hc1) as (m & Hm & Hx & Hr).
    pose proof (chain_NoDup _ _ _ Hc1) as Hnd. apply NoDup_app in Hnd as (_ & _ & Hnd).
    apply NoDup_cons in Hnd as [Hx2 Hnd].
    unfold link_after. rewrite last_snoc. cbn. rewrite (deref_Some _ _ m) by done. mon.
    eexists _, _. split; [done|]. split.
    + eapply chain_redirect; [exact Hc1|done|]. apply Hc2; [|by eexists].
      intros y Hy. rewrite (lookup_insert_ne _ x); [done|]. set_solver.
    + intros A f Hf. rewrite fmap_insert, Hf. apply insert_id. by rewrite lookup_fmap, Hm.
Qed.
End inserts.

(** ** Chains sorted by a key *)

Section sorted.
Context (key : Z -> Z).

Definition key_sorted : list Z -> Prop := StronglySorted (fun a b => key a <= key b).

(** Where an element of key [k] goes in a sorted list: after those of a key at
    most [k]. *)
Lemma key_sorted_split l k :
  key_sorted l -> exists l1 l2, l = l1 ++ l2 /\
    (forall x, x ∈ l1 -> key x <= k) /\ (forall x, x ∈ l2 -> k < key x).
Proof.
  induction 1 as [|a l Hs IH Ha].
  - exists [], []. set_solver.
  - destruct (decide (key a <= k)) as [Hk|Hk].
    + destruct IH as (l1 & l2 & -> & H1 & H2). exists (a :: l1), l2. set_solver.
    + exists [], (a :: l). split; [done|]. split; [set_solver|]. rewrite List.Forall_forall in Ha.
      intros x [->|Hx%list_elem_of_In%Ha]%elem_of_cons; lia.
Qed.

Lemma key_sorted_app l1 l2 :
  key_sorted (l1 ++ l2) <->
  key_sorted l1 /\ key_sorted l2 /\ (forall x y, x ∈ l1 -> y ∈ l2 -> key x <= key y).
Proof.
  unfold key_sorted. induction l1 as [|a l1 IH]; cbn.
  - split; [|tauto]. split; [constructor|]. set_solver.
  - split.
    + intros Hs. apply StronglySorted_inv in Hs as [Hs Ha]. apply IH in Hs as (H1 & H2 & H3).
      apply Forall_app in Ha as [Ha1 Ha2]. split; [by constructor|]. split; [done|].
      rewrite Forall_forall in Ha2. intros x y [->|Hx]%elem_of_cons Hy; auto.
    + intros (H1 & H2 & H3). apply StronglySorted_inv in H1 as [H1 Ha].
      constructor; [apply IH; set_solver|]. apply Forall_app. split; [done|].
      apply Forall_forall. intros. apply H3; set_solver.
Qed.

Lemma key_sorted_insert l1 l2 q :
  key_sorted (l1 ++ l2) -> (forall x, x ∈ l1 -> key x <= key q) -> (forall x, x ∈ l2 -> key q <= key x) ->
  key_sorted (l1 ++ q :: l2).
Proof.
  rewrite !key_sorted_app. intros (H1 & H2 & H3) Hl Hr. split; [done|]. split.
  - constructor; [done|]. by apply Forall_forall.
  - intros x y Hx [->|Hy]%elem_of_cons; auto.
Qed.

Lemma key_sorted_filter P `{forall x, Decision (P x)} l : key_sorted l -> key_sorted (filter P l).
Proof.
  induction 1 as [|a l Hs IH Ha]; [constructor|]. rewrite filter_cons. case_decide; [|done].
  constructor; [done|]. rewrite Forall_forall in *. intros x. rewrite list_elem_of_filter. naive_solver.
Qed.
End sorted.

Lemma key_sorted_ext (k k' : Z -> Z) l :
  (forall x, x ∈ l -> k x = k' x) -> key_sorted k l -> key_sorted k' l.
Proof.
  intros E. induction 1 as [|a l Hs IH Ha]; constructor.
  - apply IH. set_solver.
  - rewrite Forall_forall in *. intros x Hx. rewrite <- !E by set_solver. auto.
Qed.
