(* ===== verification/PipeDevice.v ===== *)
(** * The QEMU pipe device ([hw/android/pipe.c], [include/hw/android/pipe.h])

    The memory-mapped device through which a guest talks to the services of
    the emulator.  The guest opens channels, writes and reads buffers and asks
    to be woken; the services wake and close pipes.  This file holds the data
    and the operations; [PipeDeviceProofs] has the theorems. *)

From S2P Require Import Prelude IntrusiveList.

(** ** Constants of [pipe.h] *)

Definition PIPE_REG_COMMAND := 0x00.
Definition PIPE_REG_STATUS := 0x04.
Definition PIPE_REG_CHANNEL := 0x08.
Definition PIPE_REG_SIZE := 0x0c.
Definition PIPE_REG_ADDRESS := 0x10.
Definition PIPE_REG_WAKES := 0x14.
Definition PIPE_REG_PARAMS_ADDR_LOW := 0x18.
Definition PIPE_REG_PARAMS_ADDR_HIGH := 0x1c.
Definition PIPE_REG_ACCESS_PARAMS := 0x20.
Definition PIPE_REG_VERSION := 0x24.
Definition PIPE_REG_CHANNEL_HIGH := 0x30.
Definition PIPE_REG_ADDRESS_HIGH := 0x34.

Definition PIPE_CMD_OPEN := 1.
Definition PIPE_CMD_CLOSE := 2.
Definition PIPE_CMD_POLL := 3.
Definition PIPE_CMD_WRITE_BUFFER := 4.
Definition PIPE_CMD_WAKE_ON_WRITE := 5.
Definition PIPE_CMD_READ_BUFFER := 6.
Definition PIPE_CMD_WAKE_ON_READ := 7.

Definition PIPE_POLL_IN := 1.
Definition PIPE_POLL_OUT := 2.
Definition PIPE_POLL_HUP := 4.

Definition PIPE_ERROR_INVAL := -1.
Definition PIPE_ERROR_AGAIN := -2.
Definition PIPE_ERROR_NOMEM := -3.
Definition PIPE_ERROR_IO := -4.

Definition PIPE_WAKE_CLOSED := 1.
Definition PIPE_WAKE_READ := 2.
Definition PIPE_WAKE_WRITE := 4.

Definition MAX_PIPE_SERVICE_NAME_SIZE := 255.
Definition MAX_PIPE_SERVICES : nat := 8.

(** Size of [PipeConnector.buffer]. *)
Definition CONNECTOR_SIZE := 128.

(** [static inline void uint64_set_low / uint64_set_high] *)
Definition uint64_set_low (addr value : Z) : Z :=
  Z.lor (Z.land addr 0xFFFFFFFF00000000) (u32 value).
Definition uint64_set_high (addr value : Z) : Z :=
  Z.lor (Z.land addr 0xFFFFFFFF) (Z.shiftl (u32 value) 32).

Definition qemu_guest_is_64bit : Z := 0.

(** ** Data *)

(** The table of callbacks of a service, [GoldfishPipeFuncs], over the state
    [W] of the services.  The first argument of a callback is the opaque
    pointer the service returned from [init]; a buffer list stands for the
    [GoldfishPipeBuffer] array.  [recvBuffers] returns, besides its result, the
    bytes it stored at the start of each buffer.  [save] and [load] are null in
    every service of the emulator and never called. *)
Record GoldfishPipeFuncs (W : Type) : Type := mkFuncs {
  f_init : Z -> Z -> option (list Z) -> W -> res (Z * W);
  f_close : option (Z -> W -> res W);
  f_sendBuffers : Z -> list (list Z) -> W -> res (Z * W);
  f_recvBuffers : Z -> list Z -> W -> res (Z * list (list Z) * W);
  f_poll : Z -> W -> res (Z * W);
  f_wakeOn : Z -> Z -> W -> res W
}.
Arguments mkFuncs {W}.
Arguments f_init {W}.
Arguments f_close {W}.
Arguments f_sendBuffers {W}.
Arguments f_recvBuffers {W}.
Arguments f_poll {W}.
Arguments f_wakeOn {W}.

Record PipeService (W : Type) : Type := mkService {
  svc_name : list Z;
  svc_opaque : Z;
  svc_funcs : GoldfishPipeFuncs W
}.
Arguments mkService {W}.
Arguments svc_name {W}.
Arguments svc_opaque {W}.
Arguments svc_funcs {W}.

(** [const GoldfishPipeFuncs* funcs] of a pipe: the table of the connector, or
    the one of the [i]-th registered service. *)
Inductive funcs_ptr : Type := FuncsNull | FuncsConnector | FuncsService (i : nat).

#[global] Instance funcs_ptr_eq_dec : EqDecision funcs_ptr.
Proof. solve_decision. Defined.

(** [struct Pipe]; there is one device, so [device] is left out. *)
Record Pipe : Type := mkPipe {
  pipe_next : Z;
  pipe_next_waked : Z;
  pipe_channel : Z;
  pipe_opaque : Z;
  pipe_funcs : funcs_ptr;
  pipe_service : option nat;
  pipe_args : option (list Z);
  pipe_wanted : Z;
  pipe_closed : bool
}.

Definition set_next (v : Z) (p : Pipe) : Pipe := {| p with pipe_next := v |}.
Definition set_next_waked (v : Z) (p : Pipe) : Pipe := {| p with pipe_next_waked := v |}.

(** [struct PipeConnector] *)
Record PipeConnector : Type := mkConnector {
  pcon_pipe : Z;
  pcon_buffer : list Z;
  pcon_buffpos : Z
}.

(** [struct PipeDevice]; [irq] is the level of the interrupt line. *)
Record PipeDevice : Type := mkDevice {
  pipes : Z;
  signaled_pipes : Z;
  dev_address : Z;
  dev_size : Z;
  dev_status : Z;
  dev_channel : Z;
  dev_wakes : Z;
  dev_params_addr : Z;
  dev_irq : bool
}.

(** The emulator as the device sees it: the device, the live [Pipe] and
    [PipeConnector] objects, the next address the allocator gives out, the
    registered services, the guest RAM and the state of the services. *)
Record machine (W : Type) : Type := mkMachine {
  dev : PipeDevice;
  pheap : gmap Z Pipe;
  cheap : gmap Z PipeConnector;
  brk : Z;
  svcs : list (PipeService W);
  ram : gmap Z Z;
  world : W
}.
Arguments mkMachine {W}.
Arguments dev {W}.
Arguments pheap {W}.
Arguments cheap {W}.
Arguments brk {W}.
Arguments svcs {W}.
Arguments ram {W}.
Arguments world {W}.

(** [struct access_params] and [struct access_params_64] as they lie in guest
    memory, little endian: the offsets follow the C layout (the second struct
    has four bytes of padding after [size] and at its end). *)
Record access_params : Type := mkParams {
  aps_channel : Z;
  aps_size : Z;
  aps_address : Z;
  aps_cmd : Z;
  aps_result : Z;
  aps_flags : Z
}.

Definition field (bs : list Z) (off n : nat) : Z := of_le (take n (drop off bs)).

Definition decode_params (bs : list Z) : access_params :=
  mkParams (field bs 0 4) (field bs 4 4) (field bs 8 4) (field bs 12 4)
           (field bs 16 4) (field bs 20 4).

Definition encode_params (a : access_params) : list Z :=
  le_bytes 4 (aps_channel a) ++ le_bytes 4 (aps_size a) ++ le_bytes 4 (aps_address a) ++
  le_bytes 4 (aps_cmd a) ++ le_bytes 4 (aps_result a) ++ le_bytes 4 (aps_flags a).

Definition decode_params_64 (bs : list Z) : access_params :=
  mkParams (field bs 0 8) (field bs 8 4) (field bs 16 8) (field bs 24 4)
           (field bs 28 4) (field bs 32 4).

Definition sizeof_params : nat := 24.
Definition sizeof_params_64 : nat := 40.

(** Offset of [result] in the two structs. *)
Definition result_off : nat := 16.
Definition result_off_64 : nat := 28.

(** ** Operations *)

Section operations.
Context {W : Type}.
(** [phys a]: where the byte of guest physical address [a] lies in host
    memory, what [address_space_translate] with [memory_region_get_ram_addr]
    and [qemu_get_ram_ptr] compute. *)
Context (phys : Z -> Z).
Implicit Types (m : machine W) (p : Z).

(** [void qemu_pipe_add_type(pipeName, pipeOpaque, pipeFuncs)] *)
Definition qemu_pipe_add_type (pipeName : list Z) (pipeOpaque : Z)
    (pipeFuncs : GoldfishPipeFuncs W) (l : list (PipeService W)) : list (PipeService W) :=
  if (MAX_PIPE_SERVICES <=? length l)%nat then l
  else if Z.of_nat (length pipeName) >? MAX_PIPE_SERVICE_NAME_SIZE then l
  else l ++ [mkService pipeName pipeOpaque pipeFuncs].

(** [const PipeService* qemu_pipe_find_type(pipeName)]: the index of the
    service, [None] for the null pointer. *)
Fixpoint qemu_pipe_find_type (pipeName : list Z) (l : list (PipeService W)) : option nat :=
  match l with
  | [] => None
  | s :: l' =>
      if list_eqb (svc_name s) pipeName then Some 0%nat
      else S <$> qemu_pipe_find_type pipeName l'
  end.

(** [p->field = ...] *)
Definition mod_pipe (p : Z) (f : Pipe -> Pipe) (m : machine W) : res (machine W) :=
  n ← deref (pheap m) p;
  Ok {| m with pheap := <[p := f n]> (pheap m) |}.

Definition set_dev (f : PipeDevice -> PipeDevice) (m : machine W) : machine W :=
  {| m with dev := f (dev m) |}.

(** [dev->status = v], a [uint32_t] *)
Definition set_status (v : Z) (m : machine W) : machine W :=
  set_dev (fun d => {| d with dev_status := u32 v |}) m.

(** [qemu_set_irq(dev->irq, level)] *)
Definition qemu_set_irq (level : bool) (m : machine W) : machine W :=
  set_dev (fun d => {| d with dev_irq := level |}) m.

(** [Pipe* pipe_new0(dev)] *)
Definition pipe_new0 (m : machine W) : Z * machine W :=
  (brk m, {| m with pheap := <[brk m := mkPipe 0 0 0 0 FuncsNull None None 0 false]> (pheap m);
                    brk := brk m + 1 |}).

(** [void* pipeConnector_new(pipe)] *)
Definition pipeConnector_new (pipe : Z) (m : machine W) : res (Z * machine W) :=
  let pcon := brk m in
  let m1 := {| m with cheap := <[pcon := mkConnector pipe (replicate 128 0) 0]> (cheap m);
                      brk := brk m + 1 |} in
  m2 ← mod_pipe pipe (fun n => {| n with pipe_funcs := FuncsConnector |}) m1;
  Ok (pcon, m2).

(** [Pipe* pipe_new(channel, dev)] *)
Definition pipe_new (chan : Z) (m : machine W) : res (Z * machine W) :=
  let '(pipe, m1) := pipe_new0 m in
  m2 ← mod_pipe pipe (fun n => {| n with pipe_channel := chan |}) m1;
  '(pcon, m3) ← pipeConnector_new pipe m2;
  m4 ← mod_pipe pipe (fun n => {| n with pipe_opaque := pcon |}) m3;
  Ok (pipe, m4).

(** [Pipe** pipe_list_findp_channel(list, channel)] on [&dev->pipes] *)
Definition pipe_list_findp_channel (chan : Z) (m : machine W) : res link :=
  find_link pipe_next (fun p => n ← deref (pheap m) p; Ok (pipe_channel n =? chan))
    (walk_fuel (pheap m)) (pheap m) (pipes (dev m)) LHead.

(** [Pipe** pipe_list_findp_waked(list, pipe)] on [&dev->signaled_pipes] *)
Definition pipe_list_findp_waked (pipe : Z) (m : machine W) : res link :=
  find_link pipe_next_waked (fun p => Ok (p =? pipe))
    (walk_fuel (pheap m)) (pheap m) (signaled_pipes (dev m)) LHead.

(** [void pipe_list_remove_waked(list, pipe)] on [&dev->signaled_pipes] *)
Definition pipe_list_remove_waked (pipe : Z) (m : machine W) : res (machine W) :=
  lookup ← pipe_list_findp_waked pipe m;
  node ← load_link pipe_next_waked (pheap m) (signaled_pipes (dev m)) lookup;
  if node =? 0 then Ok m
  else
    n ← deref (pheap m) node;
    '(h, head) ← store_link set_next_waked (pheap m) (signaled_pipes (dev m)) lookup
                   (pipe_next_waked n);
    mod_pipe node (set_next_waked 0)
      (set_dev (fun d => {| d with signaled_pipes := head |}) {| m with pheap := h |}).

(** [g_free(p)] *)
Definition free_obj {A} (h : gmap Z A) (p : Z) : res (gmap Z A) :=
  if p =? 0 then Ok h
  else match h !! p with Some _ => Ok (delete p h) | None => Fault BadPointer end.

Definition get_service (i : nat) (m : machine W) : res (PipeService W) :=
  of_opt OutOfBounds (svcs m !! i).

(** [void pipeConnector_close(opaque)] *)
Definition pipeConnector_close (opaque : Z) (m : machine W) : res (machine W) :=
  h ← free_obj (cheap m) opaque;
  Ok {| m with cheap := h |}.

(** [if (pipe->funcs->close) pipe->funcs->close(pipe->opaque)] *)
Definition call_close (n : Pipe) (m : machine W) : res (machine W) :=
  match pipe_funcs n with
  | FuncsNull => Fault NullDeref
  | FuncsConnector => pipeConnector_close (pipe_opaque n) m
  | FuncsService i =>
      s ← get_service i m;
      match f_close (svc_funcs s) with
      | None => Ok m
      | Some f => w ← f (pipe_opaque n) (world m); Ok {| m with world := w |}
      end
  end.

(** [void pipe_free(pipe)] *)
Definition pipe_free (pipe : Z) (m : machine W) : res (machine W) :=
  n ← deref (pheap m) pipe;
  m1 ← call_close n m;
  h ← free_obj (pheap m1) pipe;
  Ok {| m1 with pheap := h |}.

(** [void qemu_pipe_wake(hwpipe, flags)] *)
Definition qemu_pipe_wake (hwpipe flags : Z) (m : machine W) : res (machine W) :=
  n ← deref (pheap m) hwpipe;
  lookup ← pipe_list_findp_waked hwpipe m;
  node ← load_link pipe_next_waked (pheap m) (signaled_pipes (dev m)) lookup;
  m1 ← (if node =? 0 then
          m' ← mod_pipe hwpipe (set_next_waked (signaled_pipes (dev m))) m;
          Ok (set_dev (fun d => {| d with signaled_pipes := hwpipe |}) m')
        else Ok m);
  m2 ← mod_pipe hwpipe (fun n => {| n with pipe_wanted := u8 (Z.lor (pipe_wanted n) flags) |}) m1;
  Ok (qemu_set_irq true m2).

(** [void qemu_pipe_close(hwpipe)] *)
Definition qemu_pipe_close (hwpipe : Z) (m : machine W) : res (machine W) :=
  n ← deref (pheap m) hwpipe;
  if pipe_closed n then Ok m
  else
    m1 ← mod_pipe hwpipe (fun n => {| n with pipe_closed := true |}) m;
    qemu_pipe_wake hwpipe PIPE_WAKE_CLOSED m1.

(** The copy loop of [pipeConnector_sendBuffers]: fills the connector's
    buffer and counts the bytes taken. *)
Fixpoint connector_fill (bufs : list (list Z)) (pcon : PipeConnector) (ret : Z)
    : PipeConnector * Z :=
  match bufs with
  | [] => (pcon, ret)
  | b :: bufs' =>
      let bsize := Z.of_nat (length b) in
      if bsize =? 0 then connector_fill bufs' pcon ret
      else
        let avail := CONNECTOR_SIZE - pcon_buffpos pcon in
        let avail := if u64 avail >? bsize then s32 bsize else avail in
        if avail >? 0 then
          connector_fill bufs'
            {| pcon with
               pcon_buffer := blit (pcon_buffer pcon) (Z.to_nat (pcon_buffpos pcon))
                                   (take (Z.to_nat avail) b);
               pcon_buffpos := pcon_buffpos pcon + avail |}
            (ret + avail)
        else connector_fill bufs' pcon ret
  end.

(** The bytes of ["pipe:"]. *)
Definition pipe_prefix : list Z := [112; 105; 112; 101; 58].

(** Splits a connection string at the first [':'] after ["pipe:"]: the new
    contents of the buffer (the [':'] becomes a zero), the service name and
    its arguments ([None] is the null pointer). *)
Definition connector_parse (buffer : list Z) : list Z * list Z * option (list Z) :=
  let pipeName := c_string (drop 5 buffer) in
  match memchr 58 pipeName with
  | Some k =>
      let buffer' := <[(5 + k)%nat := 0]> buffer in
      let args := c_string (drop (5 + k + 1) buffer') in
      (buffer', c_string (drop 5 buffer'), if decide (args = []) then None else Some args)
  | None => (buffer, pipeName, None)
  end.

(** The end of [pipeConnector_sendBuffers]: looks the service up, has it
    accept the connection and hands the pipe over to it. *)
Definition connector_connect (opaque pipe : Z) (pipeName : list Z) (pipeArgs : option (list Z))
    (ret : Z) (m : machine W) : res (Z * machine W) :=
  match qemu_pipe_find_type pipeName (svcs m) with
  | None => Ok (PIPE_ERROR_INVAL, m)
  | Some i =>
      svc ← get_service i m;
      '(peer, w) ← f_init (svc_funcs svc) pipe (svc_opaque svc) pipeArgs (world m);
      let m1 := {| m with world := w |} in
      if peer =? 0 then Ok (PIPE_ERROR_INVAL, m1)
      else
        m2 ← mod_pipe pipe (fun n => {| n with pipe_opaque := peer;
                                               pipe_service := Some i;
                                               pipe_funcs := FuncsService i;
                                               pipe_args := pipeArgs |}) m1;
        h ← free_obj (cheap m2) opaque;
        Ok (ret, {| m2 with cheap := h |})
  end.

(** [int pipeConnector_sendBuffers(opaque, buffers, numBuffers)] *)
Definition pipeConnector_sendBuffers (opaque : Z) (buffers : list (list Z)) (m : machine W)
    : res (Z * machine W) :=
  pcon0 ← deref (cheap m) opaque;
  let '(pcon, ret) := connector_fill buffers pcon0 0 in
  let m1 := {| m with cheap := <[opaque := pcon]> (cheap m) |} in
  match memchr 0 (take (Z.to_nat (pcon_buffpos pcon)) (pcon_buffer pcon)) with
  | None => Ok (ret, m1)
  | Some _ =>
      if negb (list_eqb (take 5 (pcon_buffer pcon)) pipe_prefix) then Ok (PIPE_ERROR_INVAL, m1)
      else
        let '(buffer', pipeName, pipeArgs) := connector_parse (pcon_buffer pcon) in
        let m2 := {| m1 with cheap := <[opaque := {| pcon with pcon_buffer := buffer' |}]>
                                        (cheap m1) |} in
        connector_connect opaque (pcon_pipe pcon) pipeName pipeArgs ret m2
  end.

(** [pipe->funcs->sendBuffers(pipe->opaque, buffers, n)] *)
Definition call_sendBuffers (n : Pipe) (buffers : list (list Z)) (m : machine W)
    : res (Z * machine W) :=
  match pipe_funcs n with
  | FuncsNull => Fault NullDeref
  | FuncsConnector => pipeConnector_sendBuffers (pipe_opaque n) buffers m
  | FuncsService i =>
      s ← get_service i m;
      '(r, w) ← f_sendBuffers (svc_funcs s) (pipe_opaque n) buffers (world m);
      Ok (r, {| m with world := w |})
  end.

(** [int pipeConnector_recvBuffers(opaque, buffers, numBuffers)] *)
Definition pipeConnector_recvBuffers (opaque : Z) (sizes : list Z) (m : machine W)
    : res (Z * list (list Z) * machine W) := Ok (PIPE_ERROR_IO, [], m).

(** [pipe->funcs->recvBuffers(pipe->opaque, buffers, n)] *)
Definition call_recvBuffers (n : Pipe) (sizes : list Z) (m : machine W)
    : res (Z * list (list Z) * machine W) :=
  match pipe_funcs n with
  | FuncsNull => Fault NullDeref
  | FuncsConnector => pipeConnector_recvBuffers (pipe_opaque n) sizes m
  | FuncsService i =>
      s ← get_service i m;
      '(r, data, w) ← f_recvBuffers (svc_funcs s) (pipe_opaque n) sizes (world m);
      Ok (r, data, {| m with world := w |})
  end.

(** [unsigned pipeConnector_poll(opaque)] *)
Definition pipeConnector_poll (opaque : Z) (m : machine W) : res (Z * machine W) :=
  Ok (PIPE_POLL_OUT, m).

(** [pipe->funcs->poll(pipe->opaque)] *)
Definition call_poll (n : Pipe) (m : machine W) : res (Z * machine W) :=
  match pipe_funcs n with
  | FuncsNull => Fault NullDeref
  | FuncsConnector => pipeConnector_poll (pipe_opaque n) m
  | FuncsService i =>
      s ← get_service i m;
      '(r, w) ← f_poll (svc_funcs s) (pipe_opaque n) (world m);
      Ok (r, {| m with world := w |})
  end.

(** [void pipeConnector_wakeOn(opaque, flags)] *)
Definition pipeConnector_wakeOn (opaque flags : Z) (m : machine W) : res (machine W) := Ok m.

(** [pipe->funcs->wakeOn(pipe->opaque, flags)] *)
Definition call_wakeOn (n : Pipe) (flags : Z) (m : machine W) : res (machine W) :=
  match pipe_funcs n with
  | FuncsNull => Fault NullDeref
  | FuncsConnector => pipeConnector_wakeOn (pipe_opaque n) flags m
  | FuncsService i =>
      s ← get_service i m;
      w ← f_wakeOn (svc_funcs s) (pipe_opaque n) flags (world m);
      Ok {| m with world := w |}
  end.

(** [case PIPE_CMD_OPEN] of [pipeDevice_doCommand] *)
Definition cmd_open (pipe : Z) (m : machine W) : res (machine W) :=
  if negb (pipe =? 0) then Ok (set_status PIPE_ERROR_INVAL m)
  else
    '(p, m1) ← pipe_new (dev_channel (dev m)) m;
    m2 ← mod_pipe p (set_next (pipes (dev m1))) m1;
    Ok (set_status 0 (set_dev (fun d => {| d with pipes := p |}) m2)).

(** [case PIPE_CMD_CLOSE] *)
Definition cmd_close (lookup : link) (pipe : Z) (m : machine W) : res (machine W) :=
  n ← deref (pheap m) pipe;
  '(h, head) ← store_link set_next (pheap m) (pipes (dev m)) lookup (pipe_next n);
  let m1 := set_dev (fun d => {| d with pipes := head |}) {| m with pheap := h |} in
  m2 ← mod_pipe pipe (set_next 0) m1;
  m3 ← pipe_list_remove_waked pipe m2;
  pipe_free pipe m3.

(** [case PIPE_CMD_POLL] *)
Definition cmd_poll (pipe : Z) (m : machine W) : res (machine W) :=
  n ← deref (pheap m) pipe;
  '(r, m1) ← call_poll n m;
  Ok (set_status r m1).

(** [case PIPE_CMD_READ_BUFFER]: the service fills the guest buffer of
    [dev->size] bytes at physical address [dev->address]. *)
Definition cmd_read_buffer (pipe : Z) (m : machine W) : res (machine W) :=
  n ← deref (pheap m) pipe;
  let data := phys (dev_address (dev m)) in
  '(r, written, m1) ← call_recvBuffers n [dev_size (dev m)] m;
  Ok (set_status r {| m1 with ram := write_mem (ram m1) data (default [] (head written)) |}).

(** [case PIPE_CMD_WRITE_BUFFER]: the service is given the guest buffer. *)
Definition cmd_write_buffer (pipe : Z) (m : machine W) : res (machine W) :=
  n ← deref (pheap m) pipe;
  let data := phys (dev_address (dev m)) in
  let buffer := read_mem (ram m) data (Z.to_nat (dev_size (dev m))) in
  '(r, m1) ← call_sendBuffers n [buffer] m;
  Ok (set_status r m1).

(** [case PIPE_CMD_WAKE_ON_READ] and [case PIPE_CMD_WAKE_ON_WRITE] *)
Definition cmd_wake_on (flag pipe : Z) (m : machine W) : res (machine W) :=
  n ← deref (pheap m) pipe;
  m1 ← (if flag_set (pipe_wanted n) flag then Ok m
        else
          m' ← mod_pipe pipe (fun n => {| n with pipe_wanted := u8 (Z.lor (pipe_wanted n) flag) |}) m;
          n' ← deref (pheap m') pipe;
          call_wakeOn n' (pipe_wanted n') m');
  Ok (set_status 0 m1).

(** The [switch (command)] of [pipeDevice_doCommand]. *)
Definition doCommand_switch (command : Z) (lookup : link) (pipe : Z) (m : machine W)
    : res (machine W) :=
  if command =? PIPE_CMD_OPEN then cmd_open pipe m
  else if command =? PIPE_CMD_CLOSE then cmd_close lookup pipe m
  else if command =? PIPE_CMD_POLL then cmd_poll pipe m
  else if command =? PIPE_CMD_READ_BUFFER then cmd_read_buffer pipe m
  else if command =? PIPE_CMD_WRITE_BUFFER then cmd_write_buffer pipe m
  else if command =? PIPE_CMD_WAKE_ON_READ then cmd_wake_on PIPE_WAKE_READ pipe m
  else if command =? PIPE_CMD_WAKE_ON_WRITE then cmd_wake_on PIPE_WAKE_WRITE pipe m
  else Ok m.

(** [void pipeDevice_doCommand(dev, command)] *)
Definition pipeDevice_doCommand (command : Z) (m : machine W) : res (machine W) :=
  lookup ← pipe_list_findp_channel (dev_channel (dev m)) m;
  pipe ← load_link pipe_next (pheap m) (pipes (dev m)) lookup;
  if negb (command =? PIPE_CMD_OPEN) && (pipe =? 0) then Ok (set_status PIPE_ERROR_INVAL m)
  else
    closed ← (if pipe =? 0 then Ok false else n ← deref (pheap m) pipe; Ok (pipe_closed n));
    if (closed : bool) && negb (command =? PIPE_CMD_CLOSE) then Ok (set_status PIPE_ERROR_IO m)
    else doCommand_switch command lookup pipe m.

(** [uint64_t pipe_dev_read(opaque, offset, size)] *)
Definition pipe_dev_read (offset : Z) (m : machine W) : res (Z * machine W) :=
  let d := dev m in
  if offset =? PIPE_REG_STATUS then Ok (dev_status d, m)
  else if offset =? PIPE_REG_CHANNEL then
    if signaled_pipes d =? 0 then Ok (0, m)
    else
      let pipe := signaled_pipes d in
      n ← deref (pheap m) pipe;
      let m1 := set_dev (fun d => {| d with dev_wakes := pipe_wanted n |}) m in
      m2 ← mod_pipe pipe (fun n => {| n with pipe_wanted := 0 |}) m1;
      let m3 := set_dev (fun d => {| d with signaled_pipes := pipe_next_waked n |}) m2 in
      m4 ← mod_pipe pipe (set_next_waked 0) m3;
      let m5 := if signaled_pipes (dev m4) =? 0 then qemu_set_irq false m4 else m4 in
      Ok (Z.land (pipe_channel n) 0xFFFFFFFF, m5)
  else if offset =? PIPE_REG_CHANNEL_HIGH then
    if signaled_pipes d =? 0 then Ok (0, m)
    else n ← deref (pheap m) (signaled_pipes d); Ok (Z.shiftr (pipe_channel n) 32, m)
  else if offset =? PIPE_REG_WAKES then Ok (dev_wakes d, m)
  else if offset =? PIPE_REG_PARAMS_ADDR_HIGH then Ok (Z.shiftr (dev_params_addr d) 32, m)
  else if offset =? PIPE_REG_PARAMS_ADDR_LOW then Ok (Z.land (dev_params_addr d) 0xFFFFFFFF, m)
  else if offset =? PIPE_REG_VERSION then Ok (1, m)
  else Ok (0, m).

(** [cpu_physical_memory_read / cpu_physical_memory_write]: byte by byte
    through the physical address map. *)
Definition cpu_physical_memory_read (m : machine W) (a : Z) (n : nat) : list Z :=
  (fun i => default 0 (ram m !! phys (a + Z.of_nat i))) <$> seq 0 n.
Definition cpu_physical_memory_write (a : Z) (bs : list Z) (m : machine W) : machine W :=
  {| m with ram := foldl (fun r ib => <[phys (a + Z.of_nat ib.1) := ib.2]> r) (ram m)
                         (zip (seq 0 (length bs)) bs) |}.

(** [case PIPE_REG_ACCESS_PARAMS] of [pipe_dev_write] *)
Definition access_params_write (m : machine W) : res (machine W) :=
  let pa := dev_params_addr (dev m) in
  if pa =? 0 then Ok m
  else
    let bs := cpu_physical_memory_read m pa
                (if qemu_guest_is_64bit =? 0 then sizeof_params else sizeof_params_64) in
    let aps := if qemu_guest_is_64bit =? 0 then decode_params bs else decode_params_64 bs in
    let m1 := set_dev (fun d => {| d with dev_channel := aps_channel aps;
                                          dev_size := aps_size aps;
                                          dev_address := aps_address aps |}) m in
    let cmd := aps_cmd aps in
    if negb (cmd =? PIPE_CMD_READ_BUFFER) && negb (cmd =? PIPE_CMD_WRITE_BUFFER) then Ok m1
    else
      m2 ← pipeDevice_doCommand cmd m1;
      let off := if qemu_guest_is_64bit =? 0 then result_off else result_off_64 in
      Ok (cpu_physical_memory_write pa (blit bs off (le_bytes 4 (dev_status (dev m2)))) m2).

(** [void pipe_dev_write(opaque, offset, value, size)] *)
Definition pipe_dev_write (offset value : Z) (m : machine W) : res (machine W) :=
  if offset =? PIPE_REG_COMMAND then pipeDevice_doCommand (u32 value) m
  else if offset =? PIPE_REG_SIZE then
    Ok (set_dev (fun d => {| d with dev_size := u32 value |}) m)
  else if offset =? PIPE_REG_ADDRESS then
    Ok (set_dev (fun d => {| d with dev_address := uint64_set_low (dev_address d) value |}) m)
  else if offset =? PIPE_REG_ADDRESS_HIGH then
    Ok (set_dev (fun d => {| d with dev_address := uint64_set_high (dev_address d) value |}) m)
  else if offset =? PIPE_REG_CHANNEL then
    Ok (set_dev (fun d => {| d with dev_channel := uint64_set_low (dev_channel d) value |}) m)
  else if offset =? PIPE_REG_CHANNEL_HIGH then
    Ok (set_dev (fun d => {| d with dev_channel := uint64_set_high (dev_channel d) value |}) m)
  else if offset =? PIPE_REG_PARAMS_ADDR_HIGH then
    Ok (set_dev (fun d => {| d with dev_params_addr :=
          Z.lor (Z.land (dev_params_addr d) 0xFFFFFFFF) (u64 (Z.shiftl value 32)) |}) m)
  else if offset =? PIPE_REG_PARAMS_ADDR_LOW then
    Ok (set_dev (fun d => {| d with dev_params_addr :=
          Z.lor (Z.land (dev_params_addr d) 0xFFFFFFFF00000000) value |}) m)
  else if offset =? PIPE_REG_ACCESS_PARAMS then access_params_write m
  else Ok m.

(** The state [qemu_pipe_initfn] leaves: a zeroed device, its interrupt line
    low, no pipe. *)
Definition qemu_pipe_initfn (services : list (PipeService W)) (r : gmap Z Z) (w : W)
    : machine W :=
  mkMachine (mkDevice 0 0 0 0 0 0 0 0 false) ∅ ∅ 1 services r w.
End operations.
