(* ===== verification/PipeDeviceProofs.v ===== *)
(** * Correctness of the QEMU pipe device

    The invariant of the device, its preservation by every operation, the
    absence of invalid memory accesses, and the behaviour of each command. *)

From S2P Require Import Prelude IntrusiveList PipeDevice.

(** An [int] answer of a callback: a negative error, or at most [total] bytes. *)
Definition answer (r total : Z) : Prop := - 2 ^ 31 <= r <= total.

(** ** What a service promises to the device

    [live w q]: in the state [w] of the services, [q] is the opaque pointer of
    an open connection; [inv w]: the services' own invariant.  The callbacks
    return on a live connection and leave the others live, [init] returns the
    null pointer or a connection that was not live before, [sendBuffers] and
    [recvBuffers] answer an error or a number of bytes within the buffers, and
    [recvBuffers] stores no more than the size of a buffer.  The device hands
    over one buffer at a time. *)
Class ServiceLaws {W : Type} (inv : W -> Prop) (live : W -> Z -> Prop)
    (F : GoldfishPipeFuncs W) : Prop := {
  law_init : forall hw op args w, inv w -> exists peer w',
    f_init F hw op args w = Ok (peer, w') /\ inv w' /\ (forall q, live w q -> live w' q) /\
    (peer <> 0 -> live w' peer /\ ~ live w peer);
  law_close : forall f q w, f_close F = Some f -> inv w -> live w q -> exists w',
    f q w = Ok w' /\ inv w' /\ (forall q', q' <> q -> live w q' -> live w' q');
  law_send : forall q bufs w, length bufs = 1%nat -> inv w -> live w q -> exists r w',
    f_sendBuffers F q bufs w = Ok (r, w') /\ inv w' /\ (forall q', live w q' -> live w' q') /\
    answer r (Z.of_nat (length (concat bufs)));
  law_recv : forall q sizes w, length sizes = 1%nat -> inv w -> live w q -> exists r data w',
    f_recvBuffers F q sizes w = Ok (r, data, w') /\ inv w' /\
    (forall q', live w q' -> live w' q') /\
    (forall i d, data !! i = Some d ->
       exists n, sizes !! i = Some n /\ Z.of_nat (length d) <= Z.max 0 n) /\
    (answer r 0 \/ r = Z.of_nat (length (concat data)));
  law_poll : forall q w, inv w -> live w q -> exists r w',
    f_poll F q w = Ok (r, w') /\ inv w' /\ (forall q', live w q' -> live w' q');
  law_wakeOn : forall q flags w, inv w -> live w q -> exists w',
    f_wakeOn F q flags w = Ok w' /\ inv w' /\ (forall q', live w q' -> live w' q')
}.

(** ** The invariant *)

(** A pipe without its two list links. *)
Definition info (n : Pipe) : Pipe := {| n with pipe_next := 0; pipe_next_waked := 0 |}.

(** [lists m lp ls]: the pipes of the device are [lp], most recent first, the
    signaled ones are [ls], and every live [Pipe] object is on the first list. *)
Definition chains {W} (m : machine W) (lp ls : list Z) : Prop :=
  chain pipe_next (pheap m) (pipes (dev m)) lp /\
  chain pipe_next_waked (pheap m) (signaled_pipes (dev m)) ls.
Definition lists {W} (m : machine W) (lp ls : list Z) : Prop :=
  chains m lp ls /\ (forall p, p ∈ lp <-> is_Some (pheap m !! p)).

Definition connector_ok (c : PipeConnector) : Prop :=
  0 <= pcon_buffpos c <= CONNECTOR_SIZE /\ length (pcon_buffer c) = 128%nat.

Section invariant.
Context {W : Type} (inv : W -> Prop) (live : W -> Z -> Prop).

Definition pipe_ok (C : gmap Z PipeConnector) (S : list (PipeService W)) (w : W)
    (p : Z) (n : Pipe) : Prop :=
  in_range 8 (pipe_wanted n) /\
  match pipe_funcs n with
  | FuncsNull => False
  | FuncsConnector => exists c, C !! pipe_opaque n = Some c /\ pcon_pipe c = p
  | FuncsService i => is_Some (S !! i) /\ live w (pipe_opaque n)
  end.

(** The part of the invariant that does not depend on the list links: [V]
    is the map of the pipes without them. *)
Record core_ok (V : gmap Z Pipe) (C : gmap Z PipeConnector) (b : Z)
    (S : list (PipeService W)) (w : W) : Prop := {
  ok_pipe : forall p n, V !! p = Some n -> pipe_ok C S w p n;
  ok_channel : forall p q n n', V !! p = Some n -> V !! q = Some n' ->
    pipe_channel n = pipe_channel n' -> p = q;
  ok_peer : forall p q n n' i j, V !! p = Some n -> V !! q = Some n' ->
    pipe_funcs n = FuncsService i -> pipe_funcs n' = FuncsService j ->
    pipe_opaque n = pipe_opaque n' -> p = q;
  ok_conn : forall c pc, C !! c = Some pc -> connector_ok pc /\ exists n,
    V !! pcon_pipe pc = Some n /\ pipe_funcs n = FuncsConnector /\ pipe_opaque n = c;
  ok_brk : 0 < b /\ (forall p, is_Some (V !! p) \/ is_Some (C !! p) -> 0 < p < b);
  ok_svcs : forall s, s ∈ S -> ServiceLaws inv live (svc_funcs s);
  ok_world : inv w
}.

Definition view (m : machine W) : gmap Z Pipe := info <$> pheap m.

Record wf (m : machine W) : Prop := {
  wf_lists : exists lp ls, lists m lp ls;
  wf_core : core_ok (view m) (cheap m) (brk m) (svcs m) (world m);
  wf_irq : signaled_pipes (dev m) <> 0 -> dev_irq (dev m) = true
}.
End invariant.

(** ** Effect of the operations on the lists *)

Section list_effects.
Context {W : Type}.
Implicit Types (m : machine W).

Lemma view_lookup m p : view m !! p = info <$> pheap m !! p.
Proof. apply lookup_fmap. Qed.

Lemma lists_elem m lp ls p : lists m lp ls -> p ∈ lp -> p <> 0 /\ is_Some (pheap m !! p).
Proof. intros ((Hc & _) & _) Hp. exact (chain_elem _ _ _ _ Hc Hp). Qed.

Lemma lists_sub m lp ls : lists m lp ls -> ls ⊆ lp.
Proof.
  intros ((_ & Hs) & Hd) p Hp. apply Hd. by destruct (chain_elem _ _ _ _ Hs Hp).
Qed.

Lemma lists_deref m lp ls p :
  lists m lp ls -> p ∈ lp -> exists n, pheap m !! p = Some n /\ deref (pheap m) p = Ok n.
Proof.
  intros Hl Hp. destruct (lists_elem _ _ _ _ Hl Hp) as [H0 [n Hn]].
  exists n. split; [done|]. by apply deref_Some.
Qed.

(** A change of the fields of one pipe that keeps its links. *)
Lemma lists_insert m lp ls p n f :
  lists m lp ls -> pheap m !! p = Some n ->
  pipe_next (f n) = pipe_next n -> pipe_next_waked (f n) = pipe_next_waked n ->
  lists {| m with pheap := <[p := f n]> (pheap m) |} lp ls.
Proof.
  intros ((Hp & Hs) & Hd) Hn E1 E2. unfold lists, chains. split_and!; cbn.
  - eapply chain_frame; [|exact Hp]. intros x _. rewrite lookup_insert.
    case_decide; subst; [|done]. rewrite Hn. cbn. by rewrite E1.
  - eapply chain_frame; [|exact Hs]. intros x _. rewrite lookup_insert.
    case_decide; subst; [|done]. rewrite Hn. cbn. by rewrite E2.
  - intros x. rewrite Hd, lookup_insert. case_decide; subst; [|done].
    rewrite Hn. naive_solver.
Qed.

Lemma mod_pipe_Ok p f m n :
  p <> 0 -> pheap m !! p = Some n ->
  mod_pipe p f m = Ok {| m with pheap := <[p := f n]> (pheap m) |}.
Proof. intros. unfold mod_pipe. by rewrite (deref_Some _ _ n). Qed.

(** What an operation on the lists leaves alone. *)
Definition frame m m' : Prop :=
  cheap m' = cheap m /\ brk m' = brk m /\ svcs m' = svcs m /\ ram m' = ram m /\
  world m' = world m.

Definition regs (d : PipeDevice) : list Z :=
  [dev_address d; dev_size d; dev_status d; dev_channel d; dev_wakes d; dev_params_addr d].

Lemma findp_waked_in m lp l1 p l2 :
  chains m lp (l1 ++ p :: l2) ->
  pipe_list_findp_waked p m = Ok (link_after l1) /\
  load_link pipe_next_waked (pheap m) (signaled_pipes (dev m)) (link_after l1) = Ok p.
Proof.
  intros (_ & Hs). pose proof (chain_NoDup _ _ _ Hs) as Hnd.
  apply NoDup_app in Hnd as (_ & Hdis & _). split.
  - eapply find_link_spec; [exact Hs| |].
    + intros x Hx. f_equal. apply Z.eqb_neq. set_solver.
    + cbn. intros x [= <-]. f_equal. apply Z.eqb_refl.
  - by rewrite (load_link_after _ _ _ _ Hs).
Qed.

Lemma findp_waked_notin m lp ls p :
  chains m lp ls -> p ∉ ls ->
  pipe_list_findp_waked p m = Ok (link_after ls) /\
  load_link pipe_next_waked (pheap m) (signaled_pipes (dev m)) (link_after ls) = Ok 0.
Proof.
  intros (_ & Hs) Hp. rewrite <- (app_nil_r ls) in Hs. split.
  - eapply find_link_spec; [exact Hs| |done].
    intros x Hx. f_equal. apply Z.eqb_neq. set_solver.
  - by rewrite (load_link_after _ _ _ _ Hs).
Qed.

Lemma info_view_insert m p n :
  info <$> <[p := n]> (pheap m) = <[p := info n]> (view m).
Proof. apply fmap_insert. Qed.

Lemma view_insert_id m p n n' :
  pheap m !! p = Some n -> info n' = info n -> <[p := info n']> (view m) = view m.
Proof. intros Hn ->. apply insert_id. rewrite view_lookup, Hn. done. Qed.

(** [qemu_pipe_wake] puts a live pipe on the signaled list unless it is
    there, adds the flags and raises the interrupt. *)
Lemma qemu_pipe_wake_spec m lp ls p n flags :
  lists m lp ls -> pheap m !! p = Some n ->
  exists m', qemu_pipe_wake p flags m = Ok m' /\
    lists m' lp (if decide (p ∈ ls) then ls else p :: ls) /\
    view m' = <[p := info {| n with pipe_wanted := u8 (Z.lor (pipe_wanted n) flags) |}]> (view m) /\
    frame m m' /\ regs (dev m') = regs (dev m) /\ dev_irq (dev m') = true.
Proof.
  intros Hl Hn. assert (Hp : p ∈ lp) by (apply Hl; eauto).
  destruct (lists_elem _ _ _ _ Hl Hp) as [Hp0 _].
  unfold qemu_pipe_wake. rewrite (deref_Some _ _ n) by done. mon.
  case_decide as Hin.
  - apply list_elem_of_split in Hin as (l1 & l2 & ->).
    destruct (findp_waked_in _ _ _ _ _ (proj1 Hl)) as [-> E]. mon. rewrite E. mon.
    rewrite (proj2 (Z.eqb_neq p 0)) by done. mon.
    rewrite (mod_pipe_Ok p _ m n) by done. mon.
    eexists. split; [done|]. split_and!; try done.
    + by apply (lists_insert m lp _ p n
        (fun n => {| n with pipe_wanted := u8 (Z.lor (pipe_wanted n) flags) |})).
    + apply info_view_insert.
  - destruct (findp_waked_notin _ _ _ _ (proj1 Hl) Hin) as [-> E]. mon. rewrite E. mon.
    rewrite Z.eqb_refl.
    rewrite (mod_pipe_Ok p _ m n) by done. mon.
    rewrite (mod_pipe_Ok p _ _ (set_next_waked (signaled_pipes (dev m)) n));
      [|done|cbn; by rewrite lookup_insert_eq]. mon. cbn. rewrite insert_insert_eq.
    eexists. split; [done|]. destruct Hl as ((Hc & Hs) & Hd).
    unfold lists, chains. split_and!; cbn; try done.
    + eapply chain_frame; [|exact Hc]. intros x _. rewrite lookup_insert.
      by case_decide; subst; rewrite ?Hn.
    + split; [done|]. split; [done|]. rewrite lookup_insert_eq. eexists. split; [done|]. cbn.
      eapply chain_frame; [|exact Hs]. intros x Hx. rewrite lookup_insert_ne; [done|]. set_solver.
    + intros x. rewrite Hd, lookup_insert. case_decide; subst; [|done]. rewrite Hn. naive_solver.
    + unfold view; cbn. by rewrite fmap_insert.
Qed.

Lemma remove_waked_spec m lp ls p :
  chains m lp ls ->
  exists m', pipe_list_remove_waked p m = Ok m' /\
    chains m' lp (filter (fun q => q <> p) ls) /\ view m' = view m /\
    frame m m' /\ regs (dev m') = regs (dev m) /\ dev_irq (dev m') = dev_irq (dev m).
Proof.
  intros Hl. unfold pipe_list_remove_waked.
  destruct (decide (p ∈ ls)) as [Hin|Hin].
  - apply list_elem_of_split in Hin as (l1 & l2 & ->).
    destruct (findp_waked_in _ _ _ _ _ Hl) as [-> E]. mon. rewrite E. mon.
    destruct Hl as (Hc & Hs).
    pose proof (chain_NoDup _ _ _ Hs) as Hnd.
    assert (Hp0 : p <> 0) by (eapply (chain_elem _ _ _ _ Hs); set_solver).
    rewrite (proj2 (Z.eqb_neq p 0)) by done.
    destruct (chain_elem _ _ _ p Hs ltac:(set_solver)) as [_ [n Hn]].
    rewrite (deref_Some _ _ n) by done. mon.
    destruct (unlink_clear (next := pipe_next_waked) (set_next := set_next_waked)
                ltac:(done) _ _ _ _ _ _ Hs Hn) as (h' & p' & E1 & Eq & Hs' & Hf).
    rewrite E1. mon. rewrite (mod_pipe_Ok p _ _ n) by done.
    eexists. split; [done|]. rewrite filter_ne_split by done. split_and!; cbn; try done.
    + split; cbn; [|done].
      eapply chain_frame; [|exact Hc]. intros x _. by apply fmap_eq_lookup, Hf.
    + by apply Hf.
  - destruct (findp_waked_notin _ _ _ _ Hl Hin) as [-> E]. mon. rewrite E. mon.
    rewrite Z.eqb_refl. eexists. split; [done|]. split_and!; try done.
    rewrite filter_id; [done|set_solver].
Qed.

(** The search of a channel finds the first pipe that has it. *)
Lemma findp_channel_cases m lp ls c :
  lists m lp ls ->
  (exists l1 p l2 n, lp = l1 ++ p :: l2 /\ pheap m !! p = Some n /\ pipe_channel n = c /\
     pipe_list_findp_channel c m = Ok (link_after l1) /\
     load_link pipe_next (pheap m) (pipes (dev m)) (link_after l1) = Ok p) \/
  ((forall p n, pheap m !! p = Some n -> pipe_channel n <> c) /\
     pipe_list_findp_channel c m = Ok (link_after lp) /\
     load_link pipe_next (pheap m) (pipes (dev m)) (link_after lp) = Ok 0).
Proof.
  intros ((Hc & Hs) & Hd).
  set (P := fun p => pipe_channel <$> pheap m !! p = Some c).
  assert (Hstop : forall x b, x ∈ lp -> (P x <-> b = true) ->
            (n ← deref (pheap m) x; Ok (pipe_channel n =? c)) = Ok b).
  { intros x b Hx HP. destruct (chain_elem _ _ _ _ Hc Hx) as [Hx0 [n Hn]].
    rewrite (deref_Some _ _ n) by done. mon. f_equal. apply eq_bool_prop_intro.
    unfold P in HP. rewrite Hn in HP. cbn in HP.
    rewrite !Is_true_true, Z.eqb_eq, <- HP. naive_solver. }
  destruct (list_find P lp) as [[i p]|] eqn:Hf.
  - apply list_find_Some in Hf as (Hi & HP & Hmin). left.
    rewrite <- (take_drop_middle lp i p Hi) in Hc.
    assert (Hp : p ∈ lp) by (apply list_elem_of_lookup; eauto).
    unfold P in HP. apply fmap_Some in HP as (n & Hn & ->).
    exists (take i lp), p, (drop (S i) lp), n.
    rewrite (take_drop_middle lp i p Hi). split_and!; try done.
    + eapply find_link_spec; [exact Hc| |].
      * intros x Hx. apply list_elem_of_lookup in Hx as [j Hj].
        apply lookup_take_Some in Hj as [Hj Hij].
        apply Hstop; [apply list_elem_of_lookup; eauto|].
        split; [|done]. intros HP. by destruct (Hmin j x Hj Hij).
      * cbn. intros x [= <-]. apply Hstop; [done|]. unfold P. by rewrite Hn.
    + by rewrite (load_link_after _ _ _ _ Hc).
  - apply list_find_None in Hf. right. rewrite Forall_forall in Hf.
    rewrite <- (app_nil_r lp) in Hc. split_and!.
    + intros p n Hn E. apply (Hf p); [apply Hd; eauto|]. unfold P. rewrite Hn. cbn. congruence.
    + eapply find_link_spec; [exact Hc| |done]. intros x Hx. apply Hstop; [done|].
      split; [|done]. intros HP. by destruct (Hf x Hx).
    + by rewrite (load_link_after _ _ _ _ Hc).
Qed.

(** A pipe is opened on the front of the list. *)
Lemma pipe_new_spec m chan :
  pheap m !! brk m = None -> 0 < brk m ->
  pipe_new chan m = Ok (brk m,
    {| m with pheap := <[brk m := mkPipe 0 0 chan (brk m + 1) FuncsConnector None None 0 false]>
                         (pheap m);
              cheap := <[brk m + 1 := mkConnector (brk m) (replicate 128 0) 0]> (cheap m);
              brk := brk m + 1 + 1 |}).
Proof.
  intros Hn Hb. unfold pipe_new, pipe_new0, pipeConnector_new.
  rewrite (mod_pipe_Ok (brk m) _ _ (mkPipe 0 0 0 0 FuncsNull None None 0 false));
    [|lia|cbn; by rewrite lookup_insert_eq]. mon. cbn. rewrite insert_insert_eq.
  rewrite (mod_pipe_Ok (brk m) _ _ (mkPipe 0 0 chan 0 FuncsNull None None 0 false));
    [|lia|cbn; by rewrite lookup_insert_eq]. mon. cbn. rewrite insert_insert_eq.
  rewrite (mod_pipe_Ok (brk m) _ _ (mkPipe 0 0 chan 0 FuncsConnector None None 0 false));
    [|lia|cbn; by rewrite lookup_insert_eq]. mon. cbn. by rewrite insert_insert_eq.
Qed.

Lemma view_is_Some m m' p : view m' = view m -> is_Some (pheap m' !! p) <-> is_Some (pheap m !! p).
Proof. apply fmap_eq_is_Some. Qed.

(** Deleting an object that is on neither list. *)
Lemma chains_delete m lp ls p :
  chains m lp ls -> p ∉ lp -> p ∉ ls ->
  chains {| m with pheap := delete p (pheap m) |} lp ls.
Proof.
  intros [Hc Hs] H1 H2. split; cbn; eapply chain_frame; try eassumption;
    intros x Hx; rewrite lookup_delete_ne; try done; set_solver.
Qed.

(** Unlinking a pipe from the device's list, then from the signaled one. *)
Lemma unlink_pipe_spec m l1 p l2 ls n :
  lists m (l1 ++ p :: l2) ls -> pheap m !! p = Some n ->
  exists h head m', store_link set_next (pheap m) (pipes (dev m)) (link_after l1) (pipe_next n)
      = Ok (h, head) /\ h !! p = Some n /\
    pipe_list_remove_waked p (set_dev (fun d => {| d with pipes := head |})
      {| m with pheap := <[p := set_next 0 n]> h |}) = Ok m' /\
    chains m' (l1 ++ l2) (filter (fun q => q <> p) ls) /\ view m' = view m /\
    frame m m' /\ regs (dev m') = regs (dev m) /\ dev_irq (dev m') = dev_irq (dev m).
Proof.
  intros ((Hc & Hs) & Hd) Hn.
  destruct (unlink_clear (next := pipe_next) (set_next := set_next) ltac:(done)
              _ _ _ _ _ _ Hc Hn) as (h & head & E & Eq & Hc' & Hf).
  set (m1 := set_dev (fun d => {| d with pipes := head |})
      {| m with pheap := <[p := set_next 0 n]> h |}).
  destruct (remove_waked_spec m1 (l1 ++ l2) ls p) as (m' & E' & Hl' & Hv & Hfr & Hr & Hi).
  { split; cbn; [done|]. eapply chain_frame; [|exact Hs]. intros x _. by apply fmap_eq_lookup, Hf. }
  exists h, head, m'. split_and!; try done.
  rewrite Hv. unfold view, m1; cbn. by apply Hf.
Qed.

(** Reading [PIPE_REG_CHANNEL] takes the first signaled pipe off its list. *)
Lemma read_channel_spec m lp p ls n :
  lists m lp (p :: ls) -> pheap m !! p = Some n ->
  exists m', pipe_dev_read PIPE_REG_CHANNEL m = Ok (Z.land (pipe_channel n) 0xFFFFFFFF, m') /\
    lists m' lp ls /\ view m' = <[p := info {| n with pipe_wanted := 0 |}]> (view m) /\
    frame m m' /\ dev_wakes (dev m') = pipe_wanted n /\
    dev_irq (dev m') = (if decide (ls = []) then false else dev_irq (dev m)).
Proof.
  intros ((Hc & Hs) & Hd) Hn. pose proof (chain_NoDup _ _ _ Hs) as Hnd.
  destruct Hs as (Ep & Hp0 & n0 & Hn0 & Hs). rewrite Hn in Hn0. injection Hn0 as <-.
  unfold pipe_dev_read. cbn [PIPE_REG_CHANNEL PIPE_REG_STATUS Z.eqb Pos.eqb].
  rewrite Ep, (proj2 (Z.eqb_neq p 0)), (deref_Some _ _ n) by done. mon.
  rewrite (mod_pipe_Ok p _ _ n) by done. mon.
  rewrite (mod_pipe_Ok p _ _ {| n with pipe_wanted := 0 |}); [|done|apply lookup_insert_eq].
  mon. eexists. split; [done|].
  match goal with |- context [if ?c then qemu_set_irq false ?a else ?b] =>
    set (mx := if c then qemu_set_irq false a else b) end.
  assert (Hx : pheap mx = <[p := {| n with pipe_wanted := 0; pipe_next_waked := 0 |}]> (pheap m) /\
      pipes (dev mx) = pipes (dev m) /\ signaled_pipes (dev mx) = pipe_next_waked n /\ frame m mx /\
      dev_wakes (dev mx) = pipe_wanted n /\
      dev_irq (dev mx) = (if pipe_next_waked n =? 0 then false else dev_irq (dev m))).
  { unfold mx. cbn. rewrite insert_insert_eq.
    destruct (pipe_next_waked n =? 0); split_and!; done. }
  clearbody mx. destruct Hx as (E1 & E2 & E3 & E4 & E5 & E6). split_and!; try done.
  - split; [split|]; rewrite ?E1, ?E2, ?E3.
    + eapply chain_frame; [|exact Hc]. intros x _. rewrite lookup_insert.
      by case_decide; subst; rewrite ?Hn.
    + eapply chain_frame; [|exact Hs]. intros x Hx. rewrite lookup_insert_ne; [done|].
      apply NoDup_cons in Hnd. set_solver.
    + intros x. rewrite Hd, lookup_insert. case_decide; subst; [|done]. rewrite Hn. naive_solver.
  - change (info <$> pheap mx = <[p := info {| n with pipe_wanted := 0 |}]> (view m)).
    rewrite E1. by rewrite fmap_insert.
  - rewrite E6. destruct ls as [|x ls]; cbn in Hs; [by rewrite Hs|].
    destruct Hs as (-> & Hx & _). by rewrite (proj2 (Z.eqb_neq _ 0)).
Qed.
End list_effects.

(** ** Preservation of the invariant *)

Section safety.
Context {W : Type} (inv : W -> Prop) (live : W -> Z -> Prop).
Local Abbreviation wf := (wf inv live).
Local Abbreviation core_ok := (core_ok inv live).
Implicit Types (m : machine W) (V : gmap Z Pipe) (C : gmap Z PipeConnector).

(** The fields of a pipe the invariant relates to other objects. *)
Definition same_links (n n' : Pipe) : Prop :=
  pipe_channel n' = pipe_channel n /\ pipe_opaque n' = pipe_opaque n /\
  pipe_funcs n' = pipe_funcs n.

Lemma core_update V C b S w p n n' :
  core_ok V C b S w -> V !! p = Some n -> same_links n n' -> in_range 8 (pipe_wanted n') ->
  core_ok (<[p := n']> V) C b S w.
Proof.
  intros H Hn (E1 & E2 & E3) Hr. destruct H as [H1 H2 H3 H4 [H5 H6] H7 H8].
  assert (Hold : forall q n1, <[p := n']> V !! q = Some n1 -> exists n0, V !! q = Some n0 /\
            pipe_channel n1 = pipe_channel n0 /\ pipe_opaque n1 = pipe_opaque n0 /\
            pipe_funcs n1 = pipe_funcs n0).
  { intros q n1 Hq. apply lookup_insert_Some in Hq as [[<- <-]|[_ Hq]]; eauto. }
  split; [| | | |split| |]; try done.
  - intros q n1 Hq. destruct (Hold q n1 Hq) as (n0 & H0 & _ & Eo & Ef).
    destruct (H1 q n0 H0) as [Hw0 Hm]. split.
    + apply lookup_insert_Some in Hq as [[<- <-]|[_ Hq]]; [done|]. by destruct (H1 q n1 Hq).
    + by rewrite Ef, Eo.
  - intros q q' n1 n2 Hq Hq' E. destruct (Hold q n1 Hq) as (n3 & Hn3 & E3' & _).
    destruct (Hold q' n2 Hq') as (n4 & Hn4 & E4' & _). eapply H2; eauto. congruence.
  - intros q q' n1 n2 i j Hq Hq' Ei Ej E. destruct (Hold q n1 Hq) as (n3 & Hn3 & _ & Eo3 & Ef3).
    destruct (Hold q' n2 Hq') as (n4 & Hn4 & _ & Eo4 & Ef4).
    apply (H3 q q' n3 n4 i j); congruence.
  - intros c pc Hc. destruct (H4 c pc Hc) as [Hok (n0 & Hn0 & Ef & Eo)]. split; [done|].
    destruct (decide (pcon_pipe pc = p)) as [E|E].
    + subst p. simplify_eq. exists n'. rewrite lookup_insert_eq. split_and!; congruence.
    + exists n0. by rewrite lookup_insert_ne.
  - intros q Hq. apply H6. rewrite lookup_insert_is_Some in Hq.
    destruct Hq as [[->|[_ Hq]]|Hq]; eauto.
Qed.

Lemma core_world V C b S w w' :
  core_ok V C b S w -> inv w' -> (forall q, live w q -> live w' q) -> core_ok V C b S w'.
Proof.
  intros [H1 H2 H3 H4 H5 H6 H7] Hi Hl. split; try done.
  intros p n Hn. destruct (H1 p n Hn) as [Hw Hm]. split; [done|].
  destruct (pipe_funcs n); [done..|]. destruct Hm. split; auto.
Qed.

(** Changing the buffer of a connector. *)
Lemma core_connector V C b S w c pc pc' :
  core_ok V C b S w -> C !! c = Some pc -> pcon_pipe pc' = pcon_pipe pc -> connector_ok pc' ->
  core_ok V (<[c := pc']> C) b S w.
Proof.
  intros [H1 H2 H3 H4 [H5 H5'] H6 H7] Hc E Hok. split; try done.
  - intros p n Hn. destruct (H1 p n Hn) as [Hw Hm]. split; [done|].
    destruct (pipe_funcs n); try done. destruct Hm as (c0 & Hc0 & E0).
    destruct (decide (c = pipe_opaque n)) as [->|Hne].
    + exists pc'. rewrite lookup_insert_eq. simplify_eq. split; congruence.
    + exists c0. by rewrite lookup_insert_ne.
  - intros q pc1 Hq. apply lookup_insert_Some in Hq as [[<- <-]|[_ Hq]]; [|eauto].
    split; [done|]. rewrite E. by apply (H4 c pc).
  - split; [done|]. intros q Hq. apply H5'. rewrite lookup_insert_is_Some in Hq. naive_solver.
Qed.

Lemma core_open V C b S w chan :
  core_ok V C b S w -> (forall p n, V !! p = Some n -> pipe_channel n <> chan) ->
  core_ok (<[b := mkPipe 0 0 chan (b + 1) FuncsConnector None None 0 false]> V)
          (<[b + 1 := mkConnector b (replicate 128 0) 0]> C) (b + 1 + 1) S w.
Proof.
  intros [H1 H2 H3 H4 [H5 H5'] H6 H7] Hch.
  assert (Hb : V !! b = None) by (apply eq_None_not_Some; intros Hs; destruct (H5' b); eauto; lia).
  assert (Hcb : C !! (b + 1) = None)
    by (apply eq_None_not_Some; intros Hs; destruct (H5' (b + 1)); eauto; lia).
  split; try done.
  - intros p n Hn. apply lookup_insert_Some in Hn as [[<- <-]|[Hne Hn]].
    + split; [done|]. cbn. eexists. by rewrite lookup_insert_eq.
    + destruct (H1 p n Hn) as [Hw Hm]. split; [done|]. destruct (pipe_funcs n); try done.
      destruct Hm as (c0 & Hc0 & E0). exists c0. rewrite lookup_insert_ne; [done|]. congruence.
  - intros p q n n' Hp Hq E.
    apply lookup_insert_Some in Hp as [[<- <-]|[_ Hp]];
      apply lookup_insert_Some in Hq as [[<- <-]|[_ Hq]]; cbn in *; try done; [| |eauto].
    + by destruct (Hch q n' Hq).
    + by destruct (Hch p n Hp).
  - intros p q n n' i j Hp Hq Ei Ej E.
    apply lookup_insert_Some in Hp as [[<- <-]|[_ Hp]];
      apply lookup_insert_Some in Hq as [[<- <-]|[_ Hq]]; cbn in *; try done. eauto.
  - intros c pc Hc. apply lookup_insert_Some in Hc as [[<- <-]|[_ Hc]].
    + split; [split; [done|reflexivity]|]. cbn. eexists. by rewrite lookup_insert_eq.
    + destruct (H4 c pc Hc) as [Hok (n & Hn & Ef & Eo)]. split; [done|]. exists n.
      rewrite lookup_insert_ne; [done|]. congruence.
  - split; [lia|]. intros q Hq. rewrite !lookup_insert_is_Some in Hq.
    destruct Hq as [[<-|[_ Hq]]|[<-|[_ Hq]]]; try lia; specialize (H5' q ltac:(eauto)); lia.
Qed.

Lemma core_free_connector V C b S w p n :
  core_ok V C b S w -> V !! p = Some n -> pipe_funcs n = FuncsConnector ->
  core_ok (delete p V) (delete (pipe_opaque n) C) b S w.
Proof.
  intros [H1 H2 H3 H4 [H5 H5'] H6 H7] Hn Ef.
  destruct (H1 p n Hn) as [_ Hm]. rewrite Ef in Hm. destruct Hm as (pc & Hpc & Ep).
  split; try done.
  - intros q n' [Hne Hq]%lookup_delete_Some. destruct (H1 q n' Hq) as [Hw Hm]. split; [done|].
    destruct (pipe_funcs n'); try done. destruct Hm as (c & Hc & Ec). exists c.
    rewrite lookup_delete_ne; [done|]. congruence.
  - intros q q' n1 n2 [_ Hq]%lookup_delete_Some [_ Hq']%lookup_delete_Some. eauto.
  - intros q q' n1 n2 i j [_ Hq]%lookup_delete_Some [_ Hq']%lookup_delete_Some. eauto.
  - intros c pc' [Hne Hc]%lookup_delete_Some. destruct (H4 c pc' Hc) as [Hok (n1 & Hn1 & Ef1 & Eo1)].
    split; [done|]. exists n1. rewrite lookup_delete_ne; [done|]. congruence.
  - split; [done|]. intros q Hq. apply H5'. rewrite !lookup_delete_is_Some in Hq. naive_solver.
Qed.

Lemma core_free_service V C b S w w' p n i :
  core_ok V C b S w -> V !! p = Some n -> pipe_funcs n = FuncsService i ->
  inv w' -> (forall q, q <> pipe_opaque n -> live w q -> live w' q) ->
  core_ok (delete p V) C b S w'.
Proof.
  intros [H1 H2 H3 H4 [H5 H5'] H6 H7] Hn Ef Hi Hl. split; try done.
  - intros q n' [Hne Hq]%lookup_delete_Some. destruct (H1 q n' Hq) as [Hw Hm]. split; [done|].
    destruct (pipe_funcs n') eqn:E; try done. destruct Hm as [Hs Hv]. split; [done|].
    apply Hl; [|done]. intros Eo. apply Hne. by apply (H3 p q n n' i i0).
  - intros q q' n1 n2 [_ Hq]%lookup_delete_Some [_ Hq']%lookup_delete_Some. eauto.
  - intros q q' n1 n2 i1 j [_ Hq]%lookup_delete_Some [_ Hq']%lookup_delete_Some. eauto.
  - intros c pc' Hc. destruct (H4 c pc' Hc) as [Hok (n1 & Hn1 & Ef1 & Eo1)].
    split; [done|]. exists n1. rewrite lookup_delete_ne; [done|]. congruence.
  - split; [done|]. intros q Hq. apply H5'. rewrite !lookup_delete_is_Some in Hq. naive_solver.
Qed.

(** A pipe goes from its connector to a service. *)
Lemma core_connect V C b S w w' p n n' i :
  core_ok V C b S w -> V !! p = Some n -> pipe_funcs n = FuncsConnector ->
  pipe_funcs n' = FuncsService i -> is_Some (S !! i) -> pipe_channel n' = pipe_channel n ->
  pipe_wanted n' = pipe_wanted n -> inv w' -> (forall q, live w q -> live w' q) ->
  live w' (pipe_opaque n') -> ~ live w (pipe_opaque n') ->
  core_ok (<[p := n']> V) (delete (pipe_opaque n) C) b S w'.
Proof.
  intros [H1 H2 H3 H4 [H5 H5'] H6 H7] Hn Ef Ef' Hi Ec Ew Hinv Hlive Hl Hnl.
  destruct (H1 p n Hn) as [Hwn Hm]. rewrite Ef in Hm. destruct Hm as (pc & Hpc & Ep).
  split; try done.
  - intros q n1 [[<- <-]|[Hne Hq]]%lookup_insert_Some.
    + split; [congruence|]. by rewrite Ef'.
    + destruct (H1 q n1 Hq) as [Hw Hm]. split; [done|].
      destruct (pipe_funcs n1); [done| |by destruct Hm; split; [|apply Hlive]].
      destruct Hm as (c & Hc & Ecc). exists c. rewrite lookup_delete_ne; [done|]. congruence.
  - intros q q' n1 n2 [[<- <-]|[_ Hq]]%lookup_insert_Some [[<- <-]|[_ Hq']]%lookup_insert_Some E;
      try done; eapply H2; eauto; congruence.
  - intros q q' n1 n2 i1 j1 [[<- <-]|[_ Hq]]%lookup_insert_Some
      [[<- <-]|[_ Hq']]%lookup_insert_Some Ei Ej E; try done; [| |by apply (H3 q q' n1 n2 i1 j1)].
    + destruct (H1 q' n2 Hq') as [_ Hm2]. rewrite Ej in Hm2. destruct Hm2. congruence.
    + destruct (H1 q n1 Hq) as [_ Hm1]. rewrite Ei in Hm1. destruct Hm1. congruence.
  - intros c pc' [Hne Hc]%lookup_delete_Some. destruct (H4 c pc' Hc) as [Hok (n1 & Hn1 & Ef1 & Eo1)].
    split; [done|]. exists n1. rewrite lookup_insert_ne; [done|]. congruence.
  - split; [done|]. intros q Hq. apply H5'.
    rewrite lookup_insert_is_Some, lookup_delete_is_Some in Hq.
    destruct Hq as [[<-|[_ Hq]]|[_ Hq]]; eauto.
Qed.

(** The bytes of one buffer a connector takes: as many as fit. *)
Definition taken (pc : PipeConnector) (bf : list Z) : nat :=
  Z.to_nat (Z.min (CONNECTOR_SIZE - pcon_buffpos pc) (Z.of_nat (length bf))).
Definition push_bytes (pc : PipeConnector) (bf : list Z) : PipeConnector :=
  {| pc with pcon_buffer := blit (pcon_buffer pc) (Z.to_nat (pcon_buffpos pc))
                                 (take (taken pc bf) bf);
             pcon_buffpos := pcon_buffpos pc + Z.of_nat (taken pc bf) |}.

Lemma connector_fill_cons bf bufs pc ret :
  connector_ok pc ->
  connector_fill (bf :: bufs) pc ret =
  connector_fill bufs (push_bytes pc bf) (ret + Z.of_nat (taken pc bf)).
Proof.
  intros [Hpos Hlen]. unfold push_bytes, taken, CONNECTOR_SIZE in *.
  assert (Hid : forall k, k = 0%nat ->
    {| pc with pcon_buffer := blit (pcon_buffer pc) (Z.to_nat (pcon_buffpos pc)) (take k bf);
               pcon_buffpos := pcon_buffpos pc + Z.of_nat k |} = pc).
  { intros k ->. destruct pc. rewrite take_0, blit_nil. cbn. by rewrite Z.add_0_r. }
  cbn [connector_fill]. unfold CONNECTOR_SIZE.
  rewrite wrap_small by (split; lia). rewrite !Z.gtb_ltb.
  destruct (Z.of_nat (length bf) =? 0) eqn:E0; zb.
  { rewrite Hid by lia. f_equal. lia. }
  destruct (Z.of_nat (length bf) <? 128 - pcon_buffpos pc) eqn:E1; zb.
  - rewrite signed_small by lia. rewrite Z.min_r, Nat2Z.id by lia.
    destruct (Z.ltb_spec 0 (Z.of_nat (length bf))); [by rewrite ?Nat2Z.id|lia].
  - rewrite Z.min_l by lia. destruct (0 <? _) eqn:E2; zb.
    + rewrite Z2Nat.id by lia. done.
    + rewrite Hid by lia. f_equal. lia.
Qed.

Lemma push_bytes_ok pc bf : connector_ok pc -> connector_ok (push_bytes pc bf).
Proof.
  intros [Hpos Hlen]. unfold connector_ok, push_bytes, taken, CONNECTOR_SIZE in *. cbn.
  split; [lia|]. rewrite length_blit; [done|]. rewrite length_take. lia.
Qed.

(** The connector's buffer never overflows. *)
Lemma connector_fill_ok bufs pc ret :
  connector_ok pc ->
  let '(pc', ret') := connector_fill bufs pc ret in
  connector_ok pc' /\ pcon_pipe pc' = pcon_pipe pc /\
  ret' = ret + (pcon_buffpos pc' - pcon_buffpos pc) /\
  ret <= ret' <= ret + Z.of_nat (length (concat bufs)).
Proof.
  revert pc ret; induction bufs as [|bf bufs IH]; intros pc ret Hok.
  { cbn. split_and!; try done; lia. }
  rewrite connector_fill_cons by done.
  specialize (IH (push_bytes pc bf) (ret + Z.of_nat (taken pc bf)) (push_bytes_ok _ _ Hok)).
  destruct (connector_fill bufs _ _) as [pc' ret']. destruct IH as (Hok' & Ep & Eret & Hb).
  assert (Z.of_nat (taken pc bf) <= Z.of_nat (length bf)) by (unfold taken, CONNECTOR_SIZE; lia).
  cbn in *. rewrite length_app. split_and!; try done; lia.
Qed.

(** [kept m m']: an operation that touches neither the device's registers nor
    its lists, and restores the rest of the invariant. *)
Definition core m : Prop := core_ok (view m) (cheap m) (brk m) (svcs m) (world m).
Definition kept m m' : Prop :=
  (forall lp ls, lists m lp ls -> lists m' lp ls) /\ dev m' = dev m /\ core m'.

Lemma wf_kept m m' : wf m -> kept m m' -> wf m'.
Proof.
  intros [(lp & ls & Hl) Hc Hi] (H1 & H2 & H3). split; [eauto|done|]. by rewrite H2.
Qed.

Lemma wf_set_dev m f :
  wf m -> pipes (f (dev m)) = pipes (dev m) ->
  signaled_pipes (f (dev m)) = signaled_pipes (dev m) -> dev_irq (f (dev m)) = dev_irq (dev m) ->
  wf (set_dev f m).
Proof.
  intros [(lp & ls & Hl) Hc Hi] E1 E2 E3. split; [|done|]; cbn.
  - exists lp, ls. destruct Hl as [[H1 H2] H3]. unfold lists, chains; cbn. by rewrite E1, E2.
  - by rewrite E2, E3.
Qed.

Lemma core_pipe m p n :
  core m -> pheap m !! p = Some n -> pipe_ok live (cheap m) (svcs m) (world m) p n.
Proof.
  intros Hc Hn. apply (ok_pipe _ _ _ _ _ _ _ Hc p (info n)). by rewrite view_lookup, Hn.
Qed.

Lemma core_service m i : core m -> is_Some (svcs m !! i) ->
  exists s, get_service i m = Ok s /\ ServiceLaws inv live (svc_funcs s).
Proof.
  intros Hc [s Hs]. exists s. unfold get_service. rewrite Hs. split; [done|].
  eapply (ok_svcs _ _ _ _ _ _ _ Hc). apply list_elem_of_lookup. eauto.
Qed.

(** A callback that only changes the state of the services. *)
Lemma kept_world m w : core m -> inv w -> (forall q, live (world m) q -> live w q) ->
  kept m {| m with world := w |}.
Proof. intros Hc Hi Hl. split_and!; [done..|]. by eapply core_world. Qed.

Lemma kept_refl m : core m -> kept m m.
Proof. done. Qed.

Lemma kept_trans m1 m2 m3 : kept m1 m2 -> kept m2 m3 -> kept m1 m3.
Proof. intros (H1 & H2 & H3) (H4 & H5 & H6). split_and!; [auto|congruence|done]. Qed.

Lemma kept_connector m c pc pc' :
  core m -> cheap m !! c = Some pc -> pcon_pipe pc' = pcon_pipe pc -> connector_ok pc' ->
  kept m {| m with cheap := <[c := pc']> (cheap m) |}.
Proof. intros Hc H1 H2 H3. split_and!; [done..|]. by eapply core_connector. Qed.

Lemma connector_parse_length buf b' nm args :
  connector_parse buf = (b', nm, args) -> length b' = length buf.
Proof.
  unfold connector_parse. destruct (memchr _ _); intros [= <- _ _]; [|done].
  apply length_insert.
Qed.

Lemma core_addr m p : core m -> is_Some (pheap m !! p) \/ is_Some (cheap m !! p) -> p <> 0.
Proof.
  intros Hc Hp. destruct (ok_brk _ _ _ _ _ _ _ Hc) as [_ H]. specialize (H p).
  rewrite view_lookup, fmap_is_Some in H. specialize (H Hp). lia.
Qed.

Lemma find_type_Some nm (l : list (PipeService W)) i :
  qemu_pipe_find_type nm l = Some i ->
  exists s, l !! i = Some s /\ svc_name s = nm /\
    (forall j s', (j < i)%nat -> l !! j = Some s' -> svc_name s' <> nm).
Proof.
  revert i; induction l as [|s l IH]; cbn; intros i; [done|].
  unfold list_eqb. case_bool_decide as E.
  - intros [= <-]. exists s. split_and!; try done. intros; lia.
  - intros (i' & Hi & ->)%fmap_Some. destruct (IH i' Hi) as (s' & H1 & H2 & H3).
    exists s'. split_and!; try done. intros [|j] s'' Hj; cbn; [congruence|].
    intros. eapply H3; [|done]. lia.
Qed.

(** Handing a connected pipe over to its service keeps the invariant. *)
Lemma kept_connect m p n pc i peer w args :
  core m -> pheap m !! p = Some n -> pipe_funcs n = FuncsConnector ->
  cheap m !! pipe_opaque n = Some pc -> is_Some (svcs m !! i) -> inv w ->
  (forall q, live (world m) q -> live w q) -> live w peer -> ~ live (world m) peer ->
  kept m {| m with world := w; cheap := delete (pipe_opaque n) (cheap m);
              pheap := <[p := {| n with pipe_opaque := peer; pipe_service := Some i;
                                        pipe_funcs := FuncsService i; pipe_args := args |}]>
                         (pheap m) |}.
Proof.
  intros Hc Hn Ef Hpc Hi Hw Hl H1 H2. split_and!; [|done|].
  - intros lp ls Hls.
    by apply (lists_insert m lp ls p n (fun n => {| n with pipe_opaque := peer;
        pipe_service := Some i; pipe_funcs := FuncsService i; pipe_args := args |})).
  - unfold core, view; cbn. rewrite fmap_insert.
    apply (core_connect _ _ _ _ (world m) w p (info n) _ i); try done.
    by rewrite lookup_fmap, Hn.
Qed.

Lemma connector_connect_kept m p n pc nm args ret :
  core m -> pheap m !! p = Some n -> pipe_funcs n = FuncsConnector ->
  cheap m !! pipe_opaque n = Some pc ->
  exists r m', connector_connect (pipe_opaque n) p nm args ret m = Ok (r, m') /\ kept m m' /\
    ram m' = ram m /\ (r = ret \/ r = PIPE_ERROR_INVAL).
Proof.
  intros Hc Hn Ef Hpc. unfold connector_connect.
  assert (Hp0 : p <> 0) by (eapply core_addr; eauto).
  assert (Hc0 : pipe_opaque n <> 0) by (eapply core_addr; eauto).
  destruct (qemu_pipe_find_type nm (svcs m)) as [i|] eqn:Ei; [|by eexists _, m; eauto 6 using kept_refl].
  apply find_type_Some in Ei as (s & Hs & _ & _).
  destruct (core_service m i Hc ltac:(eauto)) as (s' & Es & Hlaws). rewrite Es. mon.
  destruct (law_init p (svc_opaque s') args (world m) (ok_world _ _ _ _ _ _ _ Hc))
    as (peer & w & E & Hw & Hl & Hpeer).
  rewrite E. mon. destruct (peer =? 0) eqn:E0; zb.
  { eexists _, _. split; [done|]. split; [by apply kept_world|auto]. }
  rewrite (mod_pipe_Ok p _ _ n) by done. mon. cbn.
  unfold free_obj. rewrite (proj2 (Z.eqb_neq _ 0) Hc0), Hpc. mon.
  eexists _, _. split; [done|]. split; [|auto]. cbn.
  destruct (Hpeer E0). eapply kept_connect; eauto.
Qed.

Lemma connector_send_kept m p n bufs :
  core m -> pheap m !! p = Some n -> pipe_funcs n = FuncsConnector ->
  exists r m', pipeConnector_sendBuffers (pipe_opaque n) bufs m = Ok (r, m') /\ kept m m' /\
    ram m' = ram m /\ answer r (Z.of_nat (length (concat bufs))).
Proof.
  intros Hc Hn Ef. destruct (core_pipe _ _ _ Hc Hn) as [_ Hm]. rewrite Ef in Hm.
  destruct Hm as (pc & Hpc & Epc).
  assert (Hc0 : pipe_opaque n <> 0) by (eapply core_addr; eauto).
  destruct (ok_conn _ _ _ _ _ _ _ Hc _ _ Hpc) as [Hok _].
  unfold pipeConnector_sendBuffers. rewrite (deref_Some _ _ pc) by done. mon.
  pose proof (connector_fill_ok bufs pc 0 Hok) as Hfill.
  destruct (connector_fill bufs pc 0) as [pc1 ret]. destruct Hfill as (Hok1 & Ep1 & _ & Hb).
  assert (Ha : answer ret (Z.of_nat (length (concat bufs)))) by (unfold answer; lia).
  assert (Hinv : answer PIPE_ERROR_INVAL (Z.of_nat (length (concat bufs))))
    by (unfold answer, PIPE_ERROR_INVAL; lia).
  assert (K1 := kept_connector m _ pc pc1 Hc Hpc Ep1 Hok1).
  set (m1 := {| m with cheap := _ |}) in *.
  destruct (memchr 0 _); [|by eexists _, m1].
  destruct (negb _); [by eexists _, m1|].
  destruct (connector_parse (pcon_buffer pc1)) as [[b' nm] args] eqn:Epar.
  apply connector_parse_length in Epar. set (pc2 := {| pc1 with pcon_buffer := b' |}).
  assert (K2 : kept m1 {| m1 with cheap := <[pipe_opaque n := pc2]> (cheap m1) |}).
  { apply (kept_connector m1 _ pc1); [apply K1|apply lookup_insert_eq|done|].
    split; [apply Hok1|]. cbn. rewrite Epar. apply Hok1. }
  apply (kept_trans _ _ _ K1) in K2. clear K1. set (m2 := {| m1 with cheap := _ |}) in *.
  rewrite Ep1, Epc.
  destruct (connector_connect_kept m2 p n pc2 nm args ret) as (r & m' & E & K & Er & Ea).
  { apply K2. } { done. } { done. } { apply lookup_insert_eq. }
  eexists r, m'. split; [done|]. split; [exact (kept_trans _ _ _ K2 K)|].
  split; [by rewrite Er|]. by destruct Ea as [->| ->].
Qed.

Lemma call_send_kept m p n bufs :
  core m -> pheap m !! p = Some n -> length bufs = 1%nat ->
  exists r m', call_sendBuffers n bufs m = Ok (r, m') /\ kept m m' /\ ram m' = ram m /\
    answer r (Z.of_nat (length (concat bufs))).
Proof.
  intros Hc Hn H1. destruct (core_pipe _ _ _ Hc Hn) as [_ Hm]. unfold call_sendBuffers.
  destruct (pipe_funcs n) as [| |i] eqn:Ef; [done|by eapply connector_send_kept|].
  destruct Hm as [Hi Hv]. destruct (core_service m i Hc Hi) as (s & -> & Hlaws). mon.
  destruct (law_send (pipe_opaque n) bufs (world m)) as (r & w & -> & Hw & Hl & Ha);
    [done|apply Hc|done|]. mon. eexists _, _. split; [done|]. split; [|done]. by apply kept_world.
Qed.

Lemma call_recv_kept m p n sz :
  core m -> pheap m !! p = Some n ->
  exists r data m', call_recvBuffers n [sz] m = Ok (r, data, m') /\ kept m m' /\ ram m' = ram m /\
    Z.of_nat (length (default [] (head data))) <= Z.max 0 sz /\ answer r (Z.max 0 sz).
Proof.
  intros Hc Hn. destruct (core_pipe _ _ _ Hc Hn) as [_ Hm]. unfold call_recvBuffers.
  destruct (pipe_funcs n) as [| |i] eqn:Ef; [done| |].
  { eexists _, _, _. split; [done|]. split_and!; [by apply kept_refl|done|cbn; lia|].
    unfold answer, PIPE_ERROR_IO. lia. }
  destruct Hm as [Hi Hv]. destruct (core_service m i Hc Hi) as (s & -> & Hlaws). mon.
  destruct (law_recv (pipe_opaque n) [sz] (world m)) as (r & data & w & -> & Hw & Hl & Hd & Ha);
    [done|apply Hc|done|]. mon. eexists _, _, _. split; [done|]. split_and!; [by apply kept_world|done|..].
  - destruct data as [|d data]; cbn; [lia|].
    destruct (Hd 0%nat d eq_refl) as (k & [= <-] & Hk). lia.
  - unfold answer in *. destruct Ha as [?| ->]; [lia|].
    destruct data as [|d [|d' data]]; cbn; [lia| |].
    + destruct (Hd 0%nat d eq_refl) as (k & [= <-] & Hk). rewrite app_nil_r. lia.
    + by destruct (Hd 1%nat d' eq_refl) as (k & Hk & _).
Qed.

Lemma call_poll_kept m p n :
  core m -> pheap m !! p = Some n ->
  exists r m', call_poll n m = Ok (r, m') /\ kept m m' /\ ram m' = ram m.
Proof.
  intros Hc Hn. destruct (core_pipe _ _ _ Hc Hn) as [_ Hm]. unfold call_poll.
  destruct (pipe_funcs n) as [| |i] eqn:Ef; [done|by eexists _, m|].
  destruct Hm as [Hi Hv]. destruct (core_service m i Hc Hi) as (s & -> & Hlaws). mon.
  destruct (law_poll (pipe_opaque n) (world m)) as (r & w & -> & Hw & Hl);
    [apply Hc|done|]. mon. eexists _, _. split; [done|]. split; [|done]. by apply kept_world.
Qed.

Lemma call_wakeOn_kept m p n flags :
  core m -> pheap m !! p = Some n ->
  exists m', call_wakeOn n flags m = Ok m' /\ kept m m' /\ ram m' = ram m.
Proof.
  intros Hc Hn. destruct (core_pipe _ _ _ Hc Hn) as [_ Hm]. unfold call_wakeOn.
  destruct (pipe_funcs n) as [| |i] eqn:Ef; [done|by eexists m|].
  destruct Hm as [Hi Hv]. destruct (core_service m i Hc Hi) as (s & -> & Hlaws). mon.
  destruct (law_wakeOn (pipe_opaque n) flags (world m)) as (w & -> & Hw & Hl);
    [apply Hc|done|]. mon. eexists _. split; [done|]. split; [|done]. by apply kept_world.
Qed.

(** A change of a pipe's flags keeps the invariant. *)
Lemma kept_flags m p n wanted closed :
  core m -> pheap m !! p = Some n -> in_range 8 wanted ->
  kept m {| m with pheap := <[p := {| n with pipe_wanted := wanted; pipe_closed := closed |}]>
                              (pheap m) |}.
Proof.
  intros Hc Hn Hr. split_and!; [|done|].
  - intros lp ls Hls. by apply (lists_insert m lp ls p n
      (fun n => {| n with pipe_wanted := wanted; pipe_closed := closed |})).
  - unfold core, view; cbn. rewrite fmap_insert.
    apply (core_update _ _ _ _ _ p (info n)); try done. by rewrite lookup_fmap, Hn.
Qed.

Lemma wanted_range m p n flags :
  core m -> pheap m !! p = Some n -> in_range 8 (u8 (Z.lor (pipe_wanted n) flags)).
Proof. intros _ _. by apply wrap_range. Qed.

Lemma cmd_open_wf m lp ls :
  lists m lp ls -> wf m ->
  (forall p n, pheap m !! p = Some n -> pipe_channel n <> dev_channel (dev m)) ->
  exists m', cmd_open 0 m = Ok m' /\ wf m' /\ lists m' (brk m :: lp) ls /\
    view m' = <[brk m := mkPipe 0 0 (dev_channel (dev m)) (brk m + 1) FuncsConnector
                                None None 0 false]> (view m) /\
    cheap m' = <[brk m + 1 := mkConnector (brk m) (replicate 128 0) 0]> (cheap m) /\
    svcs m' = svcs m /\ ram m' = ram m /\ world m' = world m /\
    dev_status (dev m') = 0 /\ dev_channel (dev m') = dev_channel (dev m) /\
    dev_irq (dev m') = dev_irq (dev m).
Proof.
  intros ((Hc & Hs) & Hd) [_ Hcore Hi] Hch.
  destruct (ok_brk _ _ _ _ _ _ _ Hcore) as [Hb Hfresh].
  assert (Hnone : pheap m !! brk m = None).
  { apply eq_None_not_Some. intros Hx. specialize (Hfresh (brk m)).
    rewrite view_lookup, fmap_is_Some in Hfresh. specialize (Hfresh (or_introl Hx)). lia. }
  assert (Hlp : brk m ∉ lp) by (rewrite Hd, Hnone; by intros []).
  unfold cmd_open. rewrite Z.eqb_refl. cbn [negb]. rewrite pipe_new_spec by done. mon.
  erewrite mod_pipe_Ok; [|lia|cbn; by rewrite lookup_insert_eq]. mon. cbn.
  rewrite insert_insert_eq. eexists. split; [done|].
  match goal with |- wf ?x /\ _ => assert (Hl : lists x (brk m :: lp) ls) end.
  { split; [split|]; cbn.
    * split; [done|]. split; [lia|]. rewrite lookup_insert_eq. eexists. split; [done|]. cbn.
      eapply chain_frame; [|exact Hc]. intros x Hx. rewrite lookup_insert_ne; [done|]. set_solver.
    * eapply chain_frame; [|exact Hs]. intros x Hx.
      destruct (chain_elem _ _ _ _ Hs Hx) as [_ Hx']. apply Hd in Hx'.
      rewrite lookup_insert_ne; [done|]. set_solver.
    * intros p. rewrite elem_of_cons, Hd, lookup_insert_is_Some.
      destruct (decide (brk m = p)); naive_solver. }
  split_and!; try done.
  - split; cbn; [eauto| |done].
    unfold view; cbn. rewrite fmap_insert. apply core_open; [done|].
    intros p n Hn. apply lookup_fmap_Some in Hn as (n' & <- & Hn). exact (Hch p n' Hn).
  - unfold view; cbn. by rewrite fmap_insert.
Qed.

(** [pipe_free] of a pipe that is on neither list. *)
Lemma pipe_free_spec m lp ls p n :
  chains m lp ls -> core m -> pheap m !! p = Some n -> p ∉ lp -> p ∉ ls ->
  exists m', pipe_free p m = Ok m' /\ chains m' lp ls /\ dev m' = dev m /\
    pheap m' = delete p (pheap m) /\ core m' /\ ram m' = ram m.
Proof.
  intros Hch Hc Hn H1 H2. unfold pipe_free.
  assert (Hp0 : p <> 0) by (eapply core_addr; eauto).
  rewrite (deref_Some _ _ n) by done. mon.
  assert (Hv : view m !! p = Some (info n)) by (by rewrite view_lookup, Hn).
  assert (Hclose : exists m1, call_close n m = Ok m1 /\ pheap m1 = pheap m /\ dev m1 = dev m /\
    ram m1 = ram m /\ core_ok (delete p (view m)) (cheap m1) (brk m1) (svcs m1) (world m1)).
  { destruct (core_pipe _ _ _ Hc Hn) as [_ Hm]. unfold call_close.
    destruct (pipe_funcs n) as [| |i] eqn:Ef; [done| |].
    - destruct Hm as (pc & Hpc & _). assert (pipe_opaque n <> 0) by (eapply core_addr; eauto).
      unfold pipeConnector_close, free_obj. rewrite (proj2 (Z.eqb_neq _ _)), Hpc by done. mon.
      eexists. split; [done|]. split_and!; try done.
      by apply (core_free_connector _ _ _ _ _ p (info n)).
    - destruct Hm as [Hi Hlive]. destruct (core_service m i Hc Hi) as (s & -> & Hlaws). mon.
      destruct (f_close (svc_funcs s)) as [f|] eqn:Ec.
      + destruct (law_close f (pipe_opaque n) (world m) Ec) as (w & -> & Hw & Hl);
          [apply Hc|done|]. mon. eexists. split; [done|]. split_and!; try done.
        by apply (core_free_service _ _ _ _ (world m) w p (info n) i).
      + eexists. split; [done|]. split_and!; try done.
        apply (core_free_service _ _ _ _ (world m) (world m) p (info n) i); try done. apply Hc. }
  destruct Hclose as (m1 & -> & Eh & Ed & Er & Hcore). mon.
  unfold free_obj. rewrite (proj2 (Z.eqb_neq _ _)), Eh, Hn by done. mon.
  eexists. split; [done|]. split_and!; cbn; try done.
  - pose proof (chains_delete m lp ls p Hch H1 H2) as [Ha Hb]. split; cbn in *; by rewrite Ed.
  - unfold core, view; cbn. by rewrite fmap_delete.
Qed.

Lemma cmd_close_wf m l1 p l2 ls n :
  lists m (l1 ++ p :: l2) ls -> wf m -> pheap m !! p = Some n ->
  exists m', cmd_close (link_after l1) p m = Ok m' /\ wf m' /\
    lists m' (l1 ++ l2) (filter (fun q => q <> p) ls) /\ view m' = delete p (view m) /\
    regs (dev m') = regs (dev m) /\ dev_irq (dev m') = dev_irq (dev m).
Proof.
  intros Hl [_ Hcore Hi] Hn.
  assert (Hp0 : p <> 0) by (eapply core_addr; eauto).
  destruct (unlink_pipe_spec m l1 p l2 ls n Hl Hn)
    as (h & hd & m1 & E & Eh & E1 & Hch & Hv & (F1 & F2 & F3 & F4 & F5) & Hr & Hirq).
  unfold cmd_close. rewrite (deref_Some _ _ n) by done. mon. rewrite E. mon.
  rewrite (mod_pipe_Ok p _ _ n) by done. mon.
  change (pipe_list_remove_waked p _) with (pipe_list_remove_waked p
    (set_dev (fun d => {| d with pipes := hd |}) {| m with pheap := <[p := set_next 0 n]> h |})).
  rewrite E1. mon.
  assert (Hcore1 : core m1) by (unfold core; by rewrite Hv, F1, F2, F3, F5).
  destruct Hl as ((Hc0 & Hs0) & Hd). pose proof (chain_NoDup _ _ _ Hc0) as Hnd.
  assert (Hp1 : p ∉ l1 ++ l2).
  { apply NoDup_app in Hnd as (_ & Hdis & Hnd). apply NoDup_cons in Hnd as [Hx _].
    rewrite elem_of_app. intros [Hx'|Hx']; [apply (Hdis p Hx'); set_solver|done]. }
  assert (Hp2 : p ∉ filter (fun q => q <> p) ls) by (rewrite list_elem_of_filter; tauto).
  destruct (proj2 (view_is_Some m m1 p Hv)) as [n1 Hn1]; [eauto|].
  destruct (pipe_free_spec m1 _ _ p n1 Hch Hcore1 Hn1 Hp1 Hp2)
    as (m' & -> & Hch' & Ed & Ehp & Hcore' & _).
  assert (Hl' : lists m' (l1 ++ l2) (filter (fun q => q <> p) ls)).
  { split; [done|]. intros q. rewrite Ehp, lookup_delete_is_Some, (view_is_Some m m1 q Hv), <- Hd.
    rewrite !elem_of_app, elem_of_cons. rewrite elem_of_app in Hp1.
    destruct (decide (p = q)); naive_solver. }
  exists m'. split; [done|]. split_and!; try done.
  - split; [eauto|done|]. rewrite Ed, Hirq. intros Hsig. apply Hi. intros E0. apply Hsig.
    destruct ls as [|x ls]; [|cbn in Hs0; destruct Hs0 as (Ex & Hx & _); congruence].
    destruct Hch' as [_ Hs']. cbn in Hs'. congruence.
  - change (info <$> pheap m' = delete p (view m)). rewrite Ehp, fmap_delete. by rewrite <- Hv.
  - by rewrite Ed.
  - by rewrite Ed.
Qed.

(** [dev->status = r] after a callback. *)
Lemma wf_status m r : wf m -> wf (set_status r m).
Proof. intros H. by apply wf_set_dev. Qed.

Lemma kept_ram m r : core m -> kept m {| m with ram := r |}.
Proof. done. Qed.

Lemma cmd_wake_on_wf m p n flag :
  wf m -> pheap m !! p = Some n -> exists m', cmd_wake_on flag p m = Ok m' /\ wf m'.
Proof.
  intros Hwf Hn. pose proof (wf_core _ _ _ Hwf) as Hc.
  assert (Hp0 : p <> 0) by (eapply core_addr; eauto).
  unfold cmd_wake_on. rewrite (deref_Some _ _ n) by done. mon.
  destruct (flag_set _ _).
  { mon. eexists. split; [done|]. by apply wf_status. }
  rewrite (mod_pipe_Ok p _ _ n) by done. mon.
  set (n' := {| n with pipe_wanted := u8 (Z.lor (pipe_wanted n) flag) |}).
  set (m1 := {| m with pheap := <[p := n']> (pheap m) |}).
  assert (K1 : kept m m1).
  { apply (kept_flags m p n (u8 (Z.lor (pipe_wanted n) flag)) (pipe_closed n)); try done.
    by apply wrap_range. }
  assert (Hn' : pheap m1 !! p = Some n') by apply lookup_insert_eq.
  rewrite (deref_Some _ _ n') by done. mon.
  destruct (call_wakeOn_kept m1 p n' (pipe_wanted n') (proj2 (proj2 K1)) Hn') as (m2 & -> & K2 & _).
  mon. eexists. split; [done|].
  apply wf_status. eapply wf_kept; [exact Hwf|]. exact (kept_trans _ _ _ K1 K2).
Qed.

Lemma wake_wf m p n flags :
  wf m -> pheap m !! p = Some n -> exists m', qemu_pipe_wake p flags m = Ok m' /\ wf m'.
Proof.
  intros Hwf Hn. destruct (wf_lists _ _ _ Hwf) as (lp & ls & Hl).
  destruct (qemu_pipe_wake_spec m lp ls p n flags Hl Hn)
    as (m' & E & Hl' & Hv & (F1 & F2 & F3 & F4 & F5) & _ & Hirq).
  exists m'. split; [done|]. split; [eauto| |done].
  rewrite Hv, F1, F2, F3, F5. eapply core_update; [apply Hwf| | |].
  - by rewrite view_lookup, Hn.
  - done.
  - cbn. by apply wrap_range.
Qed.

Lemma close_wf m p n :
  wf m -> pheap m !! p = Some n -> exists m', qemu_pipe_close p m = Ok m' /\ wf m'.
Proof.
  intros Hwf Hn. pose proof (wf_core _ _ _ Hwf) as Hc.
  assert (Hp0 : p <> 0) by (eapply core_addr; eauto).
  unfold qemu_pipe_close. rewrite (deref_Some _ _ n) by done. mon.
  destruct (pipe_closed n); [eauto|]. rewrite (mod_pipe_Ok p _ _ n) by done. mon.
  eapply wake_wf; [|apply lookup_insert_eq].
  eapply wf_kept; [exact Hwf|]. apply (kept_flags m p n (pipe_wanted n) true Hc Hn).
  by destruct (core_pipe _ _ _ Hc Hn).
Qed.

Lemma read_wf m off :
  wf m -> exists v m', pipe_dev_read off m = Ok (v, m') /\ wf m'.
Proof.
  intros Hwf. destruct (wf_lists _ _ _ Hwf) as (lp & ls & Hl).
  destruct (decide (off = PIPE_REG_CHANNEL)) as [->|Hoff].
  - destruct ls as [|p ls].
    + exists 0, m. split; [|done]. destruct Hl as ((_ & Hs) & _). cbn in Hs.
      unfold pipe_dev_read. cbn. by rewrite Hs.
    + assert (Hp : is_Some (pheap m !! p)).
      { destruct Hl as ((_ & Hs) & _). apply (chain_elem _ _ _ p Hs). set_solver. }
      destruct Hp as [n Hn].
      destruct (read_channel_spec m lp p ls n Hl Hn)
        as (m' & E & Hl' & Hv & (F1 & F2 & F3 & F4 & F5) & _ & Hirq).
      eexists _, m'. split; [done|]. split; [eauto| |].
      * rewrite Hv, F1, F2, F3, F5. apply (core_update _ _ _ _ _ p (info n)); [apply Hwf| |done|done].
        by rewrite view_lookup, Hn.
      * rewrite Hirq. case_decide as E0; [|intros _; apply Hwf].
        -- subst. destruct Hl' as ((_ & Hs') & _). by rewrite Hs'.
        -- destruct Hl as ((_ & Hs) & _). destruct Hs as (-> & Hp0 & _). done.
  - unfold pipe_dev_read. rewrite (proj2 (Z.eqb_neq off PIPE_REG_CHANNEL)) by done.
    repeat case_match; try (by eexists _, m). 
    destruct Hl as ((_ & Hs) & _). destruct ls as [|p ls]; cbn in Hs; [zb; congruence|].
    destruct Hs as (-> & Hp0 & n & Hn & _). rewrite (deref_Some _ _ n) by done. mon.
    by eexists _, m.
Qed.

Context (phys : Z -> Z).

(** The command reaches the one pipe of the device's channel. *)
Lemma doCommand_found m p n command :
  wf m -> pheap m !! p = Some n -> pipe_channel n = dev_channel (dev m) ->
  exists l1 l2 ls, lists m (l1 ++ p :: l2) ls /\
    pipeDevice_doCommand phys command m =
      if pipe_closed n && negb (command =? PIPE_CMD_CLOSE) then Ok (set_status PIPE_ERROR_IO m)
      else doCommand_switch phys command (link_after l1) p m.
Proof.
  intros Hwf Hn Ech. destruct (wf_lists _ _ _ Hwf) as (lp & ls & Hl).
  pose proof (wf_core _ _ _ Hwf) as Hc. unfold pipeDevice_doCommand.
  assert (Hp0 : p <> 0) by (eapply core_addr; eauto).
  destruct (findp_channel_cases m lp ls (dev_channel (dev m)) Hl)
    as [(l1 & q & l2 & n' & -> & Hn' & Ec & -> & E)|(Hnone & _)]; [|by destruct (Hnone p n Hn)].
  assert (q = p) as ->.
  { apply (ok_channel _ _ _ _ _ _ _ Hc q p (info n') (info n));
      [by rewrite view_lookup, Hn'|by rewrite view_lookup, Hn|cbn; congruence]. }
  rewrite Hn in Hn'. injection Hn' as <-. mon. rewrite E. mon.
  rewrite (proj2 (Z.eqb_neq p 0)), andb_false_r, (deref_Some _ _ n) by done. mon. eauto.
Qed.

Lemma doCommand_missing m command :
  wf m -> (forall p n, pheap m !! p = Some n -> pipe_channel n <> dev_channel (dev m)) ->
  pipeDevice_doCommand phys command m =
    if command =? PIPE_CMD_OPEN then cmd_open 0 m else Ok (set_status PIPE_ERROR_INVAL m).
Proof.
  intros Hwf Hnone. destruct (wf_lists _ _ _ Hwf) as (lp & ls & Hl). unfold pipeDevice_doCommand.
  destruct (findp_channel_cases m lp ls (dev_channel (dev m)) Hl)
    as [(l1 & q & l2 & n' & _ & Hn' & Ec & _)|(_ & -> & E)]; [by destruct (Hnone q n' Hn')|].
  mon. rewrite E. mon. rewrite Z.eqb_refl, andb_true_r. unfold doCommand_switch.
  by destruct (command =? PIPE_CMD_OPEN).
Qed.

Lemma channel_dec m : wf m ->
  (exists p n, pheap m !! p = Some n /\ pipe_channel n = dev_channel (dev m)) \/
  (forall p n, pheap m !! p = Some n -> pipe_channel n <> dev_channel (dev m)).
Proof.
  intros Hwf. destruct (wf_lists _ _ _ Hwf) as (lp & ls & Hl).
  destruct (findp_channel_cases m lp ls (dev_channel (dev m)) Hl)
    as [(l1 & q & l2 & n' & _ & Hn' & Ec & _)|(H & _)]; eauto.
Qed.

Lemma switch_wf m command l1 p l2 ls n :
  wf m -> lists m (l1 ++ p :: l2) ls -> pheap m !! p = Some n ->
  exists m', doCommand_switch phys command (link_after l1) p m = Ok m' /\ wf m'.
Proof.
  intros Hwf Hl Hn. pose proof (wf_core _ _ _ Hwf) as Hc. unfold doCommand_switch.
  assert (Hp0 : p <> 0) by (eapply core_addr; eauto).
  repeat case_match.
  + eexists. split; [unfold cmd_open; by rewrite (proj2 (Z.eqb_neq p 0)) by done|].
    by apply wf_status.
  + destruct (cmd_close_wf m l1 p l2 ls n Hl Hwf Hn) as (m' & -> & Hw & _). eauto.
  + unfold cmd_poll. rewrite (deref_Some _ _ n) by done. mon.
    destruct (call_poll_kept m p n Hc Hn) as (r & m1 & -> & K & _). mon.
    eexists. split; [done|]. apply wf_status. by eapply wf_kept.
  + unfold cmd_read_buffer. rewrite (deref_Some _ _ n) by done. mon.
    destruct (call_recv_kept m p n (dev_size (dev m)) Hc Hn) as (r & data & m1 & -> & K & _). mon.
    eexists. split; [done|]. apply wf_status. eapply wf_kept; [exact Hwf|].
    eapply kept_trans; [exact K|]. apply kept_ram, K.
  + unfold cmd_write_buffer. rewrite (deref_Some _ _ n) by done. mon.
    destruct (call_send_kept m p n [read_mem (ram m) (phys (dev_address (dev m)))
      (Z.to_nat (dev_size (dev m)))] Hc Hn eq_refl) as (r & m1 & -> & K & _). mon.
    eexists. split; [done|]. apply wf_status. by eapply wf_kept.
  + by eapply cmd_wake_on_wf.
  + by eapply cmd_wake_on_wf.
  + eauto.
Qed.

Lemma doCommand_wf m command :
  wf m -> exists m', pipeDevice_doCommand phys command m = Ok m' /\ wf m'.
Proof.
  intros Hwf. destruct (channel_dec m Hwf) as [(p & n & Hn & Ec)|Hnone].
  - destruct (doCommand_found m p n command Hwf Hn Ec) as (l1 & l2 & ls & Hl & ->).
    destruct (_ && _); [eexists; split; [done|by apply wf_status]|by eapply switch_wf].
  - rewrite doCommand_missing by done. destruct (wf_lists _ _ _ Hwf) as (lp & ls & Hl).
    destruct (_ =? _); [|eexists; split; [done|by apply wf_status]].
    destruct (cmd_open_wf m lp ls Hl Hwf Hnone) as (m' & -> & Hw & _). eauto.
Qed.

Lemma write_wf m off v :
  wf m -> exists m', pipe_dev_write phys off v m = Ok m' /\ wf m'.
Proof.
  intros Hwf. unfold pipe_dev_write.
  repeat case_match; try (eexists; split; [done|]; first [done|by apply wf_set_dev]).
  - by apply doCommand_wf.
  - unfold access_params_write. destruct (_ =? 0); [eauto|]. cbn [qemu_guest_is_64bit Z.eqb].
    set (m1 := set_dev _ m). assert (Hwf1 : wf m1) by (by apply wf_set_dev).
    destruct (negb _ && _); [eauto|].
    match goal with |- context [pipeDevice_doCommand phys ?c m1] =>
      destruct (doCommand_wf m1 c Hwf1) as (m2 & -> & Hwf2) end.
    mon. eexists. split; [done|]. eapply wf_kept; [exact Hwf2|]. apply kept_ram, Hwf2.
Qed.
End safety.
