(* ===== verification/PipeDeviceTheorems.v ===== *)
(** * What the QEMU pipe device guarantees

    The theorems about [hw/android/pipe.c]: memory safety and the invariant on
    every reachable state, the behaviour of the commands, the signaling of the
    guest, the batched access and the connection protocol. *)

From S2P Require Import Prelude IntrusiveList PipeDevice PipeDeviceProofs.

(** ** A concrete service

    [Loopback] gives back to the guest the bytes the guest wrote.  It satisfies
    [ServiceLaws], so the hypotheses of the theorems below can be met. *)
Module Loopback.
Record state : Type := mk { fresh : Z; conns : gmap Z (list Z) }.

Definition init (hw op : Z) (args : option (list Z)) (w : state) : res (Z * state) :=
  Ok (fresh w, mk (fresh w + 1) (<[fresh w := []]> (conns w))).
Definition close (q : Z) (w : state) : res state :=
  Ok {| w with conns := delete q (conns w) |}.
Definition send (q : Z) (bufs : list (list Z)) (w : state) : res (Z * state) :=
  b ← of_opt BadPointer (conns w !! q);
  Ok (Z.of_nat (length (concat bufs)), {| w with conns := <[q := b ++ concat bufs]> (conns w) |}).
Definition recv (q : Z) (sizes : list Z) (w : state) : res (Z * list (list Z) * state) :=
  b ← of_opt BadPointer (conns w !! q);
  match b, sizes with
  | _ :: _, n :: _ =>
      let k := Z.to_nat n in
      Ok (Z.of_nat (length (take k b)), [take k b], {| w with conns := <[q := drop k b]> (conns w) |})
  | _, _ => Ok (PIPE_ERROR_AGAIN, [], w)
  end.
Definition poll (q : Z) (w : state) : res (Z * state) := Ok (PIPE_POLL_IN + PIPE_POLL_OUT, w).
Definition wakeOn (q flags : Z) (w : state) : res state := Ok w.

Definition funcs : GoldfishPipeFuncs state := mkFuncs init (Some close) send recv poll wakeOn.
Definition empty : state := mk 1 ∅.

Definition inv (w : state) : Prop :=
  0 < fresh w /\ forall q, is_Some (conns w !! q) -> 0 < q < fresh w.
Definition live (w : state) (q : Z) : Prop := is_Some (conns w !! q).

#[global] Instance laws : ServiceLaws inv live funcs.
Proof.
  split.
  - intros hw op args w [H0 Hi]. eexists _, _. split; [done|]. unfold inv, live; cbn. split_and!.
    + lia.
    + intros q [<-|[_ Hq]]%lookup_insert_is_Some; [lia|]. specialize (Hi q Hq). lia.
    + intros q Hq. apply lookup_insert_is_Some'. eauto.
    + intros _. rewrite lookup_insert_eq. split; [eauto|]. intros Hq. specialize (Hi _ Hq). lia.
  - intros f q w [= <-] [H0 Hi] Hq. eexists. split; [done|]. unfold inv, live; cbn. split_and!; [done| |].
    + intros q' [_ Hq']%lookup_delete_is_Some. eauto.
    + intros q' Hne Hq'. apply lookup_delete_is_Some. auto.
  - intros q bufs w _ [H0 Hi] [b Hq]. unfold live in *. cbn. unfold send. rewrite Hq. mon. cbn.
    eexists _, _. split; [done|]. unfold inv; cbn. split_and!; [done| | |].
    + intros q' [<-|[_ Hq']]%lookup_insert_is_Some; eauto.
    + intros q' Hq'. apply lookup_insert_is_Some'. eauto.
    + unfold answer. lia.
  - intros q sizes w _ [H0 Hi] [b Hq]. unfold live in *. cbn. unfold recv. rewrite Hq. mon. cbn.
    assert (Ha : answer PIPE_ERROR_AGAIN 0) by done.
    destruct b as [|x b]; [eexists _, _, _; split; [done|]; by split_and!; auto|].
    destruct sizes as [|n sizes]; [eexists _, _, _; split; [done|]; by split_and!; auto|].
    eexists _, _, _. split; [done|]. unfold inv; cbn [fresh conns]. split_and!; [done| | | |].
    + intros q' [<-|[_ Hq']]%lookup_insert_is_Some; eauto.
    + intros q' Hq'. apply lookup_insert_is_Some'. eauto.
    + intros [|[|]] d; cbn; [|done..]. intros [= <-]. exists n. split; [done|].
      rewrite length_take. lia.
    + right. cbn. by rewrite app_nil_r.
  - intros q w Hi Hq. by eexists _, _.
  - intros q flags w Hi Hq. by eexists.
Qed.

(** The name ["loop"]. *)
Definition name : list Z := [108; 111; 111; 112].
Definition services : list (PipeService state) := [mkService name 7 funcs].
(** A guest RAM that holds ["pipe:loop"] with its final zero at address 64. *)
Definition boot_ram : gmap Z Z := write_mem ∅ 64 (pipe_prefix ++ name ++ [0]).
Definition start : machine state := qemu_pipe_initfn services boot_ram empty.

(** The identity map of physical addresses. *)
Definition phys (a : Z) : Z := a.
End Loopback.

(** ** Runs of the device *)

(** What can happen to the device: the guest reads or writes a register, a
    service wakes or closes one of its pipes. *)
Inductive access : Type :=
| GuestRead (offset : Z)
| GuestWrite (offset value : Z)
| ServiceWake (hwpipe flags : Z)
| ServiceClose (hwpipe : Z).

Definition exec {W} (phys : Z -> Z) (a : access) (m : machine W) : res (machine W) :=
  match a with
  | GuestRead off => '(_, m') ← pipe_dev_read off m; Ok m'
  | GuestWrite off v => pipe_dev_write phys off v m
  | ServiceWake p flags => qemu_pipe_wake p flags m
  | ServiceClose p => qemu_pipe_close p m
  end.

(** A service only names pipes that are open. *)
Definition enabled {W} (a : access) (m : machine W) : Prop :=
  match a with
  | ServiceWake p _ | ServiceClose p => is_Some (pheap m !! p)
  | _ => True
  end.

Inductive reachable {W} (phys : Z -> Z) (m0 : machine W) : machine W -> Prop :=
| reach_start : reachable phys m0 m0
| reach_step m a m' :
    reachable phys m0 m -> enabled a m -> exec phys a m = Ok m' -> reachable phys m0 m'.

Fixpoint exec_all {W} (phys : Z -> Z) (l : list access) (m : machine W) : res (machine W) :=
  match l with
  | [] => Ok m
  | a :: l' => m' ← exec phys a m; exec_all phys l' m'
  end.

Definition guest_only (a : access) : bool :=
  match a with GuestRead _ | GuestWrite _ _ => true | _ => false end.

Lemma guest_run_reachable {W} phys l (m0 m : machine W) :
  forallb guest_only l = true -> exec_all phys l m0 = Ok m -> reachable phys m0 m.
Proof.
  intros Hl. enough (H : forall m1, reachable phys m0 m1 -> exec_all phys l m1 = Ok m ->
    reachable phys m0 m) by (apply H; constructor).
  induction l as [|a l IH]; intros m1 Hr E; cbn in *; [by simplify_eq|].
  apply andb_true_iff in Hl as [Ha Hl]. apply bind_Ok in E as (m2 & E & E').
  eapply IH; [done| |done]. eapply reach_step; [done| |done]. by destruct a.
Qed.

(** What the guest learns of a signaled pipe from [PIPE_REG_CHANNEL] and
    [PIPE_REG_WAKES]. *)
Definition signal_of {W} (m : machine W) (p : Z) : Z * Z :=
  match pheap m !! p with
  | Some n => (Z.land (pipe_channel n) 0xFFFFFFFF, pipe_wanted n)
  | None => (0, 0)
  end.

(** The loop of the guest's interrupt handler on the device's registers: [k]
    times the channel, then the flags. *)
Fixpoint drain {W} (k : nat) (m : machine W) : res (list (Z * Z) * machine W) :=
  match k with
  | O => Ok ([], m)
  | S k' =>
      '(c, m1) ← pipe_dev_read PIPE_REG_CHANNEL m;
      '(f, m2) ← pipe_dev_read PIPE_REG_WAKES m1;
      '(l, m3) ← drain k' m2;
      Ok ((c, f) :: l, m3)
  end.

Section device.
Context {W : Type} (inv : W -> Prop) (live : W -> Z -> Prop) (phys : Z -> Z).
Local Abbreviation wf := (wf inv live).
Implicit Types (m : machine W).

Lemma initfn_wf svcs r w :
  (forall s, s ∈ svcs -> ServiceLaws inv live (svc_funcs s)) -> inv w ->
  wf (qemu_pipe_initfn svcs r w).
Proof.
  intros Hs Hw. split; cbn; [|split; cbn|done].
  - exists [], []. split; [done|]. intros p. cbn. rewrite lookup_empty. split; [set_solver|by intros []].
  - intros p n. unfold view; cbn. by rewrite fmap_empty, lookup_empty.
  - intros p q n n'. unfold view; cbn. by rewrite fmap_empty, lookup_empty.
  - intros p q n n' i j. unfold view; cbn. by rewrite fmap_empty, lookup_empty.
  - intros c pc. by rewrite lookup_empty.
  - split; [lia|]. intros p. unfold view; cbn. rewrite fmap_empty, !lookup_empty. by intros [[]|[]].
  - done.
  - done.
Qed.

Lemma exec_wf a m : wf m -> enabled a m -> exists m', exec phys a m = Ok m' /\ wf m'.
Proof.
  intros Hwf He. destruct a as [off|off v|p fl|p]; cbn in *.
  - destruct (read_wf inv live m off Hwf) as (v & m' & -> & H). mon. eauto.
  - by apply write_wf.
  - destruct He. by eapply wake_wf.
  - destruct He. by eapply close_wf.
Qed.

Lemma reachable_inv m0 m : wf m0 -> reachable phys m0 m -> wf m.
Proof.
  intros H0. induction 1 as [|m a m' Hr IH He E]; [done|].
  destruct (exec_wf a m IH He) as (m'' & E' & Hwf). congruence.
Qed.


(** The error answers of a command: [PIPE_ERROR_INVAL] for a channel
    that is not open, [PIPE_ERROR_IO] for a pipe its service has closed (which
    can only be closed then), [PIPE_ERROR_INVAL] for opening a channel twice.
    In each case nothing but the status register changes. *)
Theorem doCommand_errors m p n command :
  wf m -> pipe_channel n = dev_channel (dev m) ->
  ((forall q nq, pheap m !! q = Some nq -> pipe_channel nq <> dev_channel (dev m)) ->
     command <> PIPE_CMD_OPEN ->
     pipeDevice_doCommand phys command m = Ok (set_status PIPE_ERROR_INVAL m)) /\
  (pheap m !! p = Some n -> pipe_closed n = true -> command <> PIPE_CMD_CLOSE ->
     pipeDevice_doCommand phys command m = Ok (set_status PIPE_ERROR_IO m)) /\
  (pheap m !! p = Some n -> pipe_closed n = false ->
     pipeDevice_doCommand phys PIPE_CMD_OPEN m = Ok (set_status PIPE_ERROR_INVAL m)).
Proof.
  intros Hwf Ec. split_and!.
  - intros Hnone Hc. rewrite (doCommand_missing inv live) by done.
    by rewrite (proj2 (Z.eqb_neq _ _)).
  - intros Hn Hcl Hc.
    destruct (doCommand_found inv live phys m p n command Hwf Hn Ec) as (l1 & l2 & ls & _ & ->).
    by rewrite Hcl, (proj2 (Z.eqb_neq _ _)).
  - intros Hn Hcl.
    destruct (doCommand_found inv live phys m p n PIPE_CMD_OPEN Hwf Hn Ec) as (l1 & l2 & ls & _ & ->).
    rewrite Hcl. cbn. unfold doCommand_switch, cmd_open. cbn.
    assert (p <> 0) by (eapply (core_addr inv live); [apply Hwf|eauto]).
    by rewrite (proj2 (Z.eqb_neq p 0)).
Qed.

(** Opening a channel that is not open creates one pipe, in front of the
    others, served by a fresh connector, and reports success; closing it again
    gives back the pipes, the signaled list and the connectors there were. *)
Theorem open_close_roundtrip m lp ls :
  wf m -> lists m lp ls ->
  (forall p n, pheap m !! p = Some n -> pipe_channel n <> dev_channel (dev m)) ->
  exists m1 m2 p c,
    pipe_dev_write phys PIPE_REG_COMMAND PIPE_CMD_OPEN m = Ok m1 /\
    lists m1 (p :: lp) ls /\ view m !! p = None /\
    view m1 = <[p := mkPipe 0 0 (dev_channel (dev m)) c FuncsConnector None None 0 false]> (view m) /\
    cheap m1 !! c = Some (mkConnector p (replicate 128 0) 0) /\ dev_status (dev m1) = 0 /\
    pipe_dev_write phys PIPE_REG_COMMAND PIPE_CMD_CLOSE m1 = Ok m2 /\ wf m2 /\
    lists m2 lp ls /\ view m2 = view m.
Proof.
  intros Hwf Hl Hnone. destruct (cmd_open_wf inv live m lp ls Hl Hwf Hnone)
    as (m1 & E & Hwf1 & Hl1 & Hv1 & Hc1 & _ & _ & _ & Hst & Hch & _).
  assert (Hfresh : view m !! brk m = None).
  { apply eq_None_not_Some. intros Hx.
    destruct (ok_brk _ _ _ _ _ _ _ (wf_core _ _ _ Hwf)) as [_ Hb]. specialize (Hb (brk m) (or_introl Hx)). lia. }
  assert (Hn : exists n, pheap m1 !! brk m = Some n /\ pipe_channel n = dev_channel (dev m) /\
                         pipe_closed n = false).
  { pose proof (view_lookup m1 (brk m)) as Hx. rewrite Hv1, lookup_insert_eq in Hx.
    symmetry in Hx. apply fmap_Some in Hx as (n & Hn & Ei). exists n. split; [done|].
    split; [by apply (f_equal pipe_channel) in Ei|by apply (f_equal pipe_closed) in Ei]. }
  destruct Hn as (n & Hn & Ech & Hcl).
  destruct (doCommand_found inv live phys m1 (brk m) n PIPE_CMD_CLOSE Hwf1 Hn) as
    (l1 & l2 & ls' & Hl1' & Eq); [by rewrite Hch|].
  destruct (cmd_close_wf inv live m1 l1 (brk m) l2 ls' n Hl1' Hwf1 Hn)
    as (m2 & E2 & Hwf2 & Hl2 & Hv2 & _ & _).
  exists m1, m2, (brk m), (brk m + 1). unfold pipe_dev_write. cbn -[pipeDevice_doCommand].
  change (u32 PIPE_CMD_OPEN) with PIPE_CMD_OPEN. change (u32 PIPE_CMD_CLOSE) with PIPE_CMD_CLOSE.
  rewrite (doCommand_missing inv live) by done. rewrite Eq, Hcl.
  destruct Hl1 as ((Hc' & Hs') & Hd'). destruct Hl1' as ((Hc'' & Hs'') & Hd'').
  pose proof (chain_det _ _ _ _ Hc' Hc'') as Elp. pose proof (chain_det _ _ _ _ Hs' Hs'') as <-.
  pose proof (chain_NoDup _ _ _ Hc'') as Hnd.
  assert (l1 = [] /\ l2 = lp) as [-> ->].
  { destruct l1 as [|x l1]; [by injection Elp as ->|]. injection Elp as <- Elp.
    apply NoDup_cons in Hnd as [Hnd _]. set_solver. }
  split_and!; try done.
  - rewrite Hc1. apply lookup_insert_eq.
  - destruct Hl2 as (Hch2 & Hd2). rewrite filter_id in Hch2; [done|].
    intros x Hx ->. destruct Hl as ((_ & Hs0) & Hd0).
    assert (brk m ∈ ls) as Hin by done.
    destruct (chain_elem _ _ _ _ Hs0 Hin) as [_ [n' Hn']].
    by rewrite view_lookup, Hn' in Hfresh.
  - rewrite Hv2, Hv1. by rewrite delete_insert_id.
Qed.

Lemma signal_of_view m m' p : view m' !! p = view m !! p -> signal_of m' p = signal_of m p.
Proof.
  rewrite !view_lookup. unfold signal_of.
  destruct (pheap m' !! p) as [n'|], (pheap m !! p) as [n|]; cbn; try done.
  intros [= E1 E2 E3 E4 E5 E6 E7]. congruence.
Qed.

Lemma drain_spec lp ls m :
  lists m lp ls ->
  exists m', drain (length ls) m = Ok (signal_of m <$> ls, m') /\ lists m' lp [] /\
    dev_irq (dev m') = (if decide (ls = []) then dev_irq (dev m) else false) /\
    (forall p, p ∈ ls -> exists n, pheap m' !! p = Some n /\ pipe_wanted n = 0) /\
    (forall p, p ∉ ls -> view m' !! p = view m !! p).
Proof.
  revert m; induction ls as [|p ls IH]; intros m Hl.
  { exists m. split_and!; [done..|set_solver|done]. }
  assert (Hp : is_Some (pheap m !! p)).
  { destruct Hl as ((_ & Hs) & _). by destruct Hs as (_ & _ & n & -> & _). }
  destruct Hp as [n Hn].
  assert (Hnd : NoDup (p :: ls)) by (destruct Hl as ((_ & Hs) & _); by eapply chain_NoDup).
  apply NoDup_cons in Hnd as [Hp _].
  destruct (read_channel_spec m lp p ls n Hl Hn) as (m1 & E & Hl1 & Hv1 & _ & Hw & Hi).
  cbn [drain length]. rewrite E. mon. unfold pipe_dev_read at 1. cbn [PIPE_REG_WAKES Z.eqb Pos.eqb].
  cbn [PIPE_REG_CHANNEL PIPE_REG_STATUS PIPE_REG_CHANNEL_HIGH Z.eqb Pos.eqb]. mon. rewrite Hw.
  destruct (IH m1 Hl1) as (m' & -> & Hl' & Hi' & Hin & Hout). mon. exists m'. split_and!.
  - do 2 f_equal. cbn. f_equal; [unfold signal_of; by rewrite Hn|].
    apply list_fmap_ext. intros i q Hq. apply signal_of_view. rewrite Hv1, lookup_insert_ne; [done|].
    intros ->. apply Hp. apply list_elem_of_lookup. eauto.
  - done.
  - rewrite Hi', Hi. rewrite (decide_False (P := p :: ls = [])) by done. by repeat case_decide.
  - intros q [->|Hq]%elem_of_cons; [|by apply Hin].
    pose proof (Hout p Hp) as Hx. rewrite Hv1, lookup_insert_eq, view_lookup in Hx.
    apply fmap_Some in Hx as (n' & Hn' & Ei). exists n'. split; [done|].
    by apply (f_equal pipe_wanted) in Ei.
  - intros q [Hq1 Hq2]%not_elem_of_cons. rewrite Hout by done. by rewrite Hv1, lookup_insert_ne.
Qed.

(** C4.  A wake is never lost: once a service has woken a pipe, the interrupt
    line is high, and the loop of the guest's interrupt handler sees every
    signaled pipe exactly once, last woken first, with the flags accumulated
    for it, those of this wake among them; it leaves the line low, no pipe
    signaled and no flag pending on the pipes it saw. *)
Theorem wake_delivered m lp ls p n flags :
  wf m -> lists m lp ls -> pheap m !! p = Some n ->
  exists m1 m2 ls',
    qemu_pipe_wake p flags m = Ok m1 /\ dev_irq (dev m1) = true /\
    ls' = (if decide (p ∈ ls) then ls else p :: ls) /\ NoDup ls' /\
    signal_of m1 p = (Z.land (pipe_channel n) 0xFFFFFFFF, u8 (Z.lor (pipe_wanted n) flags)) /\
    (forall q, q <> p -> signal_of m1 q = signal_of m q) /\
    drain (length ls') m1 = Ok (signal_of m1 <$> ls', m2) /\
    lists m2 lp [] /\ dev_irq (dev m2) = false /\
    (forall q, q ∈ ls' -> exists nq, pheap m2 !! q = Some nq /\ pipe_wanted nq = 0).
Proof.
  intros Hwf Hl Hn.
  destruct (qemu_pipe_wake_spec m lp ls p n flags Hl Hn) as (m1 & E & Hl1 & Hv & _ & _ & Hi).
  destruct (drain_spec lp _ m1 Hl1) as (m2 & E2 & Hl2 & Hi2 & Hin & _).
  eexists m1, m2, _. split_and!; try done.
  - destruct Hl1 as ((_ & Hs) & _). by eapply chain_NoDup.
  - pose proof (view_lookup m1 p) as Hx. rewrite Hv, lookup_insert_eq in Hx. symmetry in Hx.
    apply fmap_Some in Hx as (n' & Hn' & Ei). unfold signal_of. rewrite Hn'.
    injection Ei as E1 _ _ _ _ E6 _. congruence.
  - intros q Hq. apply signal_of_view. by rewrite Hv, lookup_insert_ne.
  - rewrite Hi2. rewrite decide_False; [done|]. intros Hnil. case_decide as Hd; [|done].
    subst. by apply elem_of_nil in Hd.
Qed.

(** Closing the last signaled pipe leaves the interrupt line high with no pipe
    signaled: no register the guest may read then lowers it. *)
Lemma close_signaled m lp p n :
  wf m -> lists m lp [p] -> pheap m !! p = Some n -> pipe_channel n = dev_channel (dev m) ->
  exists m', pipe_dev_write phys PIPE_REG_COMMAND PIPE_CMD_CLOSE m = Ok m' /\ wf m' /\
    signaled_pipes (dev m') = 0 /\ lists m' (filter (fun q => q <> p) lp) [] /\ dev_irq (dev m') = true.
Proof.
  intros Hwf Hl Hn Ec.
  destruct (doCommand_found inv live phys m p n PIPE_CMD_CLOSE Hwf Hn Ec) as (l1 & l2 & ls & Hl' & Eq).
  pose proof Hl as ((Hc0 & Hs0) & Hd0). pose proof Hl' as ((Hc' & Hs') & Hd').
  pose proof (chain_det _ _ _ _ Hs0 Hs') as <-. pose proof (chain_det _ _ _ _ Hc0 Hc') as ->.
  destruct (cmd_close_wf inv live m l1 p l2 [p] n Hl' Hwf Hn) as (m' & E & Hwf' & Hl2 & _ & _ & Hi).
  exists m'. unfold pipe_dev_write. cbn -[pipeDevice_doCommand].
  change (u32 PIPE_CMD_CLOSE) with PIPE_CMD_CLOSE. rewrite Eq, andb_false_r.
  rewrite filter_cons_False in Hl2 by tauto. rewrite filter_nil in Hl2.
  assert (Hz : signaled_pipes (dev m') = 0) by (by destruct Hl2 as ((_ & Hs2) & _)).
  split_and!; [done..| |].
  - rewrite filter_ne_split; [done|]. by eapply chain_NoDup.
  - rewrite Hi. apply Hwf. destruct Hs0 as (-> & H0 & _). done.
Qed.
End device.
