(* ===== verification/PipeProtocol.v ===== *)
(** * Protocols spoken over the QEMU pipe device

    The connection handshake a guest writes on a new channel, the two ways of
    issuing a buffer command (registers or the parameter block), the effect of
    the buffer commands on guest memory and the table of services. *)

From S2P Require Import Prelude IntrusiveList PipeDevice PipeDeviceProofs PipeDeviceTheorems.

(** The bytes a guest writes to reach the service [name]:
    ["pipe:<name>[:<args>]"] with the final zero. *)
Definition connect_request (name : list Z) (args : option (list Z)) : list Z :=
  pipe_prefix ++ name ++ (match args with Some a => 58 :: a | None => [] end) ++ [0].

Definition request_ok (name : list Z) (args : option (list Z)) : Prop :=
  (0 ∉ name) /\ (58 ∉ name) /\
  (match args with Some a => a <> [] /\ (0 ∉ a) | None => True end).

Definition request_body (name : list Z) (args : option (list Z)) : list Z :=
  pipe_prefix ++ name ++ (match args with Some a => 58 :: a | None => [] end).

Lemma connect_request_snoc name args : connect_request name args = request_body name args ++ [0].
Proof. unfold connect_request, request_body. by rewrite <- !app_assoc. Qed.

Lemma request_no_zero name args : request_ok name args -> 0 ∉ request_body name args.
Proof.
  intros (H1 & H2 & H3). unfold request_body, pipe_prefix. destruct args; set_solver.
Qed.

Section connector.
Context {W : Type}.
Implicit Types (m : machine W).

Lemma connector_parse_request name args zs :
  request_ok name args ->
  exists b', connector_parse (connect_request name args ++ zs) = (b', name, args).
Proof.
  intros (Hn0 & Hn1 & Ha). unfold connector_parse, connect_request.
  set (tl := match args with Some a => 58 :: a | None => [] end).
  assert (Htl : 0 ∉ name ++ tl).
  { unfold tl. destruct args; set_solver. }
  replace ((pipe_prefix ++ name ++ tl ++ [0]) ++ zs)
    with (pipe_prefix ++ name ++ tl ++ 0 :: zs) by (rewrite <- !app_assoc; done).
  change (drop 5 (pipe_prefix ++ ?x)) with x.
  rewrite (app_assoc name tl), c_string_app by done. unfold tl. destruct args as [a|].
  - rewrite memchr_app by done. destruct Ha as [Ha0 Ha1].
    assert (Eb : <[(5 + length name)%nat:=0]>
      (pipe_prefix ++ (name ++ 58 :: a) ++ 0 :: zs) = pipe_prefix ++ name ++ 0 :: a ++ 0 :: zs).
    { rewrite <- app_assoc, !(app_assoc pipe_prefix).
      replace (5 + length name)%nat with (length (pipe_prefix ++ name) + 0)%nat
        by (rewrite length_app; cbn; lia).
      by rewrite insert_app_r. }
    rewrite Eb. eexists. f_equal; [f_equal|].
    + change (drop 5 (pipe_prefix ++ ?x)) with x. by rewrite c_string_app.
    + replace (drop (5 + length name + 1) _) with (a ++ 0 :: zs).
      * rewrite c_string_app by done. by rewrite decide_False.
      * rewrite Nat.add_comm. cbn. rewrite drop_app_ge by lia.
        by replace (S (length name) - length name)%nat with 1%nat by lia.
  - rewrite app_nil_r, memchr_None by done. eauto.
Qed.

(** The connector at [c] of pipe [p] has received [rec] so far. *)
Definition received (m : machine W) (c p : Z) (rec : list Z) : Prop :=
  cheap m !! c = Some (mkConnector p (rec ++ replicate (128 - length rec) 0)
                                   (Z.of_nat (length rec))).

Lemma connector_fill_one rec b p :
  (length rec + length b <= 128)%nat ->
  connector_fill [b] (mkConnector p (rec ++ replicate (128 - length rec) 0)
                                  (Z.of_nat (length rec))) 0 =
  (mkConnector p ((rec ++ b) ++ replicate (128 - length (rec ++ b)) 0)
               (Z.of_nat (length (rec ++ b))), Z.of_nat (length b)).
Proof.
  intros Hlen. rewrite connector_fill_cons.
  2:{ split; cbn; [unfold CONNECTOR_SIZE; lia|]. rewrite length_app, length_replicate. lia. }
  unfold push_bytes, taken, CONNECTOR_SIZE. cbn.
  rewrite Z.min_r, !Nat2Z.id, take_ge by lia.
  rewrite blit_app, length_app, drop_replicate, <- app_assoc. f_equal. f_equal; [|lia].
  do 3 f_equal. lia.
Qed.

Lemma connector_send_part m c p rec b :
  c <> 0 -> received m c p rec -> 0 ∉ rec ++ b -> (length rec + length b <= 128)%nat ->
  exists m', pipeConnector_sendBuffers c [b] m = Ok (Z.of_nat (length b), m') /\
    received m' c p (rec ++ b) /\ m' = {| m with cheap := cheap m' |} /\
    delete c (cheap m') = delete c (cheap m).
Proof.
  intros Hc Hr H0 Hlen. unfold pipeConnector_sendBuffers. rewrite (deref_Some _ _ _ Hc Hr).
  cbn [mbind res_bind]. rewrite connector_fill_one by done. cbn [pcon_buffpos pcon_buffer].
  rewrite Nat2Z.id, take_app_length, memchr_None by done. eexists. split; [done|].
  unfold received. cbn. by rewrite lookup_insert_eq, delete_insert_eq.
Qed.

Lemma connector_send_last m c p n rec b name args i s peer w' :
  c <> 0 -> p <> 0 -> received m c p rec -> pheap m !! p = Some n ->
  rec ++ b = connect_request name args -> request_ok name args ->
  (length (connect_request name args) <= 128)%nat ->
  qemu_pipe_find_type name (svcs m) = Some i -> svcs m !! i = Some s ->
  f_init (svc_funcs s) p (svc_opaque s) args (world m) = Ok (peer, w') -> peer <> 0 ->
  pipeConnector_sendBuffers c [b] m = Ok (Z.of_nat (length b),
    {| m with world := w'; cheap := delete c (cheap m);
              pheap := <[p := {| n with pipe_opaque := peer; pipe_service := Some i;
                                        pipe_funcs := FuncsService i; pipe_args := args |}]>
                         (pheap m) |}).
Proof.
  intros Hc Hp Hr Hn Eq Hok Hlen Hf Hs Hinit Hpeer.
  assert (Hl : (length rec + length b <= 128)%nat) by (rewrite <- length_app, Eq; done).
  unfold pipeConnector_sendBuffers. rewrite (deref_Some _ _ _ Hc Hr).
  cbn [mbind res_bind]. rewrite connector_fill_one by done. cbn [pcon_buffpos pcon_buffer].
  rewrite Nat2Z.id, take_app_length, Eq.
  assert (exists k, memchr 0 (connect_request name args) = Some k) as [k ->].
  { rewrite connect_request_snoc, memchr_app by (by apply request_no_zero). eauto. }
  replace (list_eqb (take 5 _) pipe_prefix) with true; cbn [negb].
  2:{ symmetry. apply bool_decide_eq_true. done. }
  destruct (connector_parse_request name args
              (replicate (128 - length (connect_request name args)) 0) Hok) as [b' ->].
  unfold connector_connect, get_service. cbn. rewrite Hf. cbn. rewrite Hs. cbn. rewrite Hinit. cbn.
  rewrite (proj2 (Z.eqb_neq peer 0)) by done.
  rewrite (mod_pipe_Ok p _ _ n) by done. cbn. unfold free_obj.
  rewrite (proj2 (Z.eqb_neq c 0)) by done. rewrite lookup_insert_eq. cbn.
  by rewrite insert_insert_eq, delete_insert_eq.
Qed.

(** The guest writes the chunks one after the other on the pipe [p]: the
    answers it gets. *)
Fixpoint send_chunks (p : Z) (chunks : list (list Z)) (m : machine W)
    : res (list Z * machine W) :=
  match chunks with
  | [] => Ok ([], m)
  | b :: rest =>
      n ← deref (pheap m) p;
      '(r, m1) ← call_sendBuffers n [b] m;
      '(rs, m2) ← send_chunks p rest m1;
      Ok (r :: rs, m2)
  end.

Lemma send_chunks_from chunks lastc rec m p n name args i s peer w' :
  pipe_opaque n <> 0 -> p <> 0 -> received m (pipe_opaque n) p rec -> pheap m !! p = Some n ->
  pipe_funcs n = FuncsConnector ->
  rec ++ concat (chunks ++ [lastc]) = connect_request name args -> lastc <> [] ->
  request_ok name args -> (length (connect_request name args) <= 128)%nat ->
  qemu_pipe_find_type name (svcs m) = Some i -> svcs m !! i = Some s ->
  f_init (svc_funcs s) p (svc_opaque s) args (world m) = Ok (peer, w') -> peer <> 0 ->
  send_chunks p (chunks ++ [lastc]) m =
    Ok ((fun b => Z.of_nat (length b)) <$> chunks ++ [lastc],
      {| m with world := w'; cheap := delete (pipe_opaque n) (cheap m);
                pheap := <[p := {| n with pipe_opaque := peer; pipe_service := Some i;
                                          pipe_funcs := FuncsService i; pipe_args := args |}]>
                           (pheap m) |}).
Proof.
  revert rec m; induction chunks as [|b chunks IH];
    intros rec m Hc Hp Hr Hn Ef Eq Hlast Hok Hlen Hf Hs Hi Hpeer; cbn [send_chunks app].
  - cbn in Eq. rewrite app_nil_r in Eq.
    rewrite (deref_Some _ _ n) by done. cbn [mbind res_bind]. unfold call_sendBuffers. rewrite Ef.
    by rewrite (connector_send_last m _ p n rec lastc name args i s peer w').
  - rewrite (deref_Some _ _ n) by done. cbn [mbind res_bind]. unfold call_sendBuffers at 1. rewrite Ef.
    cbn [app concat] in Eq.
    assert (H0 : 0 ∉ rec ++ b).
    { rewrite concat_app in Eq. cbn [concat] in Eq. rewrite app_nil_r in Eq.
      destruct lastc as [|z lastc _] using rev_ind; [done|].
      rewrite connect_request_snoc, !app_assoc in Eq. apply app_inj_2 in Eq as [Eq _]; [|done].
      intros Hin.
      apply (request_no_zero name args); [done|]. rewrite <- Eq. set_solver. }
    assert (Hl : (length rec + length b <= 128)%nat).
    { rewrite <- Eq, !length_app in Hlen. lia. }
    destruct (connector_send_part m _ p rec b Hc Hr H0 Hl) as (m' & E & Hr' & Em & Ed).
    rewrite E. cbn [mbind res_bind]. rewrite Em in Hr' |- *. cbn in Hr'.
    rewrite (IH (rec ++ b)); try done; [|by rewrite <- app_assoc].
    cbn. by rewrite Ed.
Qed.
End connector.

(** A driver that does not use the parameter block writes each register. *)
Definition register_writes (a : access_params) : list access :=
  [GuestWrite PIPE_REG_CHANNEL (aps_channel a); GuestWrite PIPE_REG_CHANNEL_HIGH 0;
   GuestWrite PIPE_REG_SIZE (aps_size a);
   GuestWrite PIPE_REG_ADDRESS (aps_address a); GuestWrite PIPE_REG_ADDRESS_HIGH 0;
   GuestWrite PIPE_REG_COMMAND (aps_cmd a)].

Lemma set_low_high old v : in_range 32 v -> uint64_set_high (uint64_set_low old v) 0 = v.
Proof.
  intros Hv. unfold uint64_set_high, uint64_set_low. rewrite (wrap_small 32 v Hv).
  rewrite land_disjoint_low by done. change (Z.shiftl (u32 0) 32) with 0. apply Z.lor_0_r.
Qed.

Lemma field_range bs off n :
  Forall (in_range 8) bs -> (off + n <= length bs)%nat -> 0 <= field bs off n < 256 ^ Z.of_nat n.
Proof.
  intros Hb Hl. unfold field. pose proof (of_le_range (take n (drop off bs))) as H.
  rewrite length_take, length_drop, Nat.min_l in H by lia. apply H.
  by apply Forall_take, Forall_drop.
Qed.

Section protocol.
Context {W : Type} (inv : W -> Prop) (live : W -> Z -> Prop) (phys : Z -> Z).
Local Abbreviation wf := (wf inv live).
Implicit Types (m : machine W).

(** C6.  The handshake: however the guest cuts the connection request
    ["pipe:<name>[:<args>]\0"] into writes on a newly opened channel, each
    write is accepted in full, the service of that name is asked once to
    accept the connection, with these arguments, and the pipe is handed over
    to it while its connector is freed. *)
Theorem connect_by_chunks m p n chunks lastc name args i s peer w' :
  wf m -> pheap m !! p = Some n -> pipe_funcs n = FuncsConnector ->
  cheap m !! pipe_opaque n = Some (mkConnector p (replicate 128 0) 0) ->
  concat (chunks ++ [lastc]) = connect_request name args -> lastc <> [] ->
  request_ok name args -> (length (connect_request name args) <= 128)%nat ->
  qemu_pipe_find_type name (svcs m) = Some i -> svcs m !! i = Some s ->
  f_init (svc_funcs s) p (svc_opaque s) args (world m) = Ok (peer, w') -> peer <> 0 ->
  send_chunks p (chunks ++ [lastc]) m =
    Ok ((fun b => Z.of_nat (length b)) <$> chunks ++ [lastc],
      {| m with world := w'; cheap := delete (pipe_opaque n) (cheap m);
                pheap := <[p := {| n with pipe_opaque := peer; pipe_service := Some i;
                                          pipe_funcs := FuncsService i; pipe_args := args |}]>
                           (pheap m) |}).
Proof.
  intros Hwf Hn Ef Hc. intros. eapply (send_chunks_from _ _ []); try done.
  - eapply (core_addr inv live); [apply Hwf|eauto].
  - eapply (core_addr inv live); [apply Hwf|eauto].
Qed.

(** C7.  The parameter block is a faithful shortcut: for a read or a write
    command, one write to [PIPE_REG_ACCESS_PARAMS] leaves the machine in the
    state the six register writes of the slow path leave it in, but for the
    status, which is stored in the [result] field of the block as well. *)
Theorem access_params_equiv m v m' bs a :
  bs = cpu_physical_memory_read phys m (dev_params_addr (dev m)) sizeof_params ->
  Forall (in_range 8) bs -> a = decode_params bs ->
  dev_params_addr (dev m) <> 0 ->
  (aps_cmd a = PIPE_CMD_READ_BUFFER \/ aps_cmd a = PIPE_CMD_WRITE_BUFFER) ->
  exec phys (GuestWrite PIPE_REG_ACCESS_PARAMS v) m = Ok m' <->
  exists m1, exec_all phys (register_writes a) m = Ok m1 /\
    m' = cpu_physical_memory_write phys (dev_params_addr (dev m))
           (blit bs result_off (le_bytes 4 (dev_status (dev m1)))) m1.
Proof.
  intros Hbs Hb Ha Hpa Hcmd.
  assert (Hlen : length bs = 24%nat).
  { rewrite Hbs. unfold cpu_physical_memory_read. by rewrite length_fmap, length_seq. }
  assert (H1 : in_range 32 (aps_channel a) /\ in_range 32 (aps_size a) /\
               in_range 32 (aps_address a) /\ in_range 32 (aps_cmd a)).
  { rewrite Ha. split_and!; apply (field_range bs _ 4); rewrite ?Hlen; try done; lia. }
  destruct H1 as (R1 & R2 & R3 & R4).
  set (m1 := set_dev (fun d => {| d with dev_channel := aps_channel a;
                                        dev_size := aps_size a;
                                        dev_address := aps_address a |}) m).
  assert (E1 : exec phys (GuestWrite PIPE_REG_ACCESS_PARAMS v) m =
    m2 ← pipeDevice_doCommand phys (aps_cmd a) m1;
    Ok (cpu_physical_memory_write phys (dev_params_addr (dev m))
          (blit bs result_off (le_bytes 4 (dev_status (dev m2)))) m2)).
  { cbn -[access_params_write]. unfold access_params_write.
    rewrite (proj2 (Z.eqb_neq _ _) Hpa). cbn [qemu_guest_is_64bit Z.eqb].
    rewrite <- Hbs, <- Ha. fold m1. by destruct Hcmd as [->| ->]. }
  assert (E2 : exec_all phys (register_writes a) m = pipeDevice_doCommand phys (aps_cmd a) m1).
  { unfold register_writes. cbn -[pipeDevice_doCommand uint64_set_low uint64_set_high wrap].
    unfold set_dev. cbn -[pipeDevice_doCommand uint64_set_low uint64_set_high wrap].
    rewrite !set_low_high by done. rewrite !wrap_small by done.
    unfold m1, set_dev. by destruct (pipeDevice_doCommand _ _ _). }
  rewrite E1, E2. split.
  - intros (m2 & E & [= <-])%bind_Ok. eauto.
  - intros (m2 & -> & ->). done.
Qed.

(** The buffer commands of a pipe a service owns, given the service's answer. *)
Lemma doCommand_service m p n i s :
  wf m -> pheap m !! p = Some n -> pipe_channel n = dev_channel (dev m) ->
  pipe_closed n = false -> pipe_funcs n = FuncsService i -> svcs m !! i = Some s ->
  (forall r w, f_sendBuffers (svc_funcs s) (pipe_opaque n)
       [read_mem (ram m) (phys (dev_address (dev m))) (Z.to_nat (dev_size (dev m)))] (world m)
       = Ok (r, w) ->
     pipeDevice_doCommand phys PIPE_CMD_WRITE_BUFFER m = Ok (set_status r {| m with world := w |})) /\
  (forall r data w,
     f_recvBuffers (svc_funcs s) (pipe_opaque n) [dev_size (dev m)] (world m) = Ok (r, data, w) ->
     pipeDevice_doCommand phys PIPE_CMD_READ_BUFFER m =
       Ok (set_status r {| m with world := w;
             ram := write_mem (ram m) (phys (dev_address (dev m))) (default [] (head data)) |})).
Proof.
  intros Hwf Hn Ec Hcl Ef Hs.
  assert (Hp : p <> 0) by (eapply (core_addr inv live); [apply Hwf|eauto]).
  split.
  - intros r w E.
    destruct (doCommand_found inv live phys m p n PIPE_CMD_WRITE_BUFFER Hwf Hn Ec)
      as (l1 & l2 & ls & _ & Eq).
    rewrite Eq, Hcl. cbn. unfold doCommand_switch, cmd_write_buffer. cbn.
    rewrite (deref_Some _ _ n) by done. unfold call_sendBuffers, get_service. cbn.
    rewrite Ef, Hs. cbn. by rewrite E.
  - intros r data w E.
    destruct (doCommand_found inv live phys m p n PIPE_CMD_READ_BUFFER Hwf Hn Ec)
      as (l1 & l2 & ls & _ & Eq).
    rewrite Eq, Hcl. cbn. unfold doCommand_switch, cmd_read_buffer. cbn.
    rewrite (deref_Some _ _ n) by done. unfold call_recvBuffers, get_service. cbn.
    rewrite Ef, Hs. cbn. by rewrite E.
Qed.

(** The service of a connected pipe keeps its promises. *)
Lemma service_laws m p n i s :
  wf m -> pheap m !! p = Some n -> pipe_funcs n = FuncsService i -> svcs m !! i = Some s ->
  ServiceLaws inv live (svc_funcs s) /\ inv (world m) /\ live (world m) (pipe_opaque n).
Proof.
  intros Hwf Hn Ef Hs.
  pose proof (core_pipe inv live m p n (wf_core _ _ _ Hwf) Hn) as [_ Hok]. rewrite Ef in Hok.
  split_and!; [|by apply Hwf|by apply Hok].
  apply (ok_svcs _ _ _ _ _ _ _ (wf_core _ _ _ Hwf)). by eapply list_elem_of_lookup_2.
Qed.

(** The buffer commands of a pipe that a service owns.  A write hands the
    [dev->size] bytes of guest memory at [dev->address] to the service, a read
    stores what the service produced at that place and changes no byte of
    memory outside of the guest's buffer; the status register is the service's
    answer. *)
Theorem buffer_commands m p n i s :
  wf m -> pheap m !! p = Some n -> pipe_channel n = dev_channel (dev m) ->
  pipe_closed n = false -> pipe_funcs n = FuncsService i -> svcs m !! i = Some s ->
  (exists r w,
     f_sendBuffers (svc_funcs s) (pipe_opaque n)
       [read_mem (ram m) (phys (dev_address (dev m))) (Z.to_nat (dev_size (dev m)))] (world m)
       = Ok (r, w) /\
     pipe_dev_write phys PIPE_REG_COMMAND PIPE_CMD_WRITE_BUFFER m =
       Ok (set_status r {| m with world := w |})) /\
  (exists r data w,
     f_recvBuffers (svc_funcs s) (pipe_opaque n) [dev_size (dev m)] (world m) = Ok (r, data, w) /\
     pipe_dev_write phys PIPE_REG_COMMAND PIPE_CMD_READ_BUFFER m =
       Ok (set_status r {| m with world := w;
             ram := write_mem (ram m) (phys (dev_address (dev m))) (default [] (head data)) |}) /\
     forall x, ~ (phys (dev_address (dev m)) <= x
                  < phys (dev_address (dev m)) + Z.max 0 (dev_size (dev m))) ->
       write_mem (ram m) (phys (dev_address (dev m))) (default [] (head data)) !! x = ram m !! x).
Proof.
  intros Hwf Hn Ec Hcl Ef Hs.
  destruct (service_laws m p n i s Hwf Hn Ef Hs) as (Hlaws & Hw & Hlive).
  destruct (doCommand_service m p n i s Hwf Hn Ec Hcl Ef Hs) as [Hsend Hrecv]. split.
  - destruct (law_send (pipe_opaque n) [read_mem (ram m) (phys (dev_address (dev m)))
      (Z.to_nat (dev_size (dev m)))] (world m) eq_refl Hw Hlive) as (r & w & E & _).
    exists r, w. split; [done|]. by apply Hsend.
  - destruct (law_recv (pipe_opaque n) [dev_size (dev m)] (world m) eq_refl Hw Hlive)
      as (r & data & w & E & _ & _ & Hd & _).
    exists r, data, w. split; [done|]. split; [by apply Hrecv|].
    intros x Hx. rewrite write_mem_lookup, decide_False; [done|].
    destruct data as [|d data]; cbn; [lia|].
    destruct (Hd 0%nat d eq_refl) as (z & [= <-] & Hz). lia.
Qed.

(** The table of services: registering a service whose name is new makes
    the lookup of that name find it and no other lookup change; a full table
    or a name of more than 255 bytes leaves the table as it was. *)
Theorem add_type_find_type (l : list (PipeService W)) name op F :
  let l' := qemu_pipe_add_type name op F l in
  ((length l < MAX_PIPE_SERVICES)%nat -> Z.of_nat (length name) <= MAX_PIPE_SERVICE_NAME_SIZE ->
     qemu_pipe_find_type name l = None ->
     qemu_pipe_find_type name l' = Some (length l) /\
     l' !! length l = Some (mkService name op F)) /\
  (forall other i, qemu_pipe_find_type other l = Some i -> qemu_pipe_find_type other l' = Some i) /\
  ((MAX_PIPE_SERVICES <= length l)%nat \/ MAX_PIPE_SERVICE_NAME_SIZE < Z.of_nat (length name) ->
     l' = l) /\
  ((length l <= MAX_PIPE_SERVICES)%nat -> (length l' <= MAX_PIPE_SERVICES)%nat).
Proof.
  assert (Happ : forall nm l2, qemu_pipe_find_type nm (l ++ l2) =
    match qemu_pipe_find_type nm l with
    | Some i => Some i
    | None => Nat.add (length l) <$> qemu_pipe_find_type nm l2
    end).
  { intros nm l2. induction l as [|s l IH]; cbn; [by destruct (qemu_pipe_find_type nm l2)|].
    destruct (list_eqb _ _); [done|]. rewrite IH.
    destruct (qemu_pipe_find_type nm l); [done|]. by destruct (qemu_pipe_find_type nm l2). }
  unfold qemu_pipe_add_type. split_and!.
  - intros H1 H2 H3. rewrite (proj2 (Nat.leb_gt _ _)) by done.
    rewrite Z.gtb_ltb, (proj2 (Z.ltb_ge _ _)) by done. rewrite Happ, H3. cbn.
    unfold list_eqb. rewrite bool_decide_true by done. cbn. split; [f_equal; lia|].
    by rewrite lookup_app_r, Nat.sub_diag by lia.
  - intros other i Hi. repeat case_match; try done. by rewrite Happ, Hi.
  - intros H. case_match eqn:E1; [done|]. apply Nat.leb_gt in E1. rewrite Z.gtb_ltb.
    by rewrite (proj2 (Z.ltb_lt _ _)) by (unfold MAX_PIPE_SERVICES in *; lia).
  - intros H. repeat case_match; try done. rewrite length_app. cbn.
    apply Nat.leb_gt in H0. unfold MAX_PIPE_SERVICES in *. lia.
Qed.
End protocol.
