(* ===== verification/PipeWitnesses.v ===== *)
(** * Concrete runs of the QEMU pipe device

    The theorems of [PipeDeviceTheorems] and [PipeProtocol] applied to the
    loopback service: their hypotheses hold on states the device reaches. *)

From S2P Require Import Prelude IntrusiveList PipeDevice PipeDeviceProofs PipeDeviceTheorems PipeProtocol.
Import Loopback.

Definition run (l : list access) : machine state :=
  match exec_all phys l start with Ok m => m | Fault _ => start end.

(** Channel 5 is selected, then opened, then woken by its service, ... *)
Definition selected : machine state := run [GuestWrite PIPE_REG_CHANNEL 5].
Definition opened : machine state :=
  run [GuestWrite PIPE_REG_CHANNEL 5; GuestWrite PIPE_REG_COMMAND PIPE_CMD_OPEN].
Definition woken : machine state :=
  match qemu_pipe_wake 1 PIPE_WAKE_READ opened with Ok m => m | Fault _ => start end.
(** ... or connected to the loopback service by writing ["pipe:loop\0"]. *)
Definition connected : machine state :=
  run [GuestWrite PIPE_REG_CHANNEL 5; GuestWrite PIPE_REG_COMMAND PIPE_CMD_OPEN;
       GuestWrite PIPE_REG_ADDRESS 64; GuestWrite PIPE_REG_SIZE 10;
       GuestWrite PIPE_REG_COMMAND PIPE_CMD_WRITE_BUFFER].
(** ... and the parameter block set up at address 256 for a write of 4 bytes. *)
Definition params : access_params := mkParams 5 4 64 PIPE_CMD_WRITE_BUFFER 0 0.
Definition batched : machine state :=
  let m := run [GuestWrite PIPE_REG_CHANNEL 5; GuestWrite PIPE_REG_COMMAND PIPE_CMD_OPEN;
                GuestWrite PIPE_REG_ADDRESS 64; GuestWrite PIPE_REG_SIZE 10;
                GuestWrite PIPE_REG_COMMAND PIPE_CMD_WRITE_BUFFER;
                GuestWrite PIPE_REG_PARAMS_ADDR_LOW 256] in
  {| m with ram := write_mem (ram m) 256 (encode_params params) |}.

Definition pipe5 : Pipe := mkPipe 0 0 5 2 FuncsConnector None None 0 false.
Definition pipe5_connected : Pipe :=
  mkPipe 0 0 5 1 (FuncsService 0) (Some 0%nat) None 0 false.

Lemma services_ok s : s ∈ services -> ServiceLaws inv live (svc_funcs s).
Proof. intros ->%list_elem_of_singleton. apply laws. Qed.

Lemma empty_inv : inv empty.
Proof. split; cbn; [lia|]. intros q [x Hx]. by rewrite lookup_empty in Hx. Qed.

Lemma run_reachable l m :
  forallb guest_only l = true -> exec_all phys l start = Ok m -> reachable phys start m.
Proof. apply guest_run_reachable. Qed.

Lemma run_wf l m :
  forallb guest_only l = true -> exec_all phys l start = Ok m -> wf inv live m.
Proof.
  intros Hl E. eapply (reachable_inv inv live phys start).
  - apply initfn_wf; [apply services_ok|apply empty_inv].
  - by eapply run_reachable.
Qed.

Lemma selected_wf : wf inv live selected.
Proof. apply (run_wf [GuestWrite PIPE_REG_CHANNEL 5]); run_vm. Qed.

Lemma opened_wf : wf inv live opened.
Proof.
  apply (run_wf [GuestWrite PIPE_REG_CHANNEL 5; GuestWrite PIPE_REG_COMMAND PIPE_CMD_OPEN]); run_vm.
Qed.

Lemma connected_wf : wf inv live connected.
Proof.
  apply (run_wf [GuestWrite PIPE_REG_CHANNEL 5; GuestWrite PIPE_REG_COMMAND PIPE_CMD_OPEN;
       GuestWrite PIPE_REG_ADDRESS 64; GuestWrite PIPE_REG_SIZE 10;
       GuestWrite PIPE_REG_COMMAND PIPE_CMD_WRITE_BUFFER]); run_vm.
Qed.

Lemma selected_lists : lists selected [] [].
Proof.
  split; [done|]. intros p. change (pheap selected) with (∅ : gmap Z Pipe).
  rewrite lookup_empty. split; [set_solver|by intros []].
Qed.

Lemma opened_heap : pheap opened = {[1 := pipe5]}.
Proof. run_vm. Qed.

Lemma one_pipe_lists m n ls :
  pipes (dev m) = 1 -> pheap m = {[1 := n]} -> pipe_next n = 0 ->
  chain pipe_next_waked (pheap m) (signaled_pipes (dev m)) ls -> lists (W := state) m [1] ls.
Proof.
  intros Ep Eh En Hs. split; [split; [|done]|].
  - rewrite Ep, Eh. cbn. split; [done|]. split; [done|]. exists n. by rewrite lookup_singleton_eq.
  - intros p. rewrite Eh, lookup_singleton, list_elem_of_singleton. case_decide; subst.
    + naive_solver.
    + split; [congruence|by intros []].
Qed.

Lemma opened_lists : lists opened [1] [].
Proof. by apply (one_pipe_lists _ pipe5). Qed.

Lemma woken_wf : wf inv live woken.
Proof.
  destruct (wake_wf inv live opened 1 pipe5 PIPE_WAKE_READ opened_wf) as (m & E & H); [done|].
  replace woken with m; [done|]. unfold woken. by rewrite E.
Qed.

Lemma woken_lists : lists woken [1] [1].
Proof.
  apply (one_pipe_lists _ {| pipe5 with pipe_wanted := PIPE_WAKE_READ |}); try done.
  cbn. split_and!; [done..|]. eexists. split; [run_vm|done].
Qed.


Lemma doCommand_errors_witness :
  pipeDevice_doCommand phys PIPE_CMD_OPEN opened = Ok (set_status PIPE_ERROR_INVAL opened).
Proof.
  apply (doCommand_errors inv live phys opened 1 pipe5 PIPE_CMD_OPEN opened_wf); run_vm.
Defined.

Lemma open_close_roundtrip_witness :
  exists m1 m2 p c,
    pipe_dev_write phys PIPE_REG_COMMAND PIPE_CMD_OPEN selected = Ok m1 /\
    lists m1 [p] [] /\ view selected !! p = None /\
    view m1 = <[p := mkPipe 0 0 5 c FuncsConnector None None 0 false]> (view selected) /\
    cheap m1 !! c = Some (mkConnector p (replicate 128 0) 0) /\ dev_status (dev m1) = 0 /\
    pipe_dev_write phys PIPE_REG_COMMAND PIPE_CMD_CLOSE m1 = Ok m2 /\ wf inv live m2 /\
    lists m2 [] [] /\ view m2 = view selected.
Proof.
  apply (open_close_roundtrip inv live phys selected [] [] selected_wf selected_lists).
  intros p n. change (pheap selected) with (∅ : gmap Z Pipe). by rewrite lookup_empty.
Defined.

Lemma wake_delivered_witness :
  exists m1 m2 ls',
    qemu_pipe_wake 1 PIPE_WAKE_WRITE woken = Ok m1 /\ dev_irq (dev m1) = true /\
    ls' = (if decide (1 ∈ [1]) then [1] else [1; 1]) /\ NoDup ls' /\
    signal_of m1 1 = (5, 6) /\ (forall q, q <> 1 -> signal_of m1 q = signal_of woken q) /\
    drain (length ls') m1 = Ok (signal_of m1 <$> ls', m2) /\
    lists m2 [1] [] /\ dev_irq (dev m2) = false /\
    (forall q, q ∈ ls' -> exists nq, pheap m2 !! q = Some nq /\ pipe_wanted nq = 0).
Proof.
  apply (wake_delivered inv live woken [1] [1] 1 {| pipe5 with pipe_wanted := PIPE_WAKE_READ |}
           PIPE_WAKE_WRITE woken_wf woken_lists). run_vm.
Defined.

(** The request ["pipe:loop:x\0"] written in three pieces. *)
Lemma connect_by_chunks_witness :
  send_chunks 1 [[112; 105]; [112; 101; 58; 108; 111; 111; 112]; [58; 120; 0]] opened =
    Ok ([2; 7; 3],
      {| opened with world := mk 2 {[1 := []]}; cheap := delete 2 (cheap opened);
                     pheap := <[1 := mkPipe 0 0 5 1 (FuncsService 0) (Some 0%nat) (Some [120]) 0 false]>
                                (pheap opened) |}).
Proof.
  apply (connect_by_chunks inv live opened 1 pipe5
           [[112; 105]; [112; 101; 58; 108; 111; 111; 112]] [58; 120; 0] name (Some [120])
           0 (mkService name 7 funcs) 1 (mk 2 {[1 := []]}) opened_wf);
    try run_vm; try done.
  - unfold request_ok, name. rewrite !not_elem_of_cons. split_and!; try lia; try apply not_elem_of_nil; try done.
  - cbn. lia.
Defined.

Lemma access_params_equiv_witness :
  exec phys (GuestWrite PIPE_REG_ACCESS_PARAMS 1) batched =
    Ok (match exec phys (GuestWrite PIPE_REG_ACCESS_PARAMS 1) batched with
        | Ok m => m | Fault _ => batched end) <->
  exists m1, exec_all phys (register_writes params) batched = Ok m1 /\
    (match exec phys (GuestWrite PIPE_REG_ACCESS_PARAMS 1) batched with
     | Ok m => m | Fault _ => batched end)
    = cpu_physical_memory_write phys 256
        (blit (encode_params params) result_off (le_bytes 4 (dev_status (dev m1)))) m1.
Proof.
  apply (access_params_equiv phys batched 1 _ (encode_params params) params);
    try run_vm.
  - apply bytes_ok. run_vm.
  - vm_compute. discriminate.
  - by right.
Defined.

Lemma buffer_commands_witness :
  (exists r w,
     f_sendBuffers funcs 1 [pipe_prefix ++ name ++ [0]] (world connected) = Ok (r, w) /\
     pipe_dev_write phys PIPE_REG_COMMAND PIPE_CMD_WRITE_BUFFER connected =
       Ok (set_status r {| connected with world := w |})) /\
  (exists r data w,
     f_recvBuffers funcs 1 [10] (world connected) = Ok (r, data, w) /\
     pipe_dev_write phys PIPE_REG_COMMAND PIPE_CMD_READ_BUFFER connected =
       Ok (set_status r {| connected with world := w;
             ram := write_mem (ram connected) 64 (default [] (head data)) |}) /\
     forall x, ~ (64 <= x < 64 + Z.max 0 10) ->
       write_mem (ram connected) 64 (default [] (head data)) !! x = ram connected !! x).
Proof.
  apply (buffer_commands inv live phys connected 1 pipe5_connected 0 (mkService name 7 funcs)
           connected_wf); run_vm.
Defined.

Lemma add_type_find_type_witness :
  qemu_pipe_find_type name (qemu_pipe_add_type name 7 funcs []) = Some 0%nat /\
  qemu_pipe_add_type name 7 funcs [] !! 0%nat = Some (mkService name 7 funcs).
Proof. apply (add_type_find_type [] name 7 funcs); [unfold MAX_PIPE_SERVICES; cbn; lia|done|done]. Defined.
