(* ===== verification/GuestDriver.v ===== *)
(** * The guest kernel driver ([vm-kernel-qemupipe/qemu_pipe.c])

    The character device of the guest.  A file is a pipe: [open] allocates a
    [struct qemu_pipe], whose address is the channel, [read] and [write]
    transfer the user's buffer page by page and sleep when the emulator is not
    ready, the interrupt handler clears the flags the sleepers wait on.

    The driver is a 32-bit ARM module: an [unsigned long] is a [Z] in
    [0, 2^32).  What the kernel decides (allocation, locks, user pages,
    signals) is an argument of the operations.  A section under the spinlock is
    one step. *)

From S2P Require Import Prelude PipeDevice.

(** ** The device seen by the driver *)

(** Its registers ([readl] and [writel] on [dev->base]) and the guest memory it
    shares with the driver, by physical address. *)
Class PipeMMIO (D : Type) : Type := {
  readl : Z -> D -> res (Z * D);
  writel : Z -> Z -> D -> res D;
  load : D -> Z -> nat -> list Z;
  store : Z -> list Z -> D -> D
}.

(** The QEMU pipe device, mapped in the guest's physical memory. *)
Definition machine_mmio {W} (phys : Z -> Z) : PipeMMIO (machine W) := {|
  readl off m := '(v, m') ← pipe_dev_read off m; Ok (u32 v, m');
  writel v off m := pipe_dev_write phys off (u32 v) m;
  load m a n := cpu_physical_memory_read phys m a n;
  store a bs m := cpu_physical_memory_write phys a bs m
|}.

(** ** Constants *)

Definition PAGE_SIZE := 4096.
Definition PAGE_MASK := 0xFFFFF000.
Definition IMPOSSIBLE_BATCH_RESULT := 0xdeadbeaf.

Definition BIT_CLOSED_ON_HOST := 0.
Definition BIT_WAKE_ON_WRITE := 1.
Definition BIT_WAKE_ON_READ := 2.

Definition EIO := 5.
Definition EAGAIN := 11.
Definition ENOMEM := 12.
Definition EFAULT := 14.
Definition ENODEV := 19.
Definition EINVAL := 22.
Definition ERESTARTSYS := 512.

Definition POLLIN := 0x0001.
Definition POLLOUT := 0x0004.
Definition POLLERR := 0x0008.
Definition POLLHUP := 0x0010.
Definition POLLRDNORM := 0x0040.
Definition POLLWRNORM := 0x0100.

Definition IRQ_NONE := 0.
Definition IRQ_HANDLED := 1.

Definition set_bit (b f : Z) : Z := Z.lor f (Z.shiftl 1 b).
Definition clear_bit (b f : Z) : Z := Z.ldiff f (Z.shiftl 1 b).
Definition test_bit (b f : Z) : bool := Z.testbit f b.

(** ** Data *)

(** [struct qemu_pipe]: [kp_lock] is the thread that owns the mutex, zero when
    it is free. *)
Record qemu_pipe : Type := mkQPipe { kp_lock : Z; kp_flags : Z }.

(** [struct qemu_pipe_dev]: the mapping of the registers, the parameter block
    (its physical address, zero for none), the interrupt number, the radix
    tree of the pipes and the version of the device. *)
Record qemu_pipe_dev : Type := mkQDev {
  qd_base : Z;
  qd_aps : Z;
  qd_irq : Z;
  qd_pipes : gmap Z Z;
  qd_version : Z
}.

(** The kernel: the global driver data, the live [qemu_pipe] objects, and the
    emulated device. *)
Record kernel (D : Type) : Type := mkKernel {
  kdev : qemu_pipe_dev;
  kpipes : gmap Z qemu_pipe;
  kio : D
}.
Arguments mkKernel {D}.
Arguments kdev {D}.
Arguments kpipes {D}.
Arguments kio {D}.

(** [struct file] *)
Record file : Type := mkFile { private_data : Z; f_nonblock : bool }.

(** Where a thread stands in [qemu_pipe_read_write]: at the head of the
    transfer loop, at the test of the waiting loop, in
    [wait_event_interruptible], about to take the mutex again, or back with a
    result. *)
Inductive rw_pc : Type := RWLoop | RWTest | RWWait | RWRelock | RWDone (ret : Z).

(** The local variables of [qemu_pipe_read_write]. *)
Record rw_frame : Type := mkFrame {
  rw_tid : Z;
  rw_pipe : Z;
  rw_write : bool;
  rw_nonblock : bool;
  rw_address : Z;
  rw_address_end : Z;
  rw_count : Z;
  rw_at : rw_pc
}.

(** ** Operations *)

(** [int qemu_pipe_error_convert(status)] *)
Definition qemu_pipe_error_convert (status : Z) : Z :=
  if status =? PIPE_ERROR_AGAIN then - EAGAIN
  else if status =? PIPE_ERROR_NOMEM then - ENOMEM
  else if status =? PIPE_ERROR_IO then - EIO
  else - EINVAL.

Section operations.
Context {D : Type} `{PipeMMIO D}.
Implicit Types (k : kernel D).

Definition set_io (k : kernel D) (d : D) : kernel D := {| k with kio := d |}.

Definition mod_kpipe (p : Z) (f : qemu_pipe -> qemu_pipe) (k : kernel D) : res (kernel D) :=
  n ← deref (kpipes k) p;
  Ok {| k with kpipes := <[p := f n]> (kpipes k) |}.

(** A sequence of register writes. *)
Fixpoint writels (l : list (Z * Z)) (d : D) : res D :=
  match l with
  | [] => Ok d
  | (v, off) :: l' => d' ← writel v off d; writels l' d'
  end.

(** [int valid_batchbuffer_addr(dev, aps)], [aps] by its physical address *)
Definition valid_batchbuffer_addr (aps : Z) (d : D) : res (bool * D) :=
  '(aph, d1) ← readl PIPE_REG_PARAMS_ADDR_HIGH d;
  '(apl, d2) ← readl PIPE_REG_PARAMS_ADDR_LOW d1;
  let paddr := Z.lor (Z.shiftl aph 32) apl in
  Ok (paddr =? aps, d2).

(** [int setup_access_params_addr(dev)]; [aps] is the block the allocator
    gives, zero when it fails *)
Definition setup_access_params_addr (aps : Z) (k : kernel D) : res (Z * kernel D) :=
  if aps =? 0 then Ok (-1, k)
  else
    d ← writels [(u32 (Z.shiftr aps 32), PIPE_REG_PARAMS_ADDR_HIGH);
                 (u32 aps, PIPE_REG_PARAMS_ADDR_LOW)] (kio k);
    '(valid, d') ← valid_batchbuffer_addr aps d;
    let k' := set_io k d' in
    if (valid : bool) then
      Ok (0, {| k' with kdev := let q := kdev k' in {| q with qd_aps := aps |} |})
    else Ok (-1, k').

(** [int access_with_param(dev, cmd, address, avail, pipe, &status)]: the
    fields of the block are stored in guest memory, [flags] excepted; the
    answer is [None] where the C function returns -1 *)
Definition access_with_param (aps cmd address avail pipe : Z) (d : D) : res (option Z * D) :=
  let d1 := store (aps + 16) (le_bytes 4 IMPOSSIBLE_BATCH_RESULT) d in
  let d2 := store aps (le_bytes 4 pipe) d1 in
  let d3 := store (aps + 4) (le_bytes 4 avail) d2 in
  let d4 := store (aps + 8) (le_bytes 4 address) d3 in
  let d5 := store (aps + 12) (le_bytes 4 cmd) d4 in
  d6 ← writel cmd PIPE_REG_ACCESS_PARAMS d5;
  let result := of_le (load d6 (aps + 16) 4) in
  if result =? IMPOSSIBLE_BATCH_RESULT then Ok (None, d6)
  else Ok (Some (s32 result), d6).

(** The slow path: one register after the other. *)
Definition access_registers (cmd address avail pipe : Z) (d : D) : res (Z * D) :=
  d1 ← writels [(pipe, PIPE_REG_CHANNEL); (avail, PIPE_REG_SIZE); (address, PIPE_REG_ADDRESS);
                (cmd, PIPE_REG_COMMAND)] d;
  '(status, d2) ← readl PIPE_REG_STATUS d1;
  Ok (s32 status, d2).

(** The transfer of the bytes of one page under [dev->lock]. *)
Definition transfer (q : qemu_pipe_dev) (cmd xaddr avail pipe : Z) (d : D) : res (Z * D) :=
  if qd_aps q =? 0 then access_registers cmd xaddr avail pipe d
  else
    '(r, d1) ← access_with_param (qd_aps q) cmd xaddr avail pipe d;
    match r with
    | Some status => Ok (status, d1)
    | None => access_registers cmd xaddr avail pipe d1
    end.

Definition mutex_unlock (tid pipe : Z) (k : kernel D) : res (kernel D) :=
  n ← deref (kpipes k) pipe;
  if kp_lock n =? tid then mod_kpipe pipe (fun n => {| n with kp_lock := 0 |}) k
  else Fault BadUnlock.

Definition cmd_offset (is_write : bool) : Z :=
  if is_write then 0 else PIPE_CMD_READ_BUFFER - PIPE_CMD_WRITE_BUFFER.

Definition wakeBit (is_write : bool) : Z :=
  if is_write then BIT_WAKE_ON_WRITE else BIT_WAKE_ON_READ.

Definition rw_goto (t : rw_frame) (pc : rw_pc) : rw_frame := {| t with rw_at := pc |}.

(** [mutex_unlock(&pipe->lock)] after the loop, then the return *)
Definition rw_break (t : rw_frame) (ret : Z) (k : kernel D) : res (option (rw_frame * kernel D)) :=
  k' ← mutex_unlock (rw_tid t) (rw_pipe t) k;
  Ok (Some (rw_goto t (RWDone (if ret <? 0 then ret else rw_count t)), k')).

(** [qemu_pipe_read_write] up to its loop, by the thread [tid]; [acc] is the
    answer of [access_ok], [intr] says that a signal comes while the thread
    waits for the mutex.  [None]: the thread waits. *)
Definition rw_enter (tid : Z) (filp : file) (buffer bufflen : Z) (is_write acc intr : bool)
    (k : kernel D) : res (option (rw_frame * kernel D)) :=
  let pipe := private_data filp in
  let t := mkFrame tid pipe is_write (f_nonblock filp) buffer (u32 (buffer + bufflen)) 0 RWLoop in
  n ← deref (kpipes k) pipe;
  if test_bit BIT_CLOSED_ON_HOST (kp_flags n) then Ok (Some (rw_goto t (RWDone (- EIO)), k))
  else if bufflen =? 0 then Ok (Some (rw_goto t (RWDone (- EINVAL)), k))
  else if negb acc then Ok (Some (rw_goto t (RWDone (- EFAULT)), k))
  else if kp_lock n =? 0 then
    k' ← mod_kpipe pipe (fun n => {| n with kp_lock := tid |}) k;
    Ok (Some (t, k'))
  else if intr then Ok (Some (rw_goto t (RWDone (- ERESTARTSYS)), k))
  else Ok None.

(** What [get_user_pages] answers: an error, or the physical address of the
    page. *)
Definition gup : Type := (Z + Z)%type.

(** One turn of the transfer loop. *)
Definition rw_loop (g : gup) (t : rw_frame) (k : kernel D) : res (option (rw_frame * kernel D)) :=
  let address := rw_address t in
  if address <? rw_address_end t then
    let page_end := u32 (Z.land address PAGE_MASK + PAGE_SIZE) in
    let next := if page_end <? rw_address_end t then page_end else rw_address_end t in
    let avail := u32 (next - address) in
    match g with
    | inl err => Ok (Some (rw_goto t (RWDone err), k))
    | inr page =>
        let xaddr := if negb (qd_version (kdev k) =? 0)
                     then Z.lor page (Z.land address (PAGE_SIZE - 1)) else address in
        let off := cmd_offset (rw_write t) in
        '(status, d) ← transfer (kdev k) (PIPE_CMD_WRITE_BUFFER + off) xaddr avail (rw_pipe t) (kio k);
        let k1 := set_io k d in
        if status >? 0 then
          Ok (Some ({| t with rw_count := s32 (rw_count t + status);
                              rw_address := u32 (address + status) |}, k1))
        else if status =? 0 then rw_break t 0 k1
        else if rw_count t >? 0 then rw_break t 0 k1
        else if negb (status =? PIPE_ERROR_AGAIN) || rw_nonblock t then
          rw_break t (qemu_pipe_error_convert status) k1
        else
          k2 ← mod_kpipe (rw_pipe t)
                 (fun n => {| n with kp_flags := set_bit (wakeBit (rw_write t)) (kp_flags n) |}) k1;
          d2 ← writels [(rw_pipe t, PIPE_REG_CHANNEL);
                        (PIPE_CMD_WAKE_ON_WRITE + off, PIPE_REG_COMMAND)] (kio k2);
          k3 ← mutex_unlock (rw_tid t) (rw_pipe t) (set_io k2 d2);
          Ok (Some (rw_goto t RWTest, k3))
    end
  else rw_break t 1 k.

(** What the kernel decides at a step of a thread: the answer of
    [get_user_pages], and whether a signal is pending. *)
Record decision : Type := mkDecision { d_gup : gup; d_signal : bool }.

(** One step of a thread inside [qemu_pipe_read_write]; [None]: it sleeps. *)
Definition rw_step (c : decision) (t : rw_frame) (k : kernel D)
    : res (option (rw_frame * kernel D)) :=
  let bit := wakeBit (rw_write t) in
  match rw_at t with
  | RWLoop => rw_loop (d_gup c) t k
  | RWTest =>
      n ← deref (kpipes k) (rw_pipe t);
      Ok (Some (rw_goto t (if test_bit bit (kp_flags n) then RWWait else RWRelock), k))
  | RWWait =>
      n ← deref (kpipes k) (rw_pipe t);
      if test_bit bit (kp_flags n) then
        Ok (if d_signal c then Some (rw_goto t (RWDone (- ERESTARTSYS)), k) else None)
      else if test_bit BIT_CLOSED_ON_HOST (kp_flags n) then
        Ok (Some (rw_goto t (RWDone (- EIO)), k))
      else Ok (Some (rw_goto t RWTest, k))
  | RWRelock =>
      n ← deref (kpipes k) (rw_pipe t);
      if kp_lock n =? 0 then
        k' ← mod_kpipe (rw_pipe t) (fun n => {| n with kp_lock := rw_tid t |}) k;
        Ok (Some (rw_goto t RWLoop, k'))
      else if d_signal c then rw_break t (- ERESTARTSYS) k
      else Ok None
  | RWDone _ => Ok None
  end.

(** [unsigned int qemu_pipe_poll(filp, wait)]; [None] while another thread has
    the mutex. *)
Definition qemu_pipe_poll (filp : file) (k : kernel D) : res (option (Z * kernel D)) :=
  let pipe := private_data filp in
  n ← deref (kpipes k) pipe;
  if negb (kp_lock n =? 0) then Ok None
  else
    d1 ← writels [(pipe, PIPE_REG_CHANNEL); (PIPE_CMD_POLL, PIPE_REG_COMMAND)] (kio k);
    '(status, d2) ← readl PIPE_REG_STATUS d1;
    let mask := if flag_set status PIPE_POLL_IN then Z.lor POLLIN POLLRDNORM else 0 in
    let mask := if flag_set status PIPE_POLL_OUT
                then Z.lor mask (Z.lor POLLOUT POLLWRNORM) else mask in
    let mask := if flag_set status PIPE_POLL_HUP then Z.lor mask POLLHUP else mask in
    let mask := if test_bit BIT_CLOSED_ON_HOST (kp_flags n) then Z.lor mask POLLERR else mask in
    Ok (Some (mask, set_io k d2)).

(** The flags of a pipe after the wake events [wakes]. *)
Definition wake_flags (wakes flags : Z) : Z :=
  let '(flags, wakes) :=
    if flag_set wakes PIPE_WAKE_CLOSED
    then (set_bit BIT_CLOSED_ON_HOST flags, Z.lor wakes (Z.lor PIPE_WAKE_READ PIPE_WAKE_WRITE))
    else (flags, wakes) in
  let flags := if flag_set wakes PIPE_WAKE_READ then clear_bit BIT_WAKE_ON_READ flags else flags in
  if flag_set wakes PIPE_WAKE_WRITE then clear_bit BIT_WAKE_ON_WRITE flags else flags.

(** The loop of [qemu_pipe_interrupt]: the number of events handled. *)
Fixpoint interrupt_loop (fuel : nat) (count : Z) (k : kernel D) : res (Z * kernel D) :=
  match fuel with
  | O => Fault OutOfFuel
  | S fuel' =>
      '(channel, d1) ← readl PIPE_REG_CHANNEL (kio k);
      if channel =? 0 then Ok (count, set_io k d1)
      else
        '(wakes, d2) ← readl PIPE_REG_WAKES d1;
        let k1 := set_io k d2 in
        match qd_pipes (kdev k1) !! Z.land channel 0xFFFFFFFF with
        | None => Ok (count, k1)
        | Some pipe =>
            k2 ← mod_kpipe pipe (fun n => {| n with kp_flags := wake_flags wakes (kp_flags n) |}) k1;
            interrupt_loop fuel' (count + 1) k2
        end
  end.

(** [irqreturn_t qemu_pipe_interrupt(irq, dev_id)] *)
Definition qemu_pipe_interrupt (fuel : nat) (k : kernel D) : res (Z * kernel D) :=
  '(count, k') ← interrupt_loop fuel 0 k;
  Ok (if count =? 0 then IRQ_NONE else IRQ_HANDLED, k').

(** [int qemu_pipe_open(inode, file)]: [pipe] is the object the allocator
    gives, [rerr] the error of the radix tree insertion when it cannot
    allocate (an index already present gives [-EEXIST], 17). *)
Definition qemu_pipe_open (pipe rerr : Z) (nonblock : bool) (k : kernel D)
    : res (Z * option file * kernel D) :=
  if pipe =? 0 then Ok (- ENOMEM, None, k)
  else
    let index := Z.land pipe 0xFFFFFFFF in
    let ret := if bool_decide (is_Some (qd_pipes (kdev k) !! index)) then -17 else rerr in
    if negb (ret =? 0) then Ok (ret, None, k)
    else
      let k1 := {| k with
        kpipes := <[pipe := mkQPipe 0 0]> (kpipes k);
        kdev := let q := kdev k in {| q with qd_pipes := <[index := pipe]> (qd_pipes q) |} |} in
      d1 ← writels [(pipe, PIPE_REG_CHANNEL); (PIPE_CMD_OPEN, PIPE_REG_COMMAND)] (kio k1);
      '(status, d2) ← readl PIPE_REG_STATUS d1;
      let k2 := set_io k1 d2 in
      if s32 status <? 0 then
        Ok (s32 status, None, {| k2 with kpipes := delete pipe (kpipes k2) |})
      else Ok (0, Some (mkFile pipe nonblock), k2).

(** [int qemu_pipe_release(inode, filp)] *)
Definition qemu_pipe_release (filp : file) (k : kernel D) : res (Z * kernel D) :=
  let pipe := private_data filp in
  _ ← deref (kpipes k) pipe;
  d1 ← writels [(pipe, PIPE_REG_CHANNEL); (PIPE_CMD_CLOSE, PIPE_REG_COMMAND)] (kio k);
  let q := kdev k in
  Ok (0, mkKernel {| q with qd_pipes := delete (Z.land pipe 0xFFFFFFFF) (qd_pipes q) |}
           (delete pipe (kpipes k)) d1).

(** [int qemu_pipe_probe(pdev)]: the resources of the platform device (the
    memory range and its mapping, the interrupt line, [None] when there is
    none), the answers of [request_irq] and [misc_register], the parameter
    block. *)
Definition qemu_pipe_probe (mem : option (Z * Z)) (base : Z) (irq : option Z)
    (request_irq misc_register aps : Z) (k : kernel D) : res (Z * kernel D) :=
  let q := kdev k in
  let k0 := {| k with kdev := {| q with qd_pipes := ∅ |} |} in
  if negb (qd_base q =? 0) then Ok (- ENODEV, k0)
  else
    match mem with
    | None => Ok (- EINVAL, k0)
    | Some (start, end_) =>
        if u32 (end_ - start) <? PAGE_SIZE - 1 then Ok (- EINVAL, k0)
        else
          match irq with
          | None => Ok (- EINVAL, k0)
          | Some n =>
              let k1 := {| k0 with kdev := {| q with qd_pipes := ∅; qd_irq := n |} |} in
              if negb (request_irq =? 0) then Ok (request_irq, k1)
              else if negb (misc_register =? 0) then Ok (misc_register, k1)
              else
                let k2 := {| k1 with kdev := {| q with qd_pipes := ∅; qd_irq := n; qd_base := base |} |} in
                '(_, k3) ← setup_access_params_addr aps k2;
                '(v, d) ← readl PIPE_REG_VERSION (kio k3);
                let q3 := kdev k3 in
                Ok (0, mkKernel {| q3 with qd_version := v |} (kpipes k3) d)
          end
    end.

(** [int qemu_pipe_remove(pdev)] *)
Definition qemu_pipe_remove (k : kernel D) : Z * kernel D :=
  let q := kdev k in (0, {| k with kdev := {| q with qd_base := 0 |} |}).
End operations.
