(* ===== verification/GuestDriverProofs.v ===== *)
(** * Correctness of the guest driver over any pipe device

    The driver is verified against an interface, [MMIOLaws]: what the register
    sequences it issues are expected to do.  [GuestDeviceLaws] shows that the
    QEMU pipe device implements the interface. *)

From S2P Require Import Prelude PipeDevice PipeDeviceProofs GuestDriver.

(** [ok aps d]: the device works and knows the parameter block [aps] (zero for
    none).  Registers can be read, a command can be issued on a channel, and a
    transfer answers an error or at most the number of bytes asked for. *)
Class MMIOLaws {D : Type} `{PipeMMIO D} (ok : Z -> D -> Prop) : Prop := {
  law_readl : forall off aps d, ok aps d ->
    exists v d', readl off d = Ok (v, d') /\ ok aps d' /\ in_range 32 v;
  law_command : forall channel cmd aps d, ok aps d ->
    exists d', writels [(channel, PIPE_REG_CHANNEL); (cmd, PIPE_REG_COMMAND)] d = Ok d' /\ ok aps d';
  law_transfer : forall q cmd xaddr avail pipe d, ok (qd_aps q) d ->
    cmd = PIPE_CMD_WRITE_BUFFER \/ cmd = PIPE_CMD_READ_BUFFER -> 0 < avail <= PAGE_SIZE ->
    in_range 32 xaddr -> in_range 32 pipe ->
    exists st d', transfer q cmd xaddr avail pipe d = Ok (st, d') /\ ok (qd_aps q) d' /\
      answer st avail
}.

(** What [access_ok] and the VFS guarantee of a user buffer. *)
Definition user_range (buffer bufflen : Z) : Prop :=
  0 <= buffer /\ 0 < bufflen < 2 ^ 31 /\ buffer + bufflen <= 0xC0000000.

(** ** Pages of a buffer *)

Lemma land_page_mask a : in_range 32 a -> Z.land a PAGE_MASK = a - a mod PAGE_SIZE.
Proof.
  intros Ha. change PAGE_MASK with (Z.ldiff (Z.ones 32) (Z.ones 12)).
  assert (E : Z.land a (Z.ldiff (Z.ones 32) (Z.ones 12)) = Z.ldiff (Z.land a (Z.ones 32)) (Z.ones 12)).
  { apply Z.bits_inj'. intros i _. rewrite !Z.ldiff_spec, !Z.land_spec, Z.ldiff_spec.
    apply andb_assoc. }
  rewrite E, Z.land_ones, Z.mod_small by (unfold in_range in Ha; lia).
  rewrite Z.ldiff_ones_r, Z.shiftl_mul_pow2, Z.shiftr_div_pow2 by lia.
  change (2 ^ 12) with PAGE_SIZE. rewrite (Z.div_mod a PAGE_SIZE) at 2 by done. lia.
Qed.

(** The bytes of the page of [a] that belong to a buffer ending at [e]. *)
Definition page_avail (a e : Z) : Z :=
  let page_end := u32 (Z.land a PAGE_MASK + PAGE_SIZE) in
  u32 ((if page_end <? e then page_end else e) - a).

Lemma page_avail_spec a e :
  0 <= a < e -> e <= 0xC0000000 ->
  page_avail a e = Z.min (PAGE_SIZE - a mod PAGE_SIZE) (e - a) /\ 0 < page_avail a e <= PAGE_SIZE.
Proof.
  intros Ha He. unfold page_avail. rewrite land_page_mask by (split; lia).
  pose proof (Z.mod_pos_bound a PAGE_SIZE ltac:(done)). unfold PAGE_SIZE in *.
  rewrite (wrap_small 32 (a - a mod 4096 + 4096)) by (split; lia).
  destruct (Z.ltb_spec (a - a mod 4096 + 4096) e); rewrite wrap_small by (split; lia); lia.
Qed.

Lemma s32_id x : - 2 ^ 31 <= x < 2 ^ 31 -> s32 x = x.
Proof.
  intros Hx. unfold signed, wrap. destruct (decide (0 <= x)).
  - rewrite Z.mod_small by lia. rewrite (proj2 (Z.ltb_lt _ _)); [done|]. cbn. lia.
  - replace (x mod 2 ^ 32) with (x + 2 ^ 32) by (apply (Z.mod_unique_pos _ _ (-1)); lia).
    rewrite (proj2 (Z.ltb_ge _ _)); [lia|]. cbn. lia.
Qed.

Section thread.
Context {D : Type} `{PipeMMIO D} (ok : Z -> D -> Prop) `{!MMIOLaws ok}.
Implicit Types (k : kernel D) (t : rw_frame).

(** The invariant of a thread inside [qemu_pipe_read_write] on a buffer of
    [len] bytes at [buf]: the bytes counted are those between the start of the
    buffer and the current address; the thread has the mutex exactly in the
    transfer loop; it only ever sleeps before the first byte. *)
Record rw_inv (buf len : Z) (t : rw_frame) (k : kernel D) : Prop := {
  inv_pipe : in_range 32 (rw_pipe t) /\ rw_pipe t <> 0 /\ rw_tid t <> 0;
  inv_addr : rw_address t = buf + rw_count t /\ rw_address_end t = buf + len;
  inv_count : 0 <= rw_count t <= len;
  inv_io : ok (qd_aps (kdev k)) (kio k);
  inv_lock : exists n, kpipes k !! rw_pipe t = Some n /\
    (kp_lock n = rw_tid t <-> rw_at t = RWLoop);
  inv_at : match rw_at t with
           | RWLoop => True
           | RWDone r => r < 0 \/ r = rw_count t
           | _ => rw_count t = 0
           end
}.

(** Anything else that happens in the system: the pipe stays open, nobody
    takes or releases the mutex in the name of the thread. *)
Definition env_step (t : rw_frame) (k k' : kernel D) : Prop :=
  ok (qd_aps (kdev k')) (kio k') /\
  forall n, kpipes k !! rw_pipe t = Some n ->
    exists n', kpipes k' !! rw_pipe t = Some n' /\ (kp_lock n' = rw_tid t <-> kp_lock n = rw_tid t).

(** The user's pages can be had, and no signal comes while the thread waits
    for the mutex again. *)
Definition smooth (c : decision) (t : rw_frame) : Prop :=
  (exists page, d_gup c = inr page /\ in_range 32 page) /\
  (rw_at t = RWRelock -> d_signal c = false).

Inductive rw_reach (t0 : rw_frame) (k0 : kernel D) : rw_frame -> kernel D -> Prop :=
| rr_start : rw_reach t0 k0 t0 k0
| rr_thread t k c t' k' :
    rw_reach t0 k0 t k -> smooth c t -> rw_step c t k = Ok (Some (t', k')) -> rw_reach t0 k0 t' k'
| rr_env t k k' :
    rw_reach t0 k0 t k -> env_step t k k' -> rw_reach t0 k0 t k'.

Lemma mod_kpipe_Ok p f k n :
  p <> 0 -> kpipes k !! p = Some n ->
  mod_kpipe p f k = Ok {| k with kpipes := <[p := f n]> (kpipes k) |}.
Proof. intros. unfold mod_kpipe. by rewrite (deref_Some _ _ n). Qed.

Lemma rw_break_spec t r k n :
  rw_pipe t <> 0 -> kpipes k !! rw_pipe t = Some n -> kp_lock n = rw_tid t ->
  rw_break t r k = Ok (Some (rw_goto t (RWDone (if r <? 0 then r else rw_count t)),
    {| k with kpipes := <[rw_pipe t := {| n with kp_lock := 0 |}]> (kpipes k) |})).
Proof.
  intros Hp Hn Hl. unfold rw_break, mutex_unlock. rewrite (deref_Some _ _ n) by done. mon.
  rewrite Hl, Z.eqb_refl. by rewrite (mod_kpipe_Ok _ _ _ n) by done.
Qed.

(** Leaving the loop with the mutex in hand keeps the invariant. *)
Lemma rw_break_inv buf len t r k k1 :
  rw_inv buf len t k -> rw_at t = RWLoop -> kpipes k1 = kpipes k ->
  ok (qd_aps (kdev k1)) (kio k1) ->
  exists t' k', rw_break t r k1 = Ok (Some (t', k')) /\ rw_inv buf len t' k'.
Proof.
  intros [(Hr & Hp & Ht) Ha Hc _ (n & Hn & Hl) _] Hat Ek Hio.
  rewrite (rw_break_spec t r k1 n); [|done|by rewrite Ek|by apply Hl].
  eexists _, _. split; [done|]. split; cbn; try done.
  - rewrite lookup_insert_eq. eexists. split; [done|]. cbn. split; [congruence|done].
  - destruct (Z.ltb_spec r 0); auto.
Qed.

(** One turn of the transfer loop. *)
Lemma rw_loop_inv buf len t k page :
  user_range buf len -> rw_inv buf len t k -> rw_at t = RWLoop -> in_range 32 page ->
  in_range 32 (Z.lor page (Z.land (rw_address t) (PAGE_SIZE - 1))) ->
  exists t' k', rw_loop (inr page) t k = Ok (Some (t', k')) /\ rw_inv buf len t' k'.
Proof.
  intros (U1 & U2 & U3) Hi Hat Hpg Hx. pose proof Hi as [(Hr & Hp & Ht) [Ea Ee] Hc Hio (n & Hn & Hl) _].
  unfold rw_loop. destruct (Z.ltb_spec (rw_address t) (rw_address_end t)) as [Hlt|Hge];
    [|by eapply rw_break_inv].
  fold (page_avail (rw_address t) (rw_address_end t)).
  destruct (page_avail_spec (rw_address t) (rw_address_end t)) as [Eav Hav]; [lia..|].
  set (av := page_avail _ _) in *. clearbody av.
  set (xaddr := if negb (qd_version (kdev k) =? 0) then _ else _).
  assert (Hxa : in_range 32 xaddr) by (unfold xaddr; case_match; [done|split; lia]).
  clearbody xaddr.
  destruct (law_transfer (kdev k) (PIPE_CMD_WRITE_BUFFER + cmd_offset (rw_write t)) xaddr av
              (rw_pipe t) (kio k) Hio) as (st & d & -> & Hio' & Hst); [|done..|].
  { destruct (rw_write t); [by left|by right]. }
  mon. unfold answer in Hst. rewrite !Z.gtb_ltb.
  destruct (Z.ltb_spec 0 st) as [Hpos|Hneg].
  { eexists _, _. split; [done|].
    assert (E1 : s32 (rw_count t + st) = rw_count t + st) by (apply s32_id; lia).
    assert (E2 : u32 (rw_address t + st) = rw_address t + st) by (apply wrap_small; split; lia).
    split; cbn; rewrite ?E1, ?E2; try done; [lia|lia|..].
    - exists n. split; [done|]. by rewrite Hl.
    - by rewrite Hat. }
  destruct (Z.eqb_spec st 0) as [->|Hne]; [by eapply rw_break_inv|].
  destruct (Z.ltb_spec 0 (rw_count t)); [by eapply rw_break_inv|].
  destruct (negb (st =? PIPE_ERROR_AGAIN) || rw_nonblock t); [by eapply rw_break_inv|].
  rewrite (mod_kpipe_Ok _ _ _ n) by done. mon.
  destruct (law_command (rw_pipe t) (PIPE_CMD_WAKE_ON_WRITE + cmd_offset (rw_write t))
              (qd_aps (kdev k)) d Hio') as (d2 & E2 & Hio2).
  cbn [kio set_io]. rewrite E2. mon. unfold mutex_unlock. cbn [kpipes set_io].
  rewrite (deref_Some _ _ {| n with kp_flags := set_bit (wakeBit (rw_write t)) (kp_flags n) |});
    [|done|apply lookup_insert_eq].
  mon. cbn [kp_lock]. rewrite (proj2 Hl Hat), Z.eqb_refl.
  erewrite mod_kpipe_Ok; [|done|cbn; apply lookup_insert_eq]. mon.
  eexists _, _. split; [done|]. split; cbn; try done.
  - rewrite lookup_insert_eq. eexists. split; [done|]. cbn. split; [congruence|done].
  - lia.
Qed.

Lemma rw_step_inv buf len t k c :
  user_range buf len -> rw_inv buf len t k -> smooth c t ->
  (exists r, rw_at t = RWDone r) \/
  exists o, rw_step c t k = Ok o /\
    match o with Some (t', k') => rw_inv buf len t' k' | None => True end.
Proof.
  intros U Hi ((page & Eg & Hpg) & Hsig).
  pose proof Hi as [(Hr & Hp & Ht) [Ea Ee] Hc Hio (n & Hn & Hl) Hat].
  unfold rw_step. rewrite Eg. destruct (rw_at t) as [| | | |r] eqn:Hpc; [right|right|right|right|by left; eauto].
  - assert (Hx : in_range 32 (Z.lor page (Z.land (rw_address t) (PAGE_SIZE - 1)))).
    { apply lor_range; [lia|done|]. destruct U. apply land_range; [lia| |done]. split; lia. }
    destruct (rw_loop_inv buf len t k page U Hi Hpc Hpg Hx) as (t' & k' & E & Hi').
    exists (Some (t', k')). done.
  - rewrite (deref_Some _ _ n) by done. mon. eexists. split; [done|].
    split; cbn; try done; [exists n; split; [done|]|by destruct (test_bit _ _)].
    rewrite Hl. split; [done|]. by destruct (test_bit _ _).
  - rewrite (deref_Some _ _ n) by done. mon. destruct (test_bit _ _).
    + eexists. split; [done|]. destruct (d_signal c); [|done].
      split; cbn; try done; [|left; unfold ERESTARTSYS; lia]. exists n. split; [done|]. by rewrite Hl.
    + destruct (test_bit _ _); eexists; (split; [done|]); split; cbn; try done.
      * exists n. split; [done|]. by rewrite Hl.
      * left. unfold EIO. lia.
      * exists n. split; [done|]. by rewrite Hl.
  - rewrite (deref_Some _ _ n) by done. mon. rewrite (Hsig eq_refl).
    destruct (Z.eqb_spec (kp_lock n) 0); [|by eexists].
    rewrite (mod_kpipe_Ok _ _ _ n) by done. mon. eexists. split; [done|].
    split; cbn; try done. rewrite lookup_insert_eq. eexists. split; [done|]. done.
Qed.

Lemma rw_step_tid c t k t' k' : rw_step c t k = Ok (Some (t', k')) -> rw_tid t' = rw_tid t.
Proof.
  unfold rw_step, rw_loop, rw_break. intros E. destruct (rw_at t), (d_gup c); inv_res; simplify_eq; try done;
    by destruct (d_signal c); simplify_eq.
Qed.

Lemma rw_env_inv buf len t k k' :
  rw_inv buf len t k -> env_step t k k' -> rw_inv buf len t k'.
Proof.
  intros [Hp Ha Hc Hio (n & Hn & Hl) Hat] [Hio' Hk]. split; try done.
  destruct (Hk n Hn) as (n' & Hn' & E). exists n'. split; [done|]. by rewrite E.
Qed.

(** [rw_enter] puts the thread in the loop, with the mutex. *)
Lemma rw_enter_inv tid filp buf len wr acc intr k t k1 :
  user_range buf len -> in_range 32 (private_data filp) -> tid <> 0 ->
  ok (qd_aps (kdev k)) (kio k) ->
  (forall n, kpipes k !! private_data filp = Some n -> kp_lock n <> tid) ->
  rw_enter tid filp buf len wr acc intr k = Ok (Some (t, k1)) -> rw_inv buf len t k1.
Proof.
  intros (U1 & U2 & U3) Hr Ht Hio Hl. unfold rw_enter. intros E.
  apply bind_Ok in E as (n & Hn & E). apply deref_Ok in Hn as [Hp Hn].
  assert (Ee : u32 (buf + len) = buf + len) by (apply wrap_small; split; lia).
  assert (Hdone : forall r, r < 0 -> rw_inv buf len (mkFrame tid (private_data filp) wr
    (f_nonblock filp) buf (u32 (buf + len)) 0 (RWDone r)) k).
  { intros r Hneg. split; cbn; try done; [rewrite Ee; lia|lia| |by left].
    exists n. split; [done|]. split; [|done]. intros. by destruct (Hl n). }
  repeat case_match; simplify_eq; try (apply Hdone; unfold EIO, EINVAL, EFAULT, ERESTARTSYS; lia).
  apply bind_Ok in E as (k' & Ek & [= <- <-]).
  rewrite (mod_kpipe_Ok _ _ _ n) in Ek by done. injection Ek as <-.
  split; cbn; try done; [rewrite Ee; lia|lia|]. rewrite lookup_insert_eq. by eexists.
Qed.


(** C11.  The two cases [read_write_safe] leaves out are the faulty ones.  When
    [get_user_pages] fails, the error is returned with the mutex still held, so
    that every later transfer on the pipe blocks.  When a signal comes while
    the thread waits for a mutex another thread holds, it releases that mutex. *)
Theorem read_write_lock_bugs buf len t k n c tid' filp wr e :
  rw_inv buf len t k -> kpipes k !! rw_pipe t = Some n ->
  (rw_at t = RWLoop -> rw_address t < rw_address_end t -> d_gup c = inl e ->
     rw_step c t k = Ok (Some (rw_goto t (RWDone e), k)) /\
     (private_data filp = rw_pipe t -> test_bit BIT_CLOSED_ON_HOST (kp_flags n) = false ->
      rw_enter tid' filp buf len wr true false k = Ok None \/ len = 0)) /\
  (rw_at t = RWRelock -> d_signal c = true -> kp_lock n <> 0 ->
     rw_step c t k = Fault BadUnlock).
Proof.
  intros [(Hr & Hp & Ht) _ _ _ (n' & Hn' & Hl) _] Hn.
  assert (n' = n) as -> by congruence. split.
  - intros Hat Hlt Hg. split.
    + unfold rw_step, rw_loop. rewrite Hat, Hg. by rewrite (proj2 (Z.ltb_lt _ _)).
    + intros Ef Hb. unfold rw_enter. rewrite Ef, (deref_Some _ _ n) by done. mon. rewrite Hb.
      destruct (Z.eqb_spec len 0); [by right|]. left. cbn.
      by rewrite (proj2 Hl Hat), (proj2 (Z.eqb_neq _ _) Ht).
  - intros Hat Hs Hlk. unfold rw_step. rewrite Hat, Hs, (deref_Some _ _ n) by done. mon.
    rewrite (proj2 (Z.eqb_neq _ _) Hlk). unfold rw_break, mutex_unlock.
    rewrite (deref_Some _ _ n) by done. mon.
    rewrite (proj2 (Z.eqb_neq (kp_lock n) (rw_tid t))); [done|]. rewrite Hl, Hat. done.
Qed.
End thread.
