(* ===== verification/GuestDeviceLaws.v ===== *)
(** * The QEMU pipe device as the guest driver uses it

    What the driver's register sequences do on the device of [PipeDevice]: the
    registers they leave alone, the command they issue, the parameter block
    they share with the device.  The device then satisfies the interface the
    driver is verified against. *)

From S2P Require Import Prelude IntrusiveList PipeDevice PipeDeviceProofs PipeDeviceTheorems PipeProtocol GuestDriver GuestDriverProofs.

(** ** Registers a command leaves alone *)

(** The registers a guest has set up. *)
Definition setup_regs (d : PipeDevice) : Z * Z * Z * Z :=
  (dev_address d, dev_size d, dev_channel d, dev_params_addr d).

(** Closes the goals on registers once the equations between device states are
    known. *)
Ltac dev_eq :=
  unfold set_status, qemu_set_irq, set_dev in *; cbn in *;
  repeat match goal with
  | H : dev ?x = _ |- _ => is_var x; rewrite H in *; clear H
  | H : setup_regs (dev ?x) = _ |- _ => is_var x; rewrite H in *; clear H
  end; try done.

Section registers.
Context {W : Type} (phys : Z -> Z).
Implicit Types (m : machine W).

Local Abbreviation same m m' := (setup_regs (dev m') = setup_regs (dev m)).

Lemma mod_pipe_regs p f m m' : mod_pipe p f m = Ok m' -> dev m' = dev m.
Proof. unfold mod_pipe. intros. by inv_res. Qed.

Lemma wake_regs p fl m m' : qemu_pipe_wake p fl m = Ok m' -> same m m'.
Proof.
  unfold qemu_pipe_wake. intros. inv_res;
    repeat match goal with H : mod_pipe _ _ _ = Ok _ |- _ => apply mod_pipe_regs in H end;
    dev_eq.
Qed.

Lemma remove_waked_regs p m m' : pipe_list_remove_waked p m = Ok m' -> same m m'.
Proof.
  unfold pipe_list_remove_waked. intros. inv_res; [done|].
  match goal with H : mod_pipe _ _ _ = Ok _ |- _ => apply mod_pipe_regs in H; by rewrite H end.
Qed.

Lemma call_close_dev n m m' : call_close n m = Ok m' -> dev m' = dev m.
Proof.
  unfold call_close, pipeConnector_close. intros. destruct (pipe_funcs n); by inv_res.
Qed.

Lemma cmd_close_regs l p m m' : cmd_close l p m = Ok m' -> same m m'.
Proof.
  unfold cmd_close, pipe_free. intros. inv_res. cbn.
  repeat match goal with
  | H : mod_pipe _ _ _ = Ok _ |- _ => apply mod_pipe_regs in H
  | H : call_close _ _ = Ok _ |- _ => apply call_close_dev in H
  | H : pipe_list_remove_waked _ _ = Ok _ |- _ => apply remove_waked_regs in H
  end. dev_eq.
Qed.

Lemma pipe_new_dev c m p m' : pipe_new c m = Ok (p, m') -> dev m' = dev m.
Proof.
  unfold pipe_new, pipeConnector_new, pipe_new0. intros. inv_res.
  repeat match goal with H : mod_pipe _ _ _ = Ok _ |- _ => apply mod_pipe_regs in H end.
  dev_eq.
Qed.

Lemma cmd_open_regs p m m' : cmd_open p m = Ok m' -> same m m'.
Proof.
  unfold cmd_open. intros. inv_res; [done|].
  repeat match goal with
  | H : mod_pipe _ _ _ = Ok _ |- _ => apply mod_pipe_regs in H
  | H : pipe_new _ _ = Ok _ |- _ => apply pipe_new_dev in H
  end. dev_eq.
Qed.

Lemma call_poll_dev n m r m' : call_poll n m = Ok (r, m') -> dev m' = dev m.
Proof. unfold call_poll, pipeConnector_poll. intros. destruct (pipe_funcs n); by inv_res. Qed.

Lemma call_wakeOn_dev n fl m m' : call_wakeOn n fl m = Ok m' -> dev m' = dev m.
Proof. unfold call_wakeOn, pipeConnector_wakeOn. intros. destruct (pipe_funcs n); by inv_res. Qed.

Lemma call_recv_dev n sz m r dt m' : call_recvBuffers n sz m = Ok (r, dt, m') -> dev m' = dev m.
Proof.
  unfold call_recvBuffers, pipeConnector_recvBuffers. intros. destruct (pipe_funcs n); inv_res; try done.
Qed.

Lemma call_send_dev n b m r m' : call_sendBuffers n b m = Ok (r, m') -> dev m' = dev m.
Proof.
  unfold call_sendBuffers, pipeConnector_sendBuffers, connector_connect. intros.
  destruct (pipe_funcs n); inv_res; try done;
    repeat match goal with H : mod_pipe _ _ _ = Ok _ |- _ => apply mod_pipe_regs in H end;
    dev_eq.
Qed.

Lemma doCommand_regs c m m' : pipeDevice_doCommand phys c m = Ok m' -> same m m'.
Proof.
  unfold pipeDevice_doCommand, doCommand_switch, cmd_poll, cmd_read_buffer, cmd_write_buffer,
    cmd_wake_on. intros. inv_res; try done;
  repeat match goal with
  | H : cmd_open _ _ = Ok _ |- _ => by apply cmd_open_regs in H
  | H : cmd_close _ _ _ = Ok _ |- _ => by apply cmd_close_regs in H
  | H : mod_pipe _ _ _ = Ok _ |- _ => apply mod_pipe_regs in H
  | H : call_poll _ _ = Ok _ |- _ => apply call_poll_dev in H
  | H : call_wakeOn _ _ _ = Ok _ |- _ => apply call_wakeOn_dev in H
  | H : call_recvBuffers _ _ _ = Ok _ |- _ => apply call_recv_dev in H
  | H : call_sendBuffers _ _ _ = Ok _ |- _ => apply call_send_dev in H
  end; dev_eq.
Qed.
End registers.

(** ** Memory shared with the device *)

Section shared.
Context (phys : Z -> Z).

(** The [n] bytes at [a] lie at distinct places of the host. *)
Definition block_inj (a n : Z) : Prop :=
  forall i j, 0 <= i < n -> 0 <= j < n -> phys (a + i) = phys (a + j) -> i = j.

Definition dma_read (r : gmap Z Z) (a : Z) (n : nat) : list Z :=
  (fun i => default 0 (r !! phys (a + Z.of_nat i))) <$> seq 0 n.
Definition dma_write (a : Z) (bs : list Z) (r : gmap Z Z) : gmap Z Z :=
  foldl (fun r ib => <[phys (a + Z.of_nat ib.1) := ib.2]> r) r (zip (seq 0 (length bs)) bs).

Lemma dma_write_snoc a bs b r :
  dma_write a (bs ++ [b]) r = <[phys (a + Z.of_nat (length bs)) := b]> (dma_write a bs r).
Proof.
  unfold dma_write. rewrite length_app. cbn. rewrite Nat.add_1_r, seq_S. cbn.
  rewrite zip_with_app by (by rewrite length_seq). by rewrite foldl_app.
Qed.

Lemma dma_write_other a bs r x :
  (forall i, 0 <= i < Z.of_nat (length bs) -> phys (a + i) <> x) -> dma_write a bs r !! x = r !! x.
Proof.
  induction bs as [|b bs IH] using rev_ind; intros Hx; [done|].
  rewrite length_app in Hx. cbn in Hx. rewrite dma_write_snoc, lookup_insert_ne by (apply Hx; lia).
  apply IH. intros i Hi. apply Hx. lia.
Qed.

Lemma dma_write_lookup a bs r i b :
  block_inj a (Z.of_nat (length bs)) -> bs !! i = Some b ->
  dma_write a bs r !! phys (a + Z.of_nat i) = Some b.
Proof.
  induction bs as [|b' bs IH] using rev_ind; intros Hinj Hi; [done|].
  rewrite length_app in Hinj. cbn in Hinj. rewrite dma_write_snoc.
  apply lookup_snoc_Some in Hi as [[Hlt Hi]|[-> ->]]; [|by rewrite lookup_insert_eq].
  rewrite lookup_insert_ne.
  - apply IH; [|done]. intros j1 j2 H1 H2. apply Hinj; lia.
  - intros E. apply Hinj in E; lia.
Qed.

Lemma length_dma_read r a n : length (dma_read r a n) = n.
Proof. unfold dma_read. by rewrite length_fmap, length_seq. Qed.

Lemma dma_read_lookup r a n i :
  (i < n)%nat -> dma_read r a n !! i = Some (default 0 (r !! phys (a + Z.of_nat i))).
Proof. intros Hi. unfold dma_read. by rewrite list_lookup_fmap, lookup_seq_lt. Qed.

Lemma dma_read_write a bs r :
  block_inj a (Z.of_nat (length bs)) -> dma_read (dma_write a bs r) a (length bs) = bs.
Proof.
  intros Hinj. apply list_eq. intros i. destruct (decide (i < length bs)%nat) as [Hi|Hi].
  - rewrite dma_read_lookup by done. destruct (lookup_lt_is_Some_2 bs i Hi) as [b Hb].
    by rewrite (dma_write_lookup a bs r i b), Hb.
  - rewrite !lookup_ge_None_2; [done|lia|]. rewrite length_dma_read. lia.
Qed.

Lemma dma_read_app r a n k :
  dma_read r a (n + k) = dma_read r a n ++ dma_read r (a + Z.of_nat n) k.
Proof.
  apply list_eq. intros i. destruct (decide (i < n + k)%nat) as [Hi|Hi].
  - rewrite dma_read_lookup by done. destruct (decide (i < n)%nat).
    + rewrite lookup_app_l by (by rewrite length_dma_read). by rewrite dma_read_lookup.
    + rewrite lookup_app_r by (rewrite length_dma_read; lia). rewrite length_dma_read.
      rewrite dma_read_lookup by lia. do 3 f_equal. f_equal. lia.
  - rewrite !lookup_ge_None_2; [done| |]; rewrite ?length_app, !length_dma_read; lia.
Qed.

(** Two places of a block that do not overlap. *)
Lemma dma_read_write_other base size a n b bs r :
  block_inj base size -> base <= a -> a + Z.of_nat n <= base + size ->
  base <= b -> b + Z.of_nat (length bs) <= base + size ->
  a + Z.of_nat n <= b \/ b + Z.of_nat (length bs) <= a ->
  dma_read (dma_write b bs r) a n = dma_read r a n.
Proof.
  intros Hinj Ha1 Ha2 Hb1 Hb2 Hdis. apply list_eq. intros i. destruct (decide (i < n)%nat) as [Hi|Hi].
  - rewrite !dma_read_lookup by done. rewrite dma_write_other; [done|].
    intros j Hj E. specialize (Hinj (b + j - base) (a + Z.of_nat i - base)).
    replace (base + (b + j - base)) with (b + j) in Hinj by lia.
    replace (base + (a + Z.of_nat i - base)) with (a + Z.of_nat i) in Hinj by lia.
    specialize (Hinj ltac:(lia) ltac:(lia) E). lia.
  - rewrite !lookup_ge_None_2; [done| |]; rewrite !length_dma_read; lia.
Qed.
End shared.

(** ** The command sequences of the driver *)

Lemma of_le_word z : of_le (le_bytes 4 z) = u32 z.
Proof. apply of_le_bytes. Qed.

Lemma decode_block c sz a cmd rs fl :
  length fl = 4%nat ->
  decode_params (le_bytes 4 c ++ le_bytes 4 sz ++ le_bytes 4 a ++ le_bytes 4 cmd ++ le_bytes 4 rs ++ fl)
  = mkParams (u32 c) (u32 sz) (u32 a) (u32 cmd) (u32 rs) (of_le fl).
Proof.
  intros Hfl. rewrite <- !of_le_word. unfold decode_params, field.
  cbn [le_bytes app take drop]. rewrite take_0, drop_0. by rewrite (take_ge fl) by lia.
Qed.

Lemma set_low_small old v : in_range 32 old -> in_range 32 v -> uint64_set_low old v = v.
Proof.
  intros Ho Hv. unfold uint64_set_low. rewrite (wrap_small 32 v Hv).
  assert (E : Z.land old 0xFFFFFFFF00000000 = 0); [|by rewrite E, Z.lor_0_l].
  apply Z.bits_inj'. intros i Hi. rewrite Z.bits_0, Z.land_spec.
  change 0xFFFFFFFF00000000 with (Z.shiftl (Z.ones 32) 32). rewrite Z.shiftl_spec by done.
  destruct (Z.ltb_spec i 32).
  - rewrite (Z.testbit_neg_r _ (i - 32)) by lia. apply andb_false_r.
  - by rewrite (proj2 (proj1 (in_range_bits 32 old ltac:(lia)) Ho)).
Qed.

Section commands.
Context {W : Type} (inv : W -> Prop) (live : W -> Z -> Prop) (phys : Z -> Z).
Implicit Types (m : machine W).
Local Abbreviation wf := (wf inv live).
#[local] Hint Extern 0 (PipeMMIO (machine W)) => exact (machine_mmio phys) : typeclass_instances.

(** The device with its channel, size and address registers set. *)
Definition issue (m : machine W) (c sz a : Z) : machine W :=
  set_dev (fun d => {| d with dev_channel := c; dev_size := sz; dev_address := a |}) m.

(** The driver never writes the high halves of the registers. *)
Definition low_regs (m : machine W) : Prop :=
  in_range 32 (dev_channel (dev m)) /\ in_range 32 (dev_address (dev m)).

Definition status_of (m : machine W) : Z := s32 (u32 (dev_status (dev m))).

Lemma access_registers_machine cmd a sz c m :
  low_regs m -> in_range 32 cmd -> in_range 32 a -> in_range 32 sz -> in_range 32 c ->
  access_registers cmd a sz c m =
    (m' ← pipeDevice_doCommand phys cmd (issue m c sz a); Ok (status_of m', m')).
Proof.
  intros [H1 H2] Hcmd Ha Hsz Hc. unfold access_registers.
  cbn -[pipeDevice_doCommand uint64_set_low wrap signed pipe_dev_read].
  unfold set_dev. cbn -[pipeDevice_doCommand uint64_set_low wrap signed pipe_dev_read].
  rewrite ?wrap_wrap by lia. rewrite !(wrap_small 32) by done. rewrite !set_low_small by done.
  unfold issue, set_dev. by destruct (pipeDevice_doCommand _ _ _).
Qed.

(** The parameter block of the driver. *)
Definition block (r : gmap Z Z) (aps cmd a sz c : Z) : list Z :=
  le_bytes 4 c ++ le_bytes 4 sz ++ le_bytes 4 a ++ le_bytes 4 cmd ++
  le_bytes 4 IMPOSSIBLE_BATCH_RESULT ++ dma_read phys r (aps + 20) 4.
Definition prepared (m : machine W) (aps cmd a sz c : Z) : machine W :=
  {| m with ram := dma_write phys (aps + 12) (le_bytes 4 cmd)
       (dma_write phys (aps + 8) (le_bytes 4 a)
       (dma_write phys (aps + 4) (le_bytes 4 sz)
       (dma_write phys aps (le_bytes 4 c)
       (dma_write phys (aps + 16) (le_bytes 4 IMPOSSIBLE_BATCH_RESULT) (ram m))))) |}.

Lemma block_inj_sub a n b k :
  block_inj phys a n -> a <= b -> b + k <= a + n -> block_inj phys b k.
Proof.
  intros Hi H1 H2 i j Hi1 Hj1 E. specialize (Hi (b - a + i) (b - a + j)).
  replace (a + (b - a + i)) with (b + i) in Hi by lia.
  replace (a + (b - a + j)) with (b + j) in Hi by lia.
  specialize (Hi ltac:(lia) ltac:(lia) E). lia.
Qed.

Lemma prepared_block m aps cmd a sz c :
  block_inj phys aps 24 ->
  dma_read phys (ram (prepared m aps cmd a sz c)) aps 24 = block (ram m) aps cmd a sz c.
Proof.
  intros Hinj. change 24%nat with (4 + (4 + (4 + (4 + (4 + 4)))))%nat. rewrite !dma_read_app.
  change (Z.of_nat 4) with 4. rewrite <- !Z.add_assoc. cbn [Z.add Pos.add Pos.succ].
  assert (Hs : forall b z r, aps <= b -> b + 4 <= aps + 24 ->
    dma_read phys (dma_write phys b (le_bytes 4 z) r) b 4 = le_bytes 4 z).
  { intros b z r H1 H2. apply (dma_read_write phys b (le_bytes 4 z)).
    rewrite length_le_bytes. by eapply block_inj_sub. }
  assert (Ho : forall b b' z r, aps <= b -> b + 4 <= aps + 24 -> aps <= b' -> b' + 4 <= aps + 24 ->
    b + 4 <= b' \/ b' + 4 <= b ->
    dma_read phys (dma_write phys b' (le_bytes 4 z) r) b 4 = dma_read phys r b 4).
  { intros. apply (dma_read_write_other phys aps 24); rewrite ?length_le_bytes; lia || done. }
  unfold prepared, block. cbn [ram].
  f_equal; [|f_equal; [|f_equal; [|f_equal; [|f_equal]]]];
    repeat first [rewrite Hs by lia | rewrite Ho by lia]; reflexivity.
Qed.

Lemma access_with_param_machine aps cmd a sz c m :
  dev_params_addr (dev m) = aps -> aps <> 0 -> block_inj phys aps 24 ->
  cmd = PIPE_CMD_WRITE_BUFFER \/ cmd = PIPE_CMD_READ_BUFFER ->
  in_range 32 a -> in_range 32 sz -> in_range 32 c ->
  access_with_param aps cmd a sz c m =
    (m' ← pipeDevice_doCommand phys cmd (issue (prepared m aps cmd a sz c) c sz a);
     let m2 := {| m' with ram := dma_write phys aps
       (blit (block (ram m) aps cmd a sz c) 16 (le_bytes 4 (dev_status (dev m')))) (ram m') |} in
     let st := u32 (dev_status (dev m')) in
     Ok (if st =? IMPOSSIBLE_BATCH_RESULT then None else Some (s32 st), m2)).
Proof.
  intros Haps H0 Hinj Hcmd Ha Hsz Hc. unfold access_with_param.
  change (store (aps + 12) (le_bytes 4 cmd) _) with (prepared m aps cmd a sz c).
  change (writel cmd PIPE_REG_ACCESS_PARAMS ?x) with (access_params_write phys x).
  unfold access_params_write. cbn [dev prepared]. rewrite Haps, (proj2 (Z.eqb_neq _ _) H0).
  cbn [qemu_guest_is_64bit Z.eqb].
  change (cpu_physical_memory_read phys (prepared m aps cmd a sz c) aps sizeof_params)
    with (dma_read phys (ram (prepared m aps cmd a sz c)) aps 24).
  rewrite prepared_block by done. set (B := block (ram m) aps cmd a sz c).
  assert (EB : decode_params B = mkParams c sz a cmd IMPOSSIBLE_BATCH_RESULT
                 (of_le (dma_read phys (ram m) (aps + 20) 4))).
  { unfold B, block. rewrite decode_block by apply length_dma_read.
    rewrite !(wrap_small 32); try done; destruct Hcmd as [->| ->]; done. }
  rewrite EB. cbn [aps_channel aps_size aps_address aps_cmd].
  replace (negb (cmd =? PIPE_CMD_READ_BUFFER) && negb (cmd =? PIPE_CMD_WRITE_BUFFER)) with false
    by (by destruct Hcmd as [->| ->]).
  fold (issue (prepared m aps cmd a sz c) c sz a).
  destruct (pipeDevice_doCommand _ _ _) as [m'|f]; [|done]. cbn [mbind res_bind].
  change (cpu_physical_memory_write phys aps ?bs m') with {| m' with ram := dma_write phys aps bs (ram m') |}.
  cbn [load machine_mmio].
  set (B' := blit B result_off _). set (m2 := {| m' with ram := dma_write phys aps B' (ram m') |}).
  assert (HB : length B = 24%nat).
  { unfold B, block. rewrite !length_app, !length_le_bytes, length_dma_read. done. }
  assert (Hres : dma_read phys (dma_write phys aps B' (ram m')) (aps + 16) 4 =
                 le_bytes 4 (dev_status (dev m'))); [|].
  2:{ change (ram m2) with (dma_write phys aps B' (ram m')). cbn [mbind res_bind].
      change (cpu_physical_memory_read phys m2 (aps + 16) 4) with
        (dma_read phys (dma_write phys aps B' (ram m')) (aps + 16) 4).
      rewrite Hres, of_le_word. by destruct (_ =? _). }
  assert (HB' : length B' = 24%nat).
  { unfold B'. rewrite length_blit; [done|]. rewrite length_le_bytes, HB. unfold result_off. lia. }
  pose proof (dma_read_write phys aps B' (ram m')) as Hall. rewrite HB' in Hall. specialize (Hall Hinj).
  change 24%nat with (16 + (4 + 4))%nat in Hall. rewrite !dma_read_app in Hall.
  unfold B', blit, result_off in Hall. rewrite length_le_bytes in Hall.
  apply app_inj_1 in Hall as [_ Hall]; [|rewrite length_dma_read, length_take; lia].
  apply app_inj_1 in Hall as [Hall _]; [done|]. by rewrite length_dma_read, length_le_bytes.
Qed.

(** ** The interface the driver relies on *)

Lemma doCommand_answer m cmd :
  wf m -> cmd = PIPE_CMD_WRITE_BUFFER \/ cmd = PIPE_CMD_READ_BUFFER ->
  exists m' r, pipeDevice_doCommand phys cmd m = Ok m' /\ wf m' /\
    dev_status (dev m') = u32 r /\ answer r (Z.max 0 (dev_size (dev m))).
Proof.
  intros Hwf Hcmd. destruct (doCommand_wf inv live phys m cmd Hwf) as (m' & E & Hwf').
  assert (Hst : exists r, dev_status (dev m') = u32 r /\ answer r (Z.max 0 (dev_size (dev m))));
    [|destruct Hst as (r & ? & ?); by exists m', r].
  destruct (channel_dec inv live m Hwf) as [(p & n & Hn & Ec)|Hnone].
  - destruct (doCommand_found inv live phys m p n cmd Hwf Hn Ec) as (l1 & l2 & ls & Hl & Eq).
    assert (Hp : p <> 0) by (eapply (core_addr inv live); [apply Hwf|eauto]).
    rewrite Eq in E. destruct (pipe_closed n && _).
    { injection E as <-. exists PIPE_ERROR_IO. split; [done|]. unfold answer, PIPE_ERROR_IO. lia. }
    unfold doCommand_switch in E. destruct Hcmd as [->| ->]; cbn in E.
    + unfold cmd_write_buffer in E. rewrite (deref_Some _ _ n) in E by done. mon.
      destruct (call_send_kept inv live m p n [read_mem (ram m) (phys (dev_address (dev m)))
        (Z.to_nat (dev_size (dev m)))] (wf_core _ _ _ Hwf) Hn eq_refl) as (r & m1 & E1 & K & _ & Ha).
      rewrite E1 in E. mon. injection E as <-. exists r. split; [done|].
      cbn in Ha. rewrite app_nil_r, length_read_mem in Ha. unfold answer in *. lia.
    + unfold cmd_read_buffer in E. rewrite (deref_Some _ _ n) in E by done. mon.
      destruct (call_recv_kept inv live m p n (dev_size (dev m)) (wf_core _ _ _ Hwf) Hn)
        as (r & dt & m1 & E1 & K & _ & _ & Ha).
      rewrite E1 in E. mon. injection E as <-. by exists r.
  - rewrite (doCommand_missing inv live) in E by done.
    assert (Hne : (cmd =? PIPE_CMD_OPEN) = false) by (by destruct Hcmd as [->| ->]).
    rewrite Hne in E. injection E as <-. exists PIPE_ERROR_INVAL. split; [done|].
    unfold answer, PIPE_ERROR_INVAL. lia.
Qed.

Lemma status_answer r total : total <= PAGE_SIZE -> answer r total -> s32 (u32 (u32 r)) = r.
Proof.
  unfold PAGE_SIZE, answer. intros Ht Hr. rewrite wrap_wrap by lia.
  transitivity (s32 r); [|apply s32_id; lia]. unfold signed. by rewrite wrap_wrap by lia.
Qed.

(** The device works, the high halves of its registers are zero, and its
    parameter block is the driver's. *)
Definition dev_ok (aps : Z) (m : machine W) : Prop :=
  wf m /\ low_regs m /\ (aps = 0 \/ (dev_params_addr (dev m) = aps /\ block_inj phys aps 24)).

Lemma dev_ok_regs aps m m' :
  dev_ok aps m -> wf m' -> dev_params_addr (dev m') = dev_params_addr (dev m) ->
  in_range 32 (dev_channel (dev m')) -> in_range 32 (dev_address (dev m')) -> dev_ok aps m'.
Proof. intros (_ & _ & H) Hwf E H1 H2. split; [done|]. split; [done|]. by rewrite E. Qed.

Lemma pipe_dev_read_regs off m v m' :
  pipe_dev_read off m = Ok (v, m') -> setup_regs (dev m') = setup_regs (dev m).
Proof.
  unfold pipe_dev_read. intros. inv_res; try done;
    repeat match goal with H : mod_pipe _ _ _ = Ok _ |- _ => apply mod_pipe_regs in H end;
    case_match; dev_eq.
Qed.

Lemma setup_regs_eq d d' : setup_regs d' = setup_regs d ->
  dev_address d' = dev_address d /\ dev_size d' = dev_size d /\ dev_channel d' = dev_channel d /\
  dev_params_addr d' = dev_params_addr d.
Proof. unfold setup_regs. intros [= -> -> -> ->]. done. Qed.

Lemma issue_wf m c sz a : wf m -> wf (issue m c sz a).
Proof. intros Hwf. by apply wf_set_dev. Qed.

(** Issuing a command keeps [dev_ok]. *)
Lemma command_ok aps m cmd m' c sz a r :
  dev_ok aps m -> in_range 32 c -> in_range 32 a ->
  pipeDevice_doCommand phys cmd (issue {| m with ram := r |} c sz a) = Ok m' ->
  forall r', dev_ok aps {| m' with ram := r' |}.
Proof.
  intros Hok Hc Ha E r'.
  assert (Hwf0 : wf {| m with ram := r |}).
  { eapply (wf_kept inv live m); [apply Hok|]. apply kept_ram. apply Hok. }
  destruct (doCommand_wf inv live phys _ cmd (issue_wf _ c sz a Hwf0)) as (m2 & E2 & Hwf2).
  assert (m2 = m') as -> by congruence.
  apply doCommand_regs, setup_regs_eq in E as (Ea & _ & Ec & Ep). cbn in Ea, Ec, Ep.
  eapply dev_ok_regs; [exact Hok| |exact Ep|cbn; by rewrite Ec|cbn; by rewrite Ea].
  eapply (wf_kept inv live m'); [done|]. apply kept_ram. apply Hwf2.
Qed.

Lemma machine_eta m : {| m with ram := ram m |} = m.
Proof. by destruct m. Qed.

#[export] Instance machine_laws : MMIOLaws dev_ok.
Proof.
  split.
  - intros off aps m Hok. cbn. destruct (read_wf inv live m off) as (v & m' & E & Hwf'); [apply Hok|].
    rewrite E. mon. eexists _, _. split; [done|]. split; [|by apply wrap_range].
    apply pipe_dev_read_regs, setup_regs_eq in E as (Ea & _ & Ec & Ep). pose proof Hok as (_ & [H1 H2] & _).
    eapply dev_ok_regs; [done..|by rewrite Ec|by rewrite Ea].
  - intros c cmd aps m Hok. pose proof Hok as (Hwf & [H1 H2] & _).
    assert (Hc : in_range 32 (uint64_set_low (dev_channel (dev m)) (u32 c))).
    { rewrite set_low_small; [by apply wrap_range|done|by apply wrap_range]. }
    set (m1 := issue m (uint64_set_low (dev_channel (dev m)) (u32 c)) (dev_size (dev m))
                     (dev_address (dev m))).
    destruct (doCommand_wf inv live phys m1 (u32 (u32 cmd)) (issue_wf _ _ _ _ Hwf)) as (m2 & E & _).
    exists m2. split.
    + change (writels _ m) with (d' ← pipeDevice_doCommand phys (u32 (u32 cmd)) m1; Ok d').
      by rewrite E.
    + rewrite <- (machine_eta m2). unfold m1 in E. rewrite <- (machine_eta m) in E at 1.
      exact (command_ok aps m _ _ _ _ _ _ Hok Hc H2 E _).
  - intros q cmd xaddr avail pipe m Hok Hcmd Hav Hx Hp. pose proof Hok as (Hwf & Hlow & Haps).
    assert (Hcr : in_range 32 cmd) by (destruct Hcmd as [->| ->]; done).
    assert (Hsz : in_range 32 avail) by (unfold PAGE_SIZE in *; split; lia).
    assert (Hslow : forall m, dev_ok (qd_aps q) m -> exists st m',
      access_registers cmd xaddr avail pipe m = Ok (st, m') /\ dev_ok (qd_aps q) m' /\ answer st avail).
    { clear m Hok Hwf Hlow Haps. intros m Hok. pose proof Hok as (Hwf & Hlow & _).
      rewrite access_registers_machine by done.
      destruct (doCommand_answer (issue m pipe avail xaddr) cmd) as (m' & r & E & Hwf' & Est & Ha);
        [by apply issue_wf|done|]. cbn [issue set_dev dev dev_size] in Ha.
      rewrite Z.max_r in Ha by lia. rewrite E. mon. eexists _, m'. split; [done|]. split.
      - rewrite <- (machine_eta m'). rewrite <- (machine_eta m) in E at 1.
        exact (command_ok _ m _ _ _ _ _ _ Hok Hp Hx E _).
      - unfold status_of. rewrite Est. by rewrite (status_answer r avail) by (done || lia). }
    unfold transfer. destruct (Z.eqb_spec (qd_aps q) 0) as [E0|E0]; [by apply Hslow|].
    destruct Haps as [|[Hpa Hinj]]; [done|].
    rewrite access_with_param_machine by done.
    set (m1 := prepared m (qd_aps q) cmd xaddr avail pipe).
    assert (Hwf1 : wf m1).
    { eapply (wf_kept inv live m); [done|]. apply kept_ram. apply Hwf. }
    destruct (doCommand_answer (issue m1 pipe avail xaddr) cmd) as (m' & r & E & Hwf' & Est & Ha);
      [by apply issue_wf|done|]. cbn [issue set_dev dev dev_size] in Ha.
    rewrite Z.max_r in Ha by lia. rewrite E. cbn [mbind res_bind].
    assert (Hok' : forall r', dev_ok (qd_aps q) {| m' with ram := r' |})
      by exact (command_ok _ m _ _ _ _ _ _ Hok Hp Hx E).
    destruct (_ =? IMPOSSIBLE_BATCH_RESULT); [by apply Hslow|].
    eexists _, _. split; [done|]. split; [done|]. rewrite Est. by rewrite (status_answer r avail) by (done || lia).
Qed.
End commands.
