(* ===== verification/GuestSystem.v ===== *)
(** * The guest driver on the QEMU pipe device

    The two sides put together: the interrupt handler against the signaled
    list, the wake-up of a sleeping thread, [open] and [release], the set-up of
    the parameter block, and the path of a user's bytes to a service. *)

From S2P Require Import Prelude IntrusiveList PipeDevice PipeDeviceProofs PipeDeviceTheorems PipeProtocol GuestDriver GuestDriverProofs GuestDeviceLaws.

Lemma clear_bit_test b f j : 0 <= b -> 0 <= j -> test_bit j (clear_bit b f) = negb (b =? j) && test_bit j f.
Proof.
  intros Hb Hj. unfold test_bit, clear_bit. rewrite Z.ldiff_spec, Z.shiftl_1_l, Z.pow2_bits_eqb by done.
  by rewrite andb_comm.
Qed.

Lemma set_bit_test b f j : 0 <= b -> 0 <= j -> test_bit j (set_bit b f) = (b =? j) || test_bit j f.
Proof.
  intros Hb Hj. unfold test_bit, set_bit. rewrite Z.lor_spec, Z.shiftl_1_l, Z.pow2_bits_eqb by done.
  by rewrite orb_comm.
Qed.

(** The event a sleeper waits for. *)
Definition wake_event (is_write : bool) : Z := if is_write then PIPE_WAKE_WRITE else PIPE_WAKE_READ.

(** The awaited event, or the end of the pipe, clears the sleeper's bit. *)
Lemma wake_flags_clears wakes flags wr :
  flag_set wakes (wake_event wr) || flag_set wakes PIPE_WAKE_CLOSED = true ->
  test_bit (wakeBit wr) (wake_flags wakes flags) = false.
Proof.
  intros Hw. unfold wake_flags. change PIPE_WAKE_CLOSED with (2 ^ 0) in *.
  change PIPE_WAKE_READ with (2 ^ 1). change PIPE_WAKE_WRITE with (2 ^ 2).
  replace (wake_event wr) with (2 ^ (if wr then 2 else 1)) in Hw by (by destruct wr).
  rewrite !flag_set_bit in * by (try (by destruct wr)).
  destruct (Z.testbit wakes 0) eqn:B0.
  - rewrite !flag_set_bit by lia. rewrite !Z.lor_spec. change (Z.testbit (2 ^ 1) 1) with true.
    change (Z.testbit (2 ^ 2) 2) with true. change (Z.testbit (2 ^ 1) 2) with false.
    rewrite !orb_true_r.
    destruct wr; unfold wakeBit, BIT_WAKE_ON_READ, BIT_WAKE_ON_WRITE;
      rewrite !clear_bit_test by lia; done.
  - rewrite orb_false_r in Hw. rewrite !flag_set_bit by lia.
    destruct wr; rewrite Hw; unfold wakeBit, BIT_WAKE_ON_READ, BIT_WAKE_ON_WRITE;
      [|destruct (Z.testbit wakes 2)]; rewrite !clear_bit_test by lia; done.
Qed.

Section system.
Context {W : Type} (inv : W -> Prop) (live : W -> Z -> Prop) (phys : Z -> Z).
Local Abbreviation wf := (wf inv live).
#[local] Hint Extern 0 (PipeMMIO (machine W)) => exact (machine_mmio phys) : typeclass_instances.
Implicit Types (m : machine W) (k : kernel (machine W)).

(** Every pipe of the device is the channel of a live [struct qemu_pipe] the
    driver has registered. *)
Definition linked (k : kernel (machine W)) (V : gmap Z Pipe) : Prop :=
  forall p n, V !! p = Some n ->
    in_range 32 (pipe_channel n) /\ pipe_channel n <> 0 /\
    qd_pipes (kdev k) !! pipe_channel n = Some (pipe_channel n) /\
    is_Some (kpipes k !! pipe_channel n).

Lemma land_ones32 z : in_range 32 z -> Z.land z 0xFFFFFFFF = z.
Proof.
  intros [H1 H2]. change 0xFFFFFFFF with (Z.ones 32). rewrite Z.land_ones by lia. by apply Z.mod_small.
Qed.

(** The kernel pipes after the wakes of the signaled pipes [ls]. *)
Definition woken_pipe (m : machine W) (ls : list Z) (c : Z) (kp : qemu_pipe) : qemu_pipe :=
  foldl (fun kp p => match pheap m !! p with
                     | Some n => if pipe_channel n =? c
                                 then {| kp with kp_flags := wake_flags (pipe_wanted n) (kp_flags kp) |}
                                 else kp
                     | None => kp
                     end) kp ls.

Lemma woken_pipe_view m m' ls c kp :
  (forall p, p ∈ ls -> view m' !! p = view m !! p) -> woken_pipe m' ls c kp = woken_pipe m ls c kp.
Proof.
  unfold woken_pipe. revert kp. induction ls as [|p ls IH]; intros kp Hv; [done|]. cbn.
  pose proof (Hv p ltac:(set_solver)) as E. rewrite !view_lookup in E.
  destruct (pheap m' !! p) as [n'|], (pheap m !! p) as [n|]; cbn in E; try done.
  - injection E as E1 E2 E3 E4 E5 E6 E7. rewrite E1, E6. apply IH. set_solver.
  - apply IH. set_solver.
Qed.

Lemma woken_pipe_out m ls c kp :
  (forall p n, p ∈ ls -> pheap m !! p = Some n -> pipe_channel n <> c) -> woken_pipe m ls c kp = kp.
Proof.
  unfold woken_pipe. induction ls as [|p ls IH]; intros Hc; [done|]. cbn.
  assert (IH' := IH ltac:(intros q nq Hq; apply (Hc q); set_solver)).
  destruct (pheap m !! p) as [n|] eqn:Hn; [|done].
  by rewrite (proj2 (Z.eqb_neq _ _)) by (apply (Hc p); [set_solver|done]).
Qed.

(** Channels are distinct, so each kernel pipe is woken at most once. *)
Lemma woken_pipe_in lp ls m p n kp :
  wf m -> lists m lp ls -> p ∈ ls -> pheap m !! p = Some n ->
  woken_pipe m ls (pipe_channel n) kp = {| kp with kp_flags := wake_flags (pipe_wanted n) (kp_flags kp) |}.
Proof.
  intros Hwf Hl Hp Hn. apply list_elem_of_split in Hp as (l1 & l2 & ->).
  assert (Hnd : NoDup (l1 ++ p :: l2)) by (destruct Hl as ((_ & Hs) & _); by eapply chain_NoDup).
  assert (Huniq : forall q nq, pheap m !! q = Some nq -> pipe_channel nq = pipe_channel n -> q = p).
  { intros q nq Hq E. apply (ok_channel _ _ _ _ _ _ _ (wf_core _ _ _ Hwf) q p (info nq) (info n));
      [by rewrite view_lookup, Hq|by rewrite view_lookup, Hn|done]. }
  apply NoDup_app in Hnd as (_ & Hd1 & Hnd). apply NoDup_cons in Hnd as [Hd2 _].
  unfold woken_pipe. rewrite foldl_app. cbn. rewrite Hn, Z.eqb_refl.
  fold (woken_pipe m l1 (pipe_channel n) kp).
  rewrite (woken_pipe_out m l1).
  2:{ intros q nq Hq Hnq E. assert (q = p) as -> by eauto. set_solver. }
  apply (woken_pipe_out m l2).
  intros q nq Hq Hnq E. assert (q = p) as -> by eauto. set_solver.
Qed.

Lemma interrupt_loop_spec lp ls k fuel count :
  wf (kio k) -> lists (kio k) lp ls -> linked k (view (kio k)) -> (length ls < fuel)%nat ->
  exists k', interrupt_loop fuel count k = Ok (count + Z.of_nat (length ls), k') /\
    wf (kio k') /\ lists (kio k') lp [] /\ kdev k' = kdev k /\
    (forall c, kpipes k' !! c = woken_pipe (kio k) ls c <$> kpipes k !! c) /\
    dev_irq (dev (kio k')) = (if decide (ls = []) then dev_irq (dev (kio k)) else false).
Proof.
  revert k fuel count; induction ls as [|p ls IH]; intros k fuel count Hwf Hl Hk Hf;
    (destruct fuel as [|fuel]; [cbn in Hf; lia|]).
  - cbn [interrupt_loop]. assert (Hz : signaled_pipes (dev (kio k)) = 0) by (by destruct Hl as ((_ & Hs) & _)).
    assert (E : readl PIPE_REG_CHANNEL (kio k) = Ok (0, kio k)).
    { cbn. unfold pipe_dev_read. cbn. by rewrite Hz. }
    rewrite E. mon. cbn. eexists. split; [do 2 f_equal; lia|]. cbn. split_and!; try done.
    intros c. by destruct (kpipes k !! c).
  - assert (Hp : exists n, pheap (kio k) !! p = Some n).
    { destruct Hl as ((_ & Hs) & _). destruct Hs as (_ & _ & n & Hn & _). eauto. }
    destruct Hp as [n Hn].
    assert (Hnd : p ∉ ls).
    { destruct Hl as ((_ & Hs) & _). apply chain_NoDup, NoDup_cons in Hs. tauto. }
    destruct (Hk p (info n)) as (Hr & H0 & Hq & [kp Hkp]); [by rewrite view_lookup, Hn|]. cbn in Hr, H0, Hq, Hkp.
    destruct (read_channel_spec (kio k) lp p ls n Hl Hn) as (m1 & E1 & Hl1 & Hv1 & _ & Hw1 & Hi1).
    destruct (read_wf inv live (kio k) PIPE_REG_CHANNEL Hwf) as (v & m1' & E1' & Hwf1).
    rewrite E1 in E1'. injection E1' as <- <-.
    pose proof (core_pipe inv live _ p n (wf_core _ _ _ Hwf) Hn) as [Hwr _].
    cbn [interrupt_loop]. cbn [readl machine_mmio]. rewrite E1. cbn [mbind res_bind].
    rewrite land_ones32, wrap_small by done. rewrite (proj2 (Z.eqb_neq _ _) H0).
    change (pipe_dev_read PIPE_REG_WAKES m1) with (Ok (dev_wakes (dev m1), m1)). cbn [mbind res_bind].
    cbn [kdev set_io]. rewrite land_ones32, Hq by done.
    rewrite (mod_kpipe_Ok _ _ _ kp) by done. cbn [mbind res_bind].
    rewrite Hw1, (wrap_small 32) by (unfold in_range in *; lia).
    set (k2 := {| kdev := _; kpipes := _; kio := _ |}).
    destruct (IH k2 fuel (count + 1)) as (k' & E & Hwf' & Hl' & Hd' & Hkp' & Hi'); [done|done| |cbn in Hf; lia|].
    { intros q nq Hq'. cbn in Hq'. rewrite Hv1 in Hq'. cbn.
      assert (Hold : exists nq0, view (kio k) !! q = Some nq0 /\ pipe_channel nq0 = pipe_channel nq).
      { apply lookup_insert_Some in Hq' as [[<- <-]|[_ Hq']]; [|by eauto].
        exists (info n). by rewrite view_lookup, Hn. }
      destruct Hold as (nq0 & Hv0 & <-). destruct (Hk q nq0 Hv0) as (? & ? & ? & [x Hx]).
      split_and!; try done. rewrite lookup_insert_is_Some'. eauto. }
    rewrite E. exists k'. split; [do 2 f_equal; cbn [length]; lia|]. split_and!; try done.
    + intros c. rewrite Hkp'. cbn [kpipes kio k2 set_io].
      assert (Hv : forall kp0, woken_pipe m1 ls c kp0 = woken_pipe (kio k) ls c kp0).
      { intros kp0. apply woken_pipe_view. intros q Hq'. rewrite Hv1, lookup_insert_ne; [done|]. congruence. }
      destruct (decide (pipe_channel n = c)) as [Ec|Ec].
      * rewrite <- Ec in *. rewrite lookup_insert_eq, Hkp. cbn. rewrite Hv. unfold woken_pipe. cbn [foldl]. by rewrite Hn, Z.eqb_refl.
      * rewrite lookup_insert_ne by done. change (kpipes (set_io k m1)) with (kpipes k).
        destruct (kpipes k !! c) as [kp0|]; [|done]. cbn. rewrite Hv. unfold woken_pipe. cbn [foldl].
        by rewrite Hn, (proj2 (Z.eqb_neq _ _) Ec).
    + rewrite Hi'. change (kio k2) with m1. rewrite Hi1. rewrite (decide_False (P := p :: ls = [])) by done.
      by repeat case_decide.
Qed.



(** Selecting a channel, then a command. *)
Definition select (m : machine W) (c : Z) : machine W :=
  set_dev (fun d => {| d with dev_channel := c |}) m.

Lemma command_machine c cmd m :
  low_regs m -> in_range 32 c -> in_range 32 cmd ->
  writels [(c, PIPE_REG_CHANNEL); (cmd, PIPE_REG_COMMAND)] m =
    pipeDevice_doCommand phys cmd (select m c).
Proof.
  intros [H1 _] Hc Hcmd. cbn -[pipeDevice_doCommand uint64_set_low wrap]. unfold set_dev.
  cbn -[pipeDevice_doCommand uint64_set_low wrap].
  rewrite ?wrap_wrap by lia. rewrite !(wrap_small 32) by done. rewrite set_low_small by done.
  unfold select, set_dev. by destruct (pipeDevice_doCommand _ _ _).
Qed.

(** C14.  [open] then [release]: a new file is a new channel of the device,
    registered in the radix tree and served by a connector; the release gives
    back the driver's and the device's pipes as they were.  The link between
    the two sides is kept all along. *)
Theorem open_release_roundtrip k pipe nb aps :
  dev_ok inv live phys aps (kio k) -> linked k (view (kio k)) ->
  in_range 32 pipe -> pipe <> 0 -> qd_pipes (kdev k) !! pipe = None -> kpipes k !! pipe = None ->
  exists k1 k2 p con,
    qemu_pipe_open pipe 0 nb k = Ok (0, Some (mkFile pipe nb), k1) /\
    linked k1 (view (kio k1)) /\ wf (kio k1) /\
    kpipes k1 = <[pipe := mkQPipe 0 0]> (kpipes k) /\
    qd_pipes (kdev k1) = <[pipe := pipe]> (qd_pipes (kdev k)) /\
    view (kio k1) = <[p := mkPipe 0 0 pipe con FuncsConnector None None 0 false]> (view (kio k)) /\
    qemu_pipe_release (mkFile pipe nb) k1 = Ok (0, k2) /\
    linked k2 (view (kio k2)) /\ wf (kio k2) /\
    kpipes k2 = kpipes k /\ kdev k2 = kdev k /\ view (kio k2) = view (kio k).
Proof.
  intros Hok Hk Hr H0 Hq Hkp. pose proof Hok as (Hwf & Hlow & _).
  assert (Hwfs : wf (select (kio k) pipe)) by (by apply wf_set_dev).
  assert (Hnone : forall p n, pheap (select (kio k) pipe) !! p = Some n ->
            pipe_channel n <> dev_channel (dev (select (kio k) pipe))).
  { intros p n Hn E. cbn in Hn, E. destruct (Hk p (info n)) as (_ & _ & Hx & _);
      [by rewrite view_lookup, Hn|]. cbn in Hx. congruence. }
  destruct (wf_lists _ _ _ Hwfs) as (lp & ls & Hl).
  destruct (cmd_open_wf inv live _ lp ls Hl Hwfs Hnone)
    as (m1 & E1 & Hwf1 & Hl1 & Hv1 & Hc1 & _ & _ & _ & Hst & Hch & _).
  cbn [select set_dev dev dev_channel brk] in Hv1, Hch.
  change (view (select (kio k) pipe)) with (view (kio k)) in Hv1.
  set (p := brk (kio k)) in *. set (con := p + 1) in *.
  assert (Hfresh : view (kio k) !! p = None).
  { apply eq_None_not_Some. intros Hx.
    destruct (ok_brk _ _ _ _ _ _ _ (wf_core _ _ _ Hwf)) as [_ Hb]. specialize (Hb p (or_introl Hx)).
    unfold p in Hb. lia. }
  assert (Hdo : pipeDevice_doCommand phys PIPE_CMD_OPEN (select (kio k) pipe) = Ok m1)
    by (by rewrite (doCommand_missing inv live) by done).
  assert (Hlow1 : low_regs m1).
  { split; [by rewrite Hch|]. apply doCommand_regs, setup_regs_eq in Hdo as (Ea & _).
    rewrite Ea. apply Hlow. }
  set (k1 := mkKernel (let q := kdev k in {| q with qd_pipes := <[pipe := pipe]> (qd_pipes q) |})
               (<[pipe := mkQPipe 0 0]> (kpipes k)) m1).
  assert (Hn1 : exists n, pheap m1 !! p = Some n /\ pipe_channel n = pipe).
  { pose proof (view_lookup m1 p) as Hx. rewrite Hv1, lookup_insert_eq in Hx. symmetry in Hx.
    apply fmap_Some in Hx as (n & Hn & Ei). exists n. split; [done|].
    by apply (f_equal pipe_channel) in Ei. }
  destruct Hn1 as (n & Hn & Ecn).
  assert (Hwfs1 : wf (select m1 pipe)) by (by apply wf_set_dev).
  destruct (doCommand_found inv live phys (select m1 pipe) p n PIPE_CMD_CLOSE Hwfs1 Hn Ecn)
    as (l1 & l2 & ls' & Hl1' & Eq).
  destruct (cmd_close_wf inv live (select m1 pipe) l1 p l2 ls' n Hl1' Hwfs1 Hn)
    as (m2 & E2 & Hwf2 & _ & Hv2 & _).
  change (view (select m1 pipe)) with (view m1) in Hv2.
  rewrite Hv1, delete_insert_id in Hv2 by done.
  exists k1, (mkKernel (kdev k) (kpipes k) m2), p, con. split_and!; try done.
  - unfold qemu_pipe_open. rewrite (proj2 (Z.eqb_neq _ _) H0), land_ones32 by done.
    rewrite bool_decide_false by (rewrite Hq; by intros []). cbn [Z.eqb negb].
    cbn [kio]. rewrite command_machine by done. rewrite Hdo. cbn [mbind res_bind].
    change (readl PIPE_REG_STATUS m1) with (Ok (u32 (dev_status (dev m1)), m1)).
    rewrite Hst. done.
  - intros q nq Hvq. cbn in Hvq. rewrite Hv1 in Hvq. cbn.
    apply lookup_insert_Some in Hvq as [[<- <-]|[_ Hvq]]; cbn.
    + by rewrite !lookup_insert_eq.
    + destruct (Hk q nq Hvq) as (? & ? & Hx & Hy). split_and!; try done.
      * rewrite lookup_insert_ne; [done|]. congruence.
      * rewrite lookup_insert_is_Some'. auto.
  - unfold qemu_pipe_release. cbn [private_data].
    rewrite (deref_Some _ _ (mkQPipe 0 0)) by (done || apply lookup_insert_eq). cbn [mbind res_bind kio k1].
    rewrite command_machine by done. rewrite Eq, andb_false_r.
    change (doCommand_switch phys PIPE_CMD_CLOSE (link_after l1) p (select m1 pipe))
      with (cmd_close (link_after l1) p (select m1 pipe)). rewrite E2. cbn [mbind res_bind].
    do 3 f_equal; cbn; rewrite ?land_ones32 by done; rewrite delete_insert_id by done; [by destruct (kdev k)|done].
  - intros q nq Hvq. cbn in Hvq. rewrite Hv2 in Hvq. by apply (Hk q).
Qed.

(** Probing the device: the parameter block the driver allocates is
    accepted, the version is the device's, and the device is then one the
    driver works with. *)
Theorem setup_params_accepted k aps :
  dev_ok inv live phys 0 (kio k) -> in_range 32 aps -> aps <> 0 -> block_inj phys aps 24 ->
  exists k', setup_access_params_addr aps k = Ok (0, k') /\ qd_aps (kdev k') = aps /\
    dev_ok inv live phys aps (kio k') /\ dev_params_addr (dev (kio k')) = aps /\
    view (kio k') = view (kio k) /\ kpipes k' = kpipes k.
Proof.
  intros (Hwf & Hlow & _) Hr H0 Hinj. unfold setup_access_params_addr.
  rewrite (proj2 (Z.eqb_neq _ _) H0).
  assert (Ehi : u32 (Z.shiftr aps 32) = 0).
  { rewrite Z.shiftr_div_pow2, Z.div_small by (done || lia). done. }
  rewrite Ehi, (wrap_small 32 aps) by done.
  set (m1 := set_dev (fun d => {| d with dev_params_addr := aps |}) (kio k)).
  assert (Ew : writels [(0, PIPE_REG_PARAMS_ADDR_HIGH); (aps, PIPE_REG_PARAMS_ADDR_LOW)] (kio k) = Ok m1).
  { cbn -[wrap]. rewrite !(wrap_small 32) by done. change (u32 0) with 0. unfold m1, set_dev. cbn.
    do 3 f_equal. rewrite Z.lor_0_r, <- Z.land_assoc. change (Z.land 4294967295 _) with 0.
    by rewrite Z.land_0_r, Z.lor_0_l. }
  rewrite Ew. cbn [mbind res_bind]. unfold valid_batchbuffer_addr.
  change (readl PIPE_REG_PARAMS_ADDR_HIGH m1) with (Ok (u32 (Z.shiftr aps 32), m1)).
  rewrite Ehi. cbn [mbind res_bind].
  change (readl PIPE_REG_PARAMS_ADDR_LOW m1) with (Ok (u32 (Z.land aps 0xFFFFFFFF), m1)).
  rewrite land_ones32, wrap_small by done. cbn [mbind res_bind].
  change (Z.lor (Z.shiftl 0 32) aps) with aps. rewrite Z.eqb_refl.
  eexists. split; [done|]. cbn. split_and!; try done. split; [by apply wf_set_dev|].
  split; [done|]. right. done.
Qed.
End system.
