(* ===== verification/GuestWrite.v ===== *)
(** * A user's write, end to end

    From [write(fd, buffer, n)] in the guest to the service in the emulator:
    the driver cuts the buffer at page boundaries, the device hands each piece
    to the service, and the service gets the bytes of the user's buffer. *)

From S2P Require Import Prelude IntrusiveList PipeDevice PipeDeviceProofs PipeDeviceTheorems PipeProtocol GuestDriver GuestDriverProofs GuestDeviceLaws GuestSystem.

(** A service that takes all it is given: [inbox w q] is what the connection
    [q] has received so far. *)
Class SinkLaws {W : Type} (inv : W -> Prop) (live : W -> Z -> Prop) (inbox : W -> Z -> list Z)
    (F : GoldfishPipeFuncs W) : Prop := {
  sink_laws :: ServiceLaws inv live F;
  sink_accepts : forall q bufs w, inv w -> live w q -> exists w',
    f_sendBuffers F q bufs w = Ok (Z.of_nat (length (concat bufs)), w') /\
    inbox w' q = inbox w q ++ concat bufs
}.

(** Runs a thread inside [qemu_pipe_read_write] to its end: user pages are
    found in [pt], no signal comes. *)
Fixpoint rw_run {D} `{PipeMMIO D} (pt : Z -> Z) (fuel : nat) (t : rw_frame) (k : kernel D)
    : res (option (rw_frame * kernel D)) :=
  match fuel with
  | O => Fault OutOfFuel
  | S fuel' =>
      match rw_at t with
      | RWDone _ => Ok (Some (t, k))
      | _ =>
          o ← rw_step (mkDecision (inr (pt (Z.land (rw_address t) PAGE_MASK))) false) t k;
          match o with Some (t', k') => rw_run pt fuel' t' k' | None => Ok None end
      end
  end.

(** [ssize_t qemu_pipe_read_write(filp, buffer, bufflen, is_write)] of the
    thread [tid], with nothing else running: its result, [None] when it sleeps
    for ever. *)
Definition qemu_pipe_read_write {D} `{PipeMMIO D} (pt : Z -> Z) (fuel : nat) (tid : Z) (filp : file)
    (buffer bufflen : Z) (is_write : bool) (k : kernel D) : res (option (Z * kernel D)) :=
  o ← rw_enter tid filp buffer bufflen is_write true false k;
  match o with
  | None => Ok None
  | Some (t, k1) =>
      o' ← rw_run pt fuel t k1;
      match o' with
      | Some (t', k2) => Ok (match rw_at t' with RWDone r => Some (r, k2) | _ => None end)
      | None => Ok None
      end
  end.

(** [ssize_t qemu_pipe_read / qemu_pipe_write] *)
Definition qemu_pipe_read {D} `{PipeMMIO D} pt fuel tid filp buffer bufflen (k : kernel D) :=
  qemu_pipe_read_write pt fuel tid filp buffer bufflen false k.
Definition qemu_pipe_write {D} `{PipeMMIO D} pt fuel tid filp buffer bufflen (k : kernel D) :=
  qemu_pipe_read_write pt fuel tid filp buffer bufflen true k.

(** The physical address of a user's byte. *)
Definition xlate (pt : Z -> Z) (a : Z) : Z :=
  Z.lor (pt (Z.land a PAGE_MASK)) (Z.land a (PAGE_SIZE - 1)).

Section write.
Context {W : Type} (inv : W -> Prop) (live : W -> Z -> Prop) (inbox : W -> Z -> list Z).
Context (phys : Z -> Z) (pt : Z -> Z).
Local Abbreviation wf := (wf inv live).
Local Abbreviation dev_ok := (dev_ok inv live phys).
#[local] Hint Extern 0 (PipeMMIO (machine W)) => exact (machine_mmio phys) : typeclass_instances.
Implicit Types (m : machine W) (k : kernel (machine W)).

(** The pages of the buffer: aligned frames, contiguous in host memory, apart
    from the parameter block. *)
Definition frames_ok (aps buf len : Z) : Prop :=
  forall a, buf <= a < buf + len ->
    let f := pt (Z.land a PAGE_MASK) in
    in_range 32 f /\ f mod PAGE_SIZE = 0 /\
    (forall i, 0 <= i < PAGE_SIZE -> phys (f + i) = phys f + i) /\
    (forall i j, 0 <= i < PAGE_SIZE -> 0 <= j < 24 -> phys (aps + j) <> phys f + i).

(** The bytes of the user's buffer. *)
Definition user_bytes (r : gmap Z Z) (a : Z) (n : nat) : list Z :=
  (fun i => default 0 (r !! phys (xlate pt (a + Z.of_nat i)))) <$> seq 0 n.

(** The pipe of channel [c] is connected to the [i]-th service, a sink. *)
Definition connected_to (m : machine W) (c p q : Z) : Prop :=
  exists n i s, pheap m !! p = Some n /\ pipe_channel n = c /\ pipe_closed n = false /\
    pipe_funcs n = FuncsService i /\ pipe_opaque n = q /\ svcs m !! i = Some s /\
    SinkLaws inv live inbox (svc_funcs s).

Lemma xlate_spec aps buf len a :
  frames_ok aps buf len -> 0 <= buf -> buf + len <= 0xC0000000 -> buf <= a < buf + len ->
  xlate pt a = pt (Z.land a PAGE_MASK) + a mod PAGE_SIZE.
Proof.
  intros Hf H0 H1 Ha. destruct (Hf a Ha) as (Hr & Hal & _). unfold xlate.
  change (PAGE_SIZE - 1) with (Z.ones 12). change PAGE_SIZE with (2 ^ 12) in *.
  rewrite Z.land_ones by lia. set (f := pt _) in *. rewrite <- Z.land_ones in Hal by lia.
  rewrite <- (Z.lxor_lor f (a mod 2 ^ 12)), <- Z.add_nocarry_lxor; [done|..].
  all: rewrite <- (Z.land_ones a) by lia; rewrite (Z.land_comm a), Z.land_assoc, Hal; apply Z.land_0_l.
Qed.

(** Inside one page the user's bytes are contiguous in host memory. *)
Lemma user_bytes_page aps buf len r a n :
  frames_ok aps buf len -> 0 <= buf -> buf + len <= 0xC0000000 ->
  buf <= a -> a + Z.of_nat n <= buf + len -> a mod PAGE_SIZE + Z.of_nat n <= PAGE_SIZE ->
  (0 < n)%nat ->
  user_bytes r a n = read_mem r (phys (xlate pt a)) n.
Proof.
  intros Hf H0 H1 Ha Hn Hpg Hpos.
  assert (Hmask : forall i, 0 <= i < Z.of_nat n ->
    Z.land (a + i) PAGE_MASK = Z.land a PAGE_MASK /\ (a + i) mod PAGE_SIZE = a mod PAGE_SIZE + i).
  { intros i Hi. rewrite !land_page_mask by (split; lia).
    assert (E : (a + i) mod PAGE_SIZE = a mod PAGE_SIZE + i).
    { pose proof (Z.mod_pos_bound a PAGE_SIZE ltac:(done)).
      rewrite Z.add_mod by done. rewrite (Z.mod_small i) by lia. apply Z.mod_small. lia. }
    rewrite E. lia. }
  destruct (Hf a ltac:(lia)) as (_ & _ & Hcon & _).
  apply list_eq. intros i. destruct (decide (i < n)%nat) as [Hi|Hi].
  - unfold user_bytes. rewrite list_lookup_fmap, lookup_seq_lt, read_mem_lookup by done. cbn.
    do 3 f_equal. destruct (Hmask (Z.of_nat i) ltac:(lia)) as [E1 E2].
    rewrite !(xlate_spec aps buf len) by (done || lia). rewrite E1, E2.
    pose proof (Z.mod_pos_bound a PAGE_SIZE ltac:(done)). rewrite !Hcon by lia. lia.
  - rewrite !lookup_ge_None_2; [done| |]; unfold user_bytes;
      rewrite ?length_read_mem, ?length_fmap, ?length_seq; lia.
Qed.

Lemma user_bytes_app r a n j : user_bytes r a (n + j) = user_bytes r a n ++ user_bytes r (a + Z.of_nat n) j.
Proof.
  unfold user_bytes. rewrite seq_app, fmap_app. f_equal.
  replace (seq (0 + n) j) with (Nat.add n <$> seq 0 j) by (rewrite fmap_add_seq; f_equal; lia).
  rewrite <- list_fmap_compose. apply list_fmap_ext. intros _ i _. cbn. do 4 f_equal. lia.
Qed.

Lemma user_bytes_ext aps buf len r r' a n :
  frames_ok aps buf len -> 0 <= buf -> buf + len <= 0xC0000000 -> buf <= a ->
  a + Z.of_nat n <= buf + len ->
  (forall x, (forall j, 0 <= j < 24 -> phys (aps + j) <> x) -> r' !! x = r !! x) ->
  user_bytes r' a n = user_bytes r a n.
Proof.
  intros Hf H0 H1 Ha Hn Hr. apply list_fmap_ext. intros _ i Hi%list_elem_of_lookup_2%elem_of_seq.
  rewrite Hr; [done|]. intros j Hj.
  destruct (Hf (a + Z.of_nat i) ltac:(lia)) as (_ & _ & Hcon & Hdis).
  rewrite (xlate_spec aps buf len) by (done || lia).
  pose proof (Z.mod_pos_bound (a + Z.of_nat i) PAGE_SIZE ltac:(done)).
  rewrite Hcon by done. by apply Hdis.
Qed.

(** One page: the transfer hands the bytes to the service. *)
Lemma transfer_sink qd m c p q buf len a av :
  let aps := qd_aps qd in
  dev_ok aps m -> connected_to m c p q -> in_range 32 c ->
  frames_ok aps buf len -> 0 <= buf -> buf + len <= 0xC0000000 ->
  buf <= a -> 0 < av <= PAGE_SIZE -> a + av <= buf + len -> a mod PAGE_SIZE + av <= PAGE_SIZE ->
  exists m', transfer qd PIPE_CMD_WRITE_BUFFER (xlate pt a) av c m = Ok (av, m') /\
    dev_ok aps m' /\ connected_to m' c p q /\
    inbox (world m') q = inbox (world m) q ++ user_bytes (ram m) a (Z.to_nat av) /\
    (forall x, (forall j, 0 <= j < 24 -> phys (aps + j) <> x) -> ram m' !! x = ram m !! x).
Proof.
  intros aps Hok Hcon Hc Hf H0 H1 Ha Hav Hlen Hpg.
  assert (Hx : in_range 32 (xlate pt a)).
  { destruct (Hf a ltac:(unfold PAGE_SIZE in *; lia)) as (Hr & _). unfold xlate.
    apply lor_range; [lia|done|]. apply land_range; [lia| |done]. split; lia. }
  assert (Hsz : in_range 32 av) by (unfold PAGE_SIZE in *; split; lia).
  (* the device command on a memory that agrees with the user's pages *)
  assert (Hcmd : forall r, (forall x, (forall j, 0 <= j < 24 -> phys (aps + j) <> x) -> r !! x = ram m !! x) ->
    exists w, pipeDevice_doCommand phys PIPE_CMD_WRITE_BUFFER (issue {| m with ram := r |} c av (xlate pt a))
        = Ok (set_status av {| (issue {| m with ram := r |} c av (xlate pt a)) with world := w |}) /\
      inbox w q = inbox (world m) q ++ user_bytes (ram m) a (Z.to_nat av)).
  { intros r Hr. destruct Hcon as (n & i & s & Hn & Ec & Hcl & Ef & Eq & Hs & Hsink).
    assert (Hwf0 : wf (issue {| m with ram := r |} c av (xlate pt a))).
    { apply issue_wf. eapply (wf_kept inv live m); [apply Hok|]. apply kept_ram, Hok. }
    destruct (service_laws inv live _ p n i s Hwf0 Hn Ef Hs) as (_ & Hw & Hlive).
    set (bytes := read_mem r (phys (xlate pt a)) (Z.to_nat av)).
    destruct (sink_accepts (pipe_opaque n) [bytes] (world m) Hw Hlive) as (w & E & Hin).
    exists w. assert (Hbl : Z.of_nat (length (concat [bytes])) = av).
    { cbn. rewrite app_nil_r. unfold bytes. rewrite length_read_mem. lia. }
    rewrite Hbl in E. split.
    - by apply (doCommand_service inv live phys _ p n i s Hwf0 Hn Ec Hcl Ef Hs).
    - rewrite <- Eq, Hin. cbn. rewrite app_nil_r. f_equal. unfold bytes.
      rewrite <- (user_bytes_page aps buf len) by (done || lia).
      apply (user_bytes_ext aps buf len); done || lia. }
  assert (Hst : s32 (u32 (u32 av)) = av) by (apply (status_answer av av); unfold answer; lia).
  assert (Hkeep : forall r w, connected_to {| (set_status av
      {| (issue {| m with ram := r |} c av (xlate pt a)) with world := w |}) with ram := r |} c p q)
    by done.
  unfold transfer. fold aps. destruct (Z.eqb_spec aps 0) as [E0|E0].
  - destruct (Hcmd (ram m)) as (w & E & Hin); [done|]. rewrite machine_eta in E.
    rewrite access_registers_machine; [|apply Hok|done..]. rewrite E. cbn [mbind res_bind].
    eexists. split; [unfold status_of; cbn [set_status set_dev dev dev_status]; by rewrite Hst|].
    split_and!; try done.
    rewrite <- (machine_eta (set_status _ _)). rewrite <- (machine_eta m) in E at 1.
    eapply (command_ok inv live phys aps m); [done|exact Hc|exact Hx|exact E].
  - pose proof Hok as (_ & _ & [|[Hpa Hinj]]); [done|].
    rewrite access_with_param_machine by (done || auto).
    set (m1 := prepared phys m aps PIPE_CMD_WRITE_BUFFER (xlate pt a) av c).
    assert (Hram : forall x, (forall j, 0 <= j < 24 -> phys (aps + j) <> x) -> ram m1 !! x = ram m !! x).
    { intros x Hx'. unfold m1, prepared. cbn [ram].
      rewrite !dma_write_other; try done; intros j Hj; rewrite length_le_bytes in Hj;
        rewrite <- ?Z.add_assoc; apply Hx'; lia. }
    destruct (Hcmd (ram m1) Hram) as (w & E & Hin).
    change {| m with ram := ram m1 |} with m1 in E. rewrite E. cbn [mbind res_bind].
    cbn [set_status set_dev dev dev_status]. rewrite Hst.
    assert (Hni : (u32 (u32 av) =? IMPOSSIBLE_BATCH_RESULT) = false).
    { apply Z.eqb_neq. rewrite !wrap_small by (done || by rewrite wrap_small).
      unfold IMPOSSIBLE_BATCH_RESULT, PAGE_SIZE in *. lia. }
    rewrite Hni. eexists. split; [done|]. split_and!; try done.
    + refine (command_ok inv live phys aps m _ _ _ _ _ _ Hok Hc Hx E _).
    + intros x Hx'. cbn [ram]. rewrite dma_write_other; [by apply Hram|].
      intros j Hj. apply Hx'. revert Hj. rewrite length_blit.
      * unfold block. rewrite !length_app, !length_le_bytes, length_dma_read. lia.
      * unfold block. rewrite !length_app, !length_le_bytes, length_dma_read. lia.
Qed.

(** The loop: [rem] bytes are left. *)
Lemma rw_run_sink c p q buf len fuel t k kp rem :
  let aps := qd_aps (kdev k) in
  rw_at t = RWLoop -> rw_write t = true -> rw_pipe t = c -> c <> 0 -> rw_tid t <> 0 ->
  rw_address t = buf + rw_count t -> rw_address_end t = buf + len -> 0 <= rw_count t ->
  rem = len - rw_count t -> 0 <= rem ->
  kpipes k !! c = Some kp -> kp_lock kp = rw_tid t -> qd_version (kdev k) <> 0 ->
  dev_ok aps (kio k) -> connected_to (kio k) c p q -> in_range 32 c ->
  frames_ok aps buf len -> user_range buf len -> (Z.to_nat rem + 1 < fuel)%nat ->
  exists t' k', rw_run pt fuel t k = Ok (Some (t', k')) /\ rw_at t' = RWDone len /\
    inbox (world (kio k')) q =
      inbox (world (kio k)) q ++ user_bytes (ram (kio k)) (rw_address t) (Z.to_nat rem) /\
    kpipes k' = <[c := {| kp with kp_lock := 0 |}]> (kpipes k).
Proof.
  revert t k rem. induction fuel as [|fuel IH];
    intros t k rem aps Hat Hwr Hp Hc0 Ht Ea Ee Hcnt Erem Hrem Hkp Hlk Hver Hok Hcon Hcr Hf U Hfuel; [lia|].
  pose proof U as (U1 & U2 & U3). cbn [rw_run]. rewrite Hat. unfold rw_step. rewrite Hat. cbn [d_gup].
  unfold rw_loop. destruct (Z.ltb_spec (rw_address t) (rw_address_end t)) as [Hlt|Hge].
  - fold (page_avail (rw_address t) (rw_address_end t)).
    destruct (page_avail_spec (rw_address t) (rw_address_end t)) as [Eav Hav]; [lia..|].
    set (av := page_avail _ _) in *. clearbody av.
    rewrite (proj2 (Z.eqb_neq _ _) Hver). cbn [negb]. fold (xlate pt (rw_address t)). rewrite Hwr. cbn [cmd_offset].
    change (PIPE_CMD_WRITE_BUFFER + 0) with PIPE_CMD_WRITE_BUFFER. rewrite Hp.
    destruct (transfer_sink (kdev k) (kio k) c p q buf len (rw_address t) av)
      as (m' & -> & Hok' & Hcon' & Hin & Hram); try done; try lia.
    cbn [mbind res_bind]. rewrite Z.gtb_ltb, (proj2 (Z.ltb_lt 0 av)) by lia. cbn [mbind res_bind].
    set (t1 := mkFrame (rw_tid t) c true (rw_nonblock t) (u32 (rw_address t + av)) (rw_address_end t)
                       (s32 (rw_count t + av)) (rw_at t)).
    assert (E1 : rw_count t1 = rw_count t + av) by (apply s32_id; lia).
    assert (E2 : rw_address t1 = rw_address t + av) by (apply wrap_small; split; lia).
    destruct (IH t1 (set_io k m') (rem - av)) as (t' & k' & -> & Hd & Hin' & Hkp'); try done; try lia.
    exists t', k'. split_and!; try done. rewrite Hin'. cbn [set_io kio]. rewrite Hin, <- app_assoc, E2.
    f_equal. rewrite (user_bytes_ext aps buf len (ram (kio k)) (ram m')) by (done || lia).
    replace (Z.to_nat rem) with (Z.to_nat av + Z.to_nat (rem - av))%nat by lia.
    rewrite user_bytes_app. f_equal. f_equal. lia.
  - assert (rem = 0) as E0 by lia. rewrite E0.
    rewrite (rw_break_spec t 1 k kp) by (rewrite ?Hp; done). cbn [mbind res_bind Z.ltb Z.compare].
    destruct fuel as [|fuel]; [lia|]. cbn [rw_run rw_goto rw_at]. eexists _, _. split; [done|].
    cbn. rewrite app_nil_r, Hp. split_and!; try done. f_equal. lia.
Qed.

End write.
