(* ===== verification/GuestWitnesses.v ===== *)
(** * Concrete runs of the guest driver

    The theorems on the driver applied to the QEMU pipe device with the
    loopback service. *)

From S2P Require Import Prelude IntrusiveList PipeDevice PipeDeviceProofs PipeDeviceTheorems PipeProtocol PipeWitnesses GuestDriver GuestDriverProofs GuestDeviceLaws GuestSystem GuestWrite.
Import Loopback.

#[local] Hint Extern 0 (PipeMMIO (machine state)) => exact (machine_mmio Loopback.phys) : typeclass_instances.

Definition qdev : qemu_pipe_dev := mkQDev 4096 0 38 {[5 := 5]} 1.
Definition kopened : kernel (machine state) := mkKernel qdev {[5 := mkQPipe 0 0]} opened.
Definition kwoken : kernel (machine state) := mkKernel qdev {[5 := mkQPipe 0 4]} woken.
Definition file5 : file := mkFile 5 false.

Definition frame5 (pc : rw_pc) : rw_frame := mkFrame 1 5 false false 64 74 0 pc.
Definition kentered : kernel (machine state) := mkKernel qdev {[5 := mkQPipe 1 0]} opened.

Lemma low_regs_small m :
  dev_channel (dev m) = 5 -> in_range 32 (dev_address (dev m)) -> low_regs (W := state) m.
Proof. intros E Ha. split; [by rewrite E|done]. Qed.

Lemma opened_ok : dev_ok inv live phys 0 opened.
Proof.
  split; [apply opened_wf|]. split; [|by left]. apply low_regs_small; [run_vm|by vm_compute].
Qed.

Lemma block_inj_id a n : block_inj phys a n.
Proof. intros i j _ _. unfold phys. lia. Qed.

Lemma user_64 : user_range 64 10.
Proof. unfold user_range. lia. Qed.

Lemma entered : rw_enter 1 file5 64 10 false true false kopened = Ok (Some (frame5 RWLoop, kentered)).
Proof. run_vm. Qed.

Lemma entered_inv : rw_inv (dev_ok inv live phys) 64 10 (frame5 RWLoop) kentered.
Proof.
  apply (rw_enter_inv (dev_ok inv live phys) 1 file5 64 10 false true false kopened); [apply user_64|done|done|apply opened_ok| |apply entered].
  intros n. change (kpipes kopened) with ({[5 := mkQPipe 0 0]} : gmap Z qemu_pipe).
  rewrite lookup_singleton_eq. by intros [= <-].
Qed.


Lemma read_write_lock_bugs_witness :
  rw_step (mkDecision (inl (-14)) false) (frame5 RWLoop) kentered =
    Ok (Some (rw_goto (frame5 RWLoop) (RWDone (-14)), kentered)) /\
  (private_data file5 = 5 -> test_bit BIT_CLOSED_ON_HOST 0 = false ->
   rw_enter 2 file5 64 10 true true false kentered = Ok None \/ 10 = 0).
Proof.
  apply (read_write_lock_bugs (dev_ok inv live phys) 64 10 (frame5 RWLoop) kentered (mkQPipe 1 0)
           (mkDecision (inl (-14)) false) 2 file5 true (-14) entered_inv); [run_vm|done|done|done].
Defined.

Lemma woken_linked : linked kwoken (view woken).
Proof.
  intros p n Hp. rewrite view_lookup in Hp.
  replace (pheap woken) with ({[1 := {| pipe5 with pipe_wanted := PIPE_WAKE_READ |}]} : gmap Z Pipe) in Hp by run_vm.
  rewrite lookup_singleton in Hp. case_decide; [|done]. injection Hp as <-. cbn.
  by split_and!.
Qed.



Lemma start_ok : dev_ok inv live phys 0 start.
Proof.
  split; [apply initfn_wf; [apply services_ok|apply empty_inv]|]. split; [by split|by left].
Qed.

Definition kstart : kernel (machine state) := mkKernel (mkQDev 4096 0 38 ∅ 0) ∅ start.

Lemma open_release_roundtrip_witness :
  exists k1 k2 p con,
    qemu_pipe_open 5 0 false kstart = Ok (0, Some file5, k1) /\
    linked k1 (view (kio k1)) /\ wf inv live (kio k1) /\
    kpipes k1 = <[5 := mkQPipe 0 0]> ∅ /\
    qd_pipes (kdev k1) = <[5 := 5]> ∅ /\
    view (kio k1) = <[p := mkPipe 0 0 5 con FuncsConnector None None 0 false]> (view start) /\
    qemu_pipe_release file5 k1 = Ok (0, k2) /\
    linked k2 (view (kio k2)) /\ wf inv live (kio k2) /\
    kpipes k2 = ∅ /\ kdev k2 = kdev kstart /\ view (kio k2) = view start.
Proof.
  apply (open_release_roundtrip inv live phys kstart 5 false 0 start_ok); done.
Defined.

Lemma setup_params_accepted_witness :
  exists k', setup_access_params_addr 8192 kstart = Ok (0, k') /\ qd_aps (kdev k') = 8192 /\
    dev_ok inv live phys 8192 (kio k') /\ dev_params_addr (dev (kio k')) = 8192 /\
    view (kio k') = view start /\ kpipes k' = ∅.
Proof.
  apply (setup_params_accepted inv live phys kstart 8192 start_ok); [done|done|apply block_inj_id].
Defined.

(** The loopback service takes all it is given. *)
Definition inbox (w : state) (q : Z) : list Z := default [] (conns w !! q).

#[global] Instance loopback_sink : SinkLaws inv live inbox funcs.
Proof.
  split; [apply _|]. intros q bufs w _ [b Hb]. cbn. unfold send. rewrite Hb. cbn.
  eexists. split; [done|]. unfold inbox. cbn. by rewrite lookup_insert_eq, Hb.
Qed.

(** The user's buffer ["hi\n"] is in the frame at 8192. *)
Definition user_ram : machine state :=
  {| connected with ram := write_mem (ram connected) 8256 [104; 105; 10] |}.
Definition kconnected : kernel (machine state) := mkKernel qdev {[5 := mkQPipe 0 0]} user_ram.
Definition pt (a : Z) : Z := 8192.

Lemma user_ram_ok : dev_ok inv live phys 0 user_ram.
Proof.
  split; [eapply (wf_kept inv live connected); [apply connected_wf|]; apply kept_ram, connected_wf|].
  split; [|by left]. apply low_regs_small; [run_vm|by vm_compute].
Qed.

Lemma user_ram_connected : connected_to inv live inbox user_ram 5 1 1.
Proof.
  exists pipe5_connected, 0%nat, (mkService name 7 funcs).
  split_and!; try run_vm. apply loopback_sink.
Qed.


(** The service has the user's three bytes after the connection. *)
Example guest_write_bytes : user_bytes phys pt (ram user_ram) 64 3 = [104; 105; 10].
Proof. run_vm. Qed.
