(* ===== verification/LooperQemu.v ===== *)
(** * The event loop of the QEMU core ([android/looper-qemu.c], [android/looper.h])

    A [QLoopIo] watches a file descriptor.  QEMU's main loop calls a read and a
    write handler per descriptor; these only mark the watcher as ready and put
    it on a pending list, and a bottom half then calls the user's callback once
    with all the events that came. *)

From S2P Require Import Prelude IntrusiveList.

Definition LOOP_IO_READ := 1.
Definition LOOP_IO_WRITE := 2.

(** ** Data *)

(** [struct QLoopIo]; the user callback is one function for all watchers (its
    argument [io_opaque] tells them apart). *)
Record QLoopIo : Type := mkIo {
  io_fd : Z;
  io_opaque : Z;
  io_wanted : Z;
  io_ready : Z;
  io_pendingNext : Z;
  io_next : Z
}.

Definition set_io_next (v : Z) (i : QLoopIo) : QLoopIo := {| i with io_next := v |}.
Definition set_pendingNext (v : Z) (i : QLoopIo) : QLoopIo := {| i with io_pendingNext := v |}.

(** The handlers QEMU's main loop has for a descriptor: whether it has a read
    and a write handler, and their argument. *)
Record fd_handler : Type := mkHandler { h_read : bool; h_write : bool; h_io : Z }.

(** [struct QLooper] with the watchers it owns and the part of QEMU's main loop
    it uses: the descriptor handlers and whether its bottom half is scheduled. *)
Record looper : Type := mkLooper {
  io_list : Z;
  io_pending : Z;
  io_bh : bool;
  ioheap : gmap Z QLoopIo;
  handlers : gmap Z fd_handler;
  lbrk : Z
}.

(** ** Operations *)

Definition mod_io (p : Z) (f : QLoopIo -> QLoopIo) (l : looper) : res looper :=
  i ← deref (ioheap l) p;
  Ok {| l with ioheap := <[p := f i]> (ioheap l) |}.

(** [qemu_set_fd_handler(fd, fd_read, fd_write, opaque)]: a null pair removes
    the handlers *)
Definition qemu_set_fd_handler (fd : Z) (rd wr : bool) (opaque : Z) (l : looper) : looper :=
  {| l with handlers := if rd || wr then <[fd := mkHandler rd wr opaque]> (handlers l)
                        else delete fd (handlers l) |}.

(** [void qlooper_addIo(looper, io)] *)
Definition qlooper_addIo (io : Z) (l : looper) : res looper :=
  l1 ← mod_io io (set_io_next (io_list l)) l;
  Ok {| l1 with io_list := io |}.

(** [QLoopIo* qloopio_new(fd, callback, opaque, qlooper)] *)
Definition qloopio_new (fd opaque : Z) (l : looper) : res (Z * looper) :=
  let io := lbrk l in
  let l1 := {| l with ioheap := <[io := mkIo fd opaque 0 0 0 0]> (ioheap l); lbrk := lbrk l + 1 |} in
  l2 ← qlooper_addIo io l1;
  Ok (io, l2).

(** [void qlooper_delIo(looper, io)] *)
Definition qlooper_delIo (io : Z) (l : looper) : res looper :=
  pnode ← find_link io_next (fun p => Ok (p =? io)) (walk_fuel (ioheap l)) (ioheap l) (io_list l) LHead;
  node ← load_link io_next (ioheap l) (io_list l) pnode;
  if node =? 0 then Ok l
  else
    i ← deref (ioheap l) io;
    '(h, hd) ← store_link set_io_next (ioheap l) (io_list l) pnode (io_next i);
    mod_io io (set_io_next 0) {| l with ioheap := h; io_list := hd |}.

(** [void qlooper_addPendingIo(looper, io)] *)
Definition qlooper_addPendingIo (io : Z) (l : looper) : res looper :=
  let l0 := if io_pending l =? 0 then {| l with io_bh := true |} else l in
  l1 ← mod_io io (set_pendingNext (io_pending l0)) l0;
  Ok {| l1 with io_pending := io |}.

(** [void qlooper_delPendingIo(looper, io)] *)
Definition qlooper_delPendingIo (io : Z) (l : looper) : res looper :=
  pnode ← find_link io_pendingNext (fun p => Ok (p =? io)) (walk_fuel (ioheap l)) (ioheap l)
            (io_pending l) LHead;
  node ← load_link io_pendingNext (ioheap l) (io_pending l) pnode;
  l1 ← (if node =? 0 then Ok l
        else
          i ← deref (ioheap l) io;
          '(h, hd) ← store_link set_pendingNext (ioheap l) (io_pending l) pnode (io_pendingNext i);
          Ok {| l with ioheap := h; io_pending := hd |});
  mod_io io (set_pendingNext 0) l1.

(** [void qloopio_removePending(io)] *)
Definition qloopio_removePending (io : Z) (l : looper) : res looper :=
  i ← deref (ioheap l) io;
  if negb (io_ready i =? 0) then
    l1 ← qlooper_delPendingIo io l;
    mod_io io (fun i => {| i with io_ready := 0 |}) l1
  else Ok l.

(** [void qloopio_setReady(io, flag)] *)
Definition qloopio_setReady (io flag : Z) (l : looper) : res looper :=
  i ← deref (ioheap l) io;
  l1 ← (if io_ready i =? 0 then qlooper_addPendingIo io l else Ok l);
  mod_io io (fun i => {| i with io_ready := Z.lor (io_ready i) flag |}) l1.

(** [void qloopio_handleRead(opaque)] and [void qloopio_handleWrite(opaque)] *)
Definition qloopio_handleRead (io : Z) (l : looper) : res looper := qloopio_setReady io LOOP_IO_READ l.
Definition qloopio_handleWrite (io : Z) (l : looper) : res looper := qloopio_setReady io LOOP_IO_WRITE l.

(** [void qloopio_modify(io, wanted)] *)
Definition qloopio_modify (io wanted : Z) (l : looper) : res looper :=
  i ← deref (ioheap l) io;
  if wanted =? io_wanted i then Ok l
  else
    l1 ← (if negb (io_ready i =? 0) && (Z.land (io_ready i) wanted =? 0)
          then qloopio_removePending io l else Ok l);
    let l2 := qemu_set_fd_handler (io_fd i) (flag_set wanted LOOP_IO_READ)
                (flag_set wanted LOOP_IO_WRITE) io l1 in
    mod_io io (fun i => {| i with io_wanted := wanted |}) l2.

(** [qloopio_wantRead], [qloopio_wantWrite], [qloopio_dontWantRead],
    [qloopio_dontWantWrite] *)
Definition qloopio_wantRead (io : Z) (l : looper) : res looper :=
  i ← deref (ioheap l) io; qloopio_modify io (Z.lor (io_wanted i) LOOP_IO_READ) l.
Definition qloopio_wantWrite (io : Z) (l : looper) : res looper :=
  i ← deref (ioheap l) io; qloopio_modify io (Z.lor (io_wanted i) LOOP_IO_WRITE) l.
Definition qloopio_dontWantRead (io : Z) (l : looper) : res looper :=
  i ← deref (ioheap l) io; qloopio_modify io (Z.ldiff (io_wanted i) LOOP_IO_READ) l.
Definition qloopio_dontWantWrite (io : Z) (l : looper) : res looper :=
  i ← deref (ioheap l) io; qloopio_modify io (Z.ldiff (io_wanted i) LOOP_IO_WRITE) l.

(** [void qloopio_free(impl)] *)
Definition qloopio_free (io : Z) (l : looper) : res looper :=
  i ← deref (ioheap l) io;
  l1 ← (if negb (io_ready i =? 0) then qloopio_removePending io l else Ok l);
  l2 ← qlooper_delIo io l1;
  let l3 := qemu_set_fd_handler (io_fd i) false false 0 l2 in
  _ ← deref (ioheap l3) io;
  Ok {| l3 with ioheap := delete io (ioheap l3) |}.

(** [unsigned qloopio_poll(impl)] *)
Definition qloopio_poll (io : Z) (l : looper) : res Z :=
  i ← deref (ioheap l) io; Ok (io_ready i).

(** [void qlooper_io_init(looper, loopio, fd, callback, opaque)]: the
    implementation object of the [LoopIo] *)
Definition qlooper_io_init (fd opaque : Z) (l : looper) : res (Z * looper) := qloopio_new fd opaque l.

(** The head of the loop of [qlooper_handle_io_bh]: takes the first pending
    watcher off the list; the argument of its callback, its descriptor and its
    events. *)
Definition bh_next (l : looper) : res (option (Z * Z * Z) * looper) :=
  let io := io_pending l in
  if io =? 0 then Ok (None, l)
  else
    i ← deref (ioheap l) io;
    l1 ← mod_io io (set_pendingNext 0) {| l with io_pending := io_pendingNext i |};
    l2 ← mod_io io (fun i => {| i with io_ready := 0 |}) l1;
    Ok (Some (io_opaque i, io_fd i, io_ready i), l2).

(** [void qlooper_handle_io_bh(opaque)] in a system of state [S] that contains
    the looper; [callback opaque fd events] is the user's callback. *)
Section bh.
Context {S : Type} (get : S -> looper) (put : looper -> S -> S).
Context (callback : Z -> Z -> Z -> S -> res S).

Fixpoint bh_loop (fuel : nat) (s : S) : res S :=
  match fuel with
  | O => Fault OutOfFuel
  | Datatypes.S fuel' =>
      '(o, l) ← bh_next (get s);
      match o with
      | None => Ok (put l s)
      | Some (opaque, fd, ready) => s' ← callback opaque fd ready (put l s); bh_loop fuel' s'
      end
  end.

Definition qlooper_handle_io_bh (s : S) : res S :=
  let l := get s in
  bh_loop (walk_fuel (ioheap l)) (put {| l with io_bh := false |} s).
End bh.

(** QEMU's main loop finds the descriptor [fd] ready: it calls the handlers. *)
Definition main_loop_ready (fd : Z) (rd wr : bool) (l : looper) : res looper :=
  match handlers l !! fd with
  | None => Ok l
  | Some h =>
      l1 ← (if rd && h_read h then qloopio_handleRead (h_io h) l else Ok l);
      if wr && h_write h then qloopio_handleWrite (h_io h) l1 else Ok l1
  end.

(** [void qlooper_destroy(ll)]: frees every watcher. *)
Fixpoint destroy_loop (fuel : nat) (l : looper) : res looper :=
  match fuel with
  | O => Fault OutOfFuel
  | S fuel' =>
      if io_list l =? 0 then Ok l
      else l' ← qloopio_free (io_list l) l; destroy_loop fuel' l'
  end.
Definition qlooper_destroy (l : looper) : res looper := destroy_loop (walk_fuel (ioheap l)) l.

(** [int qlooper_run(ll, deadline_ms)]: the core loop is not run this way *)
Definition qlooper_run (deadline_ms : Z) : Z := 22.

(** [Looper* looper_newCore(void)] *)
Definition looper_newCore : looper := mkLooper 0 0 false ∅ ∅ 1.
