(* ===== verification/LooperQemuProofs.v ===== *)
(** * Correctness of the QEMU core event loop *)

From S2P Require Import Prelude IntrusiveList LooperQemu.

(** A watcher without its two list links. *)
Definition ioinfo (i : QLoopIo) : QLoopIo := {| i with io_pendingNext := 0; io_next := 0 |}.
Definition iview (l : looper) : gmap Z QLoopIo := ioinfo <$> ioheap l.

Definition ichains (l : looper) (la lp : list Z) : Prop :=
  chain io_next (ioheap l) (io_list l) la /\ chain io_pendingNext (ioheap l) (io_pending l) lp.

(** The handlers QEMU has for a watcher are those for the events it wants. *)
Definition handler_of (p wanted : Z) : option fd_handler :=
  if flag_set wanted LOOP_IO_READ || flag_set wanted LOOP_IO_WRITE
  then Some (mkHandler (flag_set wanted LOOP_IO_READ) (flag_set wanted LOOP_IO_WRITE) p) else None.

(** The part of the invariant that does not depend on the links: two watchers
    have different descriptors, flags are within two bits, the handlers are
    those of the watchers. *)
Record icore (V : gmap Z QLoopIo) (H : gmap Z fd_handler) (b : Z) : Prop := {
  ic_fd : forall p q i j, V !! p = Some i -> V !! q = Some j -> io_fd i = io_fd j -> p = q;
  ic_flags : forall p i, V !! p = Some i -> in_range 2 (io_ready i) /\ in_range 2 (io_wanted i);
  ic_handler : forall p i, V !! p = Some i -> H !! io_fd i = handler_of p (io_wanted i);
  ic_owner : forall fd h, H !! fd = Some h -> exists i, V !! h_io h = Some i /\ io_fd i = fd;
  ic_brk : 0 < b /\ forall p, is_Some (V !! p) -> 0 < p < b
}.

(** The invariant; [la] are the watchers, most recent first, [lp] those that
    have events, which are the pending ones. *)
Record lwf_at (l : looper) (la lp : list Z) : Prop := {
  lw_chains : ichains l la lp;
  lw_dom : forall p, p ∈ la <-> is_Some (iview l !! p);
  lw_pending : forall p i, iview l !! p = Some i -> (p ∈ lp <-> io_ready i <> 0);
  lw_core : icore (iview l) (handlers l) (lbrk l)
}.

Definition lwf (l : looper) : Prop := exists la lp, lwf_at l la lp.

(** Outside of the bottom half, pending watchers have it scheduled. *)
Definition bh_ok (l : looper) : Prop := io_pending l <> 0 -> io_bh l = true.

Lemma iview_lookup l p : iview l !! p = ioinfo <$> ioheap l !! p.
Proof. apply lookup_fmap. Qed.

Lemma mod_io_Ok p f l i :
  p <> 0 -> ioheap l !! p = Some i -> mod_io p f l = Ok {| l with ioheap := <[p := f i]> (ioheap l) |}.
Proof. intros. unfold mod_io. by rewrite (deref_Some _ _ i). Qed.

Lemma iview_Some l p i : ioheap l !! p = Some i -> iview l !! p = Some (ioinfo i).
Proof. intros Hi. by rewrite iview_lookup, Hi. Qed.

(** A watcher of a well-formed looper. *)
Lemma lwf_io l la lp p i :
  lwf_at l la lp -> ioheap l !! p = Some i ->
  p <> 0 /\ (p ∈ lp <-> io_ready i <> 0) /\ in_range 2 (io_ready i) /\ in_range 2 (io_wanted i).
Proof.
  intros [_ _ Hp [_ Hf _ _ [_ Hb]]] Hi. apply iview_Some in Hi. split_and!.
  - specialize (Hb p ltac:(eauto)). lia.
  - apply (Hp p _ Hi).
  - apply (Hf p _ Hi).
  - apply (Hf p _ Hi).
Qed.

Lemma ichains_frame h h' a b la lp :
  io_next <$> h' = io_next <$> h -> io_pendingNext <$> h' = io_pendingNext <$> h ->
  chain io_next h a la /\ chain io_pendingNext h b lp -> chain io_next h' a la /\ chain io_pendingNext h' b lp.
Proof.
  intros E1 E2 [H1 H2]. split; (eapply chain_frame; [|eassumption]); intros x _; by apply fmap_eq_lookup.
Qed.

Lemma fmap_insert_same {A} (f : QLoopIo -> A) (h : gmap Z QLoopIo) p i i' :
  h !! p = Some i -> f i' = f i -> f <$> <[p := i']> h = f <$> h.
Proof. intros Hp E. rewrite fmap_insert, E. apply insert_id. by rewrite lookup_fmap, Hp. Qed.

(** A change of a watcher's flags keeps the links. *)
Lemma ichains_insert l la lp p i i' :
  ichains l la lp -> ioheap l !! p = Some i -> io_next i' = io_next i ->
  io_pendingNext i' = io_pendingNext i ->
  ichains {| l with ioheap := <[p := i']> (ioheap l) |} la lp.
Proof. intros Hc Hp E1 E2. eapply ichains_frame; [| |exact Hc]; by eapply fmap_insert_same. Qed.

(** ** Effects of the operations *)

Lemma setReady_spec l la lp p i f :
  ichains l la lp -> p <> 0 -> ioheap l !! p = Some i -> (p ∈ lp <-> io_ready i <> 0) ->
  exists l', qloopio_setReady p f l = Ok l' /\
    ichains l' la (if decide (p ∈ lp) then lp else p :: lp) /\
    iview l' = <[p := ioinfo {| i with io_ready := Z.lor (io_ready i) f |}]> (iview l) /\
    handlers l' = handlers l /\ lbrk l' = lbrk l /\
    (bh_ok l -> bh_ok l').
Proof.
  intros Hc Hp Hi Hr. unfold qloopio_setReady. rewrite (deref_Some _ _ i) by done. mon.
  destruct (Z.eqb_spec (io_ready i) 0) as [E0|E0].
  - rewrite decide_False by (rewrite Hr; tauto). unfold qlooper_addPendingIo.
    set (l0 := if io_pending l =? 0 then _ else _).
    assert (El : ioheap l0 = ioheap l /\ io_pending l0 = io_pending l /\ io_list l0 = io_list l /\
      handlers l0 = handlers l /\ lbrk l0 = lbrk l /\ (bh_ok l -> io_bh l0 = true)).
    { unfold l0. destruct (Z.eqb_spec (io_pending l) 0); cbn; split_and!; try done.
      intros Hb. by apply Hb. }
    destruct El as (E1 & E2 & E3 & E4 & E5 & E6).
    rewrite (mod_io_Ok p _ l0 i) by (done || by rewrite E1). mon.
    rewrite (mod_io_Ok p _ _ (set_pendingNext (io_pending l0) i)) by (done || cbn; apply lookup_insert_eq).
    mon. cbn [ioheap]. rewrite insert_insert_eq, E1. eexists. split; [done|]. cbn. split_and!; try done.
    + destruct Hc as [Hc1 Hc2]. split; cbn.
      * rewrite E3. eapply chain_frame; [|exact Hc1]. intros x _. rewrite lookup_insert.
        by case_decide; subst; rewrite ?Hi.
      * split; [done|]. split; [done|]. rewrite lookup_insert_eq. eexists. split; [done|]. cbn. rewrite E2.
        eapply chain_frame; [|exact Hc2]. intros x Hx. rewrite lookup_insert_ne; [done|].
        intros ->. by apply Hr in Hx.
    + unfold iview. cbn. by rewrite fmap_insert.
    + intros Hb _. by apply E6.
  - rewrite decide_True by (by apply Hr). mon. rewrite (mod_io_Ok p _ l i) by done.
    eexists. split; [done|]. cbn. split_and!; try done.
    + by eapply ichains_insert.
    + unfold iview. cbn. by rewrite fmap_insert.
Qed.

Lemma removePending_spec l la lp p i :
  ichains l la lp -> p <> 0 -> ioheap l !! p = Some i -> (p ∈ lp <-> io_ready i <> 0) ->
  exists l', qloopio_removePending p l = Ok l' /\
    ichains l' la (filter (fun q => q <> p) lp) /\
    iview l' = <[p := ioinfo {| i with io_ready := 0 |}]> (iview l) /\
    handlers l' = handlers l /\ lbrk l' = lbrk l /\ io_bh l' = io_bh l.
Proof.
  intros [Hc1 Hc2] Hp Hi Hr. unfold qloopio_removePending. rewrite (deref_Some _ _ i) by done. mon.
  destruct (Z.eqb_spec (io_ready i) 0) as [E0|E0]; cbn [negb].
  - eexists. split; [done|]. rewrite filter_id by (intros x Hx ->; by apply Hr in Hx).
    split_and!; try done. unfold iview. symmetry. apply insert_id. rewrite lookup_fmap, Hi. cbn.
    f_equal. destruct i; cbn in *. by subst.
  - assert (Hin : p ∈ lp) by (by apply Hr). apply list_elem_of_split in Hin as (l1 & l2 & ->).
    pose proof (chain_NoDup _ _ _ Hc2) as Hnd.
    unfold qlooper_delPendingIo. erewrite find_link_spec; [|exact Hc2| |].
    2:{ intros x Hx. f_equal. apply Z.eqb_neq. intros ->. apply NoDup_app in Hnd. set_solver. }
    2:{ cbn. intros x [= <-]. by rewrite Z.eqb_refl. }
    assert (El : load_link io_pendingNext (ioheap l) (io_pending l) (link_after l1) = Ok p)
      by (by rewrite (load_link_after _ _ _ _ Hc2)).
    mon. rewrite El. mon.
    rewrite (proj2 (Z.eqb_neq p 0)) by done. rewrite (deref_Some _ _ i) by done. mon.
    destruct (unlink_clear (next := io_pendingNext) (set_next := set_pendingNext) ltac:(done)
                _ _ _ _ _ _ Hc2 Hi) as (h' & p' & E1 & Eq & Hs' & Hf).
    rewrite E1. mon. rewrite (mod_io_Ok p _ _ i) by done. mon.
    rewrite (mod_io_Ok p _ _ (set_pendingNext 0 i)) by (done || cbn; apply lookup_insert_eq).
    cbn [ioheap]. rewrite insert_insert_eq. eexists. split; [done|]. cbn.
    rewrite filter_ne_split by done. split_and!; try done.
    + split; cbn.
      * eapply chain_frame; [|exact Hc1]. intros x _.
        rewrite <- (fmap_eq_lookup io_next _ _ x (Hf _ io_next ltac:(done))).
        rewrite !lookup_insert. by case_decide.
      * eapply chain_frame; [|exact Hs']. intros x _. rewrite !lookup_insert. by case_decide.
    + unfold iview. cbn. rewrite fmap_insert. pose proof (Hf _ ioinfo ltac:(done)) as Hv.
      rewrite <- Hv, fmap_insert. by rewrite insert_insert_eq.
Qed.

Lemma delIo_spec l l1 p l2 lp i :
  ichains l (l1 ++ p :: l2) lp -> p <> 0 -> ioheap l !! p = Some i ->
  exists l', qlooper_delIo p l = Ok l' /\ ichains l' (l1 ++ l2) lp /\ iview l' = iview l /\
    handlers l' = handlers l /\ lbrk l' = lbrk l /\ io_bh l' = io_bh l /\ io_pending l' = io_pending l.
Proof.
  intros [Hc1 Hc2] Hp Hi. pose proof (chain_NoDup _ _ _ Hc1) as Hnd.
  unfold qlooper_delIo. erewrite find_link_spec; [|exact Hc1| |].
  2:{ intros x Hx. f_equal. apply Z.eqb_neq. intros ->. apply NoDup_app in Hnd. set_solver. }
  2:{ cbn. intros x [= <-]. by rewrite Z.eqb_refl. }
  assert (El : load_link io_next (ioheap l) (io_list l) (link_after l1) = Ok p)
    by (by rewrite (load_link_after _ _ _ _ Hc1)).
  mon. rewrite El. mon. rewrite (proj2 (Z.eqb_neq p 0)) by done.
  rewrite (deref_Some _ _ i) by done. mon.
  destruct (unlink_clear (next := io_next) (set_next := set_io_next) ltac:(done)
              _ _ _ _ _ _ Hc1 Hi) as (h' & p' & E1 & Eq & Hs' & Hf).
  rewrite E1. mon. rewrite (mod_io_Ok p _ _ i) by done.
  eexists. split; [done|]. cbn. split_and!; try done.
  - split; cbn; [done|]. eapply chain_frame; [|exact Hc2]. intros x _. by apply fmap_eq_lookup, Hf.
  - by apply Hf.
Qed.

(** ** Preservation of the link-free part *)

(** New flags for a watcher. *)
Lemma icore_ready V H b p i r :
  icore V H b -> V !! p = Some i -> in_range 2 r -> icore (<[p := {| i with io_ready := r |}]> V) H b.
Proof.
  intros [H1 H2 H3 H4 [H5 H6]] Hp Hr.
  assert (Hold : forall q j, <[p := {| i with io_ready := r |}]> V !! q = Some j ->
    exists j0, V !! q = Some j0 /\ io_fd j = io_fd j0 /\ io_wanted j = io_wanted j0).
  { intros q j [[<- <-]|[_ Hq]]%lookup_insert_Some; eauto. }
  split.
  - intros q q' j j' Hq Hq' E. destruct (Hold _ _ Hq) as (j0 & Hj & E1 & _), (Hold _ _ Hq') as (j1 & Hj1 & E2 & _).
    eapply H1; eauto. congruence.
  - intros q j [[<- <-]|[_ Hq]]%lookup_insert_Some; [|eauto]. split; [done|]. cbn. apply (H2 p i Hp).
  - intros q j Hq. destruct (Hold _ _ Hq) as (j0 & Hj & -> & ->). eauto.
  - intros fd h Hh. destruct (H4 fd h Hh) as (j & Hj & E). rewrite lookup_insert.
    case_decide as Ep; [|eauto]. rewrite <- Ep in Hj. simplify_eq. by eexists.
  - split; [done|]. intros q Hq. apply H6. apply lookup_insert_is_Some in Hq as [<-|[_ Hq]]; eauto.
Qed.

(** New wishes of a watcher, and the handlers that go with them. *)
Lemma icore_wanted V H b p i w :
  icore V H b -> V !! p = Some i -> in_range 2 w ->
  icore (<[p := {| i with io_wanted := w |}]> V)
    (if flag_set w LOOP_IO_READ || flag_set w LOOP_IO_WRITE
     then <[io_fd i := mkHandler (flag_set w LOOP_IO_READ) (flag_set w LOOP_IO_WRITE) p]> H
     else delete (io_fd i) H) b.
Proof.
  intros [H1 H2 H3 H4 [H5 H6]] Hp Hr. set (Hn := if _ || _ then _ else _).
  assert (Hlk : forall fd, Hn !! fd = if decide (fd = io_fd i) then handler_of p w else H !! fd).
  { intros fd. unfold Hn, handler_of. destruct (_ || _); case_decide; subst;
      rewrite ?lookup_insert_eq, ?lookup_delete_eq, ?lookup_insert_ne, ?lookup_delete_ne by done; done. }
  assert (Hold : forall q j, <[p := {| i with io_wanted := w |}]> V !! q = Some j ->
    exists j0, V !! q = Some j0 /\ io_fd j = io_fd j0 /\ io_ready j = io_ready j0 /\
      (q <> p -> io_wanted j = io_wanted j0) /\ (q = p -> io_wanted j = w)).
  { intros q j [[<- <-]|[Hne Hq]]%lookup_insert_Some; [exists i|exists j]; split_and!; try done; congruence. }
  split.
  - intros q q' j j' Hq Hq' E. destruct (Hold _ _ Hq) as (j0 & Hj & E1 & _), (Hold _ _ Hq') as (j1 & Hj1 & E2 & _).
    eapply H1; eauto. congruence.
  - intros q j [[<- <-]|[_ Hq]]%lookup_insert_Some; [|eauto]. split; [|done]. cbn. apply (H2 p i Hp).
  - intros q j Hq. destruct (Hold _ _ Hq) as (j0 & Hj & Ef & _ & Ew & Ep). rewrite Hlk, Ef.
    destruct (decide (q = p)) as [->|Hne].
    + assert (j0 = i) as -> by congruence. rewrite decide_True by done. by rewrite Ep.
    + rewrite decide_False; [rewrite Ew by done; eauto|]. intros E. apply Hne. eapply H1; eauto.
  - intros fd h. rewrite Hlk. case_decide as E.
    + unfold handler_of. destruct (_ || _); [|done]. intros [= <-]. cbn. rewrite lookup_insert_eq. by eexists.
    + intros Hh. destruct (H4 fd h Hh) as (j & Hj & Efd). rewrite lookup_insert_ne; [eauto|].
      intros ->. simplify_eq.
  - split; [done|]. intros q Hq. apply H6. apply lookup_insert_is_Some in Hq as [<-|[_ Hq]]; eauto.
Qed.

Lemma icore_free V H b p i :
  icore V H b -> V !! p = Some i -> icore (delete p V) (delete (io_fd i) H) b.
Proof.
  intros [H1 H2 H3 H4 [H5 H6]] Hp. split.
  - intros q q' j j' [_ Hq]%lookup_delete_Some [_ Hq']%lookup_delete_Some. eauto.
  - intros q j [_ Hq]%lookup_delete_Some. eauto.
  - intros q j [Hne Hq]%lookup_delete_Some. rewrite lookup_delete_ne; [eauto|]. intros E. eauto.
  - intros fd h [Hne Hh]%lookup_delete_Some. destruct (H4 fd h Hh) as (j & Hj & E). exists j.
    rewrite lookup_delete_ne; [done|]. intros ->. simplify_eq.
  - split; [done|]. intros q [_ Hq]%lookup_delete_is_Some. eauto.
Qed.

Lemma icore_new V H b fd op :
  icore V H b -> (forall p i, V !! p = Some i -> io_fd i <> fd) -> H !! fd = None ->
  icore (<[b := mkIo fd op 0 0 0 0]> V) H (b + 1).
Proof.
  intros [H1 H2 H3 H4 [H5 H6]] Hfd Hh. assert (Hb : V !! b = None).
  { apply eq_None_not_Some. intros Hx. specialize (H6 b Hx). lia. }
  split.
  - intros q q' j j' [[<- <-]|[_ Hq]]%lookup_insert_Some [[<- <-]|[_ Hq']]%lookup_insert_Some E; try done.
    + cbn in E. by destruct (Hfd q' j').
    + cbn in E. by destruct (Hfd q j).
    + eauto.
  - intros q j [[<- <-]|[_ Hq]]%lookup_insert_Some; [done|eauto].
  - intros q j [[<- <-]|[_ Hq]]%lookup_insert_Some; [done|eauto].
  - intros fd' h Hh'. destruct (H4 fd' h Hh') as (j & Hj & E). exists j.
    rewrite lookup_insert_ne; [done|]. congruence.
  - split; [lia|]. intros q [<-|[_ Hq]]%lookup_insert_is_Some; [lia|]. specialize (H6 q Hq). lia.
Qed.

(** ** Preservation of the invariant *)

Lemma lwf_setReady l la lp p i f :
  lwf_at l la lp -> ioheap l !! p = Some i -> in_range 2 f -> f <> 0 ->
  exists l', qloopio_setReady p f l = Ok l' /\
    lwf_at l' la (if decide (p ∈ lp) then lp else p :: lp) /\
    iview l' = <[p := ioinfo {| i with io_ready := Z.lor (io_ready i) f |}]> (iview l) /\
    handlers l' = handlers l /\ (bh_ok l -> bh_ok l').
Proof.
  intros Hl Hi Hf Hf0. destruct (lwf_io _ _ _ _ _ Hl Hi) as (Hp & Hr & Hr2 & _).
  destruct Hl as [Hc Hd Hpe Hk].
  destruct (setReady_spec l la lp p i f Hc Hp Hi Hr) as (l' & E & Hc' & Hv & Hh & Hb & Hbh).
  exists l'. split_and!; try done. split; [done|..].
  - intros q. rewrite Hd, Hv, lookup_insert_is_Some'. pose proof (iview_Some _ _ _ Hi). naive_solver.
  - intros q j. rewrite Hv. intros [[<- <-]|[Hne Hq]]%lookup_insert_Some.
    + cbn. split; [intros _ E0; apply Z.lor_eq_0_iff in E0; tauto|]. intros _. case_decide; set_solver.
    + rewrite <- (Hpe q j Hq). case_decide; set_solver.
  - rewrite Hv, Hh, Hb. change (ioinfo _) with {| (ioinfo i) with io_ready := Z.lor (io_ready i) f |}.
    apply icore_ready; [done|by apply iview_Some|]. apply lor_range; done || lia.
Qed.

Lemma lwf_removePending l la lp p i :
  lwf_at l la lp -> ioheap l !! p = Some i ->
  exists l', qloopio_removePending p l = Ok l' /\ lwf_at l' la (filter (fun q => q <> p) lp) /\
    iview l' = <[p := ioinfo {| i with io_ready := 0 |}]> (iview l) /\ handlers l' = handlers l /\
    io_bh l' = io_bh l.
Proof.
  intros Hl Hi. destruct (lwf_io _ _ _ _ _ Hl Hi) as (Hp & Hr & Hr2 & _).
  destruct Hl as [Hc Hd Hpe Hk].
  destruct (removePending_spec l la lp p i Hc Hp Hi Hr) as (l' & E & Hc' & Hv & Hh & Hb & Hbh).
  exists l'. split_and!; try done. split; [done|..].
  - intros q. rewrite Hd, Hv, lookup_insert_is_Some'. pose proof (iview_Some _ _ _ Hi). naive_solver.
  - intros q j. rewrite Hv, list_elem_of_filter. intros [[<- <-]|[Hne Hq]]%lookup_insert_Some.
    + cbn. tauto.
    + rewrite <- (Hpe q j Hq). naive_solver.
  - rewrite Hv, Hh, Hb. change (ioinfo _) with {| (ioinfo i) with io_ready := 0 |}.
    apply icore_ready; [done|by apply iview_Some|done].
Qed.

(** What the operations on one watcher [p] do to the rest: the other watchers
    are untouched, and no watcher becomes pending. *)
Definition calm (p : Z) (l l' : looper) (lp lp' : list Z) : Prop :=
  (forall q, q <> p -> iview l' !! q = iview l !! q) /\ (lp' ⊆ lp) /\
  (length lp' <= length lp)%nat /\ (io_pending l' <> 0 -> io_pending l <> 0) /\ io_bh l' = io_bh l.

Lemma pending_nonempty l la lp : lwf_at l la lp -> io_pending l <> 0 <-> lp <> [].
Proof.
  intros [[_ Hc] _ _ _]. destruct lp as [|q lp]; cbn in Hc; [|naive_solver]. naive_solver.
Qed.

Lemma length_filter_le {A} (P : A -> Prop) `{forall x, Decision (P x)} (l : list A) :
  (length (filter P l) <= length l)%nat.
Proof. induction l as [|x l IH]; [done|]. rewrite filter_cons. case_decide; cbn; lia. Qed.

Lemma lwf_modify l la lp p i w :
  lwf_at l la lp -> ioheap l !! p = Some i -> in_range 2 w ->
  exists l' lp' r, qloopio_modify p w l = Ok l' /\ lwf_at l' la lp' /\ calm p l l' lp lp' /\
    iview l' !! p = Some (ioinfo {| i with io_wanted := w; io_ready := r |}) /\
    (r = io_ready i \/ r = 0).
Proof.
  intros Hl Hi Hw. destruct (lwf_io _ _ _ _ _ Hl Hi) as (Hp & _).
  unfold qloopio_modify. rewrite (deref_Some _ _ i) by done. mon.
  destruct (Z.eqb_spec w (io_wanted i)) as [->|Hne].
  { exists l, lp, (io_ready i). split_and!; try done; [|by left].
    rewrite (iview_Some _ _ _ Hi). by destruct i. }
  assert (Hpre : exists l1 lp1 r, (if negb (io_ready i =? 0) && (Z.land (io_ready i) w =? 0)
      then qloopio_removePending p l else Ok l) = Ok l1 /\ lwf_at l1 la lp1 /\ calm p l l1 lp lp1 /\
      iview l1 !! p = Some (ioinfo {| i with io_ready := r |}) /\ (r = io_ready i \/ r = 0)).
  { destruct (_ && _).
    - destruct (lwf_removePending l la lp p i Hl Hi) as (l1 & E & Hl1 & Hv & Hh & Hb).
      exists l1, (filter (fun q => q <> p) lp), 0. split_and!; try done; [|by rewrite Hv, lookup_insert_eq|by right].
      split_and!; try done.
      + intros q Hq. by rewrite Hv, lookup_insert_ne.
      + intros q Hq. apply list_elem_of_filter in Hq. tauto.
      + apply length_filter_le.
      + rewrite (pending_nonempty _ _ _ Hl1), (pending_nonempty _ _ _ Hl). intros H ->. done.
    - exists l, lp, (io_ready i). split_and!; try done; [|by left]. rewrite (iview_Some _ _ _ Hi). by destruct i. }
  destruct Hpre as (l1 & lp1 & r & -> & Hl1 & Hcalm & Hv1 & Hr). mon.
  rewrite iview_lookup in Hv1. apply fmap_Some in Hv1 as (i1 & Hi1 & Ei).
  assert (Efd : io_fd i1 = io_fd i) by (by apply (f_equal io_fd) in Ei).
  rewrite (mod_io_Ok p _ _ i1) by done.
  set (l2 := {| ioheap := _ |}). exists l2, lp1, r. split; [done|].
  assert (Hv' : iview l2 = <[p := {| (ioinfo i1) with io_wanted := w |}]> (iview l1)).
  { unfold iview, l2. cbn. by rewrite fmap_insert. }
  split_and!.
  - destruct Hl1 as [Hc1 Hd1 Hpe1 Hk1]. split.
    + apply (ichains_insert l1 la lp1 p i1); done.
    + intros q. rewrite Hd1, Hv', lookup_insert_is_Some'. pose proof (iview_Some _ _ _ Hi1). naive_solver.
    + intros q j. rewrite Hv'. intros [[<- <-]|[_ Hq]]%lookup_insert_Some; [|by apply Hpe1].
      cbn. apply (Hpe1 p (ioinfo i1)). by apply iview_Some.
    + rewrite Hv'. unfold l2. cbn [handlers lbrk qemu_set_fd_handler]. rewrite <- Efd.
      apply (icore_wanted _ _ _ p (ioinfo i1)); [done|by apply iview_Some|done].
  - destruct Hcalm as (C1 & C2 & C3 & C4 & C5). split_and!; try done.
    intros q Hq. rewrite Hv', lookup_insert_ne by done. by apply C1.
  - rewrite Hv', lookup_insert_eq. f_equal. rewrite <- Ei. done.
  - done.
Qed.

Lemma chain_delete {next : QLoopIo -> Z} (h : gmap Z QLoopIo) a l p :
  chain next h a l -> p ∉ l -> chain next (delete p h) a l.
Proof.
  intros Hc Hp. eapply chain_frame; [|exact Hc]. intros x Hx. rewrite lookup_delete_ne; [done|]. set_solver.
Qed.

Lemma lwf_free l la lp p i :
  lwf_at l la lp -> ioheap l !! p = Some i ->
  exists l', qloopio_free p l = Ok l' /\
    lwf_at l' (filter (fun q => q <> p) la) (filter (fun q => q <> p) lp) /\
    iview l' = delete p (iview l) /\ io_bh l' = io_bh l /\ lbrk l' = lbrk l.
Proof.
  intros Hl Hi. destruct (lwf_io _ _ _ _ _ Hl Hi) as (Hp & Hr & _).
  unfold qloopio_free. rewrite (deref_Some _ _ i) by done. mon.
  assert (Hpre : exists l1, (if negb (io_ready i =? 0) then qloopio_removePending p l else Ok l) = Ok l1 /\
      lwf_at l1 la (filter (fun q => q <> p) lp) /\
      iview l1 = <[p := ioinfo {| i with io_ready := 0 |}]> (iview l) /\ io_bh l1 = io_bh l /\ lbrk l1 = lbrk l).
  { destruct (Z.eqb_spec (io_ready i) 0) as [E0|E0]; cbn [negb].
    - exists l. split; [done|]. rewrite filter_id by (intros x Hx ->; by apply Hr in Hx).
      split_and!; try done. symmetry. apply insert_id. rewrite (iview_Some _ _ _ Hi).
      destruct i; cbn in *; by subst.
    - destruct Hl as [Hc Hd Hpe Hk].
      destruct (removePending_spec l la lp p i Hc Hp Hi Hr) as (l1 & E & _ & _ & _ & Hb & _).
      destruct (lwf_removePending l la lp p i (Build_lwf_at _ _ _ Hc Hd Hpe Hk) Hi)
        as (l1' & E' & Hl1 & Hv & _ & Hbh).
      assert (l1' = l1) as -> by congruence. exists l1. by split_and!. }
  destruct Hpre as (l1 & -> & Hl1 & Hv1 & Hbh1 & Hbr1). mon.
  assert (Hin : p ∈ la) by (apply (lw_dom _ _ _ Hl1); rewrite Hv1, lookup_insert_eq; eauto).
  assert (Hi1 : exists i1, ioheap l1 !! p = Some i1 /\ io_fd i1 = io_fd i).
  { pose proof (iview_lookup l1 p) as Hx. rewrite Hv1, lookup_insert_eq in Hx. symmetry in Hx.
    apply fmap_Some in Hx as (i1 & Hi1 & Ei). exists i1. split; [done|]. by apply (f_equal io_fd) in Ei. }
  destruct Hi1 as (i1 & Hi1 & Efd). apply list_elem_of_split in Hin as (a1 & a2 & ->).
  destruct Hl1 as [Hc1 Hd1 Hpe1 Hk1].
  assert (Hnd : NoDup (a1 ++ p :: a2)) by (destruct Hc1 as [H _]; by eapply chain_NoDup).
  destruct (delIo_spec l1 a1 p a2 _ i1 Hc1 Hp Hi1) as (l2 & -> & Hc2 & Hv2 & Hh2 & Hb2 & Hbh2 & _). mon.
  assert (Hi2 : exists i2, ioheap l2 !! p = Some i2).
  { pose proof (iview_lookup l2 p) as Hx. rewrite Hv2, (iview_Some _ _ _ Hi1) in Hx. symmetry in Hx.
    apply fmap_Some in Hx as (i2 & Hi2 & _). eauto. }
  destruct Hi2 as (i2 & Hi2). cbn [ioheap qemu_set_fd_handler]. rewrite (deref_Some _ _ i2) by done. mon.
  set (l3 := {| ioheap := _ |}). exists l3. split; [done|].
  assert (Hv3 : iview l3 = delete p (iview l)).
  { unfold iview, l3. cbn. rewrite fmap_delete. fold (iview l2). rewrite Hv2, Hv1.
    apply delete_insert_eq. }
  assert (Hnot : p ∉ a1 ++ a2) by (apply NoDup_app in Hnd as (_ & Hd & Hn); apply NoDup_cons in Hn; set_solver).
  rewrite filter_ne_split by done. split_and!; try done; [|cbn; congruence|cbn; congruence].
  split.
  - destruct Hc2 as [C1 C2]. split; cbn; apply chain_delete; try done.
    rewrite list_elem_of_filter. tauto.
  - intros q. rewrite Hv3, lookup_delete_is_Some, <- (lw_dom _ _ _ Hl). set_solver.
  - intros q j. rewrite Hv3, list_elem_of_filter. intros [Hne Hq]%lookup_delete_Some.
    rewrite (lw_pending _ _ _ Hl q j Hq). naive_solver.
  - rewrite Hv3. unfold l3. cbn. rewrite Hh2, Hb2. apply iview_Some in Hi1 as Hvi1.
    rewrite <- Efd. replace (delete p (iview l)) with (delete p (iview l1)) by (by rewrite Hv1, delete_insert_eq).
    change (io_fd i1) with (io_fd (ioinfo i1)). by apply icore_free.
Qed.

Lemma lwf_new l la lp fd op :
  lwf_at l la lp -> (forall p i, iview l !! p = Some i -> io_fd i <> fd) ->
  exists l', qloopio_new fd op l = Ok (lbrk l, l') /\ lwf_at l' (lbrk l :: la) lp /\
    iview l' = <[lbrk l := mkIo fd op 0 0 0 0]> (iview l) /\ iview l !! lbrk l = None /\
    lbrk l <> 0 /\ io_bh l' = io_bh l /\ io_pending l' = io_pending l /\ lbrk l' = lbrk l + 1.
Proof.
  intros Hl Hfd. pose proof Hl as [[Hc1 Hc2] Hd Hpe Hk]. destruct (ic_brk _ _ _ Hk) as [Hb0 Hb].
  assert (Hfresh : iview l !! lbrk l = None).
  { apply eq_None_not_Some. intros Hx. specialize (Hb _ Hx). lia. }
  assert (Hfr : ioheap l !! lbrk l = None) by (by rewrite iview_lookup, fmap_None in Hfresh).
  unfold qloopio_new, qlooper_addIo.
  rewrite (mod_io_Ok (lbrk l) _ _ (mkIo fd op 0 0 0 0)) by (lia || cbn; apply lookup_insert_eq). mon.
  cbn [ioheap]. rewrite insert_insert_eq. set (l2 := {| ioheap := _ |}). exists l2. split; [done|].
  assert (Hv : iview l2 = <[lbrk l := mkIo fd op 0 0 0 0]> (iview l)).
  { unfold iview, l2. cbn. by rewrite fmap_insert. }
  split_and!; try done; [|lia]. split.
  - assert (Hni : lbrk l ∉ la) by (rewrite Hd, Hfresh; by intros []).
    assert (Hnp : lbrk l ∉ lp).
    { intros Hx. destruct (chain_elem _ _ _ _ Hc2 Hx) as [_ [x Hx']]. congruence. }
    split; unfold l2; cbn.
    + split; [done|]. split; [lia|]. rewrite lookup_insert_eq. eexists. split; [done|]. cbn.
      eapply chain_frame; [|exact Hc1]. intros x Hx. rewrite lookup_insert_ne; [done|]. set_solver.
    + eapply chain_frame; [|exact Hc2]. intros x Hx. rewrite lookup_insert_ne; [done|]. set_solver.
  - intros q. rewrite elem_of_cons, Hd, Hv, lookup_insert_is_Some'. naive_solver.
  - intros q j. rewrite Hv. intros [[<- <-]|[_ Hq]]%lookup_insert_Some; [|by apply Hpe].
    cbn. split; [|done]. intros Hx. destruct (chain_elem _ _ _ _ Hc2 Hx) as [_ [x Hx']]. congruence.
  - rewrite Hv. unfold l2. cbn. apply icore_new; [done|done|].
    apply eq_None_not_Some. intros [h Hh]. destruct (ic_owner _ _ _ Hk fd h Hh) as (i & Hi & E).
    by destruct (Hfd _ _ Hi).
Qed.

Lemma lwf_bh_next l la lp :
  lwf_at l la lp ->
  match lp with
  | [] => bh_next l = Ok (None, l)
  | p :: lp' => exists i l', ioheap l !! p = Some i /\
      bh_next l = Ok (Some (io_opaque i, io_fd i, io_ready i), l') /\ lwf_at l' la lp' /\
      iview l' = <[p := ioinfo {| i with io_ready := 0 |}]> (iview l) /\ io_bh l' = io_bh l
  end.
Proof.
  intros Hl. pose proof Hl as [[Hc1 Hc2] Hd Hpe Hk]. unfold bh_next. destruct lp as [|p lp'].
  { cbn in Hc2. by rewrite Hc2. }
  destruct Hc2 as (Ep & Hp & i & Hi & Hc2'). rewrite Ep, (proj2 (Z.eqb_neq _ _) Hp).
  rewrite (deref_Some _ _ i) by done. mon. rewrite (mod_io_Ok p _ _ i) by done. mon.
  rewrite (mod_io_Ok p _ _ (set_pendingNext 0 i)) by (done || cbn; apply lookup_insert_eq). mon.
  cbn [ioheap]. rewrite insert_insert_eq. set (l2 := {| ioheap := _ |}).
  assert (Hv : iview l2 = <[p := ioinfo {| i with io_ready := 0 |}]> (iview l)).
  { unfold iview, l2. cbn. by rewrite fmap_insert. }
  assert (Hnd : p ∉ lp').
  { destruct (lw_chains _ _ _ Hl) as [_ Hc]. apply chain_NoDup, NoDup_cons in Hc. tauto. }
  exists i, l2. split_and!; try done. split.
  - split; unfold l2; cbn.
    + eapply chain_frame; [|exact Hc1]. intros x _. rewrite lookup_insert. case_decide; subst; by rewrite ?Hi.
    + eapply chain_frame; [|exact Hc2']. intros x Hx. rewrite lookup_insert_ne; [done|]. set_solver.
  - intros q. rewrite Hd, Hv, lookup_insert_is_Some'. pose proof (iview_Some _ _ _ Hi). naive_solver.
  - intros q j. rewrite Hv. intros [[<- <-]|[Hne Hq]]%lookup_insert_Some; [cbn; tauto|].
    rewrite <- (Hpe q j Hq). set_solver.
  - rewrite Hv. unfold l2. cbn [handlers lbrk].
    change (ioinfo _) with {| (ioinfo i) with io_ready := 0 |}.
    apply icore_ready; [done|by apply iview_Some|done].
Qed.

(** A descriptor found ready by QEMU's main loop. *)
Lemma lwf_ready l la lp fd rd wr :
  lwf_at l la lp ->
  exists l' lp', main_loop_ready fd rd wr l = Ok l' /\ lwf_at l' la lp' /\ (bh_ok l -> bh_ok l') /\
    (lp ⊆ lp') /\
    (forall p i, iview l !! p = Some i -> io_fd i <> fd -> iview l' !! p = Some i) /\
    (forall p i, iview l !! p = Some i -> io_fd i = fd ->
       iview l' !! p = Some {| i with io_ready :=
         Z.lor (io_ready i) (Z.lor (if rd && flag_set (io_wanted i) LOOP_IO_READ then LOOP_IO_READ else 0)
                                   (if wr && flag_set (io_wanted i) LOOP_IO_WRITE then LOOP_IO_WRITE else 0)) |}).
Proof.
  intros Hl. unfold main_loop_ready. pose proof (lw_core _ _ _ Hl) as Hk.
  destruct (handlers l !! fd) as [h|] eqn:Hh.
  - destruct (ic_owner _ _ _ Hk fd h Hh) as (i & Hi & Efd).
    pose proof (ic_handler _ _ _ Hk _ _ Hi) as Hhi. rewrite Efd, Hh in Hhi.
    unfold handler_of in Hhi. destruct (_ || _); [|done]. injection Hhi as ->. cbn [h_read h_write h_io].
    set (p := h_io _) in *. clearbody p. clear Hh.
    pose proof (iview_lookup l p) as Hx. cbn [h_io] in Hi. rewrite Hi in Hx. symmetry in Hx.
    apply fmap_Some in Hx as (i0 & Hi0 & ->). cbn [io_wanted ioinfo io_fd] in *.
    assert (Hstep : forall (b : bool) f l lp i, lwf_at l la lp -> ioheap l !! p = Some i -> in_range 2 f -> f <> 0 ->
      exists l' lp' i', (if b then qloopio_setReady p f l else Ok l) = Ok l' /\ lwf_at l' la lp' /\
        (bh_ok l -> bh_ok l') /\ (lp ⊆ lp') /\
        iview l' = <[p := ioinfo {| i with io_ready := Z.lor (io_ready i) (if b then f else 0) |}]> (iview l) /\
        ioheap l' !! p = Some i' /\ ioinfo i' = ioinfo {| i with io_ready := Z.lor (io_ready i) (if b then f else 0) |}).
    { clear. intros b f l lp i Hl Hi Hf Hf0. destruct b.
      - destruct (lwf_setReady l la lp p i f Hl Hi Hf Hf0) as (l' & E & Hl' & Hv & _ & Hb).
        pose proof (iview_lookup l' p) as Hx. rewrite Hv, lookup_insert_eq in Hx. symmetry in Hx.
        apply fmap_Some in Hx as (i' & Hi' & Ei).
        eexists l', _, i'. split_and!; try done. case_decide; set_solver.
      - exists l, lp, i. rewrite Z.lor_0_r. split_and!; try done.
        symmetry. apply insert_id. rewrite (iview_Some _ _ _ Hi). by destruct i. }
    unfold qloopio_handleRead, qloopio_handleWrite.
    destruct (Hstep (rd && flag_set (io_wanted i0) LOOP_IO_READ) LOOP_IO_READ l lp i0 Hl Hi0)
      as (l1 & lp1 & i1 & -> & Hl1 & Hb1 & Hs1 & Hv1 & Hi1 & Ei1); [done|done|]. mon.
    destruct (Hstep (wr && flag_set (io_wanted i0) LOOP_IO_WRITE) LOOP_IO_WRITE l1 lp1 i1 Hl1 Hi1)
      as (l2 & lp2 & i2 & -> & Hl2 & Hb2 & Hs2 & Hv2 & _); [done|done|].
    exists l2, lp2. split; [done|]. split; [done|]. split; [auto|]. split; [set_solver|]. split.
    + intros q j Hq Hfd. assert (Hne : p <> q).
      { intros ->. assert (j = ioinfo i0) as -> by congruence. by cbn in Hfd. }
      by rewrite Hv2, Hv1, !lookup_insert_ne by done.
    + intros q j Hq Hfd. assert (q = p) as ->.
      { eapply (ic_fd _ _ _ Hk); [exact Hq|exact Hi|]. cbn. congruence. }
      assert (j = ioinfo i0) as -> by congruence. rewrite Hv2, lookup_insert_eq. f_equal.
      cbn [io_ready io_wanted ioinfo].
      assert (Er : io_ready i1 = Z.lor (io_ready i0)
        (if rd && flag_set (io_wanted i0) LOOP_IO_READ then LOOP_IO_READ else 0))
        by (by apply (f_equal io_ready) in Ei1).
      rewrite Z.lor_assoc, <- Er. injection Ei1 as -> -> -> _. done.
  - exists l, lp. split_and!; try done. intros p i Hi Hfd.
    pose proof (ic_handler _ _ _ Hk _ _ Hi) as Hhi. rewrite Hfd, Hh in Hhi. symmetry in Hhi.
    unfold handler_of in Hhi. destruct (_ || _) eqn:Hf; [done|]. apply orb_false_iff in Hf as [-> ->].
    rewrite !andb_false_r. change (Z.lor 0 0) with 0. rewrite Z.lor_0_r. rewrite Hi. by destruct i.
Qed.

(** ** The bottom half *)

Section bottom_half.
Context {S : Type} (get : S -> looper) (put : looper -> S -> S).
Context (callback : Z -> Z -> Z -> S -> res S) (I : S -> Prop).
Hypothesis get_put : forall l s, get (put l s) = l.

(** A callback that keeps the invariant [I] of the system, the looper's
    included, and makes no watcher pending. *)
Hypothesis callback_ok : forall s op fd r l la lp lp',
  I s -> lwf_at (get s) la lp -> bh_next (get s) = Ok (Some (op, fd, r), l) -> lwf_at l la lp' ->
  exists s' la2 lp2, callback op fd r (put l s) = Ok s' /\ I s' /\ lwf_at (get s') la2 lp2 /\
    (length lp2 <= length lp')%nat.
Hypothesis put_ok : forall s, I s -> bh_next (get s) = Ok (None, get s) -> I (put (get s) s).

(** The bottom half ends with nothing pending. *)
Lemma bh_loop_spec fuel s la lp :
  I s -> lwf_at (get s) la lp -> (length lp < fuel)%nat ->
  exists s' la', bh_loop get put callback fuel s = Ok s' /\ I s' /\ lwf_at (get s') la' [].
Proof.
  revert s la lp; induction fuel as [|fuel IH]; intros s la lp HI Hl Hf; [lia|].
  pose proof (lwf_bh_next _ _ _ Hl) as Hn. cbn [bh_loop]. destruct lp as [|p lp].
  - rewrite Hn. mon. eexists _, la. split; [done|]. split; [by apply put_ok|by rewrite get_put].
  - destruct Hn as (i & l' & Hi & E & Hl' & _). rewrite E. mon.
    destruct (callback_ok s _ _ _ l' la (p :: lp) lp HI Hl E Hl') as (s' & la2 & lp2 & -> & HI' & Hl2 & Hlen).
    mon. apply (IH s' la2 lp2); [done..|]. cbn in Hf. lia.
Qed.
End bottom_half.

(** A callback that records its calls. *)
Definition record_call (op fd r : Z) (s : looper * list (Z * Z * Z)) : res (looper * list (Z * Z * Z)) :=
  Ok (s.1, s.2 ++ [(op, fd, r)]).

Definition run_bh (l : looper) : res (looper * list (Z * Z * Z)) :=
  qlooper_handle_io_bh fst (fun l s => (l, s.2)) record_call (l, []).

(** The call a pending watcher is due. *)
Definition due (l : looper) (p : Z) : Z * Z * Z :=
  match ioheap l !! p with Some i => (io_opaque i, io_fd i, io_ready i) | None => (0, 0, 0) end.

Lemma due_view l l' p : iview l' !! p = iview l !! p -> due l' p = due l p.
Proof.
  rewrite !iview_lookup. unfold due.
  destruct (ioheap l' !! p) as [i'|], (ioheap l !! p) as [i|]; cbn; try done.
  intros [= E1 E2 E3 E4]. congruence.
Qed.

Lemma record_loop fuel l log la lp :
  lwf_at l la lp -> (length lp < fuel)%nat ->
  exists l', bh_loop fst (fun l s => (l, s.2)) record_call fuel (l, log) = Ok (l', log ++ (due l <$> lp)) /\
    lwf_at l' la [] /\ io_bh l' = io_bh l.
Proof.
  revert l log lp; induction fuel as [|fuel IH]; intros l log lp Hl Hf; [lia|].
  pose proof (lwf_bh_next _ _ _ Hl) as Hn. cbn [bh_loop fst snd]. destruct lp as [|p lp].
  - rewrite Hn. mon. exists l. cbn. rewrite app_nil_r. done.
  - destruct Hn as (i & l' & Hi & E & Hl' & Hv & Hb). rewrite E. mon.
    change (record_call (io_opaque i) (io_fd i) (io_ready i) (l', log)) with
      (Ok (l', log ++ [(io_opaque i, io_fd i, io_ready i)])). mon.
    destruct (IH l' (log ++ [(io_opaque i, io_fd i, io_ready i)]) lp Hl') as (l2 & E2 & Hl2 & Hb2);
      [cbn in Hf; lia|].
    exists l2. split_and!; [|done|congruence]. rewrite E2, <- app_assoc. do 3 f_equal. cbn. f_equal.
    + unfold due. by rewrite Hi.
    + apply list_fmap_ext. intros k q Hq. apply due_view. rewrite Hv, lookup_insert_ne; [done|].
      intros ->. destruct (lw_chains _ _ _ Hl) as [_ Hc]. apply chain_NoDup, NoDup_cons in Hc as [Hc _].
      apply Hc. apply list_elem_of_lookup. eauto.
Qed.

Lemma pending_length l la lp : lwf_at l la lp -> (length lp < walk_fuel (ioheap l))%nat.
Proof. intros [[_ Hc] _ _ _]. by eapply chain_length. Qed.

Lemma run_bh_spec l la lp :
  lwf_at l la lp -> exists l', run_bh l = Ok (l', due l <$> lp) /\ lwf_at l' la [] /\ io_bh l' = false.
Proof.
  intros Hl. unfold run_bh, qlooper_handle_io_bh. cbn [fst snd].
  set (l0 := {| io_bh := false |}). assert (Hl0 : lwf_at l0 la lp) by (by destruct Hl).
  destruct (record_loop (walk_fuel (ioheap l)) l0 [] la lp Hl0) as (l' & E & Hl' & Hb);
    [by eapply pending_length|].
  exists l'. split_and!; done.
Qed.
