(* ===== verification/LooperQemuTheorems.v ===== *)
(** * What the QEMU core event loop guarantees *)

From S2P Require Import Prelude IntrusiveList LooperQemu LooperQemuProofs.

(** What can happen to a looper: a client watches a new descriptor, changes its
    wishes or stops watching, QEMU's main loop finds a descriptor ready, and
    the bottom half runs (with callbacks that leave the looper alone). *)
Inductive lop : Type :=
| IoInit (fd opaque : Z)
| WantRead (io : Z)
| WantWrite (io : Z)
| DontWantRead (io : Z)
| DontWantWrite (io : Z)
| IoDone (io : Z)
| FdReady (fd : Z) (rd wr : bool)
| BottomHalf.

Definition lexec (o : lop) (l : looper) : res looper :=
  match o with
  | IoInit fd op => '(_, l') ← qlooper_io_init fd op l; Ok l'
  | WantRead io => qloopio_wantRead io l
  | WantWrite io => qloopio_wantWrite io l
  | DontWantRead io => qloopio_dontWantRead io l
  | DontWantWrite io => qloopio_dontWantWrite io l
  | IoDone io => qloopio_free io l
  | FdReady fd rd wr => main_loop_ready fd rd wr l
  | BottomHalf => '(l', _) ← run_bh l; Ok l'
  end.

(** A client owns its descriptors and names watchers it has not freed. *)
Definition lenabled (o : lop) (l : looper) : Prop :=
  match o with
  | IoInit fd _ => forall p i, ioheap l !! p = Some i -> io_fd i <> fd
  | WantRead io | WantWrite io | DontWantRead io | DontWantWrite io | IoDone io => is_Some (ioheap l !! io)
  | FdReady _ _ _ | BottomHalf => True
  end.

Inductive lreach : looper -> Prop :=
| lreach_new : lreach looper_newCore
| lreach_step l o l' : lreach l -> lenabled o l -> lexec o l = Ok l' -> lreach l'.

Definition lgood (l : looper) : Prop := lwf l /\ bh_ok l.

Lemma newCore_good : lgood looper_newCore.
Proof.
  split; [|intros H; by destruct H]. exists [], []. split; [done|..].
  - intros p. unfold iview. cbn. rewrite fmap_empty, lookup_empty. split; [set_solver|by intros []].
  - intros p i. unfold iview. cbn. by rewrite fmap_empty, lookup_empty.
  - unfold iview. cbn. rewrite fmap_empty. split.
    + intros p q i j. by rewrite lookup_empty.
    + intros p i. by rewrite lookup_empty.
    + intros p i. by rewrite lookup_empty.
    + intros fd h. by rewrite lookup_empty.
    + split; [lia|]. intros p. rewrite lookup_empty. by intros [].
Qed.

Lemma range2_lor a b : in_range 2 a -> in_range 2 b -> in_range 2 (Z.lor a b).
Proof. apply lor_range; lia. Qed.

Lemma range2_ldiff a b : in_range 2 a -> 0 <= b -> in_range 2 (Z.ldiff a b).
Proof.
  intros Ha Hb. apply in_range_bits in Ha as [Ha1 Ha2]; [|lia]. apply in_range_bits; [lia|].
  split; [apply Z.ldiff_nonneg; tauto|]. intros i Hi. by rewrite Z.ldiff_spec, Ha2.
Qed.

Lemma modify_good l p i w :
  lgood l -> ioheap l !! p = Some i -> in_range 2 w ->
  exists l', qloopio_modify p w l = Ok l' /\ lgood l'.
Proof.
  intros [(la & lp & Hl) Hb] Hi Hw.
  destruct (lwf_modify l la lp p i w Hl Hi Hw) as (l' & lp' & r & E & Hl' & Hc & _).
  exists l'. split; [done|]. split; [by exists la, lp'|]. destruct Hc as (_ & _ & _ & Hp & Ebh).
  intros Hne. rewrite Ebh. auto.
Qed.

Lemma lexec_good o l : lgood l -> lenabled o l -> exists l', lexec o l = Ok l' /\ lgood l'.
Proof.
  intros Hg He. pose proof Hg as [(la & lp & Hl) Hb].
  assert (Hmod : forall p f, is_Some (ioheap l !! p) -> (forall w, in_range 2 w -> in_range 2 (f w)) ->
    exists l', (i ← deref (ioheap l) p; qloopio_modify p (f (io_wanted i)) l) = Ok l' /\ lgood l').
  { intros p f [i Hi] Hf. destruct (lwf_io _ _ _ _ _ Hl Hi) as (Hp & _ & _ & Hw).
    rewrite (deref_Some _ _ i) by done. mon. by apply (modify_good l p i); [..|apply Hf]. }
  destruct o as [fd op|io|io|io|io|io|fd rd wr|]; cbn in He.
  - destruct (lwf_new l la lp fd op Hl) as (l' & E & Hl' & _ & _ & _ & Ebh & Epe & _).
    { intros p i Hi. rewrite iview_lookup in Hi. apply fmap_Some in Hi as (i0 & Hi0 & ->). exact (He p i0 Hi0). }
    exists l'. cbn. unfold qlooper_io_init. rewrite E. mon. split; [done|].
    split; [eexists _, _; exact Hl'|]. intros Hne. rewrite Ebh. rewrite Epe in Hne. auto.
  - apply (Hmod io (fun w => Z.lor w LOOP_IO_READ)); [done|]. intros. by apply range2_lor.
  - apply (Hmod io (fun w => Z.lor w LOOP_IO_WRITE)); [done|]. intros. by apply range2_lor.
  - apply (Hmod io (fun w => Z.ldiff w LOOP_IO_READ)); [done|]. intros. by apply range2_ldiff.
  - apply (Hmod io (fun w => Z.ldiff w LOOP_IO_WRITE)); [done|]. intros. by apply range2_ldiff.
  - destruct He as [i Hi]. destruct (lwf_free l la lp io i Hl Hi) as (l' & E & Hl' & _ & Ebh & _).
    exists l'. split; [done|]. split; [eexists _, _; exact Hl'|]. intros Hne. rewrite Ebh. apply Hb.
    rewrite (pending_nonempty _ _ _ Hl') in Hne. rewrite (pending_nonempty _ _ _ Hl). by intros ->.
  - destruct (lwf_ready l la lp fd rd wr Hl) as (l' & lp' & E & Hl' & Hb' & _).
    exists l'. split; [done|]. split; [eexists _, _; exact Hl'|auto].
  - destruct (run_bh_spec l la lp Hl) as (l' & E & Hl' & Ebh). exists l'. cbn [lexec]. rewrite E. mon.
    split; [done|]. split; [eexists _, _; exact Hl'|]. intros Hne.
    by rewrite (pending_nonempty _ _ _ Hl') in Hne.
Qed.

Lemma lreach_good l : lreach l -> lgood l.
Proof.
  induction 1 as [|l o l' _ IH He E]; [apply newCore_good|].
  destruct (lexec_good o l IH He) as (l2 & E2 & H). congruence.
Qed.



(** ** Witnesses *)

(** Descriptor 7 is watched for both kinds of events. *)
Definition after (o : lop) (l : looper) : looper := match lexec o l with Ok l' => l' | Fault _ => l end.
Definition watched : looper := after (IoInit 7 100) looper_newCore.
Definition reading : looper := after (WantRead 1) watched.
Definition watching : looper := after (WantWrite 1) reading.

Lemma watching_reach : lreach watching.
Proof.
  apply (lreach_step reading (WantWrite 1)); [|eexists; run_vm|run_vm].
  apply (lreach_step watched (WantRead 1)); [|eexists; run_vm|run_vm].
  apply (lreach_step looper_newCore (IoInit 7 100)); [constructor| |run_vm].
  cbn. intros p i. by rewrite lookup_empty.
Qed.


