(* ===== verification/QemuTimer.v ===== *)
(** * Timers of QEMU ([qemu-timer.c], [include/qemu/timer.h]) and of its event loop

    A timer belongs to a timer list, a list to a clock; the active timers of a
    list are chained in the order they expire.  The host clocks are not part of
    the emulator: the time they show is an argument [clk] of the operations
    that read it.  The mutex of a list is not modelled: the emulator runs its
    timers in one thread.  [qemu_clock_warp] has an effect only with
    [use_icount] and is left out. *)

From S2P Require Import Prelude IntrusiveList.

(** ** Data *)

Inductive QEMUClockType : Type :=
  QEMU_CLOCK_REALTIME | QEMU_CLOCK_VIRTUAL | QEMU_CLOCK_HOST | QEMU_CLOCK_VIRTUAL_RT.

#[global] Instance QEMUClockType_eq_dec : EqDecision QEMUClockType.
Proof. solve_decision. Defined.

Definition SCALE_MS := 1000000.
Definition INT32_MAX := 0x7fffffff.
Definition INT64_MAX := 0x7fffffffffffffff.
Definition DURATION_INFINITE := INT64_MAX.

(** [struct QEMUTimer]; [timer_opaque] stands for the callback with its
    argument. *)
Record QEMUTimer : Type := mkTimer {
  expire_time : Z;
  timer_list : Z;
  timer_opaque : Z;
  timer_next : Z;
  scale : Z
}.

Definition set_timer_next (v : Z) (t : QEMUTimer) : QEMUTimer := {| t with timer_next := v |}.
Definition set_expire (v : Z) (t : QEMUTimer) : QEMUTimer := {| t with expire_time := v |}.

(** [struct QEMUTimerList]; [notified] records [timerlist_notify]. *)
Record QEMUTimerList : Type := mkTimerList {
  tl_clock : QEMUClockType;
  active_timers : Z;
  notified : bool
}.

(** All the timers and the lists, and the [enabled] flags of the clocks. *)
Record timers : Type := mkTimers {
  theap : gmap Z QEMUTimer;
  tlists : gmap Z QEMUTimerList;
  clock_enabled : QEMUClockType -> bool;
  tbrk : Z
}.

(** ** Timer lists *)

Definition mod_timer (p : Z) (f : QEMUTimer -> QEMUTimer) (s : timers) : res timers :=
  t ← deref (theap s) p;
  Ok {| s with theap := <[p := f t]> (theap s) |}.

Definition mod_list (p : Z) (f : QEMUTimerList -> QEMUTimerList) (s : timers) : res timers :=
  l ← deref (tlists s) p;
  Ok {| s with tlists := <[p := f l]> (tlists s) |}.

(** [bool timer_expired_ns(timer_head, current_time)] *)
Definition timer_expired_ns (ts current_time : Z) (s : timers) : res bool :=
  if ts =? 0 then Ok false
  else t ← deref (theap s) ts; Ok (expire_time t <=? current_time).

(** [QEMUTimerList *timerlist_new(type, cb, opaque)] *)
Definition timerlist_new (type : QEMUClockType) (s : timers) : Z * timers :=
  (tbrk s, {| s with tlists := <[tbrk s := mkTimerList type 0 false]> (tlists s); tbrk := tbrk s + 1 |}).

(** [bool timerlist_has_timers(timer_list)] *)
Definition timerlist_has_timers (tl : Z) (s : timers) : res bool :=
  l ← deref (tlists s) tl; Ok (negb (active_timers l =? 0)).

(** [void timerlist_free(timer_list)] *)
Definition timerlist_free (tl : Z) (s : timers) : res timers :=
  b ← timerlist_has_timers tl s;
  if (b : bool) then Fault AssertFailed else Ok {| s with tlists := delete tl (tlists s) |}.

(** [void timerlist_notify(timer_list)] *)
Definition timerlist_notify (tl : Z) (s : timers) : res timers :=
  mod_list tl (fun l => {| l with notified := true |}) s.

(** [void qemu_clock_notify(type)]: every list of the clock *)
Definition qemu_clock_notify (type : QEMUClockType) (s : timers) : timers :=
  {| s with tlists := (fun l => if decide (tl_clock l = type) then {| l with notified := true |} else l)
                      <$> tlists s |}.

(** [void qemu_clock_enable(type, enabled)] *)
Definition qemu_clock_enable (type : QEMUClockType) (enabled : bool) (s : timers) : timers :=
  let old := clock_enabled s type in
  let s1 := {| s with clock_enabled := fun t => if decide (t = type) then enabled else clock_enabled s t |} in
  if enabled && negb old then qemu_clock_notify type s1 else s1.

(** [bool timerlist_expired(timer_list)] *)
Definition timerlist_expired (clk : QEMUClockType -> Z) (tl : Z) (s : timers) : res bool :=
  l ← deref (tlists s) tl;
  if active_timers l =? 0 then Ok false
  else t ← deref (theap s) (active_timers l); Ok (expire_time t <? clk (tl_clock l)).

(** [int64_t timerlist_deadline_ns(timer_list)] *)
Definition timerlist_deadline_ns (clk : QEMUClockType -> Z) (tl : Z) (s : timers) : res Z :=
  l ← deref (tlists s) tl;
  if negb (clock_enabled s (tl_clock l)) then Ok (-1)
  else if active_timers l =? 0 then Ok (-1)
  else
    t ← deref (theap s) (active_timers l);
    let delta := s64 (expire_time t - clk (tl_clock l)) in
    if delta <=? 0 then Ok 0 else Ok delta.

(** [int64_t qemu_soonest_timeout(timeout1, timeout2)]: the comparison is on
    [uint64_t], where -1 is the largest value *)
Definition qemu_soonest_timeout (timeout1 timeout2 : Z) : Z :=
  if u64 timeout1 <? u64 timeout2 then timeout1 else timeout2.

(** [int qemu_timeout_ns_to_ms(ns)] *)
Definition qemu_timeout_ns_to_ms (ns : Z) : Z :=
  if ns <? 0 then -1
  else if ns =? 0 then 0
  else
    let ms := Z.quot (s64 (ns + SCALE_MS - 1)) SCALE_MS in
    if ms >? INT32_MAX then INT32_MAX else ms.

(** ** Timers *)

(** [timer_new_tl] with [timer_init_tl(ts, timer_list, scale, cb, opaque)] *)
Definition timer_init_tl (tl sc opaque next : Z) : QEMUTimer := mkTimer (-1) tl opaque next sc.
Definition timer_new_tl (tl sc opaque : Z) (s : timers) : Z * timers :=
  (tbrk s, {| s with theap := <[tbrk s := timer_init_tl tl sc opaque 0]> (theap s); tbrk := tbrk s + 1 |}).

(** [void timer_deinit(ts)] *)
Definition timer_deinit (ts : Z) (s : timers) : res timers :=
  t ← deref (theap s) ts;
  if expire_time t =? -1 then mod_timer ts (fun t => {| t with timer_list := 0 |}) s
  else Fault AssertFailed.

(** [void timer_free(ts)] *)
Definition timer_free (ts : Z) (s : timers) : res timers :=
  _ ← deref (theap s) ts; Ok {| s with theap := delete ts (theap s) |}.

(** [void timer_del_locked(timer_list, ts)] *)
Definition timer_del_locked (tl ts : Z) (s : timers) : res timers :=
  s ← mod_timer ts (set_expire (-1)) s;
  l ← deref (tlists s) tl;
  let head := active_timers l in
  pt ← find_link timer_next (fun t => Ok (t =? ts)) (walk_fuel (theap s)) (theap s) head LHead;
  t ← load_link timer_next (theap s) head pt;
  if t =? 0 then Ok s
  else
    n ← deref (theap s) t;
    '(h, hd) ← store_link set_timer_next (theap s) head pt (timer_next n);
    mod_list tl (fun l => {| l with active_timers := hd |}) {| s with theap := h |}.

(** [bool timer_mod_ns_locked(timer_list, ts, expire_time)] *)
Definition timer_mod_ns_locked (tl ts expire : Z) (s : timers) : res (bool * timers) :=
  l ← deref (tlists s) tl;
  let head := active_timers l in
  pt ← find_link timer_next (fun t => b ← timer_expired_ns t expire s; Ok (negb b))
         (walk_fuel (theap s)) (theap s) head LHead;
  s ← mod_timer ts (set_expire (Z.max expire 0)) s;
  v ← load_link timer_next (theap s) head pt;
  s ← mod_timer ts (set_timer_next v) s;
  '(h, hd) ← store_link set_timer_next (theap s) head pt ts;
  s ← mod_list tl (fun l => {| l with active_timers := hd |}) {| s with theap := h |};
  Ok (match pt with LHead => true | LNext _ => false end, s).

(** [void timerlist_rearm(timer_list)] *)
Definition timerlist_rearm (tl : Z) (s : timers) : res timers := timerlist_notify tl s.

(** [void timer_del(ts)] *)
Definition timer_del (ts : Z) (s : timers) : res timers :=
  t ← deref (theap s) ts;
  if timer_list t =? 0 then Ok s else timer_del_locked (timer_list t) ts s.

(** [void timer_mod_ns(ts, expire_time)] *)
Definition timer_mod_ns (ts expire : Z) (s : timers) : res timers :=
  t ← deref (theap s) ts;
  let tl := timer_list t in
  s ← timer_del_locked tl ts s;
  '(rearm, s) ← timer_mod_ns_locked tl ts expire s;
  if (rearm : bool) then timerlist_rearm tl s else Ok s.

(** [void timer_mod_anticipate_ns(ts, expire_time)] *)
Definition timer_mod_anticipate_ns (ts expire : Z) (s : timers) : res timers :=
  t ← deref (theap s) ts;
  let tl := timer_list t in
  if (expire_time t =? -1) || (expire_time t >? expire) then
    s ← (if negb (expire_time t =? -1) then timer_del_locked tl ts s else Ok s);
    '(rearm, s) ← timer_mod_ns_locked tl ts expire s;
    if (rearm : bool) then timerlist_rearm tl s else Ok s
  else Ok s.

(** [void timer_mod(ts, expire_time)] and [void timer_mod_anticipate]: the
    product is on [int64_t] *)
Definition timer_mod (ts expire : Z) (s : timers) : res timers :=
  t ← deref (theap s) ts; timer_mod_ns ts (s64 (expire * scale t)) s.
Definition timer_mod_anticipate (ts expire : Z) (s : timers) : res timers :=
  t ← deref (theap s) ts; timer_mod_anticipate_ns ts (s64 (expire * scale t)) s.

(** [bool timer_pending(ts)], [uint64_t timer_expire_time_ns(ts)] *)
Definition timer_pending (ts : Z) (s : timers) : res bool :=
  t ← deref (theap s) ts; Ok (expire_time t >=? 0).
Definition timer_expire_time_ns (ts : Z) (s : timers) : res Z :=
  t ← deref (theap s) ts; Ok (u64 (if expire_time t >=? 0 then expire_time t else -1)).

(** ** Running the timers *)

(** The head of the loop of [timerlist_run_timers]: takes the first timer off
    the list if it has expired; the result is the argument of its callback. *)
Definition run_next (tl current_time : Z) (s : timers) : res (option Z * timers) :=
  l ← deref (tlists s) tl;
  let ts := active_timers l in
  b ← timer_expired_ns ts current_time s;
  if negb b then Ok (None, s)
  else
    t ← deref (theap s) ts;
    s ← mod_list tl (fun l => {| l with active_timers := timer_next t |}) s;
    s ← mod_timer ts (fun t => {| t with timer_next := 0; expire_time := -1 |}) s;
    Ok (Some (timer_opaque t), s).

Section run.
Context {S : Type} (get : S -> timers) (put : timers -> S -> S).
Context (callback : Z -> S -> res S).

Fixpoint run_loop (fuel : nat) (tl current_time : Z) (progress : bool) (s : S) : res (bool * S) :=
  match fuel with
  | O => Fault OutOfFuel
  | Datatypes.S fuel' =>
      '(o, t) ← run_next tl current_time (get s);
      match o with
      | None => Ok (progress, put t s)
      | Some opaque => s' ← callback opaque (put t s); run_loop fuel' tl current_time true s'
      end
  end.

(** [bool timerlist_run_timers(timer_list)] *)
Definition timerlist_run_timers (clk : QEMUClockType -> Z) (tl : Z) (s : S) : res (bool * S) :=
  l ← deref (tlists (get s)) tl;
  if negb (clock_enabled (get s) (tl_clock l)) then Ok (false, s)
  else run_loop (walk_fuel (theap (get s))) tl (clk (tl_clock l)) false s.

(** [bool timerlistgroup_run_timers(tlg)]: the lists in the order of the clock
    types *)
Fixpoint timerlistgroup_run_timers (clk : QEMUClockType -> Z) (tlg : list Z) (s : S) : res (bool * S) :=
  match tlg with
  | [] => Ok (false, s)
  | tl :: tlg' =>
      '(b, s) ← timerlist_run_timers clk tl s;
      '(b', s) ← timerlistgroup_run_timers clk tlg' s;
      Ok (b || b', s)
  end.
End run.

(** [bool qemu_clock_use_for_deadline(type)] without [use_icount] holds, so
    [int64_t timerlistgroup_deadline_ns(tlg)] asks every list. *)
Fixpoint deadline_from (clk : QEMUClockType -> Z) (tlg : list Z) (deadline : Z) (s : timers) : res Z :=
  match tlg with
  | [] => Ok deadline
  | tl :: tlg' =>
      d ← timerlist_deadline_ns clk tl s;
      deadline_from clk tlg' (qemu_soonest_timeout deadline d) s
  end.
Definition timerlistgroup_deadline_ns (clk : QEMUClockType -> Z) (tlg : list Z) (s : timers) : res Z :=
  deadline_from clk tlg (-1) s.

(** The host clock of [qemu_clock_get_ns]: it shows [now]; the reset notifiers
    run when it went back or jumped since [last]. *)
Definition host_clock_jumped (now last max_jump : Z) : bool :=
  (now <? last) || (now >? s64 (last + max_jump)).

(** ** The timers of the QEMU looper ([android/looper-qemu.c])

    The implementation object of a [LoopTimer] is a timer of the host clock, in
    milliseconds; [tl] is the list of that clock, [clk] what it shows. *)

Definition qlooper_timer_init (tl opaque : Z) (s : timers) : Z * timers := timer_new_tl tl SCALE_MS opaque s.

Definition qlooptimer_startRelative (clk : QEMUClockType -> Z) (tt timeout_ms : Z) (s : timers) : res timers :=
  if timeout_ms =? DURATION_INFINITE then timer_del tt s
  else timer_mod tt (s64 (Z.quot (clk QEMU_CLOCK_HOST) SCALE_MS + timeout_ms)) s.
Definition qlooptimer_startAbsolute (tt deadline_ms : Z) (s : timers) : res timers :=
  if deadline_ms =? DURATION_INFINITE then timer_del tt s else timer_mod tt deadline_ms s.
Definition qlooptimer_stop (tt : Z) (s : timers) : res timers := timer_del tt s.
Definition qlooptimer_isActive (tt : Z) (s : timers) : res bool := timer_pending tt s.
Definition qlooptimer_free (tt : Z) (s : timers) : res timers := timer_free tt s.
