(* ===== verification/QemuTimerProofs.v ===== *)
(** * Correctness of the timer lists of QEMU *)

From S2P Require Import Prelude IntrusiveList QemuTimer.

(** A timer without its link. *)
Definition tinfo (t : QEMUTimer) : QEMUTimer := {| t with timer_next := 0 |}.

(** When a timer expires, as a key of the sorted list. *)
Definition tkey (h : gmap Z QEMUTimer) (x : Z) : Z := default (-1) (expire_time <$> h !! x).

(** Whether [t] is an active timer of the list [tl]. *)
Definition active_in (h : gmap Z QEMUTimer) (tl t : Z) : bool :=
  match h !! t with
  | Some n => (timer_list n =? tl) && negb (expire_time n =? -1)
  | None => false
  end.

(** The list [tl], whose head is [p], represents [l]: the active timers that
    belong to it, in the order they expire. *)
Record tlist_at (h : gmap Z QEMUTimer) (tl p : Z) (l : list Z) : Prop := {
  ta_chain : chain timer_next h p l;
  ta_sorted : key_sorted (tkey h) l;
  ta_elem : forall t, t ∈ l <-> active_in h tl t = true
}.

Definition timer_ok (s : timers) (t : Z) (n : QEMUTimer) : Prop :=
  t <> 0 /\ -1 <= expire_time n /\
  (timer_list n <> 0 -> is_Some (tlists s !! timer_list n)) /\
  (timer_list n = 0 -> expire_time n = -1).

Record twf (s : timers) : Prop := {
  tw_list : forall tl L, tlists s !! tl = Some L ->
    tl <> 0 /\ exists l, tlist_at (theap s) tl (active_timers L) l;
  tw_timer : forall t n, theap s !! t = Some n -> timer_ok s t n;
  tw_brk : 0 < tbrk s /\ forall p, is_Some (theap s !! p) \/ is_Some (tlists s !! p) -> 0 < p < tbrk s
}.

(** ** The heap, up to the links *)

Lemma tinfo_lookup (h h' : gmap Z QEMUTimer) x n :
  tinfo <$> h' = tinfo <$> h -> h !! x = Some n ->
  exists n', h' !! x = Some n' /\ tinfo n' = tinfo n.
Proof.
  intros E Hx. pose proof (fmap_eq_lookup _ _ _ x E) as Ex. rewrite Hx in Ex.
  apply fmap_Some in Ex as (n' & Hn' & E'). by exists n'.
Qed.

Lemma tinfo_inj (n n' : QEMUTimer) :
  tinfo n = tinfo n' -> expire_time n = expire_time n' /\ timer_list n = timer_list n' /\
    timer_opaque n = timer_opaque n' /\ scale n = scale n'.
Proof. destruct n, n'. by intros [= -> -> -> ->]. Qed.

Lemma tkey_info h h' x : tinfo <$> h' = tinfo <$> h -> tkey h' x = tkey h x.
Proof.
  intros E. unfold tkey. pose proof (fmap_eq_lookup _ _ _ x E) as Ex.
  destruct (h' !! x) as [n'|], (h !! x) as [n|]; try done. injection Ex as Ex. by destruct n, n'; cbn in *; simplify_eq.
Qed.

Lemma active_in_info h h' tl x : tinfo <$> h' = tinfo <$> h -> active_in h' tl x = active_in h tl x.
Proof.
  intros E. unfold active_in. pose proof (fmap_eq_lookup _ _ _ x E) as Ex.
  destruct (h' !! x) as [n'|], (h !! x) as [n|]; try done. injection Ex as Ex. by destruct n, n'; cbn in *; simplify_eq.
Qed.

Lemma tkey_insert h q n x : tkey (<[q := n]> h) x = if decide (q = x) then expire_time n else tkey h x.
Proof. unfold tkey. rewrite lookup_insert. by case_decide. Qed.

Lemma active_in_insert h tl q n x :
  active_in (<[q := n]> h) tl x =
  if decide (q = x) then (timer_list n =? tl) && negb (expire_time n =? -1) else active_in h tl x.
Proof. unfold active_in. rewrite lookup_insert. by case_decide. Qed.

(** ** What a change to one list keeps of the others *)

Definition only (tl : Z) (h h' : gmap Z QEMUTimer) : Prop :=
  forall x, h' !! x = h !! x \/
    exists n n', h !! x = Some n /\ h' !! x = Some n' /\ timer_list n = tl /\ timer_list n' = tl.

Lemma only_trans tl h1 h2 h3 : only tl h1 h2 -> only tl h2 h3 -> only tl h1 h3.
Proof.
  intros H1 H2 x. destruct (H1 x) as [E1|(a & b & Ha & Hb & Ea & Eb)], (H2 x) as [E2|(c & d & Hc & Hd & Ec & Ed)].
  - left. congruence.
  - right. exists c, d. split_and!; congruence.
  - right. exists a, b. split_and!; congruence.
  - right. exists a, d. split_and!; congruence.
Qed.

Lemma only_insert tl h q n n' :
  h !! q = Some n -> timer_list n = tl -> timer_list n' = tl -> only tl h (<[q := n']> h).
Proof.
  intros Hq E E' x. rewrite lookup_insert. case_decide as Hx; [subst; right; eauto 10|by left].
Qed.

Lemma only_active tl tl' h h' x : only tl h h' -> tl' <> tl -> active_in h' tl' x = active_in h tl' x.
Proof.
  intros Ho Hne. unfold active_in. destruct (Ho x) as [->|(n & n' & -> & -> & E & E')]; [done|].
  rewrite E, E'. by rewrite (proj2 (Z.eqb_neq tl tl')).
Qed.

Lemma only_same tl tl' h h' x : only tl h h' -> tl' <> tl -> active_in h tl' x = true -> h' !! x = h !! x.
Proof.
  intros Ho Hne. unfold active_in. destruct (Ho x) as [->|(n & n' & -> & _ & E & _)]; [done|].
  rewrite E. rewrite (proj2 (Z.eqb_neq tl tl')); done.
Qed.

Lemma tlist_frame tl tl' h h' p l :
  only tl h h' -> tl' <> tl -> tlist_at h tl' p l -> tlist_at h' tl' p l.
Proof.
  intros Ho Hne [Hc Hs He].
  assert (Hl : forall x, x ∈ l -> h' !! x = h !! x) by (intros x Hx%He; by eapply only_same).
  split.
  - eapply chain_frame; [|exact Hc]. intros x Hx. by rewrite Hl.
  - eapply key_sorted_ext; [|exact Hs]. intros x Hx. unfold tkey. by rewrite Hl.
  - intros t. rewrite He. by rewrite (only_active _ _ _ _ _ Ho Hne).
Qed.

Lemma tlist_info h h' tl p l :
  tinfo <$> h' = tinfo <$> h -> chain timer_next h' p l ->
  key_sorted (tkey h) l -> (forall t, t ∈ l <-> active_in h tl t = true) -> tlist_at h' tl p l.
Proof.
  intros E Hc Hs He. split; [done|..].
  - eapply key_sorted_ext; [|exact Hs]. intros. symmetry. by apply tkey_info.
  - intros t. by rewrite He, (active_in_info _ _ _ _ E).
Qed.

(** A change to the list [tl] and its timers keeps the invariant. *)
Lemma twf_update s tl L L' h' l' :
  twf s -> tlists s !! tl = Some L -> only tl (theap s) h' ->
  tlist_at h' tl (active_timers L') l' ->
  (forall x n', h' !! x = Some n' -> -1 <= expire_time n') ->
  twf {| s with theap := h'; tlists := <[tl := L']> (tlists s) |}.
Proof.
  intros [Hl Ht Hb] HL Ho Hat Hge.
  assert (Hd : forall p, is_Some (h' !! p) <-> is_Some (theap s !! p)).
  { intros p. destruct (Ho p) as [->|(n & n' & -> & -> & _)]; [done|]. split; eauto. }
  assert (Hld : forall p, is_Some (<[tl := L']> (tlists s) !! p) <-> is_Some (tlists s !! p)).
  { intros p. rewrite lookup_insert_is_Some. split; [|destruct (decide (tl = p)); tauto].
    intros [<-|[_ ?]]; eauto. }
  split; cbn.
  - intros q M. rewrite lookup_insert. case_decide as Eq.
    + intros [= <-]. subst q. split; [by apply (Hl tl L)|eauto].
    + intros HM. destruct (Hl q M HM) as (Hq & l & Hal). split; [done|]. exists l.
      by eapply tlist_frame; [exact Ho|congruence|].
  - intros t n' Hn'. unfold timer_ok. cbn.
    assert (exists n, theap s !! t = Some n /\ (n' = n \/ timer_list n' = tl)) as (n & Hn & Hc).
    { destruct (Ho t) as [E|(n & m & Hn & Hm & E & E')].
      - rewrite E in Hn'. eauto.
      - simplify_eq. exists n. auto. }
    destruct (Ht t n Hn) as (H0 & H1 & H2 & H3). split; [done|]. split; [by eapply Hge|].
    rewrite Hld. destruct (Hl tl L HL) as [Htl _].
    destruct Hc as [->|E]; [done|]. rewrite E. split; [eauto|]. congruence.
  - destruct Hb as [Hb1 Hb2]. split; [exact Hb1|]. intros p. rewrite Hd, Hld. apply Hb2.
Qed.

(** ** The operations on one list *)

Lemma mod_timer_Ok p f s n :
  p <> 0 -> theap s !! p = Some n -> mod_timer p f s = Ok {| s with theap := <[p := f n]> (theap s) |}.
Proof. intros. unfold mod_timer. by rewrite (deref_Some _ _ n). Qed.

Lemma mod_list_Ok p f s L :
  p <> 0 -> tlists s !! p = Some L -> mod_list p f s = Ok {| s with tlists := <[p := f L]> (tlists s) |}.
Proof. intros. unfold mod_list. by rewrite (deref_Some _ _ L). Qed.

(** A change of the key of a timer that is not in the list. *)
Lemma chain_set_expire h p l ts n e :
  h !! ts = Some n -> chain timer_next h p l -> chain timer_next (<[ts := set_expire e n]> h) p l.
Proof.
  intros Hn. apply chain_frame. intros x _. rewrite lookup_insert. by case_decide; subst; rewrite ?Hn.
Qed.

(** The timers other than [ts], once [ts] is inactive. *)
Lemma tlist_without h tl p l ts n :
  h !! ts = Some n -> tlist_at h tl p l -> forall h' p', 
  tinfo <$> h' = tinfo <$> <[ts := set_expire (-1) n]> h ->
  chain timer_next h' p' (filter (fun x => x <> ts) l) ->
  tlist_at h' tl p' (filter (fun x => x <> ts) l).
Proof.
  intros Hn [Hc Hs He] h' p' E Hc'. eapply tlist_info; [exact E|done|..].
  - eapply key_sorted_ext; [|by apply key_sorted_filter]. intros x [Hx _]%list_elem_of_filter.
    rewrite tkey_insert. by case_decide; subst.
  - intros t. rewrite list_elem_of_filter, He, active_in_insert. case_decide as Et; [|naive_solver].
    cbn. rewrite andb_false_r. naive_solver.
Qed.

Lemma del_locked_spec s tl L l ts n :
  tl <> 0 -> tlists s !! tl = Some L -> tlist_at (theap s) tl (active_timers L) l ->
  ts <> 0 -> theap s !! ts = Some n -> timer_list n = tl ->
  exists h' hd,
    timer_del_locked tl ts s
      = Ok {| s with theap := h'; tlists := <[tl := {| L with active_timers := hd |}]> (tlists s) |} /\
    tlist_at h' tl hd (filter (fun x => x <> ts) l) /\ only tl (theap s) h' /\
    tinfo <$> h' = tinfo <$> <[ts := set_expire (-1) n]> (theap s).
Proof.
  intros Htl HL Hat Hts Hn En. unfold timer_del_locked. rewrite (mod_timer_Ok ts _ s n) by done. mon.
  cbn [tlists theap]. rewrite (deref_Some _ _ L) by done. mon.
  set (h1 := <[ts := set_expire (-1) n]> (theap s)).
  assert (Hc1 : chain timer_next h1 (active_timers L) l) by (apply chain_set_expire, Hat; done).
  assert (Ho1 : only tl (theap s) h1) by (by eapply only_insert).
  destruct (decide (ts ∈ l)) as [Hin|Hin].
  - apply list_elem_of_split in Hin as (l1 & l2 & El). rewrite El in Hc1.
    pose proof (chain_NoDup _ _ _ Hc1) as Hnd.
    rewrite (find_link_spec _ _ _ l1 (ts :: l2) Hc1); cycle 1.
    { intros x Hx. f_equal. apply Z.eqb_neq. intros ->. apply NoDup_app in Hnd. set_solver. }
    { intros x [= ->]. by rewrite Z.eqb_refl. }
    mon. rewrite (load_link_after _ _ _ _ Hc1). mon. change (default 0 (head (ts :: l2))) with ts.
    rewrite (proj2 (Z.eqb_neq ts 0)) by done.
    rewrite (deref_Some _ ts (set_expire (-1) n)) by (done || apply lookup_insert_eq). mon.
    destruct (store_link_unlink (next := timer_next) (set_next := set_timer_next) ltac:(done)
                h1 _ l1 ts l2 (set_expire (-1) n) Hc1 (lookup_insert_eq _ _ _))
      as (h' & p' & E & Hc' & _ & Hf).
    rewrite E. mon. rewrite (mod_list_Ok tl _ _ L) by done. cbn [tlists].
    exists h', p'. split; [done|]. specialize (Hf _ tinfo ltac:(done)).
    split; [|split; [|done]].
    + eapply tlist_without; [exact Hn|exact Hat|done|]. by rewrite El, filter_ne_split.
    + eapply only_trans; [exact Ho1|]. intros x.
      destruct (decide (x ∈ l1)) as [Hx|Hx]; [|left; by eapply store_link_frame].
      right. assert (Hxl : x ∈ l) by (rewrite El; set_solver).
      apply (ta_elem _ _ _ _ Hat) in Hxl. unfold active_in in Hxl.
      destruct (theap s !! x) as [m|] eqn:Hm; [|done]. zb.
      assert (Hx' : h1 !! x = Some m).
      { unfold h1. rewrite lookup_insert_ne; [done|]. intros ->. apply NoDup_app in Hnd. set_solver. }
      destruct (tinfo_lookup h1 h' x m Hf Hx') as (m' & Hm' & Ei). apply tinfo_inj in Ei.
      exists m, m'. naive_solver congruence.
  - assert (El : filter (fun x => x <> ts) l = l) by (apply filter_id; intros x Hx ->; done).
    rewrite (find_link_spec _ _ _ l []); [..|done]; cycle 1.
    { by rewrite app_nil_r. }
    { intros x Hx. f_equal. apply Z.eqb_neq. by intros ->. }
    mon. rewrite (load_link_after _ _ l []) by (by rewrite app_nil_r). mon. change (default 0 (head [])) with 0. cbn [Z.eqb].
    exists h1, (active_timers L). split_and!; [|..|done].
    + do 2 f_equal. symmetry. apply insert_id. rewrite HL. by destruct L.
    + eapply tlist_without; [exact Hn|exact Hat|done|by rewrite El].
    + done.
Qed.

(** The walk of [timer_mod_ns_locked]. *)
Lemma mod_walk s tl L l e :
  tlist_at (theap s) tl (active_timers L) l ->
  exists l1 l2, l = l1 ++ l2 /\
    (forall x, x ∈ l1 -> tkey (theap s) x <= e) /\ (forall x, x ∈ l2 -> e < tkey (theap s) x) /\
    find_link timer_next (fun t => b ← timer_expired_ns t e s; Ok (negb b))
      (walk_fuel (theap s)) (theap s) (active_timers L) LHead = Ok (link_after l1).
Proof.
  intros [Hc Hs He]. destruct (key_sorted_split _ l e Hs) as (l1 & l2 & -> & H1 & H2).
  exists l1, l2. split_and!; try done.
  assert (Hx : forall x, x ∈ l1 ++ l2 -> timer_expired_ns x e s = Ok (tkey (theap s) x <=? e)).
  { intros x Hx. destruct (chain_elem _ _ _ _ Hc Hx) as [Hx0 [n Hn]]. unfold timer_expired_ns, tkey.
    rewrite (proj2 (Z.eqb_neq x 0)), (deref_Some _ _ n), Hn by done. done. }
  apply find_link_spec with (l2 := l2); [done|..].
  - intros x Hl. rewrite Hx by set_solver. mon. f_equal. apply negb_false_iff, Z.leb_le. auto.
  - intros x Hl. apply head_Some_elem_of in Hl. rewrite Hx by set_solver. mon. f_equal.
    apply negb_true_iff, Z.leb_gt. auto.
Qed.

Lemma mod_locked_spec s tl L l ts n e :
  tl <> 0 -> tlists s !! tl = Some L -> tlist_at (theap s) tl (active_timers L) l ->
  (forall x n', theap s !! x = Some n' -> -1 <= expire_time n') ->
  ts <> 0 -> theap s !! ts = Some n -> timer_list n = tl -> expire_time n = -1 ->
  exists h' hd b l',
    timer_mod_ns_locked tl ts e s
      = Ok (b, {| s with theap := h'; tlists := <[tl := {| L with active_timers := hd |}]> (tlists s) |}) /\
    tlist_at h' tl hd l' /\ only tl (theap s) h' /\
    tinfo <$> h' = tinfo <$> <[ts := set_expire (Z.max e 0) n]> (theap s) /\
    (b = true <-> hd = ts).
Proof.
  intros Htl HL Hat Hge Hts Hn En Ee. unfold timer_mod_ns_locked.
  rewrite (deref_Some _ _ L) by done. mon.
  destruct (mod_walk s tl L l e Hat) as (l1 & l2 & El & H1 & H2 & Ef). rewrite Ef. mon.
  rewrite (mod_timer_Ok ts _ s n) by done. mon. cbn [theap].
  set (h1 := <[ts := set_expire (Z.max e 0) n]> (theap s)).
  assert (Hc1 : chain timer_next h1 (active_timers L) (l1 ++ l2)).
  { rewrite <- El. apply chain_set_expire, Hat. done. }
  rewrite (load_link_after _ _ _ _ Hc1). mon.
  rewrite (mod_timer_Ok ts _ _ (set_expire (Z.max e 0) n)) by (done || apply lookup_insert_eq).
  cbn [theap]. mon. set (n2 := set_timer_next _ _).
  assert (Hq : ts ∉ l).
  { rewrite (ta_elem _ _ _ _ Hat). unfold active_in. rewrite Hn, Ee. by rewrite andb_false_r. }
  destruct (store_link_insert (next := timer_next) (set_next := set_timer_next) ltac:(done)
              h1 _ l1 l2 ts n2 Hc1 ltac:(by rewrite <- El) Hts eq_refl) as (h' & hd & E & Hc' & Hf).
  cbn [theap tlists clock_enabled tbrk]. rewrite E. mon. rewrite (mod_list_Ok tl _ _ L) by done. mon. cbn [tlists].
  specialize (Hf _ tinfo ltac:(done)).
  assert (Ei : tinfo <$> h' = tinfo <$> h1).
  { rewrite Hf. unfold h1. rewrite insert_insert_eq, !fmap_insert. done. }
  eexists h', hd, _, (l1 ++ ts :: l2). split; [done|]. split_and!; [..|exact Ei|].
  - eapply tlist_info; [exact Ei|done|..].
    + assert (Hk : forall x, x ∈ l -> tkey h1 x = tkey (theap s) x).
      { intros x Hx. unfold h1. rewrite tkey_insert. case_decide; [congruence|done]. }
      assert (Hts' : tkey h1 ts = Z.max e 0) by (unfold h1; rewrite tkey_insert; by rewrite decide_True).
      apply key_sorted_insert.
      * eapply key_sorted_ext; [|rewrite <- El; apply Hat]. intros. symmetry. apply Hk. by rewrite El.
      * intros x Hx. rewrite Hts', Hk by (rewrite El; set_solver). specialize (H1 x Hx). lia.
      * intros x Hx. assert (Hxl : x ∈ l) by (rewrite El; set_solver). rewrite Hts', (Hk x Hxl). specialize (H2 x Hx).
        apply (ta_elem _ _ _ _ Hat) in Hxl. unfold active_in in Hxl. unfold tkey in *.
        destruct (theap s !! x) as [m|] eqn:Hm; [|done]. cbn in *. zb. specialize (Hge x m Hm). lia.
    + intros t. unfold h1. rewrite active_in_insert. rewrite elem_of_app, elem_of_cons. case_decide as Et.
      * subst t. split; [|auto]. intros _. cbn. apply andb_true_iff. split; [by apply Z.eqb_eq|].
        apply negb_true_iff, Z.eqb_neq. lia.
      * rewrite <- (ta_elem _ _ _ _ Hat), El, elem_of_app. naive_solver.
  - apply only_trans with h1; [by eapply only_insert|].
    apply only_trans with (<[ts := n2]> h1); [by eapply only_insert; [apply lookup_insert_eq|..]|].
    intros x. destruct (decide (x ∈ l1)) as [Hx|Hx]; [|left; by eapply store_link_frame]. right.
    assert (Hxl : x ∈ l) by (rewrite El; set_solver).
    apply (ta_elem _ _ _ _ Hat) in Hxl. unfold active_in in Hxl.
    destruct (theap s !! x) as [m|] eqn:Hm; [|done]. zb.
    assert (Hx' : <[ts := n2]> h1 !! x = Some m).
    { unfold h1. rewrite !lookup_insert_ne; [done|..]; intros ->; apply Hq; rewrite El; set_solver. }
    destruct (tinfo_lookup _ h' x m Hf Hx') as (m' & Hm' & Ei'). apply tinfo_inj in Ei'.
    exists m, m'. naive_solver congruence.
  - destruct l1 as [|x l1 _] using rev_ind.
    + cbn in E. injection E as _ <-. done.
    + unfold link_after in *. rewrite last_snoc in *. split; [done|]. intros ->.
      apply chain_head in Hc'. rewrite El in Hq. destruct l1; cbn in Hc'; subst; set_solver.
Qed.

(** ** The operations on a timer *)

(** [s'] differs from [s] in the timer [ts], now [n], and in the list [tl]. *)
Definition changed (s s' : timers) (tl ts : Z) (n : QEMUTimer) : Prop :=
  tinfo <$> theap s' = <[ts := tinfo n]> (tinfo <$> theap s) /\
  clock_enabled s' = clock_enabled s /\ tbrk s' = tbrk s /\
  (forall q, q <> tl -> tlists s' !! q = tlists s !! q) /\
  tl_clock <$> tlists s' !! tl = tl_clock <$> tlists s !! tl.

Lemma twf_in s ts n :
  twf s -> theap s !! ts = Some n -> timer_list n <> 0 ->
  exists L l, ts <> 0 /\ tlists s !! timer_list n = Some L /\ tlist_at (theap s) (timer_list n) (active_timers L) l.
Proof.
  intros [Hl Ht _] Hn Hz. destruct (Ht ts n Hn) as (H0 & _ & [L HL] & _); [done|].
  destruct (Hl _ _ HL) as (_ & l & Hat). eauto 10.
Qed.

Lemma ge_info (h h' : gmap Z QEMUTimer) ts n :
  tinfo <$> h' = tinfo <$> <[ts := n]> h -> -1 <= expire_time n ->
  (forall x m, h !! x = Some m -> -1 <= expire_time m) ->
  forall x m, h' !! x = Some m -> -1 <= expire_time m.
Proof.
  intros E Hn Hh x m Hm. destruct (tinfo_lookup _ _ x m (eq_sym E) Hm) as (m' & Hm' & Ei).
  apply tinfo_inj in Ei as (Ee & _). rewrite <- Ee. rewrite lookup_insert in Hm'.
  case_decide; [by simplify_eq|by eapply Hh].
Qed.

Lemma twf_ge s : twf s -> forall x m, theap s !! x = Some m -> -1 <= expire_time m.
Proof. intros [_ Ht _] x m Hm. by destruct (Ht x m Hm) as (_ & ? & _). Qed.

Lemma del_locked_twf s ts n :
  twf s -> theap s !! ts = Some n -> timer_list n <> 0 ->
  exists s', timer_del_locked (timer_list n) ts s = Ok s' /\ twf s' /\
    changed s s' (timer_list n) ts (set_expire (-1) n).
Proof.
  intros Hw Hn Hz. destruct (twf_in s ts n Hw Hn Hz) as (L & l & Hts & HL & Hat).
  destruct (del_locked_spec s (timer_list n) L l ts n Hz HL Hat Hts Hn eq_refl)
    as (h' & hd & E & Hat' & Ho & Ei).
  eexists. split; [exact E|]. split.
  - eapply twf_update; [done|exact HL|done|exact Hat'|]. eapply ge_info; [exact Ei|done|by apply twf_ge].
  - split_and!; cbn; [by rewrite Ei, fmap_insert|done|done|..].
    + intros q Hq. by rewrite lookup_insert_ne.
    + by rewrite lookup_insert_eq, HL.
Qed.

Lemma twf_notify s tl L :
  twf s -> tlists s !! tl = Some L ->
  exists s', timerlist_notify tl s = Ok s' /\ twf s' /\ theap s' = theap s /\
    clock_enabled s' = clock_enabled s /\ tbrk s' = tbrk s /\
    tlists s' = <[tl := {| L with notified := true |}]> (tlists s).
Proof.
  intros Hw HL. destruct (tw_list _ Hw tl L HL) as (Hz & l & Hat).
  unfold timerlist_notify. rewrite (mod_list_Ok tl _ s L) by done. eexists. split; [done|].
  split_and!; try done. apply (twf_update s tl L {| L with notified := true |} (theap s) l); try done.
  - intros x. by left.
  - by apply twf_ge.
Qed.

(** Arming an inactive timer, with the notification. *)
Lemma arm_twf s ts n e :
  twf s -> theap s !! ts = Some n -> timer_list n <> 0 -> expire_time n = -1 ->
  exists s' L', ('(rearm, s) ← timer_mod_ns_locked (timer_list n) ts e s;
             if (rearm : bool) then timerlist_rearm (timer_list n) s else Ok s) = Ok s' /\ twf s' /\
    changed s s' (timer_list n) ts (set_expire (Z.max e 0) n) /\
    tlists s' !! timer_list n = Some L' /\ (active_timers L' = ts -> notified L' = true).
Proof.
  intros Hw Hn Hz Ee. destruct (twf_in s ts n Hw Hn Hz) as (L & l & Hts & HL & Hat).
  destruct (mod_locked_spec s (timer_list n) L l ts n e Hz HL Hat (twf_ge s Hw) Hts Hn eq_refl Ee)
    as (h' & hd & b & l' & E & Hat' & Ho & Ei & Hb).
  rewrite E. mon.
  set (L1 := {| L with active_timers := hd |}) in *.
  set (s1 := {| s with theap := h'; tlists := <[timer_list n := L1]> (tlists s) |}) in *.
  assert (Hw1 : twf s1).
  { eapply twf_update; [done|exact HL|done|exact Hat'|]. eapply ge_info; [exact Ei|cbn; lia|by apply twf_ge]. }
  assert (HL1 : tlists s1 !! timer_list n = Some L1) by apply lookup_insert_eq.
  assert (Hch : changed s s1 (timer_list n) ts (set_expire (Z.max e 0) n)).
  { split_and!; cbn; [by rewrite Ei, fmap_insert|done|done|..].
    - intros q Hq. by rewrite lookup_insert_ne.
    - by rewrite lookup_insert_eq, HL. }
  destruct b.
  - destruct (twf_notify s1 _ L1 Hw1 HL1) as (s2 & E2 & Hw2 & Eh & Ec & Eb & El).
    exists s2, {| L1 with notified := true |}. split; [done|]. split; [done|]. rewrite El, lookup_insert_eq.
    split_and!; try done. destruct Hch as (C1 & C2 & C3 & C4 & C5).
    split_and!; [congruence|congruence|congruence|..].
    + intros q Hq. rewrite El, lookup_insert_ne by done. by apply C4.
    + rewrite El, lookup_insert_eq. by rewrite HL1 in C5.
  - exists s1, L1. split_and!; try done. intros Hh. cbn in Hh. apply Hb in Hh. done.
Qed.

Lemma changed_trans s s1 s2 tl ts n n' :
  changed s s1 tl ts n -> changed s1 s2 tl ts n' -> changed s s2 tl ts n'.
Proof.
  intros (A1 & A2 & A3 & A4 & A5) (B1 & B2 & B3 & B4 & B5). split_and!; [|congruence..| |congruence].
  - by rewrite B1, A1, insert_insert_eq.
  - intros q Hq. rewrite B4, A4; done.
Qed.

Lemma changed_lookup s s' tl ts n :
  changed s s' tl ts n -> exists n', theap s' !! ts = Some n' /\ tinfo n' = tinfo n.
Proof.
  intros [E _]. assert (H : (tinfo <$> theap s') !! ts = Some (tinfo n)) by (rewrite E; apply lookup_insert_eq).
  rewrite lookup_fmap in H. apply fmap_Some in H as (n' & ? & ->). eauto.
Qed.

Lemma timer_mod_ns_spec s ts n e :
  twf s -> theap s !! ts = Some n -> timer_list n <> 0 ->
  exists s' L', timer_mod_ns ts e s = Ok s' /\ twf s' /\
    changed s s' (timer_list n) ts (set_expire (Z.max e 0) n) /\
    tlists s' !! timer_list n = Some L' /\ (active_timers L' = ts -> notified L' = true).
Proof.
  intros Hw Hn Hz. destruct (tw_timer _ Hw ts n Hn) as (Hts & _).
  unfold timer_mod_ns. rewrite (deref_Some _ _ n) by done. mon.
  destruct (del_locked_twf s ts n Hw Hn Hz) as (s1 & E1 & Hw1 & Hc1). rewrite E1. mon.
  destruct (changed_lookup _ _ _ _ _ Hc1) as (n1 & Hn1 & Ei). apply tinfo_inj in Ei as (Ie & Il & Io & Is).
  cbn in *. rewrite <- Il in *.
  destruct (arm_twf s1 ts n1 e Hw1 Hn1 Hz Ie) as (s2 & L2 & E2 & Hw2 & Hc2 & HL2 & Hnot).
  exists s2, L2. split; [exact E2|]. split; [done|]. split; [|done].
  eapply changed_trans; [exact Hc1|]. destruct Hc2 as [C2 Hc2]. split; [|done]. rewrite C2.
  f_equal. destruct n, n1; cbn in *. by simplify_eq.
Qed.

Lemma timer_mod_anticipate_spec s ts n e :
  twf s -> theap s !! ts = Some n -> timer_list n <> 0 ->
  exists s', timer_mod_anticipate_ns ts e s = Ok s' /\ twf s' /\
    ((expire_time n = -1 \/ e < expire_time n) /\ changed s s' (timer_list n) ts (set_expire (Z.max e 0) n) \/
     0 <= expire_time n <= e /\ s' = s).
Proof.
  intros Hw Hn Hz. destruct (tw_timer _ Hw ts n Hn) as (Hts & Hge & _).
  destruct (timer_mod_ns_spec s ts n e Hw Hn Hz) as (s2 & L2 & E2 & Hw2 & Hc2 & _).
  unfold timer_mod_anticipate_ns. rewrite (deref_Some _ _ n) by done. mon.
  unfold timer_mod_ns in E2. rewrite (deref_Some _ _ n) in E2 by done. mon.
  destruct (Z.eqb_spec (expire_time n) (-1)) as [Ee|Ee]; cbn [negb orb].
  - mon. destruct (arm_twf s ts n e Hw Hn Hz Ee) as (s3 & L3 & E3 & Hw3 & Hc3 & _). 
    exists s3. split; [exact E3|]. split; [done|]. left. split; [by left|done].
  - destruct (expire_time n >? e) eqn:Eg.
    + exists s2. split; [exact E2|]. split; [done|]. left. split; [|done]. right. zb. lia.
    + exists s. split; [done|]. split; [done|]. right. split; [|done]. zb. lia.
Qed.

Lemma timer_del_spec s ts n :
  twf s -> theap s !! ts = Some n ->
  exists s', timer_del ts s = Ok s' /\ twf s' /\
    (timer_list n = 0 /\ s' = s \/ changed s s' (timer_list n) ts (set_expire (-1) n)).
Proof.
  intros Hw Hn. destruct (tw_timer _ Hw ts n Hn) as (Hts & _). unfold timer_del.
  rewrite (deref_Some _ _ n) by done. mon. destruct (Z.eqb_spec (timer_list n) 0) as [Hz|Hz].
  - exists s. auto.
  - destruct (del_locked_twf s ts n Hw Hn Hz) as (s1 & E1 & Hw1 & Hc1). exists s1. auto.
Qed.
