(* ===== verification/QemuTimerTheorems.v ===== *)
(** * What the timers of QEMU guarantee *)

From S2P Require Import Prelude IntrusiveList QemuTimer QemuTimerProofs.

(** ** Creation and destruction *)

Lemma twf_new_timer s tl sc op :
  twf s -> is_Some (tlists s !! tl) -> twf (timer_new_tl tl sc op s).2.
Proof.
  intros [Hl Ht [Hb1 Hb2]] [M HM].
  assert (Hf : theap s !! tbrk s = None).
  { apply eq_None_not_Some. intros Hs. specialize (Hb2 (tbrk s) (or_introl Hs)). lia. }
  set (n := timer_init_tl tl sc op 0).
  split; cbn.
  - intros q L HL. destruct (Hl q L HL) as (Hq & l & [Hc Hs He]). split; [done|]. exists l.
    assert (Hnl : tbrk s ∉ l) by (intros Hin; destruct (chain_elem _ _ _ _ Hc Hin) as [_ [? ?]]; congruence).
    split.
    + eapply chain_frame; [|exact Hc]. intros x Hx. rewrite lookup_insert_ne; [done|]. congruence.
    + eapply key_sorted_ext; [|exact Hs]. intros x Hx. rewrite tkey_insert. case_decide; [congruence|done].
    + intros t. rewrite active_in_insert, He. case_decide; [|done]. subst t.
      unfold active_in. rewrite Hf. cbn. by rewrite andb_false_r.
  - intros t m. rewrite lookup_insert. case_decide as E.
    + intros [= <-]. subst t. split; [lia|]. cbn. split; [lia|]. split; [eauto|]. done.
    + intros Hm. exact (Ht t m Hm).
  - split; [lia|]. intros p. rewrite lookup_insert_is_Some.
    intros [[<-|[_ ?]]|?]; [lia|specialize (Hb2 p ltac:(tauto)); lia..].
Qed.

Lemma twf_new_list s type : twf s -> twf (timerlist_new type s).2.
Proof.
  intros [Hl Ht [Hb1 Hb2]].
  assert (Hf : tlists s !! tbrk s = None).
  { apply eq_None_not_Some. intros Hs. specialize (Hb2 (tbrk s) (or_intror Hs)). lia. }
  split; cbn.
  - intros q L. rewrite lookup_insert. case_decide as E.
    + intros [= <-]. subst q. split; [lia|]. exists []. split; [done|constructor|].
      intros t. split; [set_solver|]. unfold active_in. intros H.
      destruct (theap s !! t) as [n|] eqn:Hn; [|done]. zb.
      destruct (Ht t n Hn) as (_ & _ & [? ?] & _); [lia|]. congruence.
    + intros HL. exact (Hl q L HL).
  - intros t n Hn. destruct (Ht t n Hn) as (H0 & H1 & H2 & H3). split_and!; try done. cbn.
    intros Hz. rewrite lookup_insert_is_Some. destruct (decide (tbrk s = timer_list n)); auto.
  - split; [lia|]. intros p. rewrite lookup_insert_is_Some.
    intros [?|[<-|[_ ?]]]; [specialize (Hb2 p ltac:(tauto)); lia|lia|specialize (Hb2 p ltac:(tauto)); lia].
Qed.

(** Freeing an inactive timer; of one that is active nothing can be said. *)
Lemma twf_free_timer s ts n :
  twf s -> theap s !! ts = Some n -> expire_time n = -1 ->
  exists s', timer_free ts s = Ok s' /\ twf s'.
Proof.
  intros [Hl Ht [Hb1 Hb2]] Hn He. destruct (Ht ts n Hn) as (Hts & _).
  unfold timer_free. rewrite (deref_Some _ _ n) by done. mon. eexists. split; [done|]. split; cbn.
  - intros q L HL. destruct (Hl q L HL) as (Hq & l & [Hc Hs Hel]). split; [done|]. exists l.
    assert (Hnl : ts ∉ l).
    { rewrite Hel. unfold active_in. rewrite Hn, He. by rewrite andb_false_r. }
    split.
    + eapply chain_frame; [|exact Hc]. intros x Hx. rewrite lookup_delete_ne; [done|]. congruence.
    + eapply key_sorted_ext; [|exact Hs]. intros x Hx. unfold tkey. rewrite lookup_delete_ne; [done|]. congruence.
    + intros t. rewrite Hel. unfold active_in. destruct (decide (ts = t)) as [<-|Hne].
      * by rewrite lookup_delete_eq, Hn, He, andb_false_r.
      * by rewrite lookup_delete_ne.
  - intros t m [_ Hm]%lookup_delete_Some. exact (Ht t m Hm).
  - split; [done|]. intros p. rewrite lookup_delete_is_Some. intros [[_ ?]|?]; apply Hb2; auto.
Qed.

Lemma twf_clock_enable s type b : twf s -> twf (qemu_clock_enable type b s).
Proof.
  intros [Hl Ht Hb]. unfold qemu_clock_enable. destruct (b && negb (clock_enabled s type)); [|split; assumption].
  split; cbn.
  - intros tl L. rewrite lookup_fmap. intros (L0 & HL & ->)%fmap_Some.
    destruct (Hl tl L0 HL) as (Hz & l & Hat). split; [done|]. exists l. by case_decide.
  - intros t n Hn. destruct (Ht t n Hn) as (H0 & H1 & H2 & H3). split_and!; try done. cbn.
    intros Hz. rewrite lookup_fmap, fmap_is_Some. auto.
  - destruct Hb as [Hb1 Hb2]. split; [done|]. intros p. rewrite lookup_fmap, fmap_is_Some. apply Hb2.
Qed.

(** ** Running the timers *)

Definition opaque_of (s : timers) (t : Z) : Z := default 0 (timer_opaque <$> theap s !! t).

(** Taking the first timer off a list. *)
Lemma run_next_spec s tl L l now :
  twf s -> tlists s !! tl = Some L -> tlist_at (theap s) tl (active_timers L) l ->
  match l with
  | t :: l' =>
      if tkey (theap s) t <=? now then
        exists s' L' n, run_next tl now s = Ok (Some (opaque_of s t), s') /\ twf s' /\
          theap s !! t = Some n /\ changed s s' tl t (set_expire (-1) n) /\
          tlists s' !! tl = Some L' /\ tlist_at (theap s') tl (active_timers L') l'
      else run_next tl now s = Ok (None, s)
  | [] => run_next tl now s = Ok (None, s)
  end.
Proof.
  intros Hw HL Hat. destruct (tw_list _ Hw tl L HL) as [Hz _].
  unfold run_next. rewrite (deref_Some _ _ L) by done. mon.
  pose proof (chain_head _ _ _ (ta_chain _ _ _ _ Hat)) as Eh. destruct l as [|t l].
  { rewrite Eh. done. }
  cbn in Eh. rewrite Eh. pose proof (ta_chain _ _ _ _ Hat) as (_ & Ht & n & Hn & Hc).
  unfold timer_expired_ns. rewrite (proj2 (Z.eqb_neq t 0)), (deref_Some _ _ n) by done. mon.
  unfold tkey. rewrite Hn. cbn [fmap option_fmap option_map from_option default id].
  destruct (expire_time n <=? now); cbn [negb]; [|done].
  rewrite (mod_list_Ok tl _ s L) by done. mon. rewrite (mod_timer_Ok t _ _ n) by done. mon. cbn [theap].
  set (L' := {| L with active_timers := timer_next n |}).
  set (n' := {| n with timer_next := 0; expire_time := -1 |}).
  assert (Htl : timer_list n = tl).
  { assert (Hin : t ∈ t :: l) by set_solver. apply (ta_elem _ _ _ _ Hat) in Hin. unfold active_in in Hin.
    rewrite Hn in Hin. by zb. }
  pose proof (chain_NoDup _ _ _ (ta_chain _ _ _ _ Hat)) as [Hnl _]%NoDup_cons.
  assert (Hat' : tlist_at (<[t := n']> (theap s)) tl (timer_next n) l).
  { split.
    - eapply chain_frame; [|exact Hc]. intros x Hx. rewrite lookup_insert_ne; [done|]. congruence.
    - pose proof (ta_sorted _ _ _ _ Hat) as Hs. apply StronglySorted_inv in Hs as [Hs _].
      eapply key_sorted_ext; [|exact Hs]. intros x Hx. rewrite tkey_insert. case_decide; [congruence|done].
    - intros x. rewrite active_in_insert. pose proof (ta_elem _ _ _ _ Hat x) as He.
      rewrite elem_of_cons in He. case_decide; [|naive_solver]. subst x. cbn. rewrite andb_false_r. naive_solver. }
  eexists _, L', n. split.
  { unfold opaque_of. by rewrite Hn. }
  split_and!; cbn [tlists theap clock_enabled tbrk]; try done.
  - apply (twf_update s tl L L' _ l); try done.
    + by eapply only_insert.
    + eapply (ge_info (theap s) _ t n' eq_refl); [done|]. by apply twf_ge.
  - split_and!; cbn; [by rewrite fmap_insert|done|done|..].
    + intros q Hq. by rewrite lookup_insert_ne.
    + by rewrite lookup_insert_eq, HL.
  - apply lookup_insert_eq.
Qed.

(** Callbacks that only write down that they ran. *)
Definition log_callback (opaque : Z) (s : timers * list Z) : res (timers * list Z) := Ok (s.1, s.2 ++ [opaque]).
Definition log_put (t : timers) (s : timers * list Z) : timers * list Z := (t, s.2).

(** The timers after a run: those of [fired] are inactive. *)
Definition disarm (fired : list Z) (h : gmap Z QEMUTimer) : gmap Z QEMUTimer :=
  map_imap (fun x n => Some (if decide (x ∈ fired) then set_expire (-1) (tinfo n) else tinfo n)) h.

Lemma disarm_nil h : disarm [] h = tinfo <$> h.
Proof.
  apply map_eq. intros x. unfold disarm. rewrite map_lookup_imap, lookup_fmap.
  destruct (h !! x); cbn; [|done]. by rewrite decide_False by set_solver.
Qed.

Lemma disarm_cons t l h h' n :
  h !! t = Some n -> tinfo <$> h' = <[t := tinfo (set_expire (-1) n)]> (tinfo <$> h) ->
  disarm l h' = disarm (t :: l) h.
Proof.
  intros Hn E. apply map_eq. intros x. unfold disarm. rewrite !map_lookup_imap.
  apply (f_equal (lookup x)) in E. rewrite lookup_insert, !lookup_fmap in E.
  destruct (decide (t = x)) as [<-|Hne].
  - rewrite Hn. apply fmap_Some in E as (n' & -> & E'). cbn. rewrite (decide_True (P := t ∈ t :: l)) by set_solver.
    destruct n, n'. cbn in *. simplify_eq. by case_decide.
  - destruct (h' !! x) as [n'|], (h !! x) as [m|]; try done. destruct n', m. cbn in *. simplify_eq.
    repeat case_decide; try done; set_solver.
Qed.

Lemma run_loop_log l1 : forall fuel s log tl L l2 now p,
  twf s -> tlists s !! tl = Some L -> tlist_at (theap s) tl (active_timers L) (l1 ++ l2) ->
  (forall x, x ∈ l1 -> tkey (theap s) x <= now) -> (forall x, x ∈ l2 -> now < tkey (theap s) x) ->
  (length l1 < fuel)%nat ->
  exists s' L', run_loop fst log_put log_callback fuel tl now p (s, log)
      = Ok (p || negb (bool_decide (l1 = [])), (s', log ++ (opaque_of s <$> l1))) /\
    twf s' /\ tlists s' !! tl = Some L' /\ tlist_at (theap s') tl (active_timers L') l2 /\
    tinfo <$> theap s' = disarm l1 (theap s) /\ clock_enabled s' = clock_enabled s.
Proof.
  induction l1 as [|t l1 IH]; intros fuel s log tl L l2 now p Hw HL Hat H1 H2 Hf;
    (destruct fuel as [|fuel]; [cbn in Hf; lia|]); cbn [run_loop fst];
    pose proof (run_next_spec s tl L _ now Hw HL Hat) as Hr.
  - assert (E : run_next tl now s = Ok (None, s)).
    { destruct l2 as [|t l2]; [exact Hr|]. cbn [app] in Hr. specialize (H2 t ltac:(set_solver)).
      by rewrite (proj2 (Z.leb_gt _ _)) in Hr by done. }
    rewrite E. mon. exists s, L. cbn. rewrite orb_false_r, app_nil_r, disarm_nil. done.
  - cbn [app] in Hr. rewrite (proj2 (Z.leb_le _ _)) in Hr by (apply H1; set_solver).
    destruct Hr as (s1 & L1 & n & E & Hw1 & Hn & Hch & HL1 & Hat1). rewrite E. mon.
    change (log_callback (opaque_of s t) (log_put s1 (s, log))) with (Ok (s1, log ++ [opaque_of s t])). mon.
    pose proof (chain_NoDup _ _ _ (ta_chain _ _ _ _ Hat)) as Hnd. cbn [app] in Hnd. apply NoDup_cons in Hnd as [Ht _].
    destruct Hch as (Ei & Ec & _).
    assert (Hx : forall x, x <> t -> tinfo <$> theap s1 !! x = tinfo <$> theap s !! x).
    { intros x Hxt. apply (f_equal (lookup x)) in Ei. rewrite lookup_insert_ne, !lookup_fmap in Ei by done. done. }
    assert (Hk : forall x, x ∈ l1 ++ l2 -> tkey (theap s1) x = tkey (theap s) x).
    { intros x Hin. assert (Hxt : x <> t) by congruence. specialize (Hx x Hxt). unfold tkey.
      destruct (theap s1 !! x) as [[]|], (theap s !! x) as [[]|]; cbn in *; by simplify_eq. }
    destruct (IH fuel s1 (log ++ [opaque_of s t]) tl L1 l2 now true) as (s2 & L2 & E2 & Hw2 & HL2 & Hat2 & Ed & Ec2).
    { done. } { done. } { done. }
    { intros x Hin. rewrite Hk by set_solver. apply H1. set_solver. }
    { intros x Hin. rewrite Hk by set_solver. apply H2. set_solver. }
    { cbn in Hf. lia. }
    exists s2, L2. rewrite E2. split_and!; try done; [..|congruence].
    + cbn. rewrite orb_true_r, <- app_assoc. cbn. do 5 f_equal. apply list_fmap_ext.
      intros i x Hi%list_elem_of_lookup_2. assert (Hxt : x <> t) by set_solver. specialize (Hx x Hxt).
      unfold opaque_of. destruct (theap s1 !! x) as [[]|], (theap s !! x) as [[]|]; cbn in *; by simplify_eq.
    + rewrite Ed. by eapply disarm_cons.
Qed.

(** ** Reachable states *)

Inductive top : Type :=
| ListNew (type : QEMUClockType)
| ListFree (tl : Z)
| TimerNew (tl sc opaque : Z)
| TimerMod (ts expire : Z)
| TimerModAnticipate (ts expire : Z)
| TimerDel (ts : Z)
| TimerFree (ts : Z)
| ClockEnable (type : QEMUClockType) (b : bool)
| RunTimers (tl : Z).

Definition texec (clk : QEMUClockType -> Z) (o : top) (s : timers) : res timers :=
  match o with
  | ListNew type => Ok (timerlist_new type s).2
  | ListFree tl => timerlist_free tl s
  | TimerNew tl sc op => Ok (timer_new_tl tl sc op s).2
  | TimerMod ts e => timer_mod ts e s
  | TimerModAnticipate ts e => timer_mod_anticipate ts e s
  | TimerDel ts => timer_del ts s
  | TimerFree ts => timer_free ts s
  | ClockEnable type b => Ok (qemu_clock_enable type b s)
  | RunTimers tl => '(_, (s', _)) ← timerlist_run_timers fst log_put log_callback clk tl (s, []); Ok s'
  end.

(** What a client may ask for: objects that exist, a list is freed when no
    timer belongs to it, a timer when it is not active. *)
Definition tenabled (o : top) (s : timers) : Prop :=
  match o with
  | ListNew _ | ClockEnable _ _ => True
  | ListFree tl => is_Some (tlists s !! tl) /\ forall t n, theap s !! t = Some n -> timer_list n <> tl
  | TimerNew tl _ _ | RunTimers tl => is_Some (tlists s !! tl)
  | TimerMod ts _ | TimerModAnticipate ts _ | TimerDel ts => is_Some (theap s !! ts)
  | TimerFree ts => exists n, theap s !! ts = Some n /\ expire_time n = -1
  end.

Definition no_timers : timers := mkTimers ∅ ∅ (fun _ => true) 1.

Inductive treach : timers -> Prop :=
| treach_init : treach no_timers
| treach_step s clk o s' : treach s -> tenabled o s -> texec clk o s = Ok s' -> treach s'.

(** A timer always has a list here. *)
Definition tgood (s : timers) : Prop := twf s /\ forall t n, theap s !! t = Some n -> timer_list n <> 0.

Lemma no_timers_good : tgood no_timers.
Proof.
  split; [split; cbn|intros t n; cbn; by rewrite lookup_empty].
  - intros tl L. by rewrite lookup_empty.
  - intros t n. by rewrite lookup_empty.
  - split; [lia|]. intros p. rewrite !lookup_empty. by intros [[]|[]].
Qed.

Lemma lists_kept s s' tl ts n :
  changed s s' tl ts n -> timer_list n <> 0 -> (forall t n, theap s !! t = Some n -> timer_list n <> 0) ->
  forall t n, theap s' !! t = Some n -> timer_list n <> 0.
Proof.
  intros (E & _) Hn Hs t m Hm. apply (f_equal (lookup t)) in E. rewrite lookup_insert, !lookup_fmap, Hm in E.
  cbn in E. case_decide.
  - injection E as E. by destruct m, n; cbn in *; simplify_eq.
  - symmetry in E. apply fmap_Some in E as (m' & Hm' & E). apply tinfo_inj in E as (_ & -> & _).
    by eapply Hs.
Qed.

(** All of a run at once. *)
Lemma run_timers_log clk s tl L :
  twf s -> tlists s !! tl = Some L ->
  exists l1 l2 s' L' b, timerlist_run_timers fst log_put log_callback clk tl (s, [])
      = Ok (b, (s', opaque_of s <$> l1)) /\
    tlist_at (theap s) tl (active_timers L) (l1 ++ l2) /\
    (forall x, x ∈ l1 -> clock_enabled s (tl_clock L) = true /\ tkey (theap s) x <= clk (tl_clock L)) /\
    (forall x, x ∈ l2 -> clock_enabled s (tl_clock L) = true -> clk (tl_clock L) < tkey (theap s) x) /\
    twf s' /\ tlists s' !! tl = Some L' /\ tlist_at (theap s') tl (active_timers L') l2 /\
    tinfo <$> theap s' = disarm l1 (theap s) /\ b = negb (bool_decide (l1 = [])).
Proof.
  intros Hw HL. destruct (tw_list _ Hw tl L HL) as (Hz & l & Hat).
  unfold timerlist_run_timers. cbn [fst]. rewrite (deref_Some _ _ L) by done. mon.
  destruct (clock_enabled s (tl_clock L)) eqn:Ec; cbn [negb].
  - destruct (key_sorted_split _ l (clk (tl_clock L)) (ta_sorted _ _ _ _ Hat)) as (l1 & l2 & -> & H1 & H2).
    destruct (run_loop_log l1 (walk_fuel (theap s)) s [] tl L l2 (clk (tl_clock L)) false)
      as (s' & L' & E & Hw' & HL' & Hat' & Ed & _); [done..| |].
    { pose proof (chain_length _ _ _ (ta_chain _ _ _ _ Hat)) as Hf. rewrite length_app in Hf. lia. }
    exists l1, l2, s', L', (negb (bool_decide (l1 = []))). rewrite E. cbn [orb app].
    split_and!; try done; auto.
  - exists [], l, s, L, false. rewrite disarm_nil. split_and!; try done; set_solver.
Qed.

Lemma disarm_lists l h h' : tinfo <$> h' = disarm l h ->
  (forall t n, h !! t = Some n -> timer_list n <> 0) -> forall t n, h' !! t = Some n -> timer_list n <> 0.
Proof.
  intros E Hs t m Hm. apply (f_equal (lookup t)) in E. unfold disarm in E.
  rewrite lookup_fmap, map_lookup_imap, Hm in E. destruct (h !! t) as [n|] eqn:Hn; [|done].
  assert (timer_list m = timer_list n) as ->; [|by eapply Hs].
  cbn in E. case_decide; by injection E.
Qed.

Lemma twf_free_list s tl :
  tgood s -> is_Some (tlists s !! tl) -> (forall t n, theap s !! t = Some n -> timer_list n <> tl) ->
  exists s', timerlist_free tl s = Ok s' /\ tgood s'.
Proof.
  intros [[Hl Ht [Hb1 Hb2]] Hz] [L HL] Hno. destruct (Hl tl L HL) as (Htl & l & [Hc _ He]).
  unfold timerlist_free, timerlist_has_timers. rewrite (deref_Some _ _ L) by done. mon.
  assert (l = []) as ->.
  { destruct l as [|t l]; [done|]. assert (Hin : t ∈ t :: l) by set_solver. apply He in Hin.
    unfold active_in in Hin. destruct (theap s !! t) as [n|] eqn:Hn; [|done]. zb. by destruct (Hno t n Hn). }
  cbn in Hc. rewrite Hc. cbn. eexists. split; [done|]. split; [split; cbn|done].
  - intros q M [Hne HM]%lookup_delete_Some. exact (Hl q M HM).
  - intros t n Hn. destruct (Ht t n Hn) as (H0 & H1 & H2 & H3). split_and!; try done. cbn. intros Hn0.
    rewrite lookup_delete_is_Some. split; [|by apply H2]. intros E. exact (Hno t n Hn (eq_sym E)).
  - split; [done|]. intros p. rewrite lookup_delete_is_Some. intros [?|[_ ?]]; auto.
Qed.

Lemma texec_good clk o s : tgood s -> tenabled o s -> exists s', texec clk o s = Ok s' /\ tgood s'.
Proof.
  intros [Hw Hz] He. destruct o as [ty|tl|tl sc op|ts e|ts e|ts|ts|ty b|tl]; cbn [texec tenabled] in *.
  - eexists. split; [done|]. split; [by apply twf_new_list|done].
  - destruct He. apply twf_free_list; [by split|done..].
  - eexists. split; [done|]. split; [by apply twf_new_timer|]. intros t n. cbn. rewrite lookup_insert.
    case_decide; [|apply Hz]. intros [= <-]. cbn. destruct He as [L HL]. by apply (tw_list _ Hw tl L).
  - destruct He as [n Hn]. destruct (tw_timer _ Hw ts n Hn) as (Hts & _). unfold timer_mod.
    rewrite (deref_Some _ _ n) by done. mon.
    destruct (timer_mod_ns_spec s ts n (s64 (e * scale n)) Hw Hn (Hz ts n Hn)) as (s' & L' & E & Hw' & Hc & _).
    exists s'. split; [done|]. split; [done|]. eapply lists_kept; [exact Hc|exact (Hz ts n Hn)|exact Hz].
  - destruct He as [n Hn]. destruct (tw_timer _ Hw ts n Hn) as (Hts & _). unfold timer_mod_anticipate.
    rewrite (deref_Some _ _ n) by done. mon.
    destruct (timer_mod_anticipate_spec s ts n (s64 (e * scale n)) Hw Hn (Hz ts n Hn))
      as (s' & E & Hw' & [[_ Hc]|[_ ->]]); eexists; (split; [exact E|]); split; try done.
    eapply lists_kept; [exact Hc|exact (Hz ts n Hn)|exact Hz].
  - destruct He as [n Hn]. destruct (timer_del_spec s ts n Hw Hn) as (s' & E & Hw' & [[_ ->]|Hc]);
      eexists; (split; [exact E|]); split; try done.
    eapply lists_kept; [exact Hc|exact (Hz ts n Hn)|exact Hz].
  - destruct He as (n & Hn & En). destruct (twf_free_timer s ts n Hw Hn En) as (s' & E & Hw').
    exists s'. split; [done|]. split; [done|]. intros t m Hm. unfold timer_free in E.
    destruct (tw_timer _ Hw ts n Hn) as (Hts & _). rewrite (deref_Some _ _ n) in E by done. mon. injection E as <-.
    cbn in Hm. apply lookup_delete_Some in Hm as [_ Hm]. by eapply Hz.
  - eexists. split; [done|]. split; [by apply twf_clock_enable|].
    unfold qemu_clock_enable. by destruct (b && _).
  - destruct He as [L HL]. destruct (run_timers_log clk s tl L Hw HL) as
      (l1 & l2 & s' & L' & b & E & _ & _ & _ & Hw' & _ & _ & Ed & _). rewrite E. mon.
    exists s'. split; [done|]. split; [done|]. by eapply disarm_lists.
Qed.

Lemma treach_good s : treach s -> tgood s.
Proof.
  induction 1 as [|s clk o s' _ IH He E]; [apply no_timers_good|].
  destruct (texec_good clk o s IH He) as (s2 & E2 & H). congruence.
Qed.

(** ** Deadlines *)

(** [d] is the time until the first of the timers [P]; -1 if there is none. *)
Definition first_deadline (wait : Z -> Z) (P : Z -> Prop) (d : Z) : Prop :=
  d = -1 /\ (forall t, ~ P t) \/
  0 <= d <= INT64_MAX /\ (forall t, P t -> d <= wait t) /\ (exists t, P t /\ d = wait t).

(** The timers of [tl] that can fire, and how long they have to wait. *)
Definition can_fire (s : timers) (tl t : Z) : Prop :=
  active_in (theap s) tl t = true /\
  exists L, tlists s !! tl = Some L /\ clock_enabled s (tl_clock L) = true.
Definition wait_of (clk : QEMUClockType -> Z) (s : timers) (t : Z) : Z :=
  match theap s !! t with
  | Some n => match tlists s !! timer_list n with
              | Some L => Z.max 0 (expire_time n - clk (tl_clock L))
              | None => 0
              end
  | None => 0
  end.

Definition clock_range (clk : QEMUClockType -> Z) (s : timers) : Prop :=
  (forall ty, 0 <= clk ty <= INT64_MAX) /\ (forall t n, theap s !! t = Some n -> expire_time n <= INT64_MAX).

Lemma s64_id z : - 2 ^ 63 <= z < 2 ^ 63 -> s64 z = z.
Proof.
  intros Hz. unfold signed, wrap. destruct (decide (0 <= z)).
  - rewrite Z.mod_small by lia. by rewrite (proj2 (Z.ltb_lt _ _)) by lia.
  - rewrite <- (Z.mod_unique z (2 ^ 64) (-1) (z + 2 ^ 64)) by lia.
    rewrite (proj2 (Z.ltb_ge _ _)); lia.
Qed.

Lemma deadline_one clk s tl L :
  twf s -> clock_range clk s -> tlists s !! tl = Some L ->
  exists d, timerlist_deadline_ns clk tl s = Ok d /\ first_deadline (wait_of clk s) (can_fire s tl) d.
Proof.
  intros Hw [Hclk Hexp] HL. destruct (tw_list _ Hw tl L HL) as (Hz & l & Hat).
  unfold timerlist_deadline_ns. rewrite (deref_Some _ _ L) by done. mon.
  destruct (clock_enabled s (tl_clock L)) eqn:Ec; cbn [negb].
  2: { exists (-1). split; [done|]. left. split; [done|]. intros t [_ (L' & HL' & Ec')]. congruence. }
  pose proof (chain_head _ _ _ (ta_chain _ _ _ _ Hat)) as Eh. destruct l as [|t l]; cbn in Eh; rewrite Eh.
  { exists (-1). split; [done|]. left. split; [done|]. intros t [Ht _]. apply (ta_elem _ _ _ _ Hat) in Ht. set_solver. }
  pose proof (ta_chain _ _ _ _ Hat) as (_ & Ht & n & Hn & _).
  rewrite (proj2 (Z.eqb_neq t 0)), (deref_Some _ _ n) by done. mon.
  assert (Hin : forall x, x ∈ t :: l -> exists m, theap s !! x = Some m /\ timer_list m = tl /\ 0 <= expire_time m /\
    wait_of clk s x = Z.max 0 (expire_time m - clk (tl_clock L))).
  { intros x Hx. apply (ta_elem _ _ _ _ Hat) in Hx. unfold active_in in Hx. unfold wait_of.
    destruct (theap s !! x) as [m|] eqn:Hm; [|done]. zb. exists m. rewrite H, HL.
    pose proof (twf_ge s Hw x m Hm). split_and!; try done. lia. }
  destruct (Hin t ltac:(set_solver)) as (n' & Hn' & Etl & Hge & Ewt). assert (n' = n) as -> by congruence.
  pose proof (Hclk (tl_clock L)). pose proof (Hexp t n Hn). unfold INT64_MAX in *.
  rewrite s64_id by lia.
  exists (wait_of clk s t). split.
  { rewrite Ewt. destruct (Z.leb_spec (expire_time n - clk (tl_clock L)) 0); f_equal; lia. }
  right. split; [unfold INT64_MAX; lia|]. split.
  - intros x [Hx _]. apply (ta_elem _ _ _ _ Hat) in Hx.
    destruct (Hin x Hx) as (m & Hm & _ & _ & ->). rewrite Ewt.
    pose proof (ta_sorted _ _ _ _ Hat) as Hs. apply StronglySorted_inv in Hs as [_ Hs].
    rewrite Forall_forall in Hs. apply elem_of_cons in Hx as [->|Hx]; [by simplify_eq|].
    specialize (Hs x Hx). unfold tkey in Hs. rewrite Hn, Hm in Hs. cbn in Hs. lia.
  - exists t. split; [|done]. split; [apply (ta_elem _ _ _ _ Hat); set_solver|]. eauto.
Qed.

Lemma soonest_spec wait P Q a b :
  first_deadline wait P a -> first_deadline wait Q b ->
  first_deadline wait (fun t => P t \/ Q t) (qemu_soonest_timeout a b).
Proof.
  assert (Hm : u64 (-1) = 2 ^ 64 - 1) by reflexivity.
  assert (Hs : forall d, 0 <= d <= INT64_MAX -> u64 d = d).
  { intros d Hd. apply wrap_small. unfold in_range, INT64_MAX in *. lia. }
  unfold first_deadline, qemu_soonest_timeout.
  intros [[-> Ha]|(Ra & Ma & ta & Pa & Ea)] [[-> Hb]|(Rb & Mb & tb & Pb & Eb)]; rewrite ?Hm, ?Hs by done.
  - left. rewrite Z.ltb_irrefl. naive_solver.
  - right. rewrite (proj2 (Z.ltb_ge _ _)) by (unfold INT64_MAX in *; lia). naive_solver.
  - right. rewrite (proj2 (Z.ltb_lt _ _)) by (unfold INT64_MAX in *; lia). naive_solver.
  - right. destruct (Z.ltb_spec a b); (split; [done|]); split.
    + intros t [Ht|Ht]; [auto|]. specialize (Mb t Ht). lia.
    + eauto.
    + intros t [Ht|Ht]; [|auto]. specialize (Ma t Ht). lia.
    + eauto.
Qed.

Lemma first_deadline_iff wait P Q d :
  (forall t, P t <-> Q t) -> first_deadline wait P d -> first_deadline wait Q d.
Proof. unfold first_deadline. intros E. setoid_rewrite E. done. Qed.

Lemma deadline_from_spec clk s tlg : forall P d,
  twf s -> clock_range clk s -> (forall tl, tl ∈ tlg -> is_Some (tlists s !! tl)) ->
  first_deadline (wait_of clk s) P d ->
  exists d', deadline_from clk tlg d s = Ok d' /\
    first_deadline (wait_of clk s) (fun t => P t \/ exists tl, tl ∈ tlg /\ can_fire s tl t) d'.
Proof.
  induction tlg as [|tl tlg IH]; intros P d Hw Hr He Hd; cbn.
  - exists d. split; [done|]. eapply first_deadline_iff; [|exact Hd]. intros t. set_solver.
  - destruct (He tl ltac:(set_solver)) as [L HL].
    destruct (deadline_one clk s tl L Hw Hr HL) as (d1 & E1 & H1). rewrite E1. mon.
    destruct (IH _ _ Hw Hr ltac:(set_solver) (soonest_spec _ _ _ _ _ Hd H1)) as (d2 & E2 & H2).
    exists d2. split; [done|]. eapply first_deadline_iff; [|exact H2]. cbn. intros t. set_solver.
Qed.

(** ** The theorems *)

(** C19.  Whatever sequence of timer operations a client of the timer module
    performs, the active timers of each list stay chained in the order they
    expire and every operation returns. *)
Theorem timers_safe clk s o :
  treach s -> tenabled o s -> tgood s /\ exists s', texec clk o s = Ok s' /\ tgood s'.
Proof. intros Hr%treach_good He. split; [done|]. by apply texec_good. Qed.


(** C21.  The time QEMU's main loop may sleep: with the clocks and the expiry
    times in the range of [int64_t], the deadline of a group of lists is the
    time until the first of their timers that can fire, -1 if there is none,
    and its conversion to milliseconds rounds up, by less than one, unless it
    is cut at [INT32_MAX]. *)
Theorem deadline_sound clk s tlg :
  twf s -> clock_range clk s -> (forall tl, tl ∈ tlg -> is_Some (tlists s !! tl)) ->
  exists d, timerlistgroup_deadline_ns clk tlg s = Ok d /\
    first_deadline (wait_of clk s) (fun t => exists tl, tl ∈ tlg /\ can_fire s tl t) d /\
    (d = -1 -> qemu_timeout_ns_to_ms d = -1) /\
    (0 <= d <= INT32_MAX * SCALE_MS -> d <= qemu_timeout_ns_to_ms d * SCALE_MS < d + SCALE_MS).
Proof.
  intros Hw Hr He.
  destruct (deadline_from_spec clk s tlg (fun _ => False) (-1) Hw Hr He) as (d & E & Hd).
  { left. split; [done|]. tauto. }
  exists d. split; [done|]. split; [|split].
  - eapply first_deadline_iff; [|exact Hd]. cbn. naive_solver.
  - by intros ->.
  - unfold qemu_timeout_ns_to_ms, INT32_MAX, SCALE_MS. intros Hd'.
    rewrite (proj2 (Z.ltb_ge _ _)) by lia. destruct (Z.eqb_spec d 0); [lia|].
    rewrite s64_id by lia. rewrite Z.quot_div_nonneg by lia.
    pose proof (Z.mul_div_le (d + 1000000 - 1) 1000000 ltac:(lia)).
    pose proof (Z.mul_succ_div_gt (d + 1000000 - 1) 1000000 ltac:(lia)).
    assert ((d + 1000000 - 1) / 1000000 < 0x80000000) by (apply Z.div_lt_upper_bound; lia).
    destruct (Z.gtb_spec ((d + 1000000 - 1) / 1000000) 0x7fffffff); lia.
Qed.

(** Freeing a looper timer of the QEMU core does not stop it: when it is
    the next one to fire, the list keeps a pointer to the freed timer and
    running the timers uses it. *)
Theorem looptimer_free_dangles clk s tl L tt n :
  twf s -> tlists s !! tl = Some L -> clock_enabled s (tl_clock L) = true ->
  active_timers L = tt -> theap s !! tt = Some n ->
  exists s', qlooptimer_free tt s = Ok s' /\ qlooptimer_isActive tt s = Ok true /\
    timerlist_run_timers fst log_put log_callback clk tl (s', []) = Fault BadPointer.
Proof.
  intros Hw HL Hen <- Hn. destruct (tw_list _ Hw tl L HL) as (Hz & l & Hat).
  destruct (tw_timer _ Hw _ n Hn) as (Ht & _).
  unfold qlooptimer_free, timer_free. rewrite (deref_Some _ _ n) by done. mon. eexists. split; [done|]. split.
  - unfold qlooptimer_isActive, timer_pending. rewrite (deref_Some _ _ n) by done. mon. f_equal.
    assert (Hin : active_timers L ∈ l).
    { pose proof (chain_head _ _ _ (ta_chain _ _ _ _ Hat)) as Eh. destruct l; cbn in Eh; [done|]. rewrite Eh. set_solver. }
    apply (ta_elem _ _ _ _ Hat) in Hin. unfold active_in in Hin. rewrite Hn in Hin. zb.
    pose proof (twf_ge s Hw _ n Hn). apply Z.geb_le. lia.
  - unfold timerlist_run_timers. cbn [fst tlists clock_enabled theap].
    rewrite (deref_Some _ _ L) by done. mon. rewrite Hen. cbn [negb walk_fuel run_loop fst].
    unfold run_next. cbn [tlists theap]. rewrite (deref_Some _ _ L) by done. mon.
    unfold timer_expired_ns, deref. cbn [theap]. rewrite (proj2 (Z.eqb_neq _ 0) Ht).
    by rewrite lookup_delete_eq.
Qed.

(** ** Concrete instances *)

(** One list of the host clock with two timers in milliseconds, armed at 10 ms
    and at 5 ms; the clock shows 7 ms. *)
Definition demo_clk (_ : QEMUClockType) : Z := 7000000.
Definition tafter (o : top) (s : timers) : timers := match texec demo_clk o s with Ok s' => s' | Fault _ => s end.
Definition demo1 : timers := tafter (ListNew QEMU_CLOCK_HOST) no_timers.
Definition demo2 : timers := tafter (TimerNew 1 SCALE_MS 70) demo1.
Definition demo3 : timers := tafter (TimerNew 1 SCALE_MS 71) demo2.
Definition demo4 : timers := tafter (TimerMod 2 10) demo3.
Definition demo : timers := tafter (TimerMod 3 5) demo4.
Definition demo_list : QEMUTimerList := mkTimerList QEMU_CLOCK_HOST 3 true.

Lemma demo_reach : treach demo.
Proof.
  apply (treach_step demo4 demo_clk (TimerMod 3 5)); [|eexists; run_vm|run_vm].
  apply (treach_step demo3 demo_clk (TimerMod 2 10)); [|eexists; run_vm|run_vm].
  apply (treach_step demo2 demo_clk (TimerNew 1 SCALE_MS 71)); [|eexists; run_vm|run_vm].
  apply (treach_step demo1 demo_clk (TimerNew 1 SCALE_MS 70)); [|eexists; run_vm|run_vm].
  by apply (treach_step no_timers demo_clk (ListNew QEMU_CLOCK_HOST)); [constructor| |run_vm].
Qed.

Lemma demo_good : tgood demo.
Proof. apply treach_good, demo_reach. Qed.

Lemma demo_lists : tlists demo !! 1 = Some demo_list.
Proof. run_vm. Qed.

Lemma timers_safe_witness :
  tgood demo /\ exists s', texec demo_clk (RunTimers 1) demo = Ok s' /\ tgood s'.
Proof. apply (timers_safe demo_clk demo (RunTimers 1)); [apply demo_reach|exists demo_list; apply demo_lists]. Defined.


Lemma deadline_sound_witness :
  exists d, timerlistgroup_deadline_ns demo_clk [1] demo = Ok d /\
    first_deadline (wait_of demo_clk demo) (fun t => exists tl, tl ∈ [1] /\ can_fire demo tl t) d /\
    (d = -1 -> qemu_timeout_ns_to_ms d = -1) /\
    (0 <= d <= INT32_MAX * SCALE_MS -> d <= qemu_timeout_ns_to_ms d * SCALE_MS < d + SCALE_MS).
Proof.
  apply (deadline_sound demo_clk demo [1]); [exact (proj1 demo_good)| |].
  - split; [intros ty; unfold demo_clk, INT64_MAX; lia|]. intros t n Hn.
    assert (Hall : map_Forall (fun _ m => expire_time m <= INT64_MAX) (theap demo)).
    { apply (bool_decide_unpack _). vm_compute. exact I. }
    exact (Hall t n Hn).
  - intros tl ->%list_elem_of_singleton. exists demo_list. apply demo_lists.
Defined.

Lemma looptimer_free_dangles_witness :
  exists s', qlooptimer_free 3 demo = Ok s' /\ qlooptimer_isActive 3 demo = Ok true /\
    timerlist_run_timers fst log_put log_callback demo_clk 1 (s', []) = Fault BadPointer.
Proof.
  apply (looptimer_free_dangles demo_clk demo 1 demo_list 3 (mkTimer 5000000 1 71 2 SCALE_MS));
    [exact (proj1 demo_good)|apply demo_lists|reflexivity|reflexivity|run_vm].
Defined.
