(* ===== verification/SockAddr.v ===== *)
(** * Socket addresses ([android/sockets.c], [android/sockets.h])

    Addresses, their conversion to and from the [sockaddr] structures of the
    host, and their printing in a fixed buffer. *)

From S2P Require Import Prelude.

(** ** Data *)

Inductive SocketType : Type := SOCKET_DGRAM | SOCKET_STREAM.
Inductive SocketFamily : Type := SOCKET_UNSPEC | SOCKET_INET | SOCKET_IN6 | SOCKET_UNIX.

(** [SockAddress]: the family with the member of the union it selects. *)
Inductive SockAddress : Type :=
| AddrUnspec
| AddrInet (port address : Z)
| AddrIn6 (port : Z) (address : list Z)
| AddrUnix (owner : bool) (path : list Z).

Definition SOCK_ADDRESS_INET_ANY := 0x00000000.
Definition SOCK_ADDRESS_INET_LOOPBACK := 0x7f000001.

Definition AF_LOCAL := 1.
Definition AF_INET := 2.
Definition AF_INET6 := 10.
Definition SOCK_STREAM := 1.
Definition SOCK_DGRAM := 2.

(** Sizes of [struct sockaddr_in], [sockaddr_in6], [sockaddr_un], and
    [UNIX_PATH_MAX], the size of [sun_path] less one. *)
Definition sizeof_in := 16.
Definition sizeof_in6 := 28.
Definition sizeof_un := 110.
Definition UNIX_PATH_MAX := 107.

(** ** Addresses *)

Definition sock_address_get_family (a : SockAddress) : SocketFamily :=
  match a with
  | AddrUnspec => SOCKET_UNSPEC
  | AddrInet _ _ => SOCKET_INET
  | AddrIn6 _ _ => SOCKET_IN6
  | AddrUnix _ _ => SOCKET_UNIX
  end.

(** [int socket_family_to_bsd(family)] *)
Definition socket_family_to_bsd (f : SocketFamily) : Z :=
  match f with
  | SOCKET_INET => AF_INET
  | SOCKET_IN6 => AF_INET6
  | SOCKET_UNIX => AF_LOCAL
  | SOCKET_UNSPEC => -1
  end.

(** [int socket_type_to_bsd(type)]: the default case is for no value of the type *)
Definition socket_type_to_bsd (t : SocketType) : Z :=
  match t with SOCKET_DGRAM => SOCK_DGRAM | SOCKET_STREAM => SOCK_STREAM end.

(** [SocketType socket_type_from_bsd(type)]: [SOCKET_UNSPEC], zero, is
    [SOCKET_DGRAM] as a [SocketType] *)
Definition socket_type_from_bsd (t : Z) : SocketType :=
  if t =? SOCK_DGRAM then SOCKET_DGRAM else if t =? SOCK_STREAM then SOCKET_STREAM else SOCKET_DGRAM.

(** [sock_address_init_inet], [sock_address_init_in6], [sock_address_init_unix]
    ([None] is the null path), [sock_address_done] *)
Definition sock_address_init_inet (ip port : Z) : SockAddress := AddrInet (u16 port) (u32 ip).
Definition sock_address_init_in6 (ip6 : list Z) (port : Z) : SockAddress :=
  AddrIn6 (u16 port) (take 16 ip6).
Definition sock_address_init_unix (path : option (list Z)) : SockAddress :=
  AddrUnix true (default [] path).
Definition sock_address_done (a : SockAddress) : SockAddress :=
  match a with AddrUnix true p => AddrUnix false p | _ => a end.

(** [int sock_address_equal(a, b)] *)
Definition sock_address_equal (a b : SockAddress) : bool :=
  match a, b with
  | AddrInet p x, AddrInet q y => (x =? y) && (p =? q)
  | AddrIn6 p x, AddrIn6 q y => list_eqb x y && (p =? q)
  | AddrUnix _ x, AddrUnix _ y => list_eqb x y
  | _, _ => false
  end.

(** [int sock_address_get_port(a)], [void sock_address_set_port(a, port)],
    [const char* sock_address_get_path(a)], [int sock_address_get_ip(a)] *)
Definition sock_address_get_port (a : SockAddress) : Z :=
  match a with AddrInet p _ | AddrIn6 p _ => p | _ => -1 end.
Definition sock_address_set_port (a : SockAddress) (port : Z) : SockAddress :=
  match a with
  | AddrInet _ x => AddrInet (u16 port) x
  | AddrIn6 _ x => AddrIn6 (u16 port) x
  | _ => a
  end.
Definition sock_address_get_path (a : SockAddress) : option (list Z) :=
  match a with AddrUnix _ p => Some p | _ => None end.
Definition sock_address_get_ip (a : SockAddress) : Z :=
  match a with AddrInet _ x => s32 x | _ => -1 end.

(** Network byte order on [n] bytes. *)
Definition be_bytes (n : nat) (z : Z) : list Z := reverse (le_bytes n z).
Definition of_be (bs : list Z) : Z := of_le (reverse bs).

(** [int sock_address_to_bsd(a, paddress, psize)]: the bytes of the structure,
    of which the first [psize] count; [None] for an error *)
Definition sock_address_to_bsd (a : SockAddress) : option (list Z * Z) :=
  match a with
  | AddrInet port address =>
      Some (le_bytes 2 AF_INET ++ be_bytes 2 port ++ be_bytes 4 address ++ replicate 8 0, sizeof_in)
  | AddrIn6 port address =>
      Some (le_bytes 2 AF_INET6 ++ be_bytes 2 port ++ replicate 4 0 ++ address ++ replicate 4 0, sizeof_in6)
  | AddrUnix _ path =>
      let slen := length path in
      if Z.of_nat slen >=? UNIX_PATH_MAX then None
      else Some (le_bytes 2 AF_LOCAL ++ path ++ replicate (108 - slen) 0, 2 + Z.of_nat slen + 1)
  | AddrUnspec => None
  end.

(** [int sock_address_from_bsd(a, from, fromlen)] *)
Definition sock_address_from_bsd (from : list Z) (fromlen : Z) : option SockAddress :=
  let sa_family := of_le (take 2 from) in
  if sa_family =? AF_INET then
    if fromlen <? sizeof_in then None
    else Some (AddrInet (of_be (take 2 (drop 2 from))) (of_be (take 4 (drop 4 from))))
  else if sa_family =? AF_INET6 then
    if fromlen <? sizeof_in6 then None
    else Some (AddrIn6 (of_be (take 2 (drop 2 from))) (take 16 (drop 8 from)))
  else if sa_family =? AF_LOCAL then
    if fromlen <? sizeof_un then None
    else match memchr 0 (take (Z.to_nat UNIX_PATH_MAX) (drop 2 from)) with
         | None => None
         | Some _ => Some (AddrUnix true (c_string (drop 2 from)))
         end
  else None.

(** ** Printing in a buffer

    A buffer is the array, of which [end] is the size, with the position of
    [buf]; an access outside of the array is a fault. *)

Record outbuf : Type := mkOut { out : list Z; pos : Z }.

Definition put (i c : Z) (b : list Z) : res (list Z) :=
  if (0 <=? i) && (i <? Z.of_nat (length b)) then Ok (<[Z.to_nat i := c]> b) else Fault OutOfBounds.

(** [char* format_char(buf, end, c)] *)
Definition format_char (c : Z) (o : outbuf) : res outbuf :=
  let end_ := Z.of_nat (length (out o)) in
  if pos o <? end_ then
    if pos o + 1 =? end_ then
      b ← put (pos o) 0 (out o); Ok (mkOut b (pos o + 1))
    else
      b ← put (pos o) (u8 c) (out o);
      b' ← put (pos o + 1) 0 b;
      Ok (mkOut b' (pos o + 1))
  else Ok o.

(** [char* format_str(buf, end, str)] *)
Definition format_str (str : list Z) (o : outbuf) : res outbuf :=
  let end_ := Z.of_nat (length (out o)) in
  let avail := end_ - pos o in
  let len := Z.min (Z.of_nat (length str)) avail in
  if (pos o <? 0) || (len <? 0) then Fault OutOfBounds
  else
    let b := blit (out o) (Z.to_nat (pos o)) (take (Z.to_nat len) str) in
    let p := pos o + len in
    b' ← (if p =? end_ then put (p - 1) 0 b else put p 0 b);
    Ok (mkOut b' p).

(** The digits of [format_unsigned], least significant first, at most ten for
    an [unsigned]. *)
Fixpoint digits (fuel : nat) (val : Z) : list Z :=
  match fuel with
  | O => []
  | S k => if val =? 0 then [] else (48 + val mod 10) :: digits k (val / 10)
  end.

Fixpoint format_chars (l : list Z) (o : outbuf) : res outbuf :=
  match l with
  | [] => Ok o
  | c :: l' => o' ← format_char c o; format_chars l' o'
  end.

(** [char* format_unsigned(buf, end, val)] *)
Definition format_unsigned (val : Z) (o : outbuf) : res outbuf :=
  let temp := digits 10 (u32 val) in
  let temp := match temp with [] => [48] | _ => temp end in
  format_chars (reverse temp) o.

Definition hex_digit (d : Z) : Z := if d <? 10 then 48 + d else 87 + d.

(** [char* format_hex(buf, end, val, ndigits)]: it prints [ndigits + 1] digits *)
Definition format_hex (val : Z) (ndigits : nat) (o : outbuf) : res outbuf :=
  format_chars ((fun k => hex_digit (Z.land (Z.shiftr (u32 val) (4 * Z.of_nat k)) 15)) <$>
                reverse (seq 0 (S ndigits))) o.

(** [char* format_ip4(buf, end, ip)] *)
Definition format_ip4 (ip : Z) (o : outbuf) : res outbuf :=
  o ← format_unsigned (Z.shiftr ip 24) o;
  o ← format_char 46 o;
  o ← format_unsigned (Z.land (Z.shiftr ip 16) 255) o;
  o ← format_char 46 o;
  o ← format_unsigned (Z.land (Z.shiftr ip 8) 255) o;
  o ← format_char 46 o;
  format_unsigned (Z.land ip 255) o.

(** [char* format_ip6(buf, end, ip6)] *)
Fixpoint format_ip6_from (nn : nat) (groups : nat) (ip6 : list Z) (o : outbuf) : res outbuf :=
  match groups with
  | O => Ok o
  | S g =>
      let val := Z.lor (Z.shiftl (nth 0 ip6 0) 16) (nth 1 ip6 0) in
      o1 ← (if (0 <? nn)%nat then format_char 58 o else Ok o);
      o2 ← (if val =? 0 then Ok o1 else format_hex val 4 o1);
      format_ip6_from (S nn) g (drop 2 ip6) o2
  end.
Definition format_ip6 (ip6 : list Z) (o : outbuf) : res outbuf := format_ip6_from 0 8 ip6 o.

Definition MAX_PATH := 4096.

(** [const char* sock_address_to_string(a)]: the contents of the static buffer,
    [prev] before the call; [None] for the null pointer *)
Definition sock_address_to_string (a : SockAddress) (prev : list Z) : res (option (list Z)) :=
  let o := mkOut prev 0 in
  match a with
  | AddrInet port address =>
      o ← format_ip4 address o; o ← format_char 58 o; o ← format_unsigned port o; Ok (Some (out o))
  | AddrIn6 port address =>
      o ← format_ip6 address o; o ← format_char 58 o; o ← format_unsigned port o; Ok (Some (out o))
  | AddrUnix _ path => o ← format_str path o; Ok (Some (out o))
  | AddrUnspec => Ok None
  end.

(** The parsing of [sock_address_list_create2(host_and_port, flags)]: the host
    and the port handed to [sock_address_list_create], [None] for the null
    pointer; a host name longer than 511 bytes is cut. *)
Definition localhost : list Z := [108; 111; 99; 97; 108; 104; 111; 115; 116].
Definition sock_address_list_create2 (host_and_port : list Z) : option (list Z * list Z) :=
  let hp := match memchr 58 host_and_port with
            | Some k =>
                let to_copy := Nat.min 511 k in
                if (to_copy =? 0)%nat then None
                else Some (take to_copy host_and_port, drop (S k) host_and_port)
            | None => Some (localhost, host_and_port)
            end in
  match hp with
  | Some (h, p) => if decide (p = []) then None else Some (h, p)
  | None => None
  end.

(** ** Name resolution

    The answer of [getaddrinfo], which is not part of the emulator: an error
    code, with [errno], or a list of [struct addrinfo]. *)
Record addrinfo : Type := mkAddrinfo { ai_family : Z; ai_addr : list Z; ai_addrlen : Z }.
Inductive gai : Type := GaiError (ret errno : Z) | GaiOk (l : list addrinfo).

Definition EAI_NONAME := -2.
Definition EAI_AGAIN := -3.
Definition EAI_FAIL := -4.
Definition EAI_NODATA := -5.
Definition EAI_FAMILY := -6.
Definition EAI_ADDRFAMILY := -9.
Definition EAI_MEMORY := -10.
Definition EAI_SYSTEM := -11.
Definition ENOENT := 2.
Definition EINTR := 4.
Definition EAGAIN := 11.
Definition ENOMEM := 12.
Definition EINVAL := 22.
Definition EAFNOSUPPORT := 97.
Definition EHOSTDOWN := 112.

(** The error of [sock_address_init_resolve] *)
Definition resolve_errno (ret : Z) : Z :=
  if (ret =? EAI_AGAIN) || (ret =? EAI_FAIL) then EHOSTDOWN
  else if (ret =? EAI_NODATA) || (ret =? EAI_NONAME) then ENOENT
  else if ret =? EAI_MEMORY then ENOMEM else EINVAL.

(** The scan of the answer for the first address of each family. *)
Fixpoint resolve_scan (preferIn6 : bool) (l : list addrinfo) (v4 v6 : option addrinfo)
    : option addrinfo * option addrinfo :=
  match l with
  | [] => (v4, v6)
  | r :: l' =>
      if (ai_family r =? AF_INET) && negb (bool_decide (is_Some v4)) then
        if negb preferIn6 then (Some r, v6) else resolve_scan preferIn6 l' (Some r) v6
      else if (ai_family r =? AF_INET6) && negb (bool_decide (is_Some v6)) then
        if preferIn6 then (v4, Some r) else resolve_scan preferIn6 l' v4 (Some r)
      else resolve_scan preferIn6 l' v4 v6
  end.

(** [int sock_address_init_resolve(a, hostname, port, preferIn6)] on the answer
    of the resolver: the address, or [errno] *)
Definition sock_address_init_resolve (answer : gai) (port : Z) (preferIn6 : bool) : SockAddress + Z :=
  match answer with
  | GaiError ret _ => inr (resolve_errno ret)
  | GaiOk l =>
      let '(v4, v6) := resolve_scan preferIn6 l None None in
      let r := if preferIn6 then match v6 with Some _ => v6 | None => v4 end
               else match v4 with Some _ => v4 | None => v6 end in
      match r with
      | None => inr ENOENT
      | Some r =>
          match sock_address_from_bsd (ai_addr r) (ai_addrlen r) with
          | None => inr EINVAL
          | Some a => inl (sock_address_set_port a port)
          end
      end
  end.

(** The hints [sock_address_list_create(hostname, port, flags)] gives to the
    resolver *)
Record hints : Type := mkHints { hint_family : Z; hint_passive : bool; hint_canonname : bool; hint_dgram : bool }.
Definition SOCKET_LIST_FORCE_INET := 2.
Definition SOCKET_LIST_FORCE_IN6 := 4.
Definition SOCKET_LIST_DGRAM := 8.
Definition SOCKET_LIST_PASSIVE := 1.
Definition list_hints (flags : Z) : hints :=
  let family := if flag_set flags SOCKET_LIST_FORCE_INET then AF_INET
                else if flag_set flags SOCKET_LIST_FORCE_IN6 then AF_INET6 else 0 in
  let passive := flag_set flags SOCKET_LIST_PASSIVE in
  mkHints family passive (negb passive) (flag_set flags SOCKET_LIST_DGRAM).

(** The error it reports *)
Definition list_errno (ret errno : Z) : Z :=
  if (ret =? EAI_ADDRFAMILY) || (ret =? EAI_NODATA) then ENOENT
  else if ret =? EAI_FAMILY then EAFNOSUPPORT
  else if ret =? EAI_AGAIN then EAGAIN
  else if ret =? EAI_SYSTEM then errno else EINVAL.

(** [SockAddress** sock_address_list_create(hostname, port, flags)];
    [getaddrinfo hints] are the resolver's answers to these hints, one per try: a
    call that a signal interrupted is made again.  The list of addresses, or
    [errno]. *)
Fixpoint list_create_loop (answers : list gai) : res (list SockAddress + Z) :=
  match answers with
  | [] => Fault OutOfFuel
  | GaiError ret errno :: answers' =>
      if (ret =? EAI_SYSTEM) && (errno =? EINTR) then list_create_loop answers'
      else Ok (inr (list_errno ret errno))
  | GaiOk l :: _ => Ok (inl (omap (fun e => sock_address_from_bsd (ai_addr e) (ai_addrlen e)) l))
  end.
Definition sock_address_list_create (getaddrinfo : hints -> list gai) (flags : Z) : res (list SockAddress + Z) :=
  list_create_loop (getaddrinfo (list_hints flags)).

(** [void sock_address_list_free(list)]: every address is released *)
Definition sock_address_list_free (l : list SockAddress) : list SockAddress := sock_address_done <$> l.

(** The [sockaddr] that [sock_address_get_numeric_info] gives to [getnameinfo]:
    the four bytes of the address itself, [None] for an error *)
Definition numeric_info_sockaddr (a : SockAddress) : option (list Z) :=
  match a with AddrInet _ address => Some (le_bytes 4 address) | _ => None end.
