(* ===== verification/SockAddrProofs.v ===== *)
(** * Socket addresses: conversions and printing *)

From S2P Require Import Prelude SockAddr.

(** ** Conversion to and from the host's structures *)

(** Addresses as the code makes them: fields within their types, a path that is
    a C string. *)
Definition addr_ok (a : SockAddress) : Prop :=
  match a with
  | AddrUnspec => True
  | AddrInet port address => in_range 16 port /\ in_range 32 address
  | AddrIn6 port address => in_range 16 port /\ length address = 16%nat
  | AddrUnix _ path => (0 ∉ path)
  end.

Lemma length_be n z : length (be_bytes n z) = n.
Proof. unfold be_bytes. by rewrite length_reverse, length_le_bytes. Qed.

Lemma of_be_bytes n z : in_range (8 * Z.of_nat n) z -> of_be (be_bytes n z) = z.
Proof.
  intros Hz. unfold of_be, be_bytes. rewrite reverse_involutive, of_le_bytes.
  apply Z.mod_small. unfold in_range in Hz. change 256 with (2 ^ 8). rewrite <- Z.pow_mul_r by lia. done.
Qed.

(** A field of [n] bytes after a prefix of known length. *)
Lemma take_drop_app {A} (p m r : list A) n k :
  length p = k -> length m = n -> take n (drop k (p ++ m ++ r)) = m.
Proof. intros <- <-. rewrite drop_app_length. apply take_app_length. Qed.

Lemma inet_from_to port address :
  in_range 16 port -> in_range 32 address ->
  sock_address_to_bsd (AddrInet port address)
    = Some (le_bytes 2 AF_INET ++ be_bytes 2 port ++ be_bytes 4 address ++ replicate 8 0, sizeof_in) /\
  sock_address_from_bsd (le_bytes 2 AF_INET ++ be_bytes 2 port ++ be_bytes 4 address ++ replicate 8 0) sizeof_in
    = Some (AddrInet port address).
Proof.
  intros Hp Ha. split; [done|]. unfold sock_address_from_bsd.
  rewrite take_app_length' by (by rewrite length_le_bytes). cbn [of_le Z.eqb].
  change (of_le (le_bytes 2 AF_INET) =? AF_INET) with true. cbn [sizeof_in Z.ltb Z.compare Pos.compare Pos.compare_cont].
  rewrite (take_drop_app (le_bytes 2 AF_INET) (be_bytes 2 port)) by (by rewrite ?length_le_bytes, ?length_be).
  rewrite app_assoc, (take_drop_app _ (be_bytes 4 address))
    by (by rewrite ?length_app, ?length_le_bytes, ?length_be).
  by rewrite !of_be_bytes.
Qed.

Lemma in6_from_to port address :
  in_range 16 port -> length address = 16%nat ->
  sock_address_from_bsd (le_bytes 2 AF_INET6 ++ be_bytes 2 port ++ replicate 4 0 ++ address ++ replicate 4 0) sizeof_in6
    = Some (AddrIn6 port address).
Proof.
  intros Hp Ha. unfold sock_address_from_bsd.
  rewrite take_app_length' by (by rewrite length_le_bytes).
  change (of_le (le_bytes 2 AF_INET6) =? AF_INET) with false.
  change (of_le (le_bytes 2 AF_INET6) =? AF_INET6) with true. change (sizeof_in6 <? sizeof_in6) with false.
  cbn match.
  rewrite (take_drop_app (le_bytes 2 AF_INET6) (be_bytes 2 port)) by (by rewrite ?length_le_bytes, ?length_be).
  rewrite !app_assoc, <- (app_assoc _ address), (take_drop_app _ address)
    by (by rewrite ?length_app, ?length_le_bytes, ?length_be, ?length_replicate).
  by rewrite of_be_bytes.
Qed.

Lemma unix_from_to path size :
  0 ∉ path -> Z.of_nat (length path) < UNIX_PATH_MAX ->
  sock_address_from_bsd (le_bytes 2 AF_LOCAL ++ path ++ replicate (108 - length path) 0) size
    = if size <? sizeof_un then None else Some (AddrUnix true path).
Proof.
  intros Hp Hl. unfold UNIX_PATH_MAX in Hl. unfold sock_address_from_bsd.
  rewrite take_app_length' by (by rewrite length_le_bytes).
  change (of_le (le_bytes 2 AF_LOCAL) =? AF_INET) with false.
  change (of_le (le_bytes 2 AF_LOCAL) =? AF_INET6) with false.
  change (of_le (le_bytes 2 AF_LOCAL) =? AF_LOCAL) with true. cbn match.
  destruct (size <? sizeof_un); [done|].
  rewrite drop_app_length' by (by rewrite length_le_bytes).
  replace (108 - length path)%nat with (S (107 - length path)) by lia. cbn [replicate].
  change (Z.to_nat UNIX_PATH_MAX) with 107%nat.
  replace 107%nat with (length path + S (106 - length path))%nat at 1 by lia.
  rewrite take_app_add. cbn [take]. rewrite memchr_app by done. by rewrite c_string_app.
Qed.

(** ** Printing *)

(** What a buffer of [n] bytes holds after the characters [s] were printed: all
    of them if they fit with the final zero, or the first [n - 1]. *)
Record printed (o : outbuf) (s : list Z) : Prop := {
  pr_pos : pos o = Z.of_nat (Nat.min (length s) (length (out o)));
  pr_room : (0 < length (out o))%nat;
  pr_text : s <> [] -> exists r, out o = take (length (out o) - 1) s ++ 0 :: r
}.

Lemma put_Ok i c b : (i < length b)%nat -> put (Z.of_nat i) c b = Ok (<[i := c]> b).
Proof.
  intros Hi. unfold put. rewrite (proj2 (Z.leb_le _ _)), (proj2 (Z.ltb_lt _ _)) by lia.
  cbn. by rewrite Nat2Z.id.
Qed.

Lemma printed_text_pos o s :
  printed o s -> s <> [] -> (length s < length (out o))%nat -> exists r, out o = s ++ 0 :: r.
Proof. intros [_ _ Ht] Hs Hl. destruct (Ht Hs) as [r Hr]. exists r. by rewrite take_ge in Hr by lia. Qed.

Lemma format_char_printed c o s :
  in_range 8 c -> printed o s -> exists o', format_char c o = Ok o' /\ printed o' (s ++ [c]) /\
    length (out o') = length (out o).
Proof.
  intros Hc Hp. pose proof Hp as [Epos Hroom Htext]. unfold format_char. rewrite Epos.
  destruct (decide (length s < length (out o))%nat) as [Hl|Hl].
  - rewrite Nat.min_l by lia. rewrite (proj2 (Z.ltb_lt _ _)) by lia.
    assert (Hpre : take (length s) (out o) = s).
    { destruct (decide (s = [])) as [->|Hs]; [done|].
      destruct (printed_text_pos o s Hp Hs Hl) as [r ->]. apply take_app_length. }
    destruct (Z.eqb_spec (Z.of_nat (length s) + 1) (Z.of_nat (length (out o)))) as [E|E].
    + rewrite put_Ok by lia. mon. eexists. split; [done|]. cbn [out]. rewrite length_insert. split; [|done].
      split; cbn [pos out]; rewrite ?length_insert, ?length_app; cbn; [lia|done|].
      intros _. exists []. rewrite insert_take_drop by lia. rewrite Hpre.
      replace (length (out o) - 1)%nat with (length s) by lia. rewrite take_app_length.
      rewrite drop_ge by lia. done.
    + rewrite put_Ok by lia. mon.
      replace (Z.of_nat (length s) + 1) with (Z.of_nat (S (length s))) by lia.
      rewrite put_Ok by (rewrite length_insert; lia). mon. eexists. split; [done|]. cbn [out].
      rewrite !length_insert. split; [|done].
      split; cbn [pos out]; rewrite ?length_insert, ?length_app; cbn; [lia|done|].
      intros _. rewrite wrap_small by done. rewrite take_ge by (rewrite length_app; cbn; lia).
      rewrite insert_take_drop by (rewrite length_insert; lia).
      rewrite insert_take_drop by lia. rewrite Hpre.
      rewrite (cons_middle c), app_assoc, take_app_length' by (rewrite length_app; cbn; lia).
      eexists. reflexivity.
  - rewrite Nat.min_r by lia. rewrite Z.ltb_irrefl. exists o. split; [done|]. split; [|done].
    split; [rewrite length_app; cbn; lia|done|]. intros _.
    destruct Htext as [r Hr]; [intros ->; cbn in Hl; lia|]. exists r.
    rewrite take_app_le by lia. done.
Qed.

Lemma format_chars_printed l : forall o s,
  Forall (in_range 8) l -> printed o s ->
  exists o', format_chars l o = Ok o' /\ printed o' (s ++ l) /\ length (out o') = length (out o).
Proof.
  induction l as [|c l IH]; intros o s Hl Hp; cbn.
  - exists o. by rewrite app_nil_r.
  - apply Forall_cons in Hl as [Hc Hl]. destruct (format_char_printed c o s Hc Hp) as (o1 & -> & Hp1 & E1). mon.
    destruct (IH o1 _ Hl Hp1) as (o2 & -> & Hp2 & E2). exists o2. rewrite <- app_assoc in Hp2. split; [done|]. split; [done|congruence].
Qed.

(** *** Decimal numbers *)

(** The decimal notation of [n]: the number it denotes. *)
Definition of_dec (l : list Z) : Z := fold_left (fun a d => 10 * a + (d - 48)) l 0.

(** The characters [format_unsigned] prints. *)
Definition dec (val : Z) : list Z :=
  match digits 10 val with [] => [48] | l => reverse l end.

Lemma digits_bytes k v : Forall (fun d => 48 <= d <= 57) (digits k v).
Proof.
  revert v; induction k as [|k IH]; intros v; cbn; [done|]. destruct (v =? 0); [done|].
  constructor; [|apply IH]. pose proof (Z.mod_pos_bound v 10). lia.
Qed.

Lemma digits_value k v : 0 <= v < 10 ^ Z.of_nat k -> of_dec (reverse (digits k v)) = v.
Proof.
  unfold of_dec. revert v; induction k as [|k IH]; intros v Hv; cbn [digits].
  - cbn in *. lia.
  - destruct (Z.eqb_spec v 0) as [->|Hz]; [done|]. rewrite reverse_cons, fold_left_app. cbn [fold_left].
    rewrite Nat2Z.inj_succ, Z.pow_succ_r in Hv by lia.
    rewrite IH by (split; [apply Z.div_pos; lia|apply Z.div_lt_upper_bound; lia]).
    pose proof (Z.div_mod v 10). lia.
Qed.

Lemma dec_value v : in_range 32 v -> of_dec (dec v) = v.
Proof.
  intros [H0 H1]. unfold dec. pose proof (digits_value 10 v) as Hd.
  destruct (digits 10 v) as [|d l] eqn:E; [|by apply Hd; lia].
  specialize (Hd ltac:(lia)). by cbn in Hd.
Qed.

Lemma dec_bytes v : Forall (fun d => 48 <= d <= 57) (dec v).
Proof.
  unfold dec. pose proof (digits_bytes 10 v) as H. destruct (digits 10 v) as [|d l].
  - constructor; [lia|done].
  - by apply Forall_reverse.
Qed.

Lemma dec_nonempty v : dec v <> [].
Proof.
  unfold dec. destruct (digits 10 v) as [|d l]; [done|]. rewrite reverse_cons.
  by intros []%app_nil.
Qed.

Lemma format_unsigned_printed v o s :
  in_range 32 v -> printed o s ->
  exists o', format_unsigned v o = Ok o' /\ printed o' (s ++ dec v) /\ length (out o') = length (out o).
Proof.
  intros Hv Hp. unfold format_unsigned. rewrite wrap_small by done.
  replace (reverse _) with (dec v) by (unfold dec; by destruct (digits 10 v)).
  apply format_chars_printed; [|done]. eapply Forall_impl; [apply dec_bytes|].
  intros d Hd. unfold in_range. cbn in *. lia.
Qed.

(** *** Addresses *)

(** What is printed of an address. *)
Definition ip4_text (ip : Z) : list Z :=
  dec (Z.shiftr ip 24) ++ [46] ++ dec (Z.land (Z.shiftr ip 16) 255) ++ [46] ++
  dec (Z.land (Z.shiftr ip 8) 255) ++ [46] ++ dec (Z.land ip 255).
Definition hex_text (val : Z) (ndigits : nat) : list Z :=
  (fun k => hex_digit (Z.land (Z.shiftr (u32 val) (4 * Z.of_nat k)) 15)) <$> reverse (seq 0 (S ndigits)).
Fixpoint ip6_text (nn groups : nat) (ip6 : list Z) : list Z :=
  match groups with
  | O => []
  | S g =>
      let val := Z.lor (Z.shiftl (nth 0 ip6 0) 16) (nth 1 ip6 0) in
      (if (0 <? nn)%nat then [58] else []) ++ (if val =? 0 then [] else hex_text val 4) ++
      ip6_text (S nn) g (drop 2 ip6)
  end.
Definition addr_text (a : SockAddress) : list Z :=
  match a with
  | AddrInet port address => ip4_text address ++ [58] ++ dec port
  | AddrIn6 port address => ip6_text 0 8 address ++ [58] ++ dec port
  | AddrUnix _ path => path
  | AddrUnspec => []
  end.

(** Printing functions: [f] prints the text [t]. *)
Definition prints (f : outbuf -> res outbuf) (t : list Z) : Prop :=
  forall o s, printed o s -> exists o', f o = Ok o' /\ printed o' (s ++ t) /\ length (out o') = length (out o).

Lemma prints_bind f g t u : prints f t -> prints g u -> prints (fun o => o' ← f o; g o') (t ++ u).
Proof.
  intros Hf Hg o s Hp. destruct (Hf o s Hp) as (o1 & -> & Hp1 & E1). mon.
  destruct (Hg o1 _ Hp1) as (o2 & -> & Hp2 & E2). exists o2. rewrite <- app_assoc in Hp2.
  split; [done|]. split; [done|congruence].
Qed.

Lemma prints_char c : in_range 8 c -> prints (format_char c) [c].
Proof. intros Hc o s. by apply format_char_printed. Qed.

Lemma prints_unsigned v : in_range 32 v -> prints (format_unsigned v) (dec v).
Proof. intros Hv o s. by apply format_unsigned_printed. Qed.

Lemma land_255_range z : in_range 32 (Z.land z 255).
Proof.
  change 255 with (Z.ones 8). rewrite Z.land_ones by lia.
  pose proof (Z.mod_pos_bound z (2 ^ 8)). unfold in_range. lia.
Qed.

Lemma prints_ip4 ip : in_range 32 ip -> prints (format_ip4 ip) (ip4_text ip).
Proof.
  intros Hip. assert (H24 : in_range 32 (Z.shiftr ip 24)).
  { unfold in_range in *. rewrite Z.shiftr_div_pow2 by lia.
    split; [apply Z.div_pos; lia|apply Z.div_lt_upper_bound; lia]. }
  unfold format_ip4, ip4_text.
  repeat (apply prints_bind; [first [by apply prints_unsigned|by apply prints_char
    |apply prints_unsigned, land_255_range]|]).
  apply prints_unsigned, land_255_range.
Qed.

Lemma hex_digit_range d : 0 <= d < 16 -> 48 <= hex_digit d <= 102.
Proof. unfold hex_digit. destruct (Z.ltb_spec d 10); lia. Qed.

Lemma hex_text_range v n : Forall (fun c => 48 <= c <= 102) (hex_text v n).
Proof.
  unfold hex_text. apply Forall_fmap, Forall_true. intros k. cbn. apply hex_digit_range.
  change 15 with (Z.ones 4). rewrite Z.land_ones by lia. apply Z.mod_pos_bound. lia.
Qed.

Lemma prints_hex v n : prints (format_hex v n) (hex_text v n).
Proof.
  intros o s Hp. apply format_chars_printed; [|done].
  eapply Forall_impl; [apply hex_text_range|]. intros c Hc. unfold in_range. cbn in *. lia.
Qed.

Lemma prints_nil : prints (fun o => Ok o) [].
Proof. intros o s Hp. exists o. by rewrite app_nil_r. Qed.

Lemma prints_ip6 groups : forall nn ip6, prints (format_ip6_from nn groups ip6) (ip6_text nn groups ip6).
Proof.
  induction groups as [|g IH]; intros nn ip6; [apply prints_nil|]. cbn [format_ip6_from ip6_text].
  apply prints_bind; [destruct (0 <? nn)%nat; [by apply prints_char|apply prints_nil]|].
  apply prints_bind; [|apply IH]. destruct (_ =? 0); [apply prints_nil|apply prints_hex].
Qed.

(** Nothing printed is a zero byte. *)
Lemma dec_nozero v : 0 ∉ dec v.
Proof. intros H. pose proof (dec_bytes v) as Hd. rewrite Forall_forall in Hd. specialize (Hd 0 H). lia. Qed.

Lemma hex_nozero v n : 0 ∉ hex_text v n.
Proof. intros H. pose proof (hex_text_range v n) as Hd. rewrite Forall_forall in Hd. specialize (Hd 0 H). lia. Qed.

Lemma ip6_nozero groups : forall nn ip6, 0 ∉ ip6_text nn groups ip6.
Proof.
  induction groups as [|g IH]; intros nn ip6; cbn [ip6_text]; [set_solver|].
  rewrite !not_elem_of_app. split_and!; [by destruct (0 <? nn)%nat; set_solver| |apply IH].
  destruct (_ =? 0); [set_solver|apply hex_nozero].
Qed.

Lemma addr_text_nozero a : addr_ok a -> 0 ∉ addr_text a.
Proof.
  destruct a as [|port ip|port ip|o path]; cbn [addr_ok addr_text]; [set_solver| | |done];
    intros _; unfold ip4_text; rewrite !not_elem_of_app, ?list_elem_of_singleton;
    split_and!; try apply dec_nozero; try apply ip6_nozero; done.
Qed.

Lemma printed_c_string o s :
  printed o s -> s <> [] -> 0 ∉ s -> c_string (out o) = take (length (out o) - 1) s.
Proof.
  intros [_ _ Ht] Hs H0. destruct (Ht Hs) as [r Hr]. rewrite Hr at 1. apply c_string_app.
  intros (i & Hi & _)%elem_of_take. by apply list_elem_of_lookup_2 in Hi.
Qed.

Lemma dec_not_nil_app s v : s ++ dec v <> [].
Proof. intros [_ H]%app_nil. by apply (dec_nonempty v). Qed.

(** The fresh buffer of [sock_address_to_string]. *)
Lemma printed_start prev : (0 < length prev)%nat -> printed (mkOut prev 0) [].
Proof. intros H. by split. Qed.

Lemma format_str_spec path prev :
  0 ∉ path -> (0 < length prev)%nat ->
  exists o, format_str path (mkOut prev 0) = Ok o /\ length (out o) = length prev /\
    c_string (out o) = take (length prev - 1) path.
Proof.
  intros Hp Hr. unfold format_str. cbn [out pos]. rewrite Z.sub_0_r, Z.add_0_l.
  rewrite (proj2 (Z.ltb_ge (Z.min _ _) 0)) by lia. cbn [orb].
  rewrite <- Nat2Z.inj_min, Nat2Z.id. set (n := Nat.min (length path) (length prev)).
  change (0 <? 0) with false. cbn match. change (Z.to_nat 0) with 0%nat.
  assert (Hb : blit prev 0 (take n path) = take n path ++ drop n prev).
  { unfold blit. cbn [take app Nat.add]. rewrite length_take. by replace (Nat.min n (length path)) with n by lia. }
  assert (Hlen : length (take n path ++ drop n prev) = length prev).
  { rewrite length_app, length_take, length_drop. lia. }
  rewrite Hb. destruct (Z.eqb_spec (Z.of_nat n) (Z.of_nat (length prev))) as [E|E].
  - replace (Z.of_nat n - 1) with (Z.of_nat (n - 1)) by lia. rewrite put_Ok by lia. mon.
    eexists. split; [done|]. cbn [out]. rewrite length_insert. split; [done|].
    rewrite drop_ge, app_nil_r by lia. rewrite insert_take_drop by (rewrite length_take; lia).
    rewrite take_take, c_string_app.
    + f_equal. lia.
    + intros (i & Hi & _)%elem_of_take. by apply list_elem_of_lookup_2 in Hi.
  - rewrite put_Ok by lia. mon. eexists. split; [done|]. cbn [out]. rewrite length_insert. split; [done|].
    assert (n = length path) as En by lia. rewrite insert_take_drop by lia.
    rewrite take_app_length' by (rewrite length_take; lia). rewrite take_ge by lia.
    rewrite c_string_app by done. symmetry. apply take_ge. lia.
Qed.

Lemma Some_pair {A B} (x x' : A) (y y' : B) : Some (x, y) = Some (x', y') -> x = x' /\ y = y'.
Proof. by intros [= -> ->]. Qed.

(** ** The theorems *)

(** C23.  The conversion of an address to the host's structure and back: an
    Internet address comes back as it was; a Unix address never does with the
    length [sock_address_to_bsd] gives it, which [sock_address_from_bsd]
    rejects, although the bytes hold the path. *)
Theorem address_roundtrip a bytes size :
  addr_ok a -> sock_address_to_bsd a = Some (bytes, size) ->
  0 < size <= Z.of_nat (length bytes) /\
  match a with
  | AddrUnix _ path =>
      sock_address_from_bsd bytes size = None /\
      sock_address_from_bsd bytes sizeof_un = Some (AddrUnix true path)
  | _ => sock_address_from_bsd bytes size = Some a
  end.
Proof.
  destruct a as [|port ip|port ip|o path]; cbn [addr_ok]; intros Hok E.
  - done.
  - destruct Hok as [Hp Hi]. destruct (inet_from_to port ip Hp Hi) as [E1 E2].
    rewrite E1 in E. apply Some_pair in E as [<- <-]. split; [|done].
    rewrite !length_app, !length_be, length_le_bytes. done.
  - destruct Hok as [Hp Hi]. apply Some_pair in E as [<- <-]. split; [|by apply in6_from_to].
    rewrite !length_app, length_be, length_le_bytes, Hi. done.
  - unfold sock_address_to_bsd in E. destruct (Z.geb_spec (Z.of_nat (length path)) UNIX_PATH_MAX) as [|Hl]; [done|].
    apply Some_pair in E as [<- <-]. unfold UNIX_PATH_MAX in *. split.
    + rewrite !length_app, length_le_bytes, length_replicate. lia.
    + rewrite !unix_from_to by done. split; [|done].
      by rewrite (proj2 (Z.ltb_lt _ _)) by (unfold sizeof_un; lia).
Qed.

(** Printing an address stays within the static buffer, whatever it held
    before, and leaves there the C string of the address, cut at the size of
    the buffer; for an IPv4 address this is the dotted decimal notation of its
    four bytes and the port. *)
Theorem to_string_sound a prev :
  addr_ok a -> a <> AddrUnspec -> length prev = Z.to_nat MAX_PATH ->
  exists buf, sock_address_to_string a prev = Ok (Some buf) /\ length buf = length prev /\
    c_string buf = take (Z.to_nat MAX_PATH - 1) (addr_text a) /\
    match a with
    | AddrInet port ip =>
        exists a3 a2 a1 a0, ip = 2 ^ 24 * a3 + 2 ^ 16 * a2 + 2 ^ 8 * a1 + a0 /\
          (0 <= a2 < 256 /\ 0 <= a1 < 256 /\ 0 <= a0 < 256) /\
          addr_text a = dec a3 ++ [46] ++ dec a2 ++ [46] ++ dec a1 ++ [46] ++ dec a0 ++ [58] ++ dec port /\
          (of_dec (dec a3), of_dec (dec a2), of_dec (dec a1), of_dec (dec a0), of_dec (dec port)) = (a3, a2, a1, a0, port)
    | _ => True
    end.
Proof.
  intros Hok Hne Hl. assert (Hr : (0 < length prev)%nat) by (rewrite Hl; unfold MAX_PATH; lia).
  rewrite <- Hl. pose proof (addr_text_nozero a Hok) as Hz.
  assert (Hfin : forall f t port, in_range 16 port -> prints f t -> addr_text a = t ++ [58] ++ dec port ->
    exists buf, (o ← f (mkOut prev 0); o ← format_char 58 o; o ← format_unsigned port o; Ok (Some (out o)))
      = Ok (Some buf) /\ length buf = length prev /\ c_string buf = take (length prev - 1) (addr_text a)).
  { intros f t port Hport Hf Et.
    assert (Hp : prints (fun o => o ← f o; o ← format_char 58 o; format_unsigned port o) (t ++ [58] ++ dec port)).
    { apply prints_bind; [done|]. apply prints_bind; [by apply prints_char|]. apply prints_unsigned.
      unfold in_range in *. lia. }
    destruct (Hp _ _ (printed_start prev Hr)) as (o & E & Ho & El). cbn [app out] in Ho, El. rewrite Et in *.
    exists (out o). split_and!; [|done|].
    - inv_res. rewrite H. mon. rewrite H0. mon. by rewrite E.
    - rewrite <- El. apply printed_c_string; [done| |done]. rewrite app_assoc. apply dec_not_nil_app. }
  destruct a as [|port ip|port ip|o path]; cbn [addr_ok] in Hok; [done|..].
  - destruct Hok as [Hp Hi]. destruct (Hfin (format_ip4 ip) (ip4_text ip) port Hp (prints_ip4 ip Hi) eq_refl)
      as (buf & E & E1 & E2). exists buf. split_and!; try done.
    exists (Z.shiftr ip 24), (Z.land (Z.shiftr ip 16) 255), (Z.land (Z.shiftr ip 8) 255), (Z.land ip 255).
    assert (Hd : 0 <= Z.shiftr ip 24 < 256).
    { unfold in_range in Hi. rewrite Z.shiftr_div_pow2 by lia.
      split; [apply Z.div_pos; lia|apply Z.div_lt_upper_bound; lia]. }
    rewrite !dec_value; [|unfold in_range in *; lia|apply land_255_range..|unfold in_range in *; lia].
    change 255 with (Z.ones 8). rewrite !Z.land_ones, !Z.shiftr_div_pow2 by lia. unfold in_range in Hi.
    split; [|split; [|split; [|done]]].
    + change (2 ^ 8) with 256. change (2 ^ 16) with (256 * 256). change (2 ^ 24) with (256 * 256 * 256).
      rewrite <- !Z.div_div by lia.
      pose proof (Z.div_mod ip 256). pose proof (Z.div_mod (ip / 256) 256).
      pose proof (Z.div_mod (ip / 256 / 256) 256). lia.
    + split_and!; apply Z.mod_pos_bound; lia.
    + unfold addr_text, ip4_text. change 255 with (Z.ones 8). rewrite !Z.land_ones, !Z.shiftr_div_pow2 by lia.
      by rewrite <- !app_assoc.
  - destruct Hok as [Hp Hi].
    destruct (Hfin (format_ip6 ip) (ip6_text 0 8 ip) port Hp (prints_ip6 8 0 ip) eq_refl) as (buf & E & E1 & E2).
    by exists buf.
  - destruct (format_str_spec path prev Hok Hr) as (o' & E & E1 & E2). exists (out o').
    cbn [sock_address_to_string]. rewrite E. mon. done.
Qed.

(** The first address of a family in the answer of the resolver. *)
Definition first_of (family : Z) (l : list addrinfo) : option addrinfo :=
  snd <$> list_find (fun r => ai_family r = family) l.

Lemma first_of_cons family r l :
  first_of family (r :: l) = if ai_family r =? family then Some r else first_of family l.
Proof.
  unfold first_of. cbn. destruct (Z.eqb_spec (ai_family r) family).
  - by rewrite decide_True.
  - rewrite decide_False by done. by destruct (list_find _ l) as [[]|].
Qed.

(** The scan stops at the first address of the preferred family; if there is
    none, it has seen the first of the other. *)
Lemma resolve_scan_spec (b : bool) l : forall v4 v6 : option addrinfo,
  (if b then v6 else v4) = None ->
  let pref := if b then AF_INET6 else AF_INET in
  let other := if b then AF_INET else AF_INET6 in
  match first_of pref l with
  | Some r => (if b then snd else fst) (resolve_scan b l v4 v6) = Some r
  | None => resolve_scan b l v4 v6 =
      let o := match (if b then v4 else v6) with Some x => Some x | None => first_of other l end in
      if b then (o, None) else (None, o)
  end.
Proof.
  induction l as [|r l IH]; intros v4 v6 Hp; cbn zeta.
  - destruct b; cbn in *; subst; [by destruct v4|by destruct v6].
  - rewrite !first_of_cons. cbn [resolve_scan]. destruct b; cbn in Hp; subst; cbn [negb].
    + destruct (Z.eqb_spec (ai_family r) AF_INET6) as [E|E].
      * rewrite E. cbn. done.
      * rewrite !andb_false_l. destruct (Z.eqb_spec (ai_family r) AF_INET) as [E'|E']; cbn [andb].
        -- destruct v4 as [x|]; [apply (IH (Some x) None); done|]. cbn. exact (IH (Some r) None eq_refl).
        -- apply (IH v4 None); done.
    + destruct (Z.eqb_spec (ai_family r) AF_INET) as [E|E]; [done|]. rewrite !andb_false_l.
      destruct (Z.eqb_spec (ai_family r) AF_INET6) as [E'|E']; cbn [andb].
      * destruct v6 as [x|]; [apply (IH None (Some x)); done|]. cbn. exact (IH None (Some r) eq_refl).
      * apply (IH None v6); done.
Qed.

(** Resolving a host name: the address is the first one of the preferred
    family in the resolver's answer, or else the first of the other family,
    with the port asked for; an answer without Internet address is [ENOENT]. *)
Theorem resolve_prefers l port preferIn6 :
  let pref := if (preferIn6 : bool) then AF_INET6 else AF_INET in
  let other := if preferIn6 then AF_INET else AF_INET6 in
  sock_address_init_resolve (GaiOk l) port preferIn6 =
  match match first_of pref l with Some r => Some r | None => first_of other l end with
  | None => inr ENOENT
  | Some r => match sock_address_from_bsd (ai_addr r) (ai_addrlen r) with
              | None => inr EINVAL
              | Some a => inl (sock_address_set_port a port)
              end
  end.
Proof.
  cbn zeta. unfold sock_address_init_resolve.
  pose proof (resolve_scan_spec preferIn6 l None None ltac:(by destruct preferIn6)) as H. cbn zeta in H.
  destruct (resolve_scan preferIn6 l None None) as [v4 v6].
  destruct preferIn6; cbn in H.
  - destruct (first_of AF_INET6 l); [by subst|]. injection H as -> ->. done.
  - destruct (first_of AF_INET l); [by subst|]. injection H as -> ->. done.
Qed.

(** ** Concrete instances *)

Lemma address_roundtrip_witness :
  0 < 7 <= 110 /\
  (sock_address_from_bsd (le_bytes 2 AF_LOCAL ++ [47; 116; 109; 112] ++ replicate 104 0) 7 = None /\
   sock_address_from_bsd (le_bytes 2 AF_LOCAL ++ [47; 116; 109; 112] ++ replicate 104 0) sizeof_un
     = Some (AddrUnix true [47; 116; 109; 112])).
Proof.
  apply (address_roundtrip (AddrUnix true [47; 116; 109; 112])
    (le_bytes 2 AF_LOCAL ++ [47; 116; 109; 112] ++ replicate 104 0) 7); [|reflexivity].
  cbn. rewrite !not_elem_of_cons. split_and!; (lia || apply not_elem_of_nil).
Defined.

Lemma to_string_sound_witness :
  exists buf, sock_address_to_string (AddrInet 22468 0x7f000001) (replicate 4096 0) = Ok (Some buf) /\
    length buf = length (replicate 4096 0) /\
    c_string buf = take (Z.to_nat MAX_PATH - 1) (addr_text (AddrInet 22468 0x7f000001)) /\
    exists a3 a2 a1 a0, 0x7f000001 = 2 ^ 24 * a3 + 2 ^ 16 * a2 + 2 ^ 8 * a1 + a0 /\
      (0 <= a2 < 256 /\ 0 <= a1 < 256 /\ 0 <= a0 < 256) /\
      addr_text (AddrInet 22468 0x7f000001)
        = dec a3 ++ [46] ++ dec a2 ++ [46] ++ dec a1 ++ [46] ++ dec a0 ++ [58] ++ dec 22468 /\
      (of_dec (dec a3), of_dec (dec a2), of_dec (dec a1), of_dec (dec a0), of_dec (dec 22468))
        = (a3, a2, a1, a0, 22468).
Proof.
  apply (to_string_sound (AddrInet 22468 0x7f000001) (replicate 4096 0)); [|done|].
  - unfold addr_ok, in_range. lia.
  - rewrite length_replicate. reflexivity.
Defined.
