(* ===== verification/SocketCalls.v ===== *)
(** * Socket calls ([android/sockets.c])

    The wrappers of the host's socket interface.  The host is a parameter: a
    type [O] of its states and what a system call does to them (class [Host]),
    with what it documents about its calls in [HostLaws]. *)

From S2P Require Import Prelude SockAddr.

(** ** The host *)

Inductive syscall : Type :=
| SysSocket (domain type : Z)
| SysConnect (fd : Z) (addr : list Z)
| SysBind (fd : Z) (addr : list Z)
| SysListen (fd backlog : Z)
| SysAccept (fd : Z)
| SysSend (fd : Z) (data : list Z) (flags : Z)
| SysSendto (fd : Z) (data addr : list Z)
| SysRecv (fd len : Z)
| SysRecvfrom (fd len : Z)
| SysGetsockname (fd : Z)
| SysGetpeername (fd : Z)
| SysGetsockopt (fd level option : Z)
| SysSetsockopt (fd level option : Z) (value : list Z)
| SysFcntlGet (fd : Z)
| SysFcntlSet (fd flags : Z)
| SysFionread (fd : Z)
| SysShutdown (fd : Z)
| SysClose (fd : Z)
| SysUnlink (path : list Z)
| SysSocketpair.

(** What a call returns: its value, [errno] when that is negative, the bytes it
    stored for its caller, the address it stored. *)
Record sysres : Type := mkRes { ret : Z; err : Z; data : list Z; addr : list Z }.

(** [signals o] bounds the number of calls that a signal will interrupt. *)
Class Host (O : Type) : Type := {
  sys : syscall -> O -> sysres * O;
  signals : O -> nat
}.

Section calls.
Context {O : Type} `{Host O}.

(** [errno] and the host. *)
Record sock : Type := mkSock { errno : Z; os : O }.

Definition EINPROGRESS := 115.
Definition SOL_SOCKET := 1.
Definition SO_REUSEADDR := 2.
Definition SO_TYPE := 3.
Definition SO_ERROR := 4.
Definition SO_OOBINLINE := 10.
Definition IPPROTO_IP := 0.
Definition IPPROTO_TCP := 6.
Definition IPPROTO_IPV6 := 41.
Definition TCP_NODELAY := 1.
Definition TCP_CORK := 3.
Definition IPV6_V6ONLY := 26.
Definition IP_MULTICAST_TTL := 33.
Definition IP_MULTICAST_LOOP := 34.
Definition IP_ADD_MEMBERSHIP := 35.
Definition IP_DROP_MEMBERSHIP := 36.
Definition MSG_OOB := 1.
Definition O_NONBLOCK := 2048.

(** One system call: [errno] changes only when it fails. *)
Definition call (c : syscall) (s : sock) : sysres * sock :=
  let '(r, o) := sys c (os s) in
  (r, mkSock (if ret r <? 0 then err r else errno s) o).

(** [HANDLE_EINTR(x)]: the call again while a signal interrupts it *)
Fixpoint handle_eintr (fuel : nat) (c : syscall) (s : sock) : res (sysres * sock) :=
  match fuel with
  | 0%nat => Fault OutOfFuel
  | S fuel' =>
      let '(r, s') := call c s in
      if (ret r <? 0) && (errno s' =? EINTR) then handle_eintr fuel' c s' else Ok (r, s')
  end.
Definition HANDLE_EINTR (c : syscall) (s : sock) : res (sysres * sock) :=
  handle_eintr (S (signals (os s))) c s.

(** [QSOCKET_CALL(_ret, _cmd)] *)
Definition QSOCKET_CALL (c : syscall) (s : sock) : res (sysres * sock) :=
  HANDLE_EINTR c (mkSock 0 (os s)).

(** [set_errno(code)] and [fix_errno()] *)
Definition set_errno (code : Z) (s : sock) : Z * sock := (-1, mkSock code (os s)).
Definition fix_errno (s : sock) : Z * sock := (-1, s).

(** [SOCKET_CALL(cmd)] *)
Definition SOCKET_CALL (c : syscall) (s : sock) : res (Z * sock) :=
  '(r, s) ← QSOCKET_CALL c s;
  if ret r <? 0 then Ok (fix_errno s) else Ok (ret r, s).

(** [SocketType] has no negative value: the test on [stype] never holds. *)
Definition socket_create (family : SocketFamily) (type : SocketType) (s : sock) : res (Z * sock) :=
  let sfamily := socket_family_to_bsd family in
  let stype := socket_type_to_bsd type in
  if (sfamily <? 0) || (stype <? 0) then Ok (set_errno EINVAL s)
  else
    '(r, s) ← QSOCKET_CALL (SysSocket sfamily stype) s;
    if ret r <? 0 then Ok (fix_errno s) else Ok (ret r, s).

Definition socket_create_inet (type : SocketType) (s : sock) : res (Z * sock) := socket_create SOCKET_INET type s.
Definition socket_create_in6 (type : SocketType) (s : sock) : res (Z * sock) := socket_create SOCKET_IN6 type s.
Definition socket_create_unix (type : SocketType) (s : sock) : res (Z * sock) := socket_create SOCKET_UNIX type s.

(** [int socket_can_read(fd)] *)
Definition socket_can_read (fd : Z) (s : sock) : Z * sock :=
  let '(r, s) := call (SysFionread fd) s in
  if ret r <? 0 then (0, s) else (of_le (data r), s).

Definition socket_send (fd : Z) (buf : list Z) (s : sock) : res (Z * sock) := SOCKET_CALL (SysSend fd buf 0) s.
Definition socket_send_oob (fd : Z) (buf : list Z) (s : sock) : res (Z * sock) := SOCKET_CALL (SysSend fd buf MSG_OOB) s.

Definition socket_sendto (fd : Z) (buf : list Z) (to : SockAddress) (s : sock) : res (Z * sock) :=
  match sock_address_to_bsd to with
  | None => Ok (match to with AddrUnspec => set_errno EINVAL s | _ => (-1, s) end)
  | Some (sa, salen) => SOCKET_CALL (SysSendto fd buf (take (Z.to_nat salen) sa)) s
  end.

(** [int socket_recv(fd, buf, len)] with the bytes stored in [buf] *)
Definition socket_recv (fd len : Z) (s : sock) : res (Z * list Z * sock) :=
  '(r, s) ← QSOCKET_CALL (SysRecv fd len) s;
  if ret r <? 0 then Ok (-1, [], s) else Ok (ret r, data r, s).

(** The address a call stored: its length is that of the bytes. *)
Definition stored_address (r : sysres) : option SockAddress :=
  sock_address_from_bsd (addr r) (Z.of_nat (length (addr r))).

Definition socket_recvfrom (fd len : Z) (s : sock) : res (Z * list Z * option SockAddress * sock) :=
  '(r, s) ← QSOCKET_CALL (SysRecvfrom fd len) s;
  if ret r <? 0 then Ok (-1, [], None, s)
  else match stored_address r with
       | None => Ok (-1, data r, None, mkSock EINVAL (os s))
       | Some from => Ok (ret r, data r, Some from, s)
       end.

Definition socket_connect1 (fd : Z) (address : SockAddress) (s : sock) : res (Z * sock) :=
  match sock_address_to_bsd address with
  | None => Ok (match address with AddrUnspec => set_errno EINVAL s | _ => (-1, s) end)
  | Some (sa, salen) => SOCKET_CALL (SysConnect fd (take (Z.to_nat salen) sa)) s
  end.

Definition socket_bind (fd : Z) (address : SockAddress) (s : sock) : res (Z * sock) :=
  match sock_address_to_bsd address with
  | None => Ok (match address with AddrUnspec => set_errno EINVAL s | _ => (-1, s) end)
  | Some (sa, salen) => SOCKET_CALL (SysBind fd (take (Z.to_nat salen) sa)) s
  end.

(** [socket_get_address(fd, address)] and [socket_get_peer_address] *)
Definition address_call (c : syscall) (s : sock) : res (Z * option SockAddress * sock) :=
  '(r, s) ← QSOCKET_CALL c s;
  if ret r <? 0 then Ok (-1, None, s)
  else match stored_address r with
       | None => Ok (-1, None, mkSock EINVAL (os s))
       | Some a => Ok (0, Some a, s)
       end.
Definition socket_get_address (fd : Z) (s : sock) := address_call (SysGetsockname fd) s.
Definition socket_get_peer_address (fd : Z) (s : sock) := address_call (SysGetpeername fd) s.

Definition socket_listen1 (fd backlog : Z) (s : sock) : res (Z * sock) := SOCKET_CALL (SysListen fd backlog) s.

(** [void socket_close(fd)] *)
Definition socket_close (fd : Z) (s : sock) : sock :=
  let old_errno := errno s in
  let '(_, s) := call (SysShutdown fd) s in
  let '(_, s) := call (SysClose fd) s in
  mkSock old_errno (os s).

(** [int socket_accept(fd, address)]: [want] says whether [address] is given *)
Definition socket_accept (fd : Z) (want : bool) (s : sock) : res (Z * option SockAddress * sock) :=
  '(r, s) ← QSOCKET_CALL (SysAccept fd) s;
  if ret r <? 0 then Ok (-1, None, s)
  else if want then
    match stored_address r with
    | None => Ok (-1, None, socket_close (ret r) (mkSock EINVAL (os s)))
    | Some a => Ok (ret r, Some a, s)
    end
  else Ok (ret r, None, s).

(** [int socket_getoption(fd, domain, option, defaut)] *)
Definition socket_getoption (fd domain option defaut : Z) (s : sock) : res (Z * sock) :=
  '(r, s) ← HANDLE_EINTR (SysGetsockopt fd domain option) s;
  if ret r =? 0 then Ok (s32 (of_le (data r)), s) else Ok (defaut, s).

Definition socket_get_type (fd : Z) (s : sock) : res (SocketType * sock) :=
  '(t, s) ← socket_getoption fd SOL_SOCKET SO_TYPE (-1) s; Ok (socket_type_from_bsd t, s).
Definition socket_get_error (fd : Z) (s : sock) : res (Z * sock) :=
  socket_getoption fd SOL_SOCKET SO_ERROR (-1) s.

Definition socket_set_nonblock (fd : Z) (s : sock) : Z * sock :=
  let '(f, s) := call (SysFcntlGet fd) s in
  let '(r, s) := call (SysFcntlSet fd (Z.lor (ret f) O_NONBLOCK)) s in (ret r, s).
Definition socket_set_blocking (fd : Z) (s : sock) : Z * sock :=
  let '(f, s) := call (SysFcntlGet fd) s in
  let '(r, s) := call (SysFcntlSet fd (Z.ldiff (ret f) O_NONBLOCK)) s in (ret r, s).

(** [int socket_setoption(fd, domain, option, flag)] and its uses *)
Definition socket_setoption (fd domain option flag : Z) (s : sock) : Z * sock :=
  let '(r, s) := call (SysSetsockopt fd domain option (le_bytes 4 (u32 flag))) s in (ret r, s).
Definition socket_set_xreuseaddr (fd : Z) (s : sock) := socket_setoption fd SOL_SOCKET SO_REUSEADDR 1 s.
Definition socket_set_oobinline (fd : Z) (s : sock) := socket_setoption fd SOL_SOCKET SO_OOBINLINE 1 s.
Definition socket_set_cork1 (fd v : Z) (s : sock) := socket_setoption fd IPPROTO_TCP TCP_CORK v s.
Definition socket_set_nodelay1 (fd : Z) (s : sock) := socket_setoption fd IPPROTO_TCP TCP_NODELAY 1 s.
Definition socket_set_ipv6only (fd : Z) (s : sock) := socket_setoption fd IPPROTO_IPV6 IPV6_V6ONLY 1 s.
Definition socket_mcast_inet_set_loop (fd enabled : Z) (s : sock) :=
  socket_setoption fd IPPROTO_IP IP_MULTICAST_LOOP (if enabled =? 0 then 0 else 1) s.
Definition socket_mcast_inet_set_ttl (fd ttl : Z) (s : sock) :=
  socket_setoption fd IPPROTO_IP IP_MULTICAST_TTL ttl s.

(** [socket_mcast_inet_add_membership(s, ip)], [..._drop_membership]: the
    [struct ip_mreq] is in network order *)
Definition mcast_call (option fd ip : Z) (s : sock) : Z * sock :=
  let '(r, s) := call (SysSetsockopt fd IPPROTO_IP option (be_bytes 4 ip ++ be_bytes 4 0)) s in
  if ret r <? 0 then fix_errno s else (0, s).
Definition socket_mcast_inet_add_membership (fd ip : Z) (s : sock) := mcast_call IP_ADD_MEMBERSHIP fd ip s.
Definition socket_mcast_inet_drop_membership (fd ip : Z) (s : sock) := mcast_call IP_DROP_MEMBERSHIP fd ip s.

(** [int socket_bind_server(s, to, type)] *)
Definition socket_bind_server (fd : Z) (to : SockAddress) (type : SocketType) (s : sock) : res (Z * sock) :=
  let '(_, s) := socket_set_xreuseaddr fd s in
  '(r, s) ← socket_bind fd to s;
  if r <? 0 then Ok (-1, socket_close fd s)
  else match type with
       | SOCKET_STREAM =>
           '(r, s) ← socket_listen1 fd 4 s;
           if r <? 0 then Ok (-1, socket_close fd s) else Ok (fd, s)
       | _ => Ok (fd, s)
       end.

(** [int socket_connect_client(s, to)] *)
Definition socket_connect_client (fd : Z) (to : SockAddress) (s : sock) : res (Z * sock) :=
  '(r, s) ← socket_connect1 fd to s;
  if r <? 0 then Ok (-1, socket_close fd s)
  else let '(_, s) := socket_set_nonblock fd s in Ok (fd, s).

Definition socket_in_server (address port : Z) (type : SocketType) (s : sock) : res (Z * sock) :=
  '(fd, s) ← socket_create_inet type s;
  if fd <? 0 then Ok (-1, s) else socket_bind_server fd (sock_address_init_inet address port) type s.
Definition socket_in_client (to : SockAddress) (type : SocketType) (s : sock) : res (Z * sock) :=
  '(fd, s) ← socket_create_inet type s;
  if fd <? 0 then Ok (-1, s) else socket_connect_client fd to s.
Definition socket_loopback_server (port : Z) (type : SocketType) (s : sock) :=
  socket_in_server SOCK_ADDRESS_INET_LOOPBACK port type s.
Definition socket_anyaddr_server (port : Z) (type : SocketType) (s : sock) :=
  socket_in_server SOCK_ADDRESS_INET_ANY port type s.
Definition socket_loopback_client (port : Z) (type : SocketType) (s : sock) :=
  socket_in_client (sock_address_init_inet SOCK_ADDRESS_INET_LOOPBACK port) type s.
(** [answer] is what the resolver says of the host *)
Definition socket_network_client (answer : gai) (port : Z) (type : SocketType) (s : sock) : res (Z * sock) :=
  match sock_address_init_resolve answer port false with
  | inr e => Ok (set_errno e s)
  | inl a => socket_in_client a type s
  end.

(** [int socket_accept_any(server_fd)] *)
Definition socket_accept_any (server_fd : Z) (s : sock) : res (Z * sock) :=
  '(r, s) ← QSOCKET_CALL (SysAccept server_fd) s;
  if ret r <? 0 then Ok (-1, s)
  else let '(_, s) := socket_set_nonblock (ret r) s in Ok (ret r, s).

(** [int socket_unix_server(name, type)], [int socket_unix_client(name, type)] *)
Definition socket_unix_server (name : list Z) (type : SocketType) (s : sock) : res (Z * sock) :=
  '(fd, s) ← socket_create_unix type s;
  if fd <? 0 then Ok (-1, s)
  else
    '(_, s) ← HANDLE_EINTR (SysUnlink name) s;
    socket_bind_server fd (sock_address_init_unix (Some name)) type s.
Definition socket_unix_client (name : list Z) (type : SocketType) (s : sock) : res (Z * sock) :=
  '(fd, s) ← socket_create_unix type s;
  if fd <? 0 then Ok (-1, s)
  else socket_connect_client fd (sock_address_init_unix (Some name)) s.

(** [int socket_pair(fd1, fd2)]: the two descriptors the host stored *)
Definition socket_pair (s : sock) : Z * Z * Z * sock :=
  let '(r, s) := call SysSocketpair s in
  if ret r =? 0 then
    let fd1 := of_le (take 4 (data r)) in
    let fd2 := of_le (take 4 (drop 4 (data r))) in
    let '(_, s) := socket_set_nonblock fd1 s in
    let '(_, s) := socket_set_nonblock fd2 s in
    (ret r, fd1, fd2, s)
  else (ret r, 0, 0, s).
End calls.
Arguments sock : clear implicits.
Arguments mkSock {O}.
Arguments errno {O}.
Arguments os {O}.
