(* ===== verification/SocketCallsProofs.v ===== *)
(** * Socket calls: they end, and leak no descriptor *)

From S2P Require Import Prelude SockAddr SocketCalls.

(** What the manual pages of the calls say: an interrupted call has used up a
    signal; [socket] and [accept] return a descriptor that was not open,
    [close] releases its argument, no other call used here changes the set of
    open descriptors; [send] and [recv] count bytes of their buffer. *)
Definition fds_after (c : syscall) (r : sysres) (fds : gset Z) : gset Z :=
  match c with
  | SysSocket _ _ | SysAccept _ => if ret r <? 0 then fds else {[ret r]} ∪ fds
  | SysClose fd => fds ∖ {[fd]}
  | SysSocketpair =>
      if ret r =? 0 then {[of_le (take 4 (data r)); of_le (take 4 (drop 4 (data r)))]} ∪ fds else fds
  | _ => fds
  end.

Class HostLaws (O : Type) `{Host O} (open_fds : O -> gset Z) : Prop := {
  law_eintr : forall c o r o', sys c o = (r, o') -> ret r < 0 -> err r = EINTR -> (signals o' < signals o)%nat;
  law_fds : forall c o r o', sys c o = (r, o') -> open_fds o' = fds_after c r (open_fds o);
  law_fresh : forall c o r o', sys c o = (r, o') ->
    (exists a b, c = SysSocket a b) \/ (exists a, c = SysAccept a) -> 0 <= ret r -> ret r ∉ open_fds o;
  law_sent : forall fd b f o r o', sys (SysSend fd b f) o = (r, o') -> -1 <= ret r <= Z.of_nat (length b);
  law_received : forall fd n o r o', sys (SysRecv fd n) o = (r, o') ->
    -1 <= ret r <= Z.max 0 n /\ (0 <= ret r -> ret r = Z.of_nat (length (data r)))
}.

Section laws.
Context {O : Type} `{HO : Host O} {open_fds : O -> gset Z} `{!HostLaws O open_fds}.
Implicit Type s : sock O.

Local Abbreviation fds := (fun s => open_fds (os s)).

(** One call, and the call repeated while signals interrupt it. *)
Lemma call_fds c s r s' : call c s = (r, s') -> fds s' = fds_after c r (fds s).
Proof.
  unfold call. destruct (sys c (os s)) as [r0 o] eqn:E. intros [= <- <-]. by apply (law_fds _ _ _ _ E).
Qed.

(** What is known of the call that ended the loop. *)
Definition ended (c : syscall) (s : sock O) (r : sysres) (s' : sock O) : Prop :=
  exists s0, fds s0 = fds s /\ call c s0 = (r, s') /\ (ret r < 0 -> errno s' <> EINTR).

Lemma fds_interrupted c r (F : gset Z) :
  ret r < 0 -> (forall fd, c <> SysClose fd) -> fds_after c r F = F.
Proof.
  intros Hr Hc. destruct c; cbn; try done; rewrite ?(proj2 (Z.ltb_lt _ _) Hr); try done.
  - by destruct (Hc fd).
  - destruct (Z.eqb_spec (ret r) 0); [lia|done].
Qed.

Lemma handle_eintr_ends c : (forall fd, c <> SysClose fd) -> forall fuel s,
  (signals (os s) < fuel)%nat -> exists r s', handle_eintr fuel c s = Ok (r, s') /\ ended c s r s'.
Proof.
  intros Hc. induction fuel as [|fuel IH]; intros s Hf; [lia|]. cbn [handle_eintr].
  destruct (call c s) as [r s1] eqn:E. destruct ((ret r <? 0) && (errno s1 =? EINTR)) eqn:Eb.
  - apply andb_true_iff in Eb as [Hr He]. apply Z.ltb_lt in Hr. apply Z.eqb_eq in He.
    assert (Hs : (signals (os s1) < signals (os s))%nat /\ fds s1 = fds s).
    { split; [|rewrite (call_fds _ _ _ _ E); by apply fds_interrupted].
      unfold call in E. destruct (sys c (os s)) as [r0 o] eqn:Es. injection E as <- <-. cbn in *.
      rewrite (proj2 (Z.ltb_lt _ _) Hr) in He. by apply (law_eintr _ _ _ _ Es). }
    destruct (IH s1 ltac:(lia)) as (r' & s' & E' & s0 & H1 & H2 & H3). exists r', s'. split; [done|].
    exists s0. split; [|done]. rewrite H1. apply Hs.
  - exists r, s1. split; [done|]. exists s. split; [done|]. split; [done|]. intros Hr He.
    rewrite (proj2 (Z.ltb_lt _ _) Hr), (proj2 (Z.eqb_eq _ _) He) in Eb. done.
Qed.

Lemma HANDLE_EINTR_ends c s : (forall fd, c <> SysClose fd) ->
  exists r s', HANDLE_EINTR c s = Ok (r, s') /\ ended c s r s'.
Proof. intros Hc. apply handle_eintr_ends; [done|lia]. Qed.

Lemma QSOCKET_CALL_ends c s : (forall fd, c <> SysClose fd) ->
  exists r s', QSOCKET_CALL c s = Ok (r, s') /\ ended c s r s'.
Proof. intros Hc. destruct (HANDLE_EINTR_ends c (mkSock 0 (os s)) Hc) as (r & s' & E & He). eauto. Qed.

Lemma ended_fds c s r s' : ended c s r s' -> fds s' = fds_after c r (fds s).
Proof. intros (s0 & E0 & Ec & _). by rewrite (call_fds _ _ _ _ Ec), E0. Qed.

Lemma ended_fresh c s r s' :
  ended c s r s' -> (exists a b, c = SysSocket a b) \/ (exists a, c = SysAccept a) -> 0 <= ret r -> ret r ∉ fds s.
Proof.
  intros (s0 & E0 & Ec & _) Hc Hr. unfold call in Ec. destruct (sys c (os s0)) as [r0 o] eqn:E.
  injection Ec as <- <-. rewrite <- E0. by eapply law_fresh.
Qed.

(** ** Descriptors *)

(** A function that returns a new descriptor or an error: [-1] and nothing is
    left open, or a descriptor that was not open before and now is. *)
Definition opens (s : sock O) (r : Z) (s' : sock O) : Prop :=
  r = -1 /\ fds s' = fds s \/ 0 <= r /\ (r ∉ fds s) /\ fds s' = {[r]} ∪ fds s.

(** A call that keeps the descriptors: an error or a result that is not
    negative. *)
Lemma SOCKET_CALL_keeps c s :
  (forall r F, fds_after c r F = F) ->
  exists r s', SOCKET_CALL c s = Ok (r, s') /\ fds s' = fds s /\ (r = -1 \/ 0 <= r).
Proof.
  intros Hk. assert (Hc : forall fd, c <> SysClose fd).
  { intros fd ->. specialize (Hk (mkRes 0 0 [] []) {[fd]}). cbn in Hk. set_solver. }
  unfold SOCKET_CALL. destruct (QSOCKET_CALL_ends c s Hc) as (r & s' & -> & He). mon.
  apply ended_fds in He. rewrite Hk in He. destruct (Z.ltb_spec (ret r) 0); eexists _, _; eauto.
Qed.

Lemma create_opens family type s :
  exists r s', socket_create family type s = Ok (r, s') /\ opens s r s'.
Proof.
  unfold socket_create. destruct (_ || _).
  { eexists _, _. split; [done|]. by left. }
  destruct (QSOCKET_CALL_ends (SysSocket (socket_family_to_bsd family) (socket_type_to_bsd type)) s ltac:(done))
    as (r & s' & -> & He). mon.
  pose proof (ended_fds _ _ _ _ He) as Hf. cbn in Hf. destruct (Z.ltb_spec (ret r) 0).
  - eexists _, _. split; [done|]. by left.
  - eexists _, _. split; [done|]. right. split; [lia|]. split; [|done]. eapply ended_fresh; eauto.
Qed.

Lemma setoption_keeps fd d o v s r s' : socket_setoption fd d o v s = (r, s') -> fds s' = fds s.
Proof.
  unfold socket_setoption. destruct (call _ s) as [r0 s0] eqn:E. intros [= _ <-].
  by rewrite (call_fds _ _ _ _ E).
Qed.

Lemma nonblock_keeps fd s r s' : socket_set_nonblock fd s = (r, s') -> fds s' = fds s.
Proof.
  unfold socket_set_nonblock. destruct (call _ s) as [r0 s0] eqn:E.
  destruct (call (SysFcntlSet _ _) s0) as [r1 s1] eqn:E1. intros [= _ <-].
  by rewrite (call_fds _ _ _ _ E1), (call_fds _ _ _ _ E).
Qed.

Lemma close_closes fd s : fds (socket_close fd s) = fds s ∖ {[fd]} /\ errno (socket_close fd s) = errno s.
Proof.
  unfold socket_close. destruct (call (SysShutdown fd) s) as [r0 s0] eqn:E.
  destruct (call (SysClose fd) s0) as [r1 s1] eqn:E1. cbn. split; [|done].
  by rewrite (call_fds _ _ _ _ E1), (call_fds _ _ _ _ E).
Qed.

Lemma address_keeps c to (f : Z -> SockAddress -> sock O -> res (Z * sock O)) fd s :
  (forall fd a s, f fd a s = match sock_address_to_bsd a with
     | None => Ok (match a with AddrUnspec => set_errno EINVAL s | _ => (-1, s) end)
     | Some (sa, salen) => SOCKET_CALL (c fd (take (Z.to_nat salen) sa)) s
     end) ->
  (forall fd a r F, fds_after (c fd a) r F = F) ->
  exists r s', f fd to s = Ok (r, s') /\ fds s' = fds s /\ (r = -1 \/ 0 <= r).
Proof.
  intros Ef Hk. rewrite Ef. destruct (sock_address_to_bsd to) as [[sa n]|].
  - by apply SOCKET_CALL_keeps.
  - destruct to; eexists _, _; (split; [done|]); auto.
Qed.

Lemma bind_keeps fd to s :
  exists r s', socket_bind fd to s = Ok (r, s') /\ fds s' = fds s /\ (r = -1 \/ 0 <= r).
Proof. by apply (address_keeps SysBind). Qed.

Lemma connect_keeps fd to s :
  exists r s', socket_connect1 fd to s = Ok (r, s') /\ fds s' = fds s /\ (r = -1 \/ 0 <= r).
Proof. by apply (address_keeps SysConnect). Qed.

(** The second half of the creation functions, on the descriptor just opened. *)
Lemma bind_server_opens s0 fd to type s :
  0 <= fd -> fd ∉ fds s0 -> fds s = {[fd]} ∪ fds s0 ->
  exists r s', socket_bind_server fd to type s = Ok (r, s') /\ opens s0 r s'.
Proof.
  intros Hfd Hn Hf. unfold socket_bind_server, socket_set_xreuseaddr.
  destruct (socket_setoption _ _ _ _ s) as [r1 s1] eqn:E1. apply setoption_keeps in E1.
  destruct (bind_keeps fd to s1) as (r2 & s2 & -> & E2 & Hr2). mon.
  assert (Hcl : forall s, fds s = {[fd]} ∪ fds s0 -> opens s0 (-1) (socket_close fd s)).
  { intros t Ht. left. split; [done|]. rewrite (proj1 (close_closes fd t)), Ht. set_solver. }
  assert (Hok : forall s, fds s = {[fd]} ∪ fds s0 -> opens s0 fd s) by (intros t Ht; by right).
  destruct (r2 <? 0); [eexists _, _; split; [done|]; apply Hcl; congruence|].
  destruct type; try (eexists _, _; split; [done|]; apply Hok; congruence).
  destruct (SOCKET_CALL_keeps (SysListen fd 4) s2 ltac:(done)) as (r3 & s3 & E3 & Ef3 & _).
  unfold socket_listen1. rewrite E3. mon.
  destruct (r3 <? 0); eexists _, _; (split; [done|]); [apply Hcl|apply Hok]; congruence.
Qed.

Lemma connect_client_opens s0 fd to s :
  0 <= fd -> fd ∉ fds s0 -> fds s = {[fd]} ∪ fds s0 ->
  exists r s', socket_connect_client fd to s = Ok (r, s') /\ opens s0 r s'.
Proof.
  intros Hfd Hn Hf. unfold socket_connect_client.
  destruct (connect_keeps fd to s) as (r2 & s2 & -> & E2 & Hr2). mon. destruct (r2 <? 0).
  - eexists _, _. split; [done|]. left. split; [done|]. rewrite (proj1 (close_closes fd s2)), E2, Hf. set_solver.
  - destruct (socket_set_nonblock fd s2) as [r3 s3] eqn:E3. apply nonblock_keeps in E3.
    eexists _, _. split; [done|]. right. split_and!; [done|done|congruence].
Qed.

(** The functions of the module that hand out a descriptor. *)
Inductive opener : Type :=
| Create (family : SocketFamily) (type : SocketType)
| AnyaddrServer (port : Z) (type : SocketType)
| LoopbackServer (port : Z) (type : SocketType)
| LoopbackClient (port : Z) (type : SocketType)
| NetworkClient (answer : gai) (port : Z) (type : SocketType)
| UnixServer (name : list Z) (type : SocketType)
| UnixClient (name : list Z) (type : SocketType)
| Accept (fd : Z) (want : bool)
| AcceptAny (fd : Z).

Definition run_opener (f : opener) (s : sock O) : res (Z * sock O) :=
  match f with
  | Create family type => socket_create family type s
  | AnyaddrServer port type => socket_anyaddr_server port type s
  | LoopbackServer port type => socket_loopback_server port type s
  | LoopbackClient port type => socket_loopback_client port type s
  | NetworkClient answer port type => socket_network_client answer port type s
  | UnixServer name type => socket_unix_server name type s
  | UnixClient name type => socket_unix_client name type s
  | Accept fd want => '(r, _, s) ← socket_accept fd want s; Ok (r, s)
  | AcceptAny fd => socket_accept_any fd s
  end.

(** Creation, then a second half that keeps the promise. *)
Lemma create_then family type s (k : Z -> sock O -> res (Z * sock O)) :
  (forall fd s1, 0 <= fd -> fd ∉ fds s -> fds s1 = {[fd]} ∪ fds s ->
     exists r s', k fd s1 = Ok (r, s') /\ opens s r s') ->
  exists r s', ('(fd, s1) ← socket_create family type s; if fd <? 0 then Ok (-1, s1) else k fd s1) = Ok (r, s') /\
    opens s r s'.
Proof.
  intros Hk. destruct (create_opens family type s) as (fd & s1 & -> & Ho). mon.
  destruct Ho as [[-> Hf]|(H0 & Hn & Hf)].
  - eexists _, _. split; [done|]. by left.
  - rewrite (proj2 (Z.ltb_ge _ _) H0). by apply Hk.
Qed.

Lemma accept_call_opens fd s :
  exists r s', QSOCKET_CALL (SysAccept fd) s = Ok (r, s') /\
    (ret r < 0 /\ fds s' = fds s \/ 0 <= ret r /\ (ret r ∉ fds s) /\ fds s' = {[ret r]} ∪ fds s).
Proof.
  destruct (QSOCKET_CALL_ends (SysAccept fd) s ltac:(done)) as (r & s' & E & He).
  exists r, s'. split; [done|]. pose proof (ended_fds _ _ _ _ He) as Hf. cbn in Hf.
  destruct (Z.ltb_spec (ret r) 0) as [|Hr]; [by left|right].
  split; [done|]. split; [|done]. eapply ended_fresh; eauto.
Qed.

(** C26.  Every function that creates, accepts or connects a socket returns,
    however often signals interrupt it: either [-1], with every descriptor it
    opened closed again, or a new descriptor, the only one it left open. *)
Theorem sockets_no_leak f s : exists r s', run_opener f s = Ok (r, s') /\ opens s r s'.
Proof.
  destruct f as [fa ty|p ty|p ty|p ty|a p ty|nm ty|nm ty|fd want|fd]; cbn [run_opener].
  - apply create_opens.
  - apply create_then. intros. by apply bind_server_opens.
  - apply create_then. intros. by apply bind_server_opens.
  - apply create_then. intros. by apply connect_client_opens.
  - unfold socket_network_client. destruct (sock_address_init_resolve a p false).
    + apply create_then. intros. by apply connect_client_opens.
    + eexists _, _. split; [done|]. by left.
  - apply create_then. intros fd s1 H0 Hn Hf.
    destruct (HANDLE_EINTR_ends (SysUnlink nm) s1 ltac:(done)) as (r2 & s2 & -> & He). mon.
    apply bind_server_opens; [done|done|]. by rewrite (ended_fds _ _ _ _ He).
  - apply create_then. intros. by apply connect_client_opens.
  - unfold socket_accept. destruct (accept_call_opens fd s) as (r & s' & -> & Ho). mon.
    destruct Ho as [[Hr Hf]|(H0 & Hn & Hf)].
    + rewrite (proj2 (Z.ltb_lt _ _) Hr). mon. eexists _, _. split; [done|]. by left.
    + rewrite (proj2 (Z.ltb_ge _ _) H0). destruct want; [destruct (stored_address r)|]; mon;
        eexists _, _; (split; [done|]); [by right| |by right].
      left. split; [done|]. rewrite (proj1 (close_closes _ _)). cbn. rewrite Hf. set_solver.
  - unfold socket_accept_any. destruct (accept_call_opens fd s) as (r & s' & -> & Ho). mon.
    destruct Ho as [[Hr Hf]|(H0 & Hn & Hf)].
    + rewrite (proj2 (Z.ltb_lt _ _) Hr). eexists _, _. split; [done|]. by left.
    + rewrite (proj2 (Z.ltb_ge _ _) H0). destruct (socket_set_nonblock (ret r) s') as [r3 s3] eqn:E3.
      apply nonblock_keeps in E3. eexists _, _. split; [done|]. right. split_and!; [done|done|congruence].
Qed.
End laws.

(** ** A host

    A small host that keeps the laws, for concrete runs: descriptors are given
    out in order, the first [toy_signals] calls are interrupted, connecting
    succeeds at once unless [toy_connecting], what is sent is recorded and what
    [toy_in] holds can be received. *)
Module Toy.

Record host : Type := mkHost {
  toy_next : Z;
  toy_closed : gset Z;
  toy_signals : nat;
  toy_connecting : bool;
  toy_soerror : Z;
  toy_sent : gmap Z (list Z);
  toy_in : gmap Z (list Z)
}.

Definition open_fds (h : host) : gset Z := list_to_set (seqZ 0 (toy_next h)) ∖ toy_closed h.

Definition new_fd (h : host) : sysres * host :=
  let fd := Z.max 0 (toy_next h) in
  (mkRes fd 0 [] [], {| h with toy_next := fd + 1; toy_closed := toy_closed h ∖ {[fd]} |}).

Definition step (c : syscall) (h : host) : sysres * host :=
  let ok := mkRes 0 0 [] [] in
  let fail e := mkRes (-1) e [] [] in
  match c with
  | SysClose fd => (ok, {| h with toy_closed := {[fd]} ∪ toy_closed h |})
  | SysSocketpair => (fail EINVAL, h)
  | _ =>
      match toy_signals h with
      | S n => (fail EINTR, {| h with toy_signals := n |})
      | O =>
          match c with
          | SysSocket _ _ | SysAccept _ => new_fd h
          | SysConnect _ _ => (if toy_connecting h then fail EINPROGRESS else ok, h)
          | SysSend fd b _ =>
              (mkRes (Z.of_nat (length b)) 0 [] [],
               {| h with toy_sent := <[fd := default [] (toy_sent h !! fd) ++ b]> (toy_sent h) |})
          | SysRecv fd n =>
              match default [] (toy_in h !! fd) with
              | [] => (fail EAGAIN, h)
              | q =>
                  (mkRes (Z.of_nat (length (take (Z.to_nat n) q))) 0 (take (Z.to_nat n) q) [],
                   {| h with toy_in := <[fd := drop (Z.to_nat n) q]> (toy_in h) |})
              end
          | SysGetsockopt _ _ _ => (mkRes 0 0 (le_bytes 4 (u32 (toy_soerror h))) [], h)
          | _ => (ok, h)
          end
      end
  end.

#[global] Instance toy_host : Host host := {| sys := step; signals := toy_signals |}.

Lemma new_fd_open h r h' :
  new_fd h = (r, h') -> 0 <= ret r /\ (ret r ∉ open_fds h) /\ open_fds h' = {[ret r]} ∪ open_fds h.
Proof.
  intros [= <- <-]. cbn [ret]. unfold open_fds. cbn [toy_next toy_closed]. split; [lia|]. split.
  - rewrite elem_of_difference, elem_of_list_to_set, elem_of_seqZ. lia.
  - apply set_eq. intros x. set_unfold.
    destruct (decide (x ∈ toy_closed h)), (decide (x = Z.max 0 (toy_next h))); naive_solver lia.
Qed.

(** A call other than those that open and close keeps the descriptors. *)
Lemma step_keeps c h r h' :
  step c h = (r, h') -> (forall r F, fds_after c r F = F) ->
  open_fds h' = open_fds h.
Proof.
  intros E Hk. unfold step in E.
  destruct c; try (specialize (Hk (mkRes 7 0 [] [])); cbn in Hk; specialize (Hk ∅); set_solver);
    repeat case_match; simplify_eq; try done.
  - specialize (Hk (mkRes 0 0 [] []) {[fd]}). cbn in Hk. set_solver.
Qed.

#[global] Instance toy_laws : HostLaws host open_fds.
Proof.
  split.
  - intros c h r h' E Hr He. cbn in E. unfold step, new_fd in E.
    destruct c; repeat case_match; simplify_eq; cbn in *; try done; try lia.
  - intros c h r h' E. cbn in E.
    destruct c; try (by rewrite (step_keeps _ _ _ _ E)); cbn in E.
    + case_match; [|simplify_eq; done]. apply new_fd_open in E as (H0 & _ & ->). cbn.
      by rewrite (proj2 (Z.ltb_ge _ _) H0).
    + case_match; [|simplify_eq; done]. apply new_fd_open in E as (H0 & _ & ->). cbn.
      by rewrite (proj2 (Z.ltb_ge _ _) H0).
    + simplify_eq. unfold open_fds. cbn. set_solver.
    + by simplify_eq.
  - intros c h r h' E [(a & b & ->)|(a & ->)] Hr; cbn in E; case_match; simplify_eq; cbn in *; try lia;
      by apply new_fd_open in E as (_ & ? & _).
  - intros fd b f h r h' E. cbn in E. case_match; simplify_eq; cbn; lia.
  - intros fd n h r h' E. cbn in E. repeat case_match; simplify_eq; cbn [ret data]; try lia.
    rewrite length_take. split; [lia|done].
Qed.

(** Nothing open, two calls will be interrupted. *)
Definition fresh_host : host := mkHost 3 ∅ 2 false 0 ∅ ∅.
End Toy.

Lemma sockets_no_leak_witness :
  exists r s', run_opener (LoopbackServer 22468 SOCKET_STREAM) (mkSock 0 Toy.fresh_host) = Ok (r, s') /\
    opens (open_fds := Toy.open_fds) (mkSock 0 Toy.fresh_host) r s'.
Proof. exact (sockets_no_leak (LoopbackServer 22468 SOCKET_STREAM) (mkSock 0 Toy.fresh_host)). Defined.
