(* ===== verification/NetPipe.v ===== *)
(** * Network pipes ([android/hw-pipe-net.c], the connector of [android/async-utils.c])

    The services "tcp", "unix" and "opengles" of the pipe device: what the guest
    writes to such a pipe goes to a socket of the host and back.  A [NetPipe]
    watches its socket through the core event loop; the state of the services
    is the world of the device model. *)

From S2P Require Import Prelude IntrusiveList PipeDevice LooperQemu SockAddr SocketCalls.

(** ** Data *)

Inductive AsyncStatus : Type := ASYNC_COMPLETE | ASYNC_ERROR | ASYNC_NEED_MORE.

(** The states of an [AsyncConnector] and of a [NetPipe]. *)
Inductive connect_state : Type := CONNECT_ERROR | CONNECT_CONNECTING | CONNECT_COMPLETED.
Inductive netpipe_state : Type :=
  STATE_INIT | STATE_CONNECTING | STATE_CONNECTED | STATE_CLOSING_GUEST | STATE_CLOSING_SOCKET.

#[global] Instance netpipe_state_eq_dec : EqDecision netpipe_state.
Proof. solve_decision. Defined.

(** [NetPipe] with its [LoopIo] ([np_io] is the implementation object, [np_fd]
    the descriptor) and its [AsyncConnector]. *)
Record NetPipe : Type := mkNetPipe {
  np_hwpipe : Z;
  np_state : netpipe_state;
  np_wakeWanted : Z;
  np_io : Z;
  np_fd : Z;
  np_cstate : connect_state;
  np_cerror : Z
}.

Section netpipe.
Context {O : Type} `{Host O}.

(** The looper, the [NetPipe] objects, the host, and the variables of
    [opengles.c] and of this file that choose the renderer's server. *)
Record net : Type := mkNet {
  nlooper : looper;
  nheap : gmap Z NetPipe;
  nsock : sock O;
  nbrk : Z;
  opengles_init : bool;
  gles_fast_pipes : bool;
  rendererAddress : list Z
}.

Definition mod_np (p : Z) (f : NetPipe -> NetPipe) (w : net) : res net :=
  n ← deref (nheap w) p;
  Ok {| w with nheap := <[p := f n]> (nheap w) |}.

(** A looper operation on the watcher of a pipe. *)
Definition with_looper (f : looper -> res looper) (w : net) : res net :=
  l ← f (nlooper w); Ok {| w with nlooper := l |}.

(** ** [AsyncConnector] *)

(** [AsyncStatus asyncConnector_init(ac, address, io)] *)
Definition asyncConnector_init (p : Z) (address : SockAddress) (w : net) : res (AsyncStatus * net) :=
  w ← mod_np p (fun n => {| n with np_cerror := 0 |}) w;
  n ← deref (nheap w) p;
  '(ret, s) ← socket_connect1 (np_fd n) address (nsock w);
  let w := {| w with nsock := s |} in
  if ret =? 0 then
    w ← mod_np p (fun n => {| n with np_cstate := CONNECT_COMPLETED |}) w;
    Ok (ASYNC_COMPLETE, w)
  else if (errno s =? EINPROGRESS) || (errno s =? EAGAIN) then
    w ← mod_np p (fun n => {| n with np_cstate := CONNECT_CONNECTING |}) w;
    w ← with_looper (qloopio_wantWrite (np_io n)) w;
    Ok (ASYNC_NEED_MORE, w)
  else
    w ← mod_np p (fun n => {| n with np_cerror := errno s; np_cstate := CONNECT_ERROR |}) w;
    Ok (ASYNC_ERROR, w).

(** [AsyncStatus asyncConnector_run(ac)] *)
Definition asyncConnector_run (p : Z) (w : net) : res (AsyncStatus * net) :=
  n ← deref (nheap w) p;
  match np_cstate n with
  | CONNECT_ERROR => Ok (ASYNC_ERROR, {| w with nsock := mkSock (np_cerror n) (os (nsock w)) |})
  | CONNECT_CONNECTING =>
      w ← with_looper (qloopio_dontWantWrite (np_io n)) w;
      '(e, s) ← socket_get_error (np_fd n) (nsock w);
      let w := {| w with nsock := s |} in
      w ← mod_np p (fun n => {| n with np_cerror := e |}) w;
      if e =? 0 then
        w ← mod_np p (fun n => {| n with np_cstate := CONNECT_COMPLETED |}) w;
        Ok (ASYNC_COMPLETE, w)
      else
        w ← mod_np p (fun n => {| n with np_cstate := CONNECT_ERROR |}) w;
        Ok (ASYNC_ERROR, {| w with nsock := mkSock e (os (nsock w)) |})
  | CONNECT_COMPLETED => Ok (ASYNC_COMPLETE, w)
  end.

(** [int asyncConnector_stop(ac)] *)
Definition asyncConnector_stop (p : Z) (w : net) : res (Z * net) :=
  n ← deref (nheap w) p;
  match np_cstate n with
  | CONNECT_CONNECTING =>
      w ← with_looper (qloopio_dontWantWrite (np_io n)) w;
      w ← mod_np p (fun n => {| n with np_cstate := CONNECT_COMPLETED |}) w;
      Ok (0, w)
  | _ => Ok (-1, w)
  end.

(** ** [NetPipe] *)

(** [void netPipe_free(pipe)] *)
Definition netPipe_free (p : Z) (w : net) : res net :=
  n ← deref (nheap w) p;
  w ← with_looper (qloopio_free (np_io n)) w;
  let w := {| w with nsock := socket_close (np_fd n) (nsock w) |} in
  _ ← deref (nheap w) p;
  Ok {| w with nheap := delete p (nheap w) |}.

(** [void netPipe_resetState(pipe)] *)
Definition netPipe_resetState (p : Z) (w : net) : res net :=
  n ← deref (nheap w) p;
  w ← with_looper (if flag_set (np_wakeWanted n) PIPE_WAKE_WRITE
                   then qloopio_wantWrite (np_io n) else qloopio_dontWantWrite (np_io n)) w;
  with_looper (if bool_decide (np_state n = STATE_CONNECTED) && flag_set (np_wakeWanted n) PIPE_WAKE_READ
               then qloopio_wantRead (np_io n) else qloopio_dontWantRead (np_io n)) w.

(** [int netPipeReadySend(pipe)] *)
Definition netPipeReadySend (n : NetPipe) : Z :=
  if decide (np_state n = STATE_CONNECTED) then 0
  else if decide (np_state n = STATE_CONNECTING) then PIPE_ERROR_AGAIN
  else if np_hwpipe n =? 0 then PIPE_ERROR_INVAL
  else PIPE_ERROR_IO.

(** What the transfer loops answer when a socket call did not transfer any
    byte: [len] is its result, [ret] the number of bytes so far. *)
Definition transfer_end (len ret : Z) (s : sock O) : Z :=
  if len =? 0 then (if ret =? 0 then PIPE_ERROR_IO else ret)
  else if ret >? 0 then ret
  else if errno s =? EAGAIN then PIPE_ERROR_AGAIN else PIPE_ERROR_IO.

(** The loop of [netPipe_sendBuffers]: [buffStart] bytes of the first buffer
    are sent, [count] is left to send, [ret] was sent. *)
Fixpoint send_loop (fuel : nat) (fd : Z) (bufs : list (list Z)) (buffStart count ret : Z) (s : sock O)
    : res (Z * sock O) :=
  match fuel with
  | 0%nat => Fault OutOfFuel
  | S fuel' =>
      if count <=? 0 then Ok (ret, s)
      else match bufs with
           | [] => Fault OutOfBounds
           | b :: bufs' =>
               let size := Z.of_nat (length b) in
               let avail := s32 (size - buffStart) in
               if avail <? 0 then Fault OutOfBounds
               else
                 '(len, s) ← socket_send fd (take (Z.to_nat avail) (drop (Z.to_nat buffStart) b)) s;
                 if len >? 0 then
                   let buffStart := buffStart + len in
                   if buffStart >=? size then send_loop fuel' fd bufs' 0 (count - len) (ret + len) s
                   else send_loop fuel' fd bufs buffStart (count - len) (ret + len) s
                 else Ok (transfer_end len ret s, s)
           end
  end.

(** [int netPipe_sendBuffers(opaque, buffers, numBuffers)] *)
Definition netPipe_sendBuffers (p : Z) (bufs : list (list Z)) (w : net) : res (Z * net) :=
  n ← deref (nheap w) p;
  let ready := netPipeReadySend n in
  if negb (ready =? 0) then Ok (ready, w)
  else
    let count := s32 (foldr (fun b a => Z.of_nat (length b) + a) 0 bufs) in
    '(r, s) ← send_loop (S (length (concat bufs))) (np_fd n) bufs 0 count 0 (nsock w);
    Ok (r, {| w with nsock := s |}).

(** The loop of [netPipe_recvBuffers]: [filled] are the full buffers, [cur] what
    the current one holds. *)
Fixpoint recv_loop (fuel : nat) (fd : Z) (sizes : list Z) (filled : list (list Z)) (cur : list Z)
    (count ret : Z) (s : sock O) : res (Z * list (list Z) * sock O) :=
  match fuel with
  | 0%nat => Fault OutOfFuel
  | S fuel' =>
      let data := filled ++ match cur with [] => [] | _ => [cur] end in
      if count <=? 0 then Ok (ret, data, s)
      else match sizes with
           | [] => Fault OutOfBounds
           | size :: sizes' =>
               let buffStart := Z.of_nat (length cur) in
               let avail := s32 (size - buffStart) in
               if avail <? 0 then Fault OutOfBounds
               else
                 '(len, got, s) ← socket_recv fd avail s;
                 if len >? 0 then
                   let cur := cur ++ got in
                   if buffStart + len >=? size
                   then recv_loop fuel' fd sizes' (filled ++ [cur]) [] (count - len) (ret + len) s
                   else recv_loop fuel' fd sizes filled cur (count - len) (ret + len) s
                 else Ok (transfer_end len ret s, data, s)
           end
  end.

(** [int netPipe_recvBuffers(opaque, buffers, numBuffers)]; the size of a buffer
    is a [size_t], so a negative number stands for none *)
Definition netPipe_recvBuffers (p : Z) (sizes : list Z) (w : net) : res (Z * list (list Z) * net) :=
  n ← deref (nheap w) p;
  let sizes := Z.max 0 <$> sizes in
  let count := s32 (foldr Z.add 0 sizes) in
  '(r, data, s) ← recv_loop (S (Z.to_nat count)) (np_fd n) sizes [] [] count 0 (nsock w);
  Ok (r, data, {| w with nsock := s |}).

(** [unsigned netPipe_poll(opaque)] *)
Definition netPipe_poll (p : Z) (w : net) : res (Z * net) :=
  n ← deref (nheap w) p;
  mask ← qloopio_poll (np_io n) (nlooper w);
  Ok (Z.lor (if flag_set mask LOOP_IO_READ then PIPE_POLL_IN else 0)
            (if flag_set mask LOOP_IO_WRITE then PIPE_POLL_OUT else 0), w).

(** [void netPipe_wakeOn(opaque, flags)] *)
Definition netPipe_wakeOn (p flags : Z) (w : net) : res net :=
  w ← mod_np p (fun n => {| n with np_wakeWanted := Z.lor (np_wakeWanted n) flags |}) w;
  netPipe_resetState p w.

(** [void netPipe_closeFromGuest(opaque)] *)
Definition netPipe_closeFromGuest (p : Z) (w : net) : res net := netPipe_free p w.

(** [loopIo_init(pipe->io, looper, fd, netPipe_io_func, pipe)] *)
Definition loopIo_init (p fd : Z) (w : net) : res net :=
  '(io, l) ← qlooper_io_init fd p (nlooper w);
  let '(_, s) := socket_set_nonblock fd (nsock w) in
  mod_np p (fun n => {| n with np_io := io; np_fd := fd |}) {| w with nlooper := l; nsock := s |}.

(** [void* netPipe_initFromAddress(hwpipe, address, looper)] *)
Definition netPipe_initFromAddress (hwpipe : Z) (address : SockAddress) (w : net) : res (Z * net) :=
  let p := nbrk w in
  let w := {| w with nheap := <[p := mkNetPipe hwpipe STATE_INIT 0 0 0 CONNECT_ERROR 0]> (nheap w);
                     nbrk := p + 1 |} in
  '(fd, s) ← socket_create (sock_address_get_family address) SOCKET_STREAM (nsock w);
  let w := {| w with nsock := s |} in
  if fd <? 0 then
    w ← netPipe_free p w; Ok (0, w)
  else
    w ← loopIo_init p fd w;
    '(status, w) ← asyncConnector_init p address w;
    w ← mod_np p (fun n => {| n with np_state := STATE_CONNECTING |}) w;
    match status with
    | ASYNC_ERROR => w ← netPipe_free p w; Ok (0, w)
    | ASYNC_COMPLETE =>
        w ← mod_np p (fun n => {| n with np_state := STATE_CONNECTED |}) w;
        w ← netPipe_resetState p w;
        Ok (p, w)
    | ASYNC_NEED_MORE => Ok (p, w)
    end.

(** [strtol(args, &end, 10)]: blanks, a sign, digits; out of range, the nearest
    [long] *)
Definition is_space (c : Z) : bool := (c =? 32) || ((9 <=? c) && (c <=? 13)).
Definition is_digit (c : Z) : bool := (48 <=? c) && (c <=? 57).
Fixpoint skip_spaces (l : list Z) : list Z :=
  match l with c :: l' => if is_space c then skip_spaces l' else l | [] => [] end.
Fixpoint read_digits (a : Z) (l : list Z) : Z :=
  match l with c :: l' => if is_digit c then read_digits (10 * a + (c - 48)) l' else a | [] => a end.
Definition strtol10 (args : list Z) : Z :=
  let v := match skip_spaces args with
           | 45 :: l => - read_digits 0 l
           | 43 :: l => read_digits 0 l
           | l => read_digits 0 l
           end in
  Z.max (- 2 ^ 63) (Z.min v (2 ^ 63 - 1)).

(** [void* netPipe_initTcp(hwpipe, looper, args)]: an invalid number is only
    reported *)
Definition netPipe_initTcp (hwpipe _looper : Z) (args : option (list Z)) (w : net) : res (Z * net) :=
  match args with
  | None => Ok (0, w)
  | Some a =>
      netPipe_initFromAddress hwpipe
        (sock_address_init_inet SOCK_ADDRESS_INET_LOOPBACK (u16 (strtol10 a))) w
  end.

(** [void* netPipe_initUnix(hwpipe, looper, args)] *)
Definition netPipe_initUnix (hwpipe _looper : Z) (args : option (list Z)) (w : net) : res (Z * net) :=
  match args with
  | None | Some [] => Ok (0, w)
  | Some a => netPipe_initFromAddress hwpipe (sock_address_init_unix (Some a)) w
  end.

(** [void android_gles_server_path(buff, buffsize)] with a buffer of [PATH_MAX]
    bytes *)
Definition android_gles_server_path (w : net) : list Z := take (Z.to_nat MAX_PATH - 1) (rendererAddress w).

(** [void* openglesPipe_init(hwpipe, looper, args)] *)
Definition openglesPipe_init (hwpipe _looper : Z) (args : option (list Z)) (w : net) : res (Z * net) :=
  if negb (opengles_init w) then Ok (0, w)
  else
    let server_addr := android_gles_server_path w in
    '(p, w) ← (if gles_fast_pipes w then netPipe_initUnix hwpipe _looper (Some server_addr) w
               else netPipe_initTcp hwpipe _looper (Some server_addr) w);
    if negb (p =? 0) then
      n ← deref (nheap w) p;
      let '(_, s) := socket_set_nodelay1 (np_fd n) (nsock w) in
      Ok (p, {| w with nsock := s |})
    else Ok (p, w).

(** [int android_init_opengles_pipes(void)] *)
Definition android_init_opengles_pipes (w : net) : net := {| w with opengles_init := true |}.

(** The tables of functions of the three services. *)
Definition netPipe_funcs (init : Z -> Z -> option (list Z) -> net -> res (Z * net)) : GoldfishPipeFuncs net :=
  mkFuncs init (Some netPipe_closeFromGuest) netPipe_sendBuffers netPipe_recvBuffers netPipe_poll netPipe_wakeOn.
Definition netPipeTcp_funcs : GoldfishPipeFuncs net := netPipe_funcs netPipe_initTcp.
Definition netPipeUnix_funcs : GoldfishPipeFuncs net := netPipe_funcs netPipe_initUnix.
Definition openglesPipe_funcs : GoldfishPipeFuncs net := netPipe_funcs openglesPipe_init.

(** [void android_net_pipes_init(void)]: the services table *)
Definition name_tcp : list Z := [116; 99; 112].
Definition name_unix : list Z := [117; 110; 105; 120].
Definition name_opengles : list Z := [111; 112; 101; 110; 103; 108; 101; 115].
Definition android_net_pipes_init (l : list (PipeService net)) : list (PipeService net) :=
  let l := qemu_pipe_add_type name_tcp 0 netPipeTcp_funcs l in
  let l := qemu_pipe_add_type name_unix 0 netPipeUnix_funcs l in
  qemu_pipe_add_type name_opengles 0 openglesPipe_funcs l.

(** ** Events of the socket

    These run from the event loop and use the pipe device. *)

Definition with_world (f : net -> res net) (m : machine net) : res (machine net) :=
  w ← f (world m); Ok {| m with world := w |}.

(** [void netPipe_closeFromSocket(opaque)] *)
Definition netPipe_closeFromSocket (p : Z) (m : machine net) : res (machine net) :=
  n ← deref (nheap (world m)) p;
  if decide (np_state n = STATE_CLOSING_GUEST) then with_world (netPipe_free p) m
  else
    m ← (if negb (np_hwpipe n =? 0) then
           m ← qemu_pipe_close (np_hwpipe n) m;
           with_world (mod_np p (fun n => {| n with np_hwpipe := 0 |})) m
         else Ok m);
    m ← with_world (mod_np p (fun n => {| n with np_state := STATE_CLOSING_SOCKET |})) m;
    with_world (netPipe_resetState p) m.

(** [void netPipe_io_func(opaque, fd, events)] *)
Definition netPipe_io_func (p fd events : Z) (m : machine net) : res (machine net) :=
  n ← deref (nheap (world m)) p;
  if decide (np_state n = STATE_CONNECTING) then
    '(status, w) ← asyncConnector_run p (world m);
    let m := {| m with world := w |} in
    match status with
    | ASYNC_NEED_MORE => Ok m
    | ASYNC_ERROR => netPipe_closeFromSocket p m
    | ASYNC_COMPLETE =>
        m ← with_world (mod_np p (fun n => {| n with np_state := STATE_CONNECTED |})) m;
        with_world (netPipe_resetState p) m
    end
  else
    let wakeFlags :=
      Z.lor (if flag_set events LOOP_IO_READ && flag_set (np_wakeWanted n) PIPE_WAKE_READ then PIPE_WAKE_READ else 0)
            (if flag_set events LOOP_IO_WRITE && flag_set (np_wakeWanted n) PIPE_WAKE_WRITE then PIPE_WAKE_WRITE else 0) in
    m ← (if negb (wakeFlags =? 0) then
           m ← qemu_pipe_wake (np_hwpipe n) wakeFlags m;
           with_world (mod_np p (fun n => {| n with np_wakeWanted := Z.ldiff (np_wakeWanted n) wakeFlags |})) m
         else Ok m);
    with_world (netPipe_resetState p) m.
End netpipe.
Arguments net : clear implicits.
Arguments mkNet {O}.
Arguments nlooper {O}.
Arguments nheap {O}.
Arguments nsock {O}.
Arguments nbrk {O}.
