(* ===== verification/NetPipeProofs.v ===== *)
(** * Network pipes: the invariant, and what each operation does *)

From S2P Require Import Prelude IntrusiveList PipeDevice PipeDeviceProofs LooperQemu LooperQemuProofs SockAddr SocketCalls SocketCallsProofs NetPipe.

(** ** Watchers, seen from their owner *)

(** The part of a watcher that its owner chose. *)
Definition istat (i : QLoopIo) : Z * Z := (io_fd i, io_opaque i).
Definition stat (l : looper) : gmap Z (Z * Z) := istat <$> ioheap l.

Lemma stat_lookup l p i : ioheap l !! p = Some i -> stat l !! p = Some (istat i).
Proof. intros Hi. unfold stat. by rewrite lookup_fmap, Hi. Qed.

Lemma stat_Some l p x : stat l !! p = Some x -> exists i, ioheap l !! p = Some i /\ istat i = x.
Proof. unfold stat. rewrite lookup_fmap. intros (i & ? & ->)%fmap_Some. eauto. Qed.

Lemma stat_iview l : stat l = istat <$> iview l.
Proof. unfold stat, iview. by rewrite <- map_fmap_compose. Qed.

Lemma lwf_wanted l p i : lwf l -> ioheap l !! p = Some i -> p <> 0 /\ in_range 2 (io_wanted i).
Proof. intros (la & lp & Hl) Hi. destruct (lwf_io _ _ _ _ _ Hl Hi) as (? & _ & _ & ?). done. Qed.

(** Changing the wishes of a watcher. *)
Lemma modify_stat l p i w :
  lwf l -> ioheap l !! p = Some i -> in_range 2 w ->
  exists l' i', qloopio_modify p w l = Ok l' /\ lwf l' /\ (bh_ok l -> bh_ok l') /\ stat l' = stat l /\
    ioheap l' !! p = Some i' /\ io_wanted i' = w /\ (io_ready i' = io_ready i \/ io_ready i' = 0).
Proof.
  intros (la & lp & Hl) Hi Hw.
  destruct (lwf_modify l la lp p i w Hl Hi Hw) as (l' & lp' & r & E & Hl' & Hc & Hv & Hr).
  destruct Hc as (Hq & _ & _ & Hpe & Ebh).
  pose proof Hv as Hv'. rewrite iview_lookup in Hv'. apply fmap_Some in Hv' as (i' & Hi' & Ei).
  exists l', i'. split_and!; [done|by exists la, lp'| | |done|..].
  - intros Hb Hne. rewrite Ebh. auto.
  - rewrite !stat_iview. apply map_eq. intros q. rewrite !lookup_fmap.
    destruct (decide (q = p)) as [->|Hne]; [|by rewrite Hq].
    rewrite Hv, (iview_Some _ _ _ Hi). done.
  - by apply (f_equal io_wanted) in Ei.
  - apply (f_equal io_ready) in Ei. cbn in Ei. rewrite <- Ei. done.
Qed.

(** The four requests: what the watcher wants afterwards. *)
Definition want (f : Z -> Z) (p : Z) (l : looper) : res looper :=
  i ← deref (ioheap l) p; qloopio_modify p (f (io_wanted i)) l.

Lemma want_stat (f : Z -> Z) l p i :
  (forall w, in_range 2 w -> in_range 2 (f w)) -> lwf l -> ioheap l !! p = Some i ->
  exists l' i', want f p l = Ok l' /\ lwf l' /\ (bh_ok l -> bh_ok l') /\ stat l' = stat l /\
    ioheap l' !! p = Some i' /\ io_wanted i' = f (io_wanted i).
Proof.
  intros Hf Hl Hi. destruct (lwf_wanted l p i Hl Hi) as [Hp Hw].
  unfold want. rewrite (deref_Some _ _ i) by done. mon.
  destruct (modify_stat l p i (f (io_wanted i)) Hl Hi (Hf _ Hw)) as (l' & i' & E & ? & ? & ? & ? & ? & _).
  exists l', i'. done.
Qed.

Definition set_bit (b w : Z) : Z := Z.lor w b.
Definition clear_bit (b w : Z) : Z := Z.ldiff w b.

Lemma two_bits (P : Z -> Prop) : P 0 -> P 1 -> P 2 -> P 3 -> forall w, in_range 2 w -> P w.
Proof.
  intros H0 H1 H2 H3 w [Hw1 Hw2]. change (2 ^ 2) with 4 in Hw2.
  assert (w = 0 \/ w = 1 \/ w = 2 \/ w = 3) as [->|[->|[->| ->]]] by lia; done.
Qed.

Lemma set_bit_range b : b = 1 \/ b = 2 -> forall w, in_range 2 w -> in_range 2 (set_bit b w).
Proof. intros [->| ->]; apply two_bits; done. Qed.

Lemma clear_bit_range b : b = 1 \/ b = 2 -> forall w, in_range 2 w -> in_range 2 (clear_bit b w).
Proof. intros [->| ->]; apply two_bits; done. Qed.

(** Both wishes set one after the other, as [netPipe_resetState] does. *)
Lemma want_both l p i (w r : bool) :
  lwf l -> ioheap l !! p = Some i ->
  exists l1 l2 i2,
    (if w then qloopio_wantWrite p else qloopio_dontWantWrite p) l = Ok l1 /\
    (if r then qloopio_wantRead p else qloopio_dontWantRead p) l1 = Ok l2 /\
    lwf l2 /\ (bh_ok l -> bh_ok l2) /\ stat l2 = stat l /\ ioheap l2 !! p = Some i2 /\
    io_wanted i2 = Z.lor (if r then LOOP_IO_READ else 0) (if w then LOOP_IO_WRITE else 0).
Proof.
  intros Hl Hi. destruct (lwf_wanted l p i Hl Hi) as [Hp Hw].
  destruct (want_stat (if w then set_bit 2 else clear_bit 2) l p i) as (l1 & i1 & E1 & Hl1 & Hb1 & Hs1 & Hi1 & Hw1).
  { destruct w; [apply set_bit_range|apply clear_bit_range]; auto. } { done. } { done. }
  destruct (want_stat (if r then set_bit 1 else clear_bit 1) l1 p i1) as (l2 & i2 & E2 & Hl2 & Hb2 & Hs2 & Hi2 & Hw2).
  { destruct r; [apply set_bit_range|apply clear_bit_range]; auto. } { done. } { done. }
  exists l1, l2, i2. split_and!; try done; try congruence; auto.
  - by destruct w.
  - by destruct r.
  - rewrite Hw2, Hw1. revert Hw. generalize (io_wanted i). apply two_bits; by destruct w, r.
Qed.

(** ** The invariant *)

Section netpipe.
Context {O : Type} `{HO : Host O} {open_fds : O -> gset Z} `{!HostLaws O open_fds}.
Implicit Types (w : net O) (s : sock O).

Local Abbreviation fds := (fun s => open_fds (os s)).

(** Every pipe has a watcher of its own on an open descriptor, and every
    watcher belongs to a pipe. *)
Record npwf (w : net O) : Prop := {
  nw_looper : lwf (nlooper w);
  nw_bh : bh_ok (nlooper w);
  nw_pipe : forall p n, nheap w !! p = Some n ->
    stat (nlooper w) !! np_io n = Some (np_fd n, p) /\ np_fd n ∈ fds (nsock w);
  nw_watch : forall q fd p, stat (nlooper w) !! q = Some (fd, p) ->
    exists n, nheap w !! p = Some n /\ np_io n = q;
  nw_brk : 0 < nbrk w /\ forall p, is_Some (nheap w !! p) -> 0 < p < nbrk w
}.

Lemma npwf_looper w l :
  npwf w -> lwf l -> bh_ok l -> stat l = stat (nlooper w) -> npwf {| w with nlooper := l |}.
Proof. intros [H1 H1' H2 H3 H4] Hl Hb E. split; cbn; rewrite ?E; done. Qed.

Lemma npwf_sock w s : npwf w -> fds s = fds (nsock w) -> npwf {| w with nsock := s |}.
Proof.
  intros [H1 H1' H2 H3 H4] E. split; cbn; try done. intros p n Hn. rewrite E. auto.
Qed.

Lemma npwf_mod w p n n' :
  npwf w -> nheap w !! p = Some n -> np_io n' = np_io n -> np_fd n' = np_fd n ->
  npwf {| w with nheap := <[p := n']> (nheap w) |}.
Proof.
  intros [H1 H1' H2 H3 H4] Hp Eio Efd. split; cbn; try done.
  - intros q m. rewrite lookup_insert. case_decide as E; [|apply H2].
    intros [= <-]. subst q. rewrite Eio, Efd. auto.
  - intros q fd x Hx. destruct (H3 q fd x Hx) as (m & Hm & Em). rewrite lookup_insert. case_decide; [|eauto].
    subst x. simplify_eq. eauto.
  - destruct H4 as [H4 H5]. split; [done|]. intros q. rewrite lookup_insert_is_Some.
    intros [<-|[_ ?]]; apply H5; eauto.
Qed.

Lemma npwf_io w p n :
  npwf w -> nheap w !! p = Some n ->
  p <> 0 /\ exists i, ioheap (nlooper w) !! np_io n = Some i /\ np_io n <> 0 /\ istat i = (np_fd n, p).
Proof.
  intros [H1 H1' H2 H3 [H4 H5]] Hp. specialize (H5 p ltac:(eauto)). split; [lia|].
  destruct (H2 p n Hp) as [Hs _]. apply stat_Some in Hs as (i & Hi & Ei).
  exists i. split; [done|]. split; [by eapply lwf_wanted|done].
Qed.

Lemma mod_np_Ok p f w n :
  p <> 0 -> nheap w !! p = Some n -> mod_np p f w = Ok {| w with nheap := <[p := f n]> (nheap w) |}.
Proof. intros. unfold mod_np. by rewrite (deref_Some _ _ n). Qed.

(** What the watcher of a pipe wants once its state is reset. *)
Definition wishes (n : NetPipe) : Z :=
  Z.lor (if bool_decide (np_state n = STATE_CONNECTED) && flag_set (np_wakeWanted n) PIPE_WAKE_READ then LOOP_IO_READ else 0)
        (if flag_set (np_wakeWanted n) PIPE_WAKE_WRITE then LOOP_IO_WRITE else 0).

Lemma resetState_spec w p n :
  npwf w -> nheap w !! p = Some n ->
  exists l i, netPipe_resetState p w = Ok {| w with nlooper := l |} /\ npwf {| w with nlooper := l |} /\
    stat l = stat (nlooper w) /\ ioheap l !! np_io n = Some i /\ io_wanted i = wishes n.
Proof.
  intros Hw Hn. destruct (npwf_io w p n Hw Hn) as (Hp & i & Hi & Hio & Es).
  destruct (want_both (nlooper w) (np_io n) i (flag_set (np_wakeWanted n) PIPE_WAKE_WRITE)
    (bool_decide (np_state n = STATE_CONNECTED) && flag_set (np_wakeWanted n) PIPE_WAKE_READ) (nw_looper _ Hw) Hi)
    as (l1 & l2 & i2 & E1 & E2 & Hl2 & Hb & Hs & Hi2 & Hw2).
  unfold netPipe_resetState. rewrite (deref_Some _ _ n) by done. mon.
  unfold with_looper. rewrite E1. mon. cbn [nlooper]. rewrite E2. mon.
  exists l2, i2. split_and!; try done. apply npwf_looper; try done. apply Hb, Hw.
Qed.

Lemma wakeOn_spec w p n flags :
  npwf w -> nheap w !! p = Some n ->
  exists w', netPipe_wakeOn p flags w = Ok w' /\ npwf w' /\ 
    nheap w' = <[p := {| n with np_wakeWanted := Z.lor (np_wakeWanted n) flags |}]> (nheap w).
Proof.
  intros Hw Hn. destruct (npwf_io w p n Hw Hn) as (Hp & _).
  unfold netPipe_wakeOn. rewrite (mod_np_Ok p _ w n) by done. mon.
  set (n' := {| n with np_wakeWanted := _ |}).
  destruct (resetState_spec {| w with nheap := <[p := n']> (nheap w) |} p n') as (l & i & E & Hw' & _).
  { by eapply npwf_mod. } { apply lookup_insert_eq. }
  rewrite E. eexists. split; [done|]. done.
Qed.

Lemma poll_spec w p n : npwf w -> nheap w !! p = Some n -> exists r, netPipe_poll p w = Ok (r, w).
Proof.
  intros Hw Hn. destruct (npwf_io w p n Hw Hn) as (Hp & i & Hi & Hio & Es).
  unfold netPipe_poll. rewrite (deref_Some _ _ n) by done. mon.
  unfold qloopio_poll. rewrite (deref_Some _ _ i) by done. mon. eauto.
Qed.

Lemma free_spec w p n :
  npwf w -> nheap w !! p = Some n ->
  exists w', netPipe_free p w = Ok w' /\ npwf w' /\ nheap w' = delete p (nheap w) /\ nbrk w' = nbrk w.
Proof.
  intros Hw Hn. destruct (npwf_io w p n Hw Hn) as (Hp & i & Hi & Hio & Es).
  pose proof Hw as [(la & lp & Hl) Hbh H2 H3 [H4 H5]].
  destruct (lwf_free _ la lp _ i Hl Hi) as (l' & E & Hl' & Ev & Ebh & _).
  unfold netPipe_free. rewrite (deref_Some _ _ n) by done. mon. unfold with_looper. rewrite E. mon.
  cbn [nheap]. rewrite (deref_Some _ _ n) by done. mon.
  assert (Est : stat l' = delete (np_io n) (stat (nlooper w))).
  { rewrite !stat_iview, Ev. apply fmap_delete. }
  eexists. split; [done|]. cbn. split; [|done]. split; cbn.
  - eexists _, _. exact Hl'.
  - intros Hne. rewrite Ebh. apply Hbh. apply (pending_nonempty _ _ _ Hl') in Hne.
    apply (pending_nonempty _ _ _ Hl). by intros ->.
  - intros q m [Hqp Hm]%lookup_delete_Some. destruct (H2 q m Hm) as [Hs Hf]. destruct (H2 p n Hn) as [Hs' Hf'].
    rewrite Est. split.
    + rewrite lookup_delete_ne; [done|]. intros E'. rewrite E' in Hs'. congruence.
    + rewrite (proj1 (close_closes _ _)). apply elem_of_difference. split; [done|].
      intros E'%elem_of_singleton. apply stat_Some in Hs as (j & Hj & Ej). injection Ej as Ej1 Ej2.
      injection Es as Es1 Es2. assert (np_io m = np_io n) as Eio.
      { eapply (ic_fd _ _ _ (lw_core _ _ _ Hl)); [by apply iview_Some|by apply iview_Some|]. cbn. congruence. }
      apply Hqp. rewrite Eio in Hj. congruence.
  - intros q fd x. rewrite Est. intros [Hq Hx]%lookup_delete_Some.
    destruct (H3 q fd x Hx) as (m & Hm & Em). exists m. split; [|done].
    rewrite lookup_delete_ne; [done|]. intros <-. congruence.
  - split; [done|]. intros q [_ Hq]%lookup_delete_is_Some. auto.
Qed.

(** ** Transfers *)

(** What a socket call that transfers bytes guarantees, for a relation [R] that
    says what was transferred between two states. *)
Definition send_law (R : sock O -> list Z -> sock O -> Prop) (fd : Z) : Prop :=
  (forall s, R s [] s) /\ (forall s a s1 b s2, R s a s1 -> R s1 b s2 -> R s (a ++ b) s2) /\
  forall buf s, exists len s', socket_send fd buf s = Ok (len, s') /\ -1 <= len <= Z.of_nat (length buf) /\
    R s (take (Z.to_nat len) buf) s'.

(** The answer of a transfer: an error, or the number of bytes. *)
Lemma transfer_end_spec len (ret : Z) s :
  len <= 0 -> 0 <= ret ->
  transfer_end len ret s = ret /\ 0 < ret \/
  ret = 0 /\ (transfer_end len ret s = PIPE_ERROR_IO \/ transfer_end len ret s = PIPE_ERROR_AGAIN).
Proof.
  intros Hl Hr. unfold transfer_end. destruct (Z.eqb_spec len 0).
  - destruct (Z.eqb_spec ret 0); [auto|left; split; [done|lia]].
  - destruct (Z.gtb_spec ret 0); [auto|right]. split; [lia|]. destruct (errno s =? EAGAIN); auto.
Qed.

Lemma s32_spec z : - 2 ^ 31 <= s32 z < 2 ^ 31 /\ exists k, z = s32 z + k * 2 ^ 32.
Proof.
  unfold signed, wrap. pose proof (Z.div_mod z (2 ^ 32) ltac:(lia)) as E.
  pose proof (Z.mod_pos_bound z (2 ^ 32) ltac:(lia)) as Hb. change (32 - 1) with 31.
  destruct (Z.ltb_spec (z mod 2 ^ 32) (2 ^ 31)); (split; [lia|]).
  - exists (z / 2 ^ 32). lia.
  - exists (z / 2 ^ 32 + 1). lia.
Qed.

Lemma s32_unique z c k : - 2 ^ 31 <= c < 2 ^ 31 -> z = c + k * 2 ^ 32 -> s32 z = c.
Proof. intros Hc ->. destruct (s32_spec (c + k * 2 ^ 32)) as [H [j Hj]]. lia. Qed.

Lemma s32_le z : 0 <= z -> s32 z <= z.
Proof. intros Hz. destruct (s32_spec z) as [H [k Hk]]. lia. Qed.

Lemma s32_sub z st : 0 <= st < s32 z -> s32 (z - st) = s32 z - st.
Proof. intros H. destruct (s32_spec z) as [Hr [k Hk]]. apply (s32_unique _ _ k); lia. Qed.

(** The answer to a request of [c] bytes of [b]: the bytes it stands for. *)
Definition sent_ok (r c : Z) : Prop := r = PIPE_ERROR_IO \/ r = PIPE_ERROR_AGAIN \/ 0 <= r <= Z.max 0 c.

Lemma send_loop_one R fd b : send_law R fd -> forall fuel st s,
  let c := s32 (Z.of_nat (length b)) in
  0 <= st <= c -> (Z.to_nat (c - st) < fuel)%nat ->
  exists r s', send_loop fuel fd (if st <? Z.of_nat (length b) then [b] else []) st (c - st) st s = Ok (r, s') /\
    (st < r <= c \/ r = st \/ st = 0 /\ (r = PIPE_ERROR_IO \/ r = PIPE_ERROR_AGAIN)) /\
    R s (take (Z.to_nat (r - st)) (drop (Z.to_nat st) b)) s'.
Proof.
  intros (R0 & R1 & Hsend). induction fuel as [|fuel IH]; intros st s c Hst Hf; [lia|].
  pose proof (s32_le (Z.of_nat (length b)) ltac:(lia)) as Hle. fold c in Hle. cbn [send_loop].
  destruct (Z.leb_spec (c - st) 0) as [Hd|Hd].
  { eexists _, _. split; [done|]. split; [auto|]. rewrite Z.sub_diag. cbn. apply R0. }
  rewrite (proj2 (Z.ltb_lt _ _)) by lia. rewrite s32_sub by (fold c; lia). fold c.
  rewrite (proj2 (Z.ltb_ge _ _)) by lia.
  destruct (Hsend (take (Z.to_nat (c - st)) (drop (Z.to_nat st) b)) s) as (len & s1 & -> & Hlen & HR). mon.
  rewrite length_take, length_drop in Hlen. rewrite take_take in HR.
  destruct (Z.gtb_spec len 0) as [Hg|Hg].
  - destruct (IH (st + len) s1 ltac:(lia) ltac:(lia)) as (r & s2 & E & Hr & HR2).
    exists r, s2. split; [|split].
    + destruct (Z.geb_spec (st + len) (Z.of_nat (length b))) as [Hge|Hge].
      * assert (st + len = Z.of_nat (length b)) as Eq by lia. rewrite (proj2 (Z.ltb_ge _ _)) in E by lia.
        rewrite Z.sub_add_distr in E. rewrite <- E.
        destruct fuel; [done|]. cbn [send_loop]. rewrite !(proj2 (Z.leb_le _ _)) by lia. done.
      * rewrite (proj2 (Z.ltb_lt _ _)) in E by lia. by rewrite Z.sub_add_distr in E.
    + lia.
    + assert (Hrr : st + len <= r) by lia.
      replace (Z.to_nat (r - st)) with (Z.to_nat len + Z.to_nat (r - (st + len)))%nat by lia.
      rewrite <- take_take_drop. eapply R1.
      * replace (Nat.min (Z.to_nat len) (Z.to_nat (c - st))) with (Z.to_nat len) in HR by lia. exact HR.
      * rewrite drop_drop. replace (Z.to_nat st + Z.to_nat len)%nat with (Z.to_nat (st + len)) by lia. exact HR2.
  - eexists _, _. split; [done|].
    replace (take (Z.to_nat (transfer_end len st s1 - st)) (drop (Z.to_nat st) b)) with ([] : list Z).
    + replace (Nat.min (Z.to_nat len) (Z.to_nat (c - st))) with 0%nat in HR by lia. split; [|done].
      destruct (transfer_end_spec len st s1 ltac:(lia) ltac:(lia)) as [[-> _]|[-> H]]; [auto|].
      right; right. auto.
    + destruct (transfer_end_spec len st s1 ltac:(lia) ltac:(lia)) as [[-> _]|[-> [-> | ->]]]; [|done|done].
      by rewrite Z.sub_diag.
Qed.

(** Sending one buffer. *)
Lemma send_one R fd b s :
  send_law R fd ->
  exists r s', send_loop (S (length b)) fd [b] 0 (s32 (Z.of_nat (length b))) 0 s = Ok (r, s') /\
    sent_ok r (s32 (Z.of_nat (length b))) /\ R s (take (Z.to_nat r) b) s'.
Proof.
  intros HR. pose proof (s32_le (Z.of_nat (length b)) ltac:(lia)) as Hle.
  destruct (decide (s32 (Z.of_nat (length b)) <= 0)) as [Hz|Hz].
  - cbn [send_loop]. rewrite (proj2 (Z.leb_le _ _)) by lia. eexists _, _. split; [done|].
    split; [right; right; lia|]. apply HR.
  - destruct (send_loop_one R fd b HR (S (length b)) 0 s) as (r & s' & E & Hr & HRr); [lia|lia|].
    rewrite Z.sub_0_r, (proj2 (Z.ltb_lt _ _)) in E by lia. exists r, s'. split; [exact E|].
    rewrite Z.sub_0_r, drop_0 in HRr. split; [|done]. unfold sent_ok. lia.
Qed.

Lemma socket_send_keeps : forall fd, send_law (fun s _ s' => fds s' = fds s) fd.
Proof.
  intros fd. split; [done|]. split; [congruence|]. intros buf s. unfold socket_send, SOCKET_CALL.
  destruct (QSOCKET_CALL_ends (SysSend fd buf 0) s ltac:(done)) as (r & s' & -> & He). mon.
  pose proof (ended_fds _ _ _ _ He) as Hf. cbn in Hf. destruct He as (s0 & _ & Ec & _).
  unfold call in Ec. destruct (sys _ (os s0)) as [r0 o] eqn:E. injection Ec as <- <-.
  apply law_sent in E. destruct (Z.ltb_spec (ret r0) 0); eexists _, _; (split; [done|]); (split; [lia|done]).
Qed.

Lemma concat_one {A} (b : list A) : concat [b] = b.
Proof. apply app_nil_r. Qed.

Lemma sendBuffers_spec R w p n b :
  send_law R (np_fd n) -> nheap w !! p = Some n -> p <> 0 ->
  exists r s', netPipe_sendBuffers p [b] w = Ok (r, {| w with nsock := s' |}) /\
    (np_state n = STATE_CONNECTED /\ sent_ok r (s32 (Z.of_nat (length b))) \/
     np_state n <> STATE_CONNECTED /\ r = netPipeReadySend n /\ r < 0) /\
    R (nsock w) (take (Z.to_nat r) b) s'.
Proof.
  intros HR Hn Hp. unfold netPipe_sendBuffers. rewrite (deref_Some _ _ n) by done. mon.
  unfold netPipeReadySend. destruct (decide (np_state n = STATE_CONNECTED)) as [Hs|Hs].
  - cbn [Z.eqb negb foldr]. rewrite Z.add_0_r, concat_one.
    destruct (send_one R (np_fd n) b (nsock w) HR) as (r & s' & -> & Hr & HRr). mon.
    eexists _, _. split; [done|]. auto.
  - set (e := if decide (np_state n = STATE_CONNECTING) then _ else _).
    assert (He : e < 0) by (unfold e; repeat case_match; done).
    rewrite (proj2 (Z.eqb_neq e 0)) by lia. cbn [negb]. exists e, (nsock w). split; [by destruct w|]. split; [auto|].
    replace (Z.to_nat e) with 0%nat by lia. apply HR.
Qed.

(** Receiving into one buffer. *)
Lemma socket_recv_spec fd n s :
  exists len got s', socket_recv fd n s = Ok (len, got, s') /\ fds s' = fds s /\ -1 <= len <= Z.max 0 n /\
    (0 < len -> len = Z.of_nat (length got)).
Proof.
  unfold socket_recv. destruct (QSOCKET_CALL_ends (SysRecv fd n) s ltac:(done)) as (r & s' & -> & He). mon.
  pose proof (ended_fds _ _ _ _ He) as Hf. cbn in Hf. destruct He as (s0 & _ & Ec & _).
  unfold call in Ec. destruct (sys _ (os s0)) as [r0 o] eqn:E. injection Ec as <- <-.
  apply law_received in E as [Hr Hd]. destruct (Z.ltb_spec (ret r0) 0); eexists _, _, _; (split; [done|]);
    (split; [done|]); (split; [lia|]); intros; [lia|auto with lia].
Qed.

Definition one_buffer (cur : list Z) : list (list Z) := match cur with [] => [] | _ => [cur] end.

Lemma recv_loop_one fd size : forall fuel cur s,
  let c := s32 size in
  let st := Z.of_nat (length cur) in
  0 <= size -> 0 <= st <= c -> (Z.to_nat (c - st) < fuel)%nat ->
  exists r data s', recv_loop fuel fd (if st <? size then [size] else []) (if st <? size then [] else [cur])
      (if st <? size then cur else []) (c - st) st s = Ok (r, data, s') /\ fds s' = fds s /\
    (data = [] \/ exists d, data = [d] /\ Z.of_nat (length d) <= Z.max 0 c) /\
    (r < 0 /\ -4 <= r \/ r = Z.of_nat (length (concat data))).
Proof.
  induction fuel as [|fuel IH]; intros cur s c st H0 Hst Hf; [lia|].
  pose proof (s32_le size H0) as Hle. fold c in Hle. cbn [recv_loop].
  destruct (Z.leb_spec (c - st) 0) as [Hd|Hd].
  { eexists _, _, _. split; [done|]. split; [done|].
    assert (Hl : Z.of_nat (length cur) <= Z.max 0 c) by (fold st; lia).
    destruct (Z.ltb_spec st size).
    - destruct cur as [|x cur']; [split; [by left|right; done]|]. split; [right; by eexists|right].
      cbn [app]. by rewrite concat_one.
    - split; [right; by exists cur|right]. cbn [app]. by rewrite concat_one. }
  rewrite (proj2 (Z.ltb_lt st size)) by lia. fold st. rewrite s32_sub by (fold c; lia). fold c.
  rewrite (proj2 (Z.ltb_ge _ _)) by lia.
  destruct (socket_recv_spec fd (c - st) s) as (len & got & s1 & -> & Hf1 & Hlen & Hgot). mon.
  destruct (Z.gtb_spec len 0) as [Hg|Hg].
  - specialize (Hgot ltac:(lia)).
    assert (El : Z.of_nat (length (cur ++ got)) = st + len) by (rewrite length_app; unfold st; lia).
    destruct (IH (cur ++ got) s1 H0) as (r & data & s2 & E & Hf2 & Hdat & Hr); [rewrite El; fold c; lia|rewrite El; fold c; lia|].
    rewrite El in E. fold c in E. rewrite Z.sub_add_distr in E.
    exists r, data, s2. split; [|split; [congruence|done]]. cbn [app].
    destruct (Z.geb_spec (st + len) size) as [Hge|Hge].
    + by rewrite (proj2 (Z.ltb_ge (st + len) size)) in E by lia.
    + by rewrite (proj2 (Z.ltb_lt (st + len) size)) in E by lia.
  - eexists _, _, _. split; [done|]. split; [done|]. cbn [app].
    assert (Hl : Z.of_nat (length cur) <= Z.max 0 c) by (fold st; lia).
    split.
    { destruct cur; [by left|right; by eexists]. }
    destruct (transfer_end_spec len st s1 ltac:(lia) ltac:(lia)) as [[-> Hpos]|[Ez He]].
    + right. destruct cur; [done|]. by rewrite concat_one.
    + left. unfold PIPE_ERROR_IO, PIPE_ERROR_AGAIN in He. lia.
Qed.

Lemma recvBuffers_spec w p n size :
  nheap w !! p = Some n -> p <> 0 ->
  exists r data s', netPipe_recvBuffers p [size] w = Ok (r, data, {| w with nsock := s' |}) /\ fds s' = fds (nsock w) /\
    (data = [] \/ exists d, data = [d] /\ Z.of_nat (length d) <= Z.max 0 size) /\
    (r < 0 /\ -4 <= r \/ r = Z.of_nat (length (concat data))).
Proof.
  intros Hn Hp. unfold netPipe_recvBuffers. rewrite (deref_Some _ _ n) by done. mon. cbn [fmap list_fmap foldr].
  rewrite Z.add_0_r. set (sz := Z.max 0 size). destruct (decide (s32 sz <= 0)) as [Hz|Hz].
  { cbn [recv_loop]. rewrite (proj2 (Z.leb_le _ _)) by done. mon. eexists _, _, _. split; [done|].
    split; [done|]. split; [by left|by right]. }
  destruct (recv_loop_one (np_fd n) sz (S (Z.to_nat (s32 sz))) [] (nsock w) ltac:(lia)) as (r & data & s' & E & Hf & Hd & Hr);
    [cbn; lia|cbn; lia|]. pose proof (s32_le sz ltac:(lia)) as Hle.
  cbn [length] in E. change (Z.of_nat 0) with 0 in E. rewrite Z.sub_0_r, (proj2 (Z.ltb_lt 0 sz)) in E by lia. rewrite E. mon.
  eexists _, _, _. split; [done|]. split; [done|]. split; [|done].
  destruct Hd as [->|(d & -> & Hd)]; [by left|right]. exists d. split; [done|lia].
Qed.

(** ** Opening a connection *)

Lemma connector_init_spec w p n address :
  npwf w -> nheap w !! p = Some n ->
  exists st w' n', asyncConnector_init p address w = Ok (st, w') /\ npwf w' /\ nbrk w' = nbrk w /\
    nheap w' = <[p := n']> (nheap w) /\ np_io n' = np_io n /\ np_fd n' = np_fd n /\ np_hwpipe n' = np_hwpipe n /\
    np_wakeWanted n' = np_wakeWanted n /\ (st = ASYNC_NEED_MORE -> np_cstate n' = CONNECT_CONNECTING).
Proof.
  intros Hw Hn. destruct (npwf_io w p n Hw Hn) as (Hp & _).
  unfold asyncConnector_init. rewrite (mod_np_Ok p _ w n) by done. mon. set (n1 := {| n with np_cerror := 0 |}).
  set (w1 := {| w with nheap := <[p := n1]> (nheap w) |}).
  assert (Hw1 : npwf w1) by (by eapply npwf_mod).
  assert (Hn1 : nheap w1 !! p = Some n1) by apply lookup_insert_eq.
  rewrite (deref_Some _ _ n1) by done. mon.
  destruct (connect_keeps (np_fd n1) address (nsock w1)) as (r & s & -> & Hf & _). mon.
  set (w2 := {| w1 with nsock := s |}).
  assert (Hw2 : npwf w2) by (by apply npwf_sock).
  destruct (r =? 0).
  { rewrite (mod_np_Ok p _ w2 n1) by done. mon. eexists _, _, _. split; [done|].
    split; [by eapply (npwf_mod w2)|]. cbn. rewrite insert_insert_eq. done. }
  destruct ((errno s =? EINPROGRESS) || (errno s =? EAGAIN)).
  - rewrite (mod_np_Ok p _ w2 n1) by done. mon. set (n3 := {| n1 with np_cstate := CONNECT_CONNECTING |}).
    set (w3 := {| w2 with nheap := <[p := n3]> (nheap w2) |}).
    assert (Hw3 : npwf w3) by (by eapply npwf_mod).
    destruct (npwf_io w3 p n3 Hw3 (lookup_insert_eq _ _ _)) as (_ & i & Hi & _ & _).
    destruct (want_stat (set_bit 2) (nlooper w3) (np_io n3) i (set_bit_range 2 ltac:(auto)) (nw_looper _ Hw3) Hi)
      as (l' & i' & E & Hl & Hb & Hs & _).
    change (with_looper (qloopio_wantWrite (np_io n1)) w3) with (with_looper (want (set_bit 2) (np_io n3)) w3).
    unfold with_looper. rewrite E. mon. eexists _, _, n3. split; [done|]. split_and!; try done.
    + apply npwf_looper; try done. apply Hb, Hw3.
    + cbn. by rewrite insert_insert_eq.
  - rewrite (mod_np_Ok p _ w2 n1) by done. mon. eexists _, _, _. split; [done|].
    split; [by eapply (npwf_mod w2)|]. cbn. rewrite insert_insert_eq. done.
Qed.

(** A new pipe with its watcher. *)
Lemma open_watch w fd hw s :
  npwf w -> 0 <= fd -> fd ∉ fds (nsock w) -> fds s = {[fd]} ∪ fds (nsock w) ->
  let p := nbrk w in
  let w1 := {| w with nheap := <[p := mkNetPipe hw STATE_INIT 0 0 0 CONNECT_ERROR 0]> (nheap w);
                      nbrk := p + 1; nsock := s |} in
  exists w' io, loopIo_init p fd w1 = Ok w' /\ npwf w' /\ nbrk w' = p + 1 /\
    nheap w' = <[p := mkNetPipe hw STATE_INIT 0 io fd CONNECT_ERROR 0]> (nheap w).
Proof.
  intros Hw Hfd Hn Hf p w1. pose proof Hw as [(la & lp & Hl) Hbh H2 H3 [H4 H5]].
  assert (Hnew : forall q i, iview (nlooper w) !! q = Some i -> io_fd i <> fd).
  { intros q i Hi E. rewrite iview_lookup in Hi. apply fmap_Some in Hi as (j & Hj & ->). cbn in E.
    destruct (H3 q (io_fd j) (io_opaque j)) as (m & Hm & Em); [by apply stat_lookup|].
    destruct (H2 _ m Hm) as [Hs Hin]. rewrite Em in Hs. apply stat_lookup in Hj. rewrite Hj in Hs.
    injection Hs as Hs. rewrite <- Hs, E in Hin. done. }
  destruct (lwf_new _ la lp fd p Hl Hnew) as (l' & E & Hl' & Ev & Enone & Hlb & Ebh & Epe & _).
  unfold loopIo_init, qlooper_io_init. cbn [nlooper w1]. rewrite E. mon. change (nsock w1) with s.
  destruct (socket_set_nonblock fd s) as [r0 s0] eqn:En. apply nonblock_keeps in En. mon.
    rewrite (mod_np_Ok p _ _ (mkNetPipe hw STATE_INIT 0 0 0 CONNECT_ERROR 0)) by (cbn; lia || apply lookup_insert_eq).
  eexists _, (lbrk (nlooper w)). split; [done|]. cbn. rewrite insert_insert_eq. split; [|done].
  assert (Est : stat l' = <[lbrk (nlooper w) := (fd, p)]> (stat (nlooper w))).
  { rewrite !stat_iview, Ev. by rewrite fmap_insert. }
  assert (Hfresh : forall n, nheap w !! p = Some n -> False).
  { intros n Hx. specialize (H5 p ltac:(eauto)). lia. }
  assert (Hq : forall q x, stat (nlooper w) !! q = Some x -> q <> lbrk (nlooper w)).
  { intros q x Hx ->. rewrite stat_iview, lookup_fmap, Enone in Hx. done. }
  split; cbn.
  - eexists _, _. exact Hl'.
  - intros Hne. rewrite Ebh. apply Hbh. by rewrite Epe in Hne.
  - intros q m. rewrite Est, lookup_insert. case_decide as Eq.
    + intros [= <-]. subst q. cbn. rewrite lookup_insert_eq. split; [done|]. rewrite En, Hf. set_solver.
    + intros Hm. destruct (H2 q m Hm) as [Hs Hin]. rewrite lookup_insert_ne by (apply not_eq_sym; by eapply Hq).
      split; [done|]. rewrite En, Hf. set_solver.
  - intros q fd' x. rewrite Est, lookup_insert. case_decide as Eq.
    + intros [= <- <-]. rewrite lookup_insert_eq. eexists. split; [done|]. done.
    + intros Hx. destruct (H3 q fd' x Hx) as (m & Hm & Em). exists m. split; [|done].
      rewrite lookup_insert_ne; [done|]. intros <-. by apply (Hfresh m).
  - split; [lia|]. intros q. rewrite lookup_insert_is_Some. intros [<-|[_ Hx]]; [lia|]. specialize (H5 q Hx). lia.
Qed.

(** The host always has a socket to give. *)
Definition sockets_available : Prop :=
  forall a b (o : O) r o', sys (SysSocket a b) o = (r, o') -> ret r < 0 -> err r = EINTR.

Lemma create_available family type s :
  sockets_available -> family <> SOCKET_UNSPEC ->
  exists fd s', socket_create family type s = Ok (fd, s') /\ 0 <= fd /\ (fd ∉ fds s) /\ fds s' = {[fd]} ∪ fds s.
Proof.
  intros Hav Hfam. unfold socket_create.
  assert ((socket_family_to_bsd family <? 0) || (socket_type_to_bsd type <? 0) = false) as ->.
  { by destruct family, type. }
  destruct (QSOCKET_CALL_ends (SysSocket (socket_family_to_bsd family) (socket_type_to_bsd type)) s ltac:(done))
    as (r & s' & -> & He). mon.
  pose proof (ended_fds _ _ _ _ He) as Hf. cbn in Hf. destruct (Z.ltb_spec (ret r) 0) as [Hr|Hr].
  - exfalso. destruct He as (s0 & _ & Ec & Hne). specialize (Hne Hr).
    unfold call in Ec. destruct (sys _ (os s0)) as [r0 o] eqn:E. injection Ec as <- <-. cbn in Hne.
    rewrite (proj2 (Z.ltb_lt _ _) Hr) in Hne. by apply Hne, (Hav _ _ _ _ _ E).
  - eexists _, _. split; [done|]. split; [lia|]. split; [|done]. eapply ended_fresh; eauto.
Qed.

(** What opening a pipe gives: the null pointer and nothing left, or a new pipe
    that is connecting or connected. *)
Lemma init_spec w hw address :
  sockets_available -> npwf w -> sock_address_get_family address <> SOCKET_UNSPEC ->
  exists r w', netPipe_initFromAddress hw address w = Ok (r, w') /\ npwf w' /\ nbrk w' = nbrk w + 1 /\
    (r = 0 /\ nheap w' = nheap w \/
     r = nbrk w /\ nheap w !! r = None /\ exists n, nheap w' = <[r := n]> (nheap w) /\ np_hwpipe n = hw /\
       (np_state n = STATE_CONNECTED \/ np_state n = STATE_CONNECTING /\ np_cstate n = CONNECT_CONNECTING)).
Proof.
  intros Hav Hw Hfam. pose proof (nw_brk _ Hw) as [Hb Hbrk].
  assert (Hnone : nheap w !! nbrk w = None).
  { apply eq_None_not_Some. intros Hx. specialize (Hbrk _ Hx). lia. }
  unfold netPipe_initFromAddress. cbn [nsock].
  destruct (create_available _ SOCKET_STREAM (nsock w) Hav Hfam) as (fd & s & -> & Hfd & Hnf & Hf). mon.
  rewrite (proj2 (Z.ltb_ge _ _) Hfd).
  cbn [nheap nlooper nbrk nsock opengles_init gles_fast_pipes rendererAddress].
  destruct (open_watch w fd hw s Hw Hfd Hnf Hf) as (w2 & io & E2 & Hw2 & Eb2 & Eh2).
  rewrite E2. mon.
  assert (Hn2 : nheap w2 !! nbrk w = Some (mkNetPipe hw STATE_INIT 0 io fd CONNECT_ERROR 0)).
  { rewrite Eh2. apply lookup_insert_eq. }
  destruct (connector_init_spec w2 (nbrk w) _ address Hw2 Hn2)
    as (st & w3 & n3 & -> & Hw3 & Eb3 & Eh3 & Eio & Efd & Ehw & Eww & Ecs). mon.
  rewrite Eh2, insert_insert_eq in Eh3. cbn in Eio, Efd, Ehw.
  assert (Hn3 : nheap w3 !! nbrk w = Some n3) by (rewrite Eh3; apply lookup_insert_eq).
  rewrite (mod_np_Ok (nbrk w) _ w3 n3) by (done || lia). mon.
  set (n4 := {| n3 with np_state := STATE_CONNECTING |}).
  set (w4 := {| w3 with nheap := <[nbrk w := n4]> (nheap w3) |}).
  assert (Hw4 : npwf w4) by (by eapply npwf_mod).
  assert (Hn4 : nheap w4 !! nbrk w = Some n4) by apply lookup_insert_eq.
  destruct st.
  - rewrite (mod_np_Ok (nbrk w) _ w4 n4) by (done || lia). mon.
    set (n5 := {| n4 with np_state := STATE_CONNECTED |}).
    destruct (resetState_spec {| w4 with nheap := <[nbrk w := n5]> (nheap w4) |} (nbrk w) n5) as (l & i & E5 & Hw5 & _).
    { by eapply npwf_mod. }
    { apply lookup_insert_eq. }
    rewrite E5. mon. eexists _, _. split; [done|]. split; [done|]. split; [cbn; congruence|]. right.
    split; [done|]. split; [done|]. exists n5. cbn. rewrite Eh3, !insert_insert_eq. split; [done|]. split; [done|]. by left.
  - destruct (free_spec w4 (nbrk w) n4 Hw4 Hn4) as (w5 & -> & Hw5 & Eh5 & Eb5). mon.
    eexists _, _. split; [done|]. split; [done|]. split; [cbn in Eb5; congruence|]. left. split; [done|].
    rewrite Eh5. cbn. rewrite Eh3, !insert_insert_eq. by apply delete_insert_id.
  - eexists _, _. split; [done|]. split; [done|]. split; [cbn; congruence|]. right. split; [done|].
    split; [done|]. exists n4. cbn. rewrite Eh3, insert_insert_eq. split; [done|]. split; [done|].
    right. split; [done|]. by apply Ecs.
Qed.
End netpipe.
