(* ===== verification/NetPipeTheorems.v ===== *)
(** * What the network services guarantee, and where they fail *)

From S2P Require Import Prelude IntrusiveList PipeDevice PipeDeviceProofs PipeDeviceTheorems LooperQemu LooperQemuProofs SockAddr SocketCalls SocketCallsProofs NetPipe NetPipeProofs.

Section theorems.
Context {O : Type} `{HO : Host O} {open_fds : O -> gset Z} `{!HostLaws O open_fds}.
Implicit Types (w : net O) (s : sock O) (m : machine (net O)).

Local Abbreviation fds := (fun s => open_fds (os s)).
Local Abbreviation npwf := (npwf (open_fds := open_fds)).

Definition net_live (w : net O) (p : Z) : Prop := is_Some (nheap w !! p).

Lemma net_live_insert w w' p n :
  nheap w' = <[p := n]> (nheap w) -> forall q, net_live w q -> net_live w' q.
Proof. intros E q Hq. unfold net_live in *. rewrite E. apply lookup_insert_is_Some'. auto. Qed.

(** ** The services keep the promises the device relies on *)

Lemma init_law (init : Z -> Z -> option (list Z) -> net O -> res (Z * net O)) :
  (forall hw op args w, npwf w -> exists r w', init hw op args w = Ok (r, w') /\ npwf w' /\
     (r = 0 /\ nheap w' = nheap w \/
      nheap w !! r = None /\ exists n, nheap w' = <[r := n]> (nheap w))) ->
  ServiceLaws npwf net_live (netPipe_funcs init).
Proof.
  intros Hinit. split.
  - intros hw op args w Hw. destruct (Hinit hw op args w Hw) as (r & w' & E & Hw' & Hr).
    exists r, w'. split; [done|]. split; [done|]. destruct Hr as [[-> Eh]|(Hnone & n & Eh)].
    + split; [|done]. unfold net_live. by rewrite Eh.
    + split; [by eapply net_live_insert|]. intros _. unfold net_live. rewrite Eh, Hnone, lookup_insert_eq.
      split; [eauto|by intros []].
  - intros f q w [= <-] Hw [n Hn]. destruct (free_spec w q n Hw Hn) as (w' & E & Hw' & Eh & _).
    exists w'. split; [done|]. split; [done|]. intros q' Hne Hq'. unfold net_live in *. rewrite Eh.
    by rewrite lookup_delete_ne.
  - intros q bufs w H1 Hw [n Hn]. destruct bufs as [|b [|]]; [done| |done].
    destruct (npwf_io w q n Hw Hn) as (Hq & _).
    destruct (sendBuffers_spec _ w q n b (socket_send_keeps (np_fd n)) Hn Hq) as (r & s' & E & Hr & Hf).
    eexists _, _. split; [exact E|]. split; [by apply npwf_sock|]. split; [done|]. rewrite concat_one.
    pose proof (s32_le (Z.of_nat (length b)) ltac:(lia)) as Hle.
    destruct Hr as [(_ & [->|[->|Hr]])|(_ & -> & Hr)]; unfold answer, PIPE_ERROR_IO, PIPE_ERROR_AGAIN; try lia.
    split; [|lia]. unfold netPipeReadySend. repeat case_match; done.
  - intros q sizes w H1 Hw [n Hn]. destruct sizes as [|z [|]]; [done| |done].
    destruct (npwf_io w q n Hw Hn) as (Hq & _).
    destruct (recvBuffers_spec (open_fds := open_fds) w q n z Hn Hq) as (r & data & s' & E & Hf & Hd & Hr).
    eexists _, _, _. split; [exact E|]. split; [by apply npwf_sock|]. split; [done|]. split.
    + intros i d Hi. destruct Hd as [->|(d' & -> & Hd)]; [done|].
      destruct i as [|i]; [|done]. injection Hi as ->. by exists z.
    + unfold answer. destruct Hr as [Hr|Hr]; [left; lia|by right].
  - intros q w Hw [n Hn]. destruct (poll_spec w q n Hw Hn) as (r & E). eexists _, _. split; [exact E|done].
  - intros q flags w Hw [n Hn]. destruct (wakeOn_spec w q n flags Hw Hn) as (w' & E & Hw' & Eh).
    exists w'. split; [done|]. split; [done|]. by eapply net_live_insert.
Qed.

Hypothesis Hav : sockets_available (O := O).

Lemma init_weak w hw address :
  npwf w -> sock_address_get_family address <> SOCKET_UNSPEC ->
  exists r w', netPipe_initFromAddress hw address w = Ok (r, w') /\ npwf w' /\
    (r = 0 /\ nheap w' = nheap w \/ nheap w !! r = None /\ exists n, nheap w' = <[r := n]> (nheap w)).
Proof.
  intros Hw Hf. destruct (init_spec w hw address Hav Hw Hf) as (r & w' & E & Hw' & _ & Hr).
  exists r, w'. split; [done|]. split; [done|]. destruct Hr as [?|(_ & Hn & n & Eh & _)]; [auto|right]. eauto.
Qed.

Lemma tcp_init_ok hw op args w : npwf w ->
  exists r w', netPipe_initTcp hw op args w = Ok (r, w') /\ npwf w' /\
    (r = 0 /\ nheap w' = nheap w \/ nheap w !! r = None /\ exists n, nheap w' = <[r := n]> (nheap w)).
Proof.
  intros Hw. unfold netPipe_initTcp. destruct args; [by apply init_weak|]. eexists _, _. split; [done|]. auto.
Qed.

Lemma unix_init_ok hw op args w : npwf w ->
  exists r w', netPipe_initUnix hw op args w = Ok (r, w') /\ npwf w' /\
    (r = 0 /\ nheap w' = nheap w \/ nheap w !! r = None /\ exists n, nheap w' = <[r := n]> (nheap w)).
Proof.
  intros Hw. unfold netPipe_initUnix.
  destruct args as [[|c a]|]; [eexists _, _; split; [done|]; auto|by apply init_weak|eexists _, _; split; [done|]; auto].
Qed.

Lemma opengles_init_ok hw op args w : npwf w ->
  exists r w', openglesPipe_init hw op args w = Ok (r, w') /\ npwf w' /\
    (r = 0 /\ nheap w' = nheap w \/ nheap w !! r = None /\ exists n, nheap w' = <[r := n]> (nheap w)).
Proof.
  intros Hw. unfold openglesPipe_init. destruct (negb (opengles_init w)).
  { eexists _, _. split; [done|]. auto. }
  set (pick := if gles_fast_pipes w then _ else _).
  assert (Hp : exists r w', pick = Ok (r, w') /\ npwf w' /\
    (r = 0 /\ nheap w' = nheap w \/ nheap w !! r = None /\ exists n, nheap w' = <[r := n]> (nheap w))).
  { unfold pick. destruct (gles_fast_pipes w); [by apply unix_init_ok|by apply tcp_init_ok]. }
  destruct Hp as (r & w' & -> & Hw' & Hr). mon. destruct (Z.eqb_spec r 0) as [->|Hr0]; cbn [negb].
  { eexists _, _. split; [done|]. auto. }
  destruct Hr as [[-> _]|(Hn & n & Eh)]; [done|].
  assert (Hr' : nheap w' !! r = Some n) by (rewrite Eh; apply lookup_insert_eq).
  rewrite (deref_Some _ _ n) by done. mon. unfold socket_set_nodelay1.
  destruct (socket_setoption _ _ _ _ (nsock w')) as [x s'] eqn:Es. apply setoption_keeps in Es.
  eexists _, _. split; [done|]. split; [by apply npwf_sock|]. cbn. right. eauto.
Qed.

Lemma net_services_laws sv : sv ∈ android_net_pipes_init (O := O) [] -> ServiceLaws npwf net_live (svc_funcs sv).
Proof.
  cbn. intros Hs. apply elem_of_cons in Hs as [->|Hs].
  { apply init_law. intros hw op args w. apply tcp_init_ok. }
  apply elem_of_cons in Hs as [->|Hs].
  { apply init_law. intros hw op args w. apply unix_init_ok. }
  apply list_elem_of_singleton in Hs as ->. apply init_law. intros hw op args w. apply opengles_init_ok.
Qed.

End theorems.

(** ** The bytes of a connection *)

(** [sent o fd] is what the host has accepted for sending on [fd]. *)
Class HostStream (O : Type) `{Host O} (sent : O -> Z -> list Z) : Prop := {
  law_stream : forall c o r o' fd, sys c o = (r, o') ->
    sent o' fd = sent o fd ++
      match c with
      | SysSend fd' b _ => if decide (fd' = fd) then take (Z.to_nat (ret r)) b else []
      | _ => []
      end
}.

Section stream.
Context {O : Type} `{HO : Host O} {open_fds : O -> gset Z} `{!HostLaws O open_fds}.
Context {sent : O -> Z -> list Z} `{!HostStream O sent}.
Implicit Types (w : net O) (s : sock O).

Local Abbreviation stream := (fun s fd => sent (os s) fd).

Lemma handle_send fd buf : forall fuel s r s',
  handle_eintr fuel (SysSend fd buf 0) s = Ok (r, s') ->
  stream s' fd = stream s fd ++ take (Z.to_nat (ret r)) buf.
Proof.
  induction fuel as [|fuel IH]; intros s r s' E; [done|]. cbn [handle_eintr] in E.
  destruct (call (SysSend fd buf 0) s) as [r1 s1] eqn:Ec.
  assert (H1 : stream s1 fd = stream s fd ++ take (Z.to_nat (ret r1)) buf).
  { unfold call in Ec. destruct (sys _ (os s)) as [r0 o] eqn:Es. injection Ec as <- <-. cbn.
    rewrite (law_stream _ _ _ _ fd Es). by rewrite decide_True. }
  destruct ((ret r1 <? 0) && (errno s1 =? EINTR)) eqn:Eb.
  - apply andb_true_iff in Eb as [Hr _]. apply Z.ltb_lt in Hr. apply IH in E. rewrite E, H1.
    replace (Z.to_nat (ret r1)) with 0%nat by lia. by rewrite app_nil_r.
  - by simplify_eq.
Qed.

(** A transfer appends what it says it sent. *)
Lemma socket_send_stream fd :
  send_law (fun s b s' => stream s' fd = stream s fd ++ b) fd.
Proof.
  split; [intros; by rewrite app_nil_r|]. split; [intros s a s1 b s2 E1 E2; by rewrite E2, E1, app_assoc|].
  intros buf s. destruct (socket_send_keeps (open_fds := open_fds) fd) as (_ & _ & Hk).
  destruct (Hk buf s) as (len & s' & E & Hl & _). exists len, s'. split; [done|]. split; [done|].
  unfold socket_send, SOCKET_CALL, QSOCKET_CALL, HANDLE_EINTR in E.
  apply bind_Ok in E as ((r & s1) & E1 & E2). apply handle_send in E1.
  destruct (Z.ltb_spec (ret r) 0) as [Hr|Hr].
  - injection E2 as <- <-. rewrite E1. cbn. by replace (Z.to_nat (ret r)) with 0%nat by lia.
  - by injection E2 as <- <-.
Qed.

(** C28.  What the guest writes to a connected network pipe reaches the socket
    in order: the answer is an error and nothing was sent, or the number of
    bytes the socket took, which are the first ones of the buffer; a pipe that
    is still connecting answers [PIPE_ERROR_AGAIN] and sends nothing. *)
Theorem net_send_stream w p n b :
  nheap w !! p = Some n -> p <> 0 -> Z.of_nat (length b) < 2 ^ 31 ->
  exists r w', netPipe_sendBuffers p [b] w = Ok (r, w') /\
    stream (nsock w') (np_fd n) = stream (nsock w) (np_fd n) ++ take (Z.to_nat r) b /\
    (np_state n = STATE_CONNECTED -> r = PIPE_ERROR_IO \/ r = PIPE_ERROR_AGAIN \/ 0 <= r <= Z.of_nat (length b)) /\
    (np_state n = STATE_CONNECTING -> r = PIPE_ERROR_AGAIN).
Proof.
  intros Hn Hp Hb.
  destruct (sendBuffers_spec _ w p n b (socket_send_stream (np_fd n)) Hn Hp) as (r & s' & E & Hr & Hs).
  eexists _, _. split; [exact E|]. split; [exact Hs|].
  destruct Hr as [[Hst Hok]|(Hst & -> & _)].
  - split; [|congruence]. intros _. unfold sent_ok in Hok. rewrite signed_small in Hok by lia. lia.
  - split; [done|]. intros E'. unfold netPipeReadySend. by rewrite E'.
Qed.
End stream.

(** ** Events *)

Section events.
Context {O : Type} `{HO : Host O} {open_fds : O -> gset Z} `{!HostLaws O open_fds}.
Implicit Types (w : net O) (s : sock O) (m : machine (net O)).

Local Abbreviation npwf := (npwf (open_fds := open_fds)).

(** What an event wakes: the requests of the guest that it satisfies. *)
Definition event_flags (n : NetPipe) (events : Z) : Z :=
  Z.lor (if flag_set events LOOP_IO_READ && flag_set (np_wakeWanted n) PIPE_WAKE_READ then PIPE_WAKE_READ else 0)
        (if flag_set events LOOP_IO_WRITE && flag_set (np_wakeWanted n) PIPE_WAKE_WRITE then PIPE_WAKE_WRITE else 0).

(** A change of the network pipes that keeps their invariant. *)
Lemma wf_net m w :
  wf npwf net_live m -> npwf w -> (forall q, net_live (world m) q -> net_live w q) ->
  wf npwf net_live {| m with world := w |}.
Proof. intros Hwf Hw Hl. eapply wf_kept; [exact Hwf|]. apply kept_world; [apply Hwf|done|done]. Qed.

Lemma wf_npwf m : wf npwf net_live m -> npwf (world m).
Proof. intros Hwf. apply (ok_world _ _ _ _ _ _ _ (wf_core _ _ _ Hwf)). Qed.

(** The end of an event: new wishes. *)
Lemma finish_event m p n :
  wf npwf net_live m -> nheap (world m) !! p = Some n ->
  exists m' i, with_world (netPipe_resetState p) m = Ok m' /\ wf npwf net_live m' /\ dev m' = dev m /\ pheap m' = pheap m /\
    nheap (world m') = nheap (world m) /\ nsock (world m') = nsock (world m) /\
    ioheap (nlooper (world m')) !! np_io n = Some i /\ io_wanted i = wishes n.
Proof.
  intros Hwf Hn. destruct (resetState_spec (world m) p n (wf_npwf m Hwf) Hn) as (l & i & E & Hw & _ & Hi & Ew).
  unfold with_world. rewrite E. mon. eexists _, i. split; [done|]. split; [by apply wf_net|]. done.
Qed.

(** Changing a field of a pipe that is not about its watcher. *)
Lemma set_np m p n (f : NetPipe -> NetPipe) :
  wf npwf net_live m -> nheap (world m) !! p = Some n -> np_io (f n) = np_io n -> np_fd (f n) = np_fd n ->
  exists m', with_world (mod_np p f) m = Ok m' /\ wf npwf net_live m' /\ dev m' = dev m /\ pheap m' = pheap m /\
    nheap (world m') = <[p := f n]> (nheap (world m)) /\ nsock (world m') = nsock (world m) /\
    nlooper (world m') = nlooper (world m).
Proof.
  intros Hwf Hn Eio Efd. pose proof (wf_npwf m Hwf) as Hw. destruct (npwf_io _ p n Hw Hn) as (Hp & _).
  unfold with_world. rewrite (mod_np_Ok p f _ n) by done. mon. eexists. split; [done|]. split; [|done].
  apply wf_net; [done|by eapply npwf_mod|]. by eapply net_live_insert.
Qed.


(** ** Failures *)

(** When the host has no socket to give, opening a network pipe does not
    fail: it dereferences the null class pointer of the watcher that
    [netPipe_free] releases although it was never initialised. *)
Theorem net_open_without_socket w hw address fd s :
  npwf w -> socket_create (sock_address_get_family address) SOCKET_STREAM (nsock w) = Ok (fd, s) -> fd < 0 ->
  netPipe_initFromAddress hw address w = Fault NullDeref.
Proof.
  intros Hw E Hfd. unfold netPipe_initFromAddress. cbn [nsock]. rewrite E. mon.
  rewrite (proj2 (Z.ltb_lt _ _) Hfd). unfold netPipe_free. cbn [nheap].
  pose proof (nw_brk _ Hw) as [Hb _].
  rewrite (deref_Some _ _ (mkNetPipe hw STATE_INIT 0 0 0 CONNECT_ERROR 0)) by (lia || apply lookup_insert_eq). done.
Qed.

Lemma get_error_keeps fd s e s' :
  socket_get_error fd s = Ok (e, s') -> open_fds (os s') = open_fds (os s).
Proof.
  unfold socket_get_error, socket_getoption.
  destruct (HANDLE_EINTR_ends (SysGetsockopt fd SOL_SOCKET SO_ERROR) s ltac:(done)) as (r & s1 & -> & He). mon.
  apply ended_fds in He. destruct (ret r =? 0); intros [= _ <-]; done.
Qed.

(** A pipe whose connection is under way. *)
Definition connecting (n : NetPipe) : Prop := np_state n = STATE_CONNECTING /\ np_cstate n = CONNECT_CONNECTING.

(** The connector finds that the connection failed. *)
Lemma connector_fails w p n e s :
  npwf w -> nheap w !! p = Some n -> np_cstate n = CONNECT_CONNECTING ->
  socket_get_error (np_fd n) (nsock w) = Ok (e, s) -> e <> 0 ->
  exists w', asyncConnector_run p w = Ok (ASYNC_ERROR, w') /\ npwf w' /\
    nheap w' = <[p := {| n with np_cerror := e; np_cstate := CONNECT_ERROR |}]> (nheap w).
Proof.
  intros Hw Hn Hcs Ee He. destruct (npwf_io _ p n Hw Hn) as (Hp & i & Hi & Hio & Es).
  unfold asyncConnector_run. rewrite (deref_Some _ _ n) by done. mon. rewrite Hcs.
  destruct (want_stat (clear_bit 2) (nlooper w) (np_io n) i (clear_bit_range 2 ltac:(auto)) (nw_looper _ Hw) Hi)
    as (l1 & i1 & E1 & Hl1 & Hb1 & Hs1 & _).
  change (qloopio_dontWantWrite (np_io n)) with (want (clear_bit 2) (np_io n)).
  unfold with_looper. rewrite E1. mon. cbn [nsock]. rewrite Ee. mon. cbn [nheap].
  rewrite (mod_np_Ok p _ _ n) by done. mon. rewrite (proj2 (Z.eqb_neq e 0) He).
  rewrite (mod_np_Ok p _ _ {| n with np_cerror := e |}) by (done || apply lookup_insert_eq). mon.
  cbn [nlooper nheap nsock nbrk opengles_init gles_fast_pipes rendererAddress]. rewrite insert_insert_eq.
  eexists. split; [done|]. split; [|done].
  set (w1 := {| w with nlooper := l1 |}).
  assert (Hw1 : npwf w1) by (apply npwf_looper; [done|done|apply Hb1, Hw|done]).
  set (n1 := {| n with np_cerror := e; np_cstate := CONNECT_ERROR |}).
  assert (Hw2 : npwf {| w1 with nheap := <[p := n1]> (nheap w1) |}) by (by eapply npwf_mod).
  refine (npwf_sock _ (mkSock e (os s)) Hw2 _). exact (get_error_keeps _ _ _ _ Ee).
Qed.

(** The connection fails: the pipe has given up its hardware pipe. *)
Lemma connect_fails m p n hn fd events e s :
  wf npwf net_live m -> nheap (world m) !! p = Some n -> connecting n -> pheap m !! np_hwpipe n = Some hn ->
  socket_get_error (np_fd n) (nsock (world m)) = Ok (e, s) -> e <> 0 ->
  exists m' n' i, netPipe_io_func p fd events m = Ok m' /\ wf npwf net_live m' /\
    nheap (world m') !! p = Some n' /\ np_state n' = STATE_CLOSING_SOCKET /\ np_hwpipe n' = 0 /\
    np_wakeWanted n' = np_wakeWanted n /\
    ioheap (nlooper (world m')) !! np_io n' = Some i /\ io_wanted i = wishes n'.
Proof.
  intros Hwf Hn [Hst Hcs] Hh Ee He. pose proof (wf_npwf m Hwf) as Hw.
  destruct (npwf_io _ p n Hw Hn) as (Hp & _).
  unfold netPipe_io_func. rewrite (deref_Some _ _ n) by done. mon. rewrite decide_True by done.
  destruct (connector_fails (world m) p n e s Hw Hn Hcs Ee He) as (w1 & E1 & Hw1 & Eh1). rewrite E1. mon.
  set (n1 := {| n with np_cerror := e; np_cstate := CONNECT_ERROR |}) in *.
  set (m1 := {| m with world := w1 |}).
  assert (Hwf1 : wf npwf net_live m1) by (apply wf_net; [done|done|by eapply net_live_insert]).
  assert (Hn1 : nheap (world m1) !! p = Some n1) by (cbn; rewrite Eh1; apply lookup_insert_eq).
  unfold netPipe_closeFromSocket. rewrite (deref_Some _ _ n1) by done. mon.
  rewrite decide_False by (cbn; by rewrite Hst).
  assert (Hh0 : np_hwpipe n <> 0) by (eapply (core_addr npwf net_live); [apply Hwf|eauto]).
  change (np_hwpipe n1) with (np_hwpipe n). rewrite (proj2 (Z.eqb_neq _ 0) Hh0). cbn [negb].
  destruct (close_wf npwf net_live m1 (np_hwpipe n) hn Hwf1 Hh) as (m2 & E2 & Hwf2). rewrite E2. mon.
  assert (Ew2 : world m2 = world m1).
  { unfold qemu_pipe_close in E2. rewrite (deref_Some _ _ hn) in E2 by done. mon. destruct (pipe_closed hn); [congruence|].
    rewrite (mod_pipe_Ok _ _ m1 hn) in E2 by done. mon.
    destruct (wf_lists _ _ _ Hwf1) as (lp & ls & Hl).
    set (m1' := {| m1 with pheap := _ |}) in E2.
    destruct (qemu_pipe_wake_spec m1' lp ls (np_hwpipe n) {| hn with pipe_closed := true |} PIPE_WAKE_CLOSED)
      as (m2' & E2' & _ & _ & (_ & _ & _ & _ & Ew) & _).
    { by apply (lists_insert m1 lp ls (np_hwpipe n) hn (fun n => {| n with pipe_closed := true |})). }
    { apply lookup_insert_eq. }
    replace m2 with m2' by congruence. exact Ew. }
  destruct (set_np m2 p n1 (fun n => {| n with np_hwpipe := 0 |}) Hwf2) as (m3 & E3 & Hwf3 & _ & _ & En3 & _ & _);
    [by rewrite Ew2|done|done|]. rewrite E3. mon.
  destruct (set_np m3 p {| n1 with np_hwpipe := 0 |} (fun n => {| n with np_state := STATE_CLOSING_SOCKET |}) Hwf3)
    as (m4 & E4 & Hwf4 & _ & _ & En4 & _ & _); [rewrite En3; apply lookup_insert_eq|done|done|]. rewrite E4. mon.
  set (n4 := {| n1 with np_hwpipe := 0; np_state := STATE_CLOSING_SOCKET |}).
  assert (Hn4 : nheap (world m4) !! p = Some n4) by (rewrite En4; apply lookup_insert_eq).
  destruct (finish_event m4 p n4 Hwf4 Hn4) as (m5 & i5 & E5 & Hwf5 & _ & _ & En5 & _ & Hi5 & Ew5).
  exists m5, n4, i5. rewrite En5. done.
Qed.

(** C31.  Two defects of a pipe that is still connecting.  If the guest waits to
    write and the connection is refused, the pipe drops its hardware pipe but
    still watches for writing, and the next event, which a failed socket
    reports at once, uses the null pointer.  If the guest waits to read only,
    the request cancels the watch for the end of the connection: nothing
    handles the descriptor any more, so the pipe stays connecting for ever. *)
Theorem net_connecting_defects m p n hn fd events e s :
  wf npwf net_live m -> nheap (world m) !! p = Some n -> connecting n -> pheap m !! np_hwpipe n = Some hn ->
  socket_get_error (np_fd n) (nsock (world m)) = Ok (e, s) -> e <> 0 ->
  (flag_set (np_wakeWanted n) PIPE_WAKE_WRITE = true ->
   exists m' n' i, netPipe_io_func p fd events m = Ok m' /\ nheap (world m') !! p = Some n' /\
     ioheap (nlooper (world m')) !! np_io n' = Some i /\ flag_set (io_wanted i) LOOP_IO_WRITE = true /\
     forall ev, flag_set ev LOOP_IO_WRITE = true -> netPipe_io_func p fd ev m' = Fault NullDeref) /\
  (np_wakeWanted n = 0 ->
   exists w', netPipe_wakeOn p PIPE_WAKE_READ (world m) = Ok w' /\
     (exists n', nheap w' !! p = Some n' /\ connecting n') /\
     forall rd wr, main_loop_ready (np_fd n) rd wr (nlooper w') = Ok (nlooper w')).
Proof.
  intros Hwf Hn Hc Hh Ee He. pose proof (wf_npwf m Hwf) as Hw.
  destruct (npwf_io _ p n Hw Hn) as (Hp & _). split.
  - intros Hwr. destruct (connect_fails m p n hn fd events e s Hwf Hn Hc Hh Ee He)
      as (m' & n' & i & E & Hwf' & Hn' & Hst' & Hhw' & Hww' & Hi & Ew).
    exists m', n', i. split; [done|]. split; [done|]. split; [done|]. split.
    + rewrite Ew. unfold wishes. rewrite Hww', Hwr, Hst'. done.
    + intros ev Hev. unfold netPipe_io_func. rewrite (deref_Some _ _ n') by done. mon.
      rewrite decide_False by (by rewrite Hst'). rewrite Hev, Hww', Hwr. cbn [andb].
      destruct (flag_set ev LOOP_IO_READ && flag_set (np_wakeWanted n) PIPE_WAKE_READ); cbn;
        unfold qemu_pipe_wake; rewrite Hhw'; done.
  - intros Hww. unfold netPipe_wakeOn. rewrite (mod_np_Ok p _ _ n) by done. mon.
    set (n' := {| n with np_wakeWanted := _ |}).
    destruct (resetState_spec (open_fds := open_fds) {| (world m) with nheap := <[p := n']> (nheap (world m)) |} p n')
      as (l & i & E & Hw' & _ & Hi & Ew).
    { by eapply npwf_mod. } { apply lookup_insert_eq. }
    rewrite E. eexists. split; [done|]. split.
    + exists n'. split; [apply lookup_insert_eq|exact Hc].
    + intros rd wr. cbn [nlooper]. destruct (nw_looper _ Hw') as (la & lp & Hl). cbn [nlooper] in Hl.
      pose proof (ic_handler _ _ _ (lw_core _ _ _ Hl) _ _ (iview_Some _ _ _ Hi)) as Hhd.
      destruct (nw_pipe _ Hw' p n' (lookup_insert_eq _ _ _)) as [Hs _]. cbn [nlooper] in Hs.
      rewrite (stat_lookup _ _ _ Hi) in Hs. injection Hs as Hs _. cbn in Hhd, Hs. rewrite Hs in Hhd.
      unfold main_loop_ready. rewrite Hhd, Ew. unfold wishes. cbn [np_wakeWanted np_state n'].
      rewrite Hww. destruct Hc as [Hst _]. rewrite Hst. done.
Qed.
End events.
