(* ===== verification/NetPipeWitnesses.v ===== *)
(** * Concrete runs of the network services

    The guest opens channel 5, connects it to ["tcp:5555"] and asks to be woken,
    on a host whose calls are those of [Toy] and on one without sockets. *)

From S2P Require Import Prelude IntrusiveList PipeDevice PipeDeviceProofs PipeDeviceTheorems LooperQemu LooperQemuProofs LooperQemuTheorems SockAddr SocketCalls SocketCallsProofs NetPipe NetPipeProofs NetPipeTheorems.

Local Abbreviation npwf := (npwf (open_fds := Toy.open_fds)).

(** ["tcp:5555"] *)
Definition tcp_name : list Z := [116; 99; 112; 58; 53; 53; 53; 53].
Definition net_ram : gmap Z Z := write_mem ∅ 64 (pipe_prefix ++ tcp_name ++ [0]).

(** [refused]: the connection is in progress and will fail with [ECONNREFUSED]. *)
Definition toy_world (refused : bool) : net Toy.host :=
  mkNet looper_newCore ∅ (mkSock 0 (Toy.mkHost 3 ∅ 2 refused (if refused then 111 else 0) ∅ ∅)) 1 false false [].
Definition net_start (refused : bool) : machine (net Toy.host) :=
  qemu_pipe_initfn (android_net_pipes_init []) net_ram (toy_world refused).

Definition open_tcp (wake : list Z) : list access :=
  [GuestWrite PIPE_REG_CHANNEL 5; GuestWrite PIPE_REG_COMMAND PIPE_CMD_OPEN;
   GuestWrite PIPE_REG_ADDRESS 64; GuestWrite PIPE_REG_SIZE 14;
   GuestWrite PIPE_REG_COMMAND PIPE_CMD_WRITE_BUFFER] ++ (GuestWrite PIPE_REG_COMMAND <$> wake).
Definition net_run (refused : bool) (wake : list Z) : machine (net Toy.host) :=
  match exec_all Loopback.phys (open_tcp wake) (net_start refused) with Ok m => m | Fault _ => net_start refused end.

Lemma toy_sockets : sockets_available (O := Toy.host).
Proof.
  intros a b o r o' E Hr. cbn in E. destruct (Toy.toy_signals o); [|by simplify_eq].
  apply Toy.new_fd_open in E as (? & _). lia.
Qed.

#[global] Instance toy_stream : HostStream Toy.host (fun h fd => default [] (Toy.toy_sent h !! fd)).
Proof.
  split. intros c o r o' fd E. cbn in E. unfold Toy.step, Toy.new_fd in E.
  destruct c; repeat case_match; simplify_eq; cbn [Toy.toy_sent ret]; rewrite ?app_nil_r; try done.
  all: try (by replace (Z.to_nat (-1)) with 0%nat by lia; rewrite app_nil_r).
  - rewrite lookup_insert_eq, Nat2Z.id, firstn_all. done.
  - rewrite lookup_insert_ne by done. done.
Qed.

Lemma toy_world_wf refused : npwf (toy_world refused).
Proof.
  split; cbn.
  - apply newCore_good.
  - apply newCore_good.
  - intros p n. by rewrite lookup_empty.
  - intros q fd p. unfold stat. cbn. by rewrite fmap_empty, lookup_empty.
  - split; [lia|]. intros p [x Hx]. by rewrite lookup_empty in Hx.
Qed.

Definition is_ok {A} (r : res A) : bool := match r with Ok _ => true | Fault _ => false end.

Lemma net_run_reachable refused wake :
  is_ok (exec_all Loopback.phys (open_tcp wake) (net_start refused)) = true ->
  reachable Loopback.phys (net_start refused) (net_run refused wake).
Proof.
  intros H. unfold net_run. destruct (exec_all _ _ _) as [m|] eqn:E; [|done].
  eapply guest_run_reachable; [|exact E]. unfold open_tcp. rewrite forallb_app. cbn [forallb guest_only andb].
  clear. by induction wake.
Qed.

Lemma net_run_wf refused wake :
  is_ok (exec_all Loopback.phys (open_tcp wake) (net_start refused)) = true ->
  wf npwf net_live (net_run refused wake).
Proof.
  intros H. eapply reachable_inv; [|by apply net_run_reachable].
  apply initfn_wf; [|apply toy_world_wf]. intros sv. apply net_services_laws, toy_sockets.
Qed.


(** The pipes of the runs. *)
Definition np_after (wanted : Z) (refused : bool) : NetPipe :=
  mkNetPipe 1 (if refused then STATE_CONNECTING else STATE_CONNECTED) wanted 1 3
    (if refused then CONNECT_CONNECTING else CONNECT_COMPLETED) 0.
Definition hw_after (wanted : Z) : Pipe :=
  mkPipe 0 0 5 1 (FuncsService 0) (Some 0%nat) (Some [53; 53; 53; 53]) wanted false.

Lemma net_send_stream_witness :
  exists r w', netPipe_sendBuffers 1 [[1; 2; 3]] (world (net_run false [])) = Ok (r, w') /\
    default [] (Toy.toy_sent (os (nsock w')) !! 3) =
      default [] (Toy.toy_sent (os (nsock (world (net_run false [])))) !! 3) ++ take (Z.to_nat r) [1; 2; 3].
Proof.
  destruct (net_send_stream (open_fds := Toy.open_fds) (world (net_run false [])) 1 (np_after 0 false) [1; 2; 3])
    as (r & w' & E & Hs & _); [vm_compute; reflexivity|lia|cbn; lia|]. eauto.
Defined.


(** A host whose table of descriptors is full. *)
Module Full.
#[global] Instance full_host : Host unit := {| sys c h := (mkRes (-1) 24 [] [], h); signals _ := 0%nat |}.
#[global] Instance full_laws : HostLaws unit (fun _ => ∅).
Proof.
  split; try (intros; cbn in *; simplify_eq; cbn in *; lia || done).
  intros c o r o' E. cbn in E. simplify_eq. destruct c; cbn; try done. set_solver.
Qed.
Definition world : net unit := mkNet looper_newCore ∅ (mkSock 0 tt) 1 false false [].
End Full.

Lemma net_open_without_socket_witness :
  netPipe_initFromAddress 1 (sock_address_init_inet SOCK_ADDRESS_INET_LOOPBACK 5555) Full.world = Fault NullDeref.
Proof.
  apply (net_open_without_socket (open_fds := fun _ => ∅) Full.world 1 _ (-1) (mkSock 24 tt)).
  - split; cbn; [apply newCore_good|apply newCore_good| | |].
    + intros p n. by rewrite lookup_empty.
    + intros q fd p. unfold stat. cbn. by rewrite fmap_empty, lookup_empty.
    + split; [lia|]. intros p [x Hx]. by rewrite lookup_empty in Hx.
  - vm_compute. reflexivity.
  - lia.
Defined.

Lemma net_connecting_defects_witness :
  (exists m' n' i, netPipe_io_func 1 3 LOOP_IO_WRITE (net_run true [PIPE_CMD_WAKE_ON_WRITE]) = Ok m' /\
     nheap (world m') !! 1 = Some n' /\ ioheap (nlooper (world m')) !! np_io n' = Some i /\
     flag_set (io_wanted i) LOOP_IO_WRITE = true /\
     forall ev, flag_set ev LOOP_IO_WRITE = true -> netPipe_io_func 1 3 ev m' = Fault NullDeref) /\
  exists w', netPipe_wakeOn 1 PIPE_WAKE_READ (world (net_run true [])) = Ok w' /\
    (exists n', nheap w' !! 1 = Some n' /\ connecting n') /\
    forall rd wr, main_loop_ready 3 rd wr (nlooper w') = Ok (nlooper w').
Proof.
  split.
  - apply (net_connecting_defects (open_fds := Toy.open_fds) (net_run true [PIPE_CMD_WAKE_ON_WRITE]) 1
      (np_after 4 true) (hw_after 4) 3 LOOP_IO_WRITE 111 (nsock (world (net_run true [PIPE_CMD_WAKE_ON_WRITE]))));
      [apply net_run_wf| |split| | | |]; try (vm_compute; reflexivity); try discriminate.
  - apply (net_connecting_defects (open_fds := Toy.open_fds) (net_run true []) 1
      (np_after 0 true) (hw_after 0) 3 LOOP_IO_WRITE 111 (nsock (world (net_run true []))));
      [apply net_run_wf| |split| | | |]; try (vm_compute; reflexivity); try discriminate.
Defined.
