(* ===== verification/Refset.v ===== *)
(** * Sets of pointers ([android/refset.c], [android/refset.h], [android/vector.h])

    A hash set with open addressing: an item is looked for from the bucket its
    address hashes to, in steps of five buckets, up to the item or to an empty
    bucket.  A bucket holds a pointer, [NULL] or the mark [AREFSET_DELETED] that
    a deletion leaves while the set is being iterated over. *)

From S2P Require Import Prelude.

Definition AREFSET_STEP := 5.
Definition AREFSET_DELETED := 2 ^ 64 - 1.

(** [ARefSet]: the vector of buckets with its two counters. *)
Record ARefSet : Type := mkRefSet {
  buckets : list Z;
  num_buckets : Z;
  max_buckets : Z;
  iteration : Z
}.

(** [AVECTOR_INIT]; the set is part of a zeroed object *)
Definition arefSet_init : ARefSet := mkRefSet [] 0 0 0.
(** [AVECTOR_INIT_ALLOC(s, buckets, count)] *)
Definition vector_init_alloc (count : Z) (s : ARefSet) : ARefSet :=
  {| s with buckets := replicate (Z.to_nat count) 0; num_buckets := 0; max_buckets := count |}.
(** [AVECTOR_CLEAR] forgets the number of items and leaves the buckets. *)
Definition arefSet_clear (s : ARefSet) : ARefSet := {| s with num_buckets := 0; iteration := 0 |}.
Definition arefSet_done (s : ARefSet) : ARefSet := {| s with buckets := []; num_buckets := 0; max_buckets := 0 |}.
Definition arefSet_count (s : ARefSet) : Z := s32 (num_buckets s).

(** [uint32_t _arefSet_hashItem(item)] *)
Definition _arefSet_hashItem (item : Z) : Z :=
  Z.lxor (Z.shiftr (u32 item) 2) (u32 (Z.shiftr (u64 item) 32)).

Definition bucket (s : ARefSet) (index : Z) : res Z := of_opt OutOfBounds (buckets s !! Z.to_nat index).
Definition set_bucket (index v : Z) (s : ARefSet) : ARefSet :=
  {| s with buckets := <[Z.to_nat index := v]> (buckets s) |}.

(** [void** _arefSet_lookup(s, item)]: the index of the bucket.  A table of [n]
    buckets has [n] places to look at: after [n + 1] steps the loop never ends. *)
Fixpoint lookup_loop (fuel : nat) (s : ARefSet) (item index : Z) : res Z :=
  match fuel with
  | O => Fault OutOfFuel
  | S fuel' =>
      v ← bucket s index;
      if (v =? item) || (v =? 0) then Ok index
      else
        let index := u32 (index + AREFSET_STEP) in
        let index := if index >=? max_buckets s then index - max_buckets s else index in
        lookup_loop fuel' s item index
  end.
Definition _arefSet_lookup (s : ARefSet) (item : Z) : res Z :=
  lookup_loop (S (Z.to_nat (max_buckets s))) s item (Z.land (_arefSet_hashItem item) (u32 (max_buckets s - 1))).

(** [void** _arefSet_lookupInsert(s, item)] *)
Fixpoint insert_loop (fuel : nat) (s : ARefSet) (item index : Z) (insert : option Z) : res Z :=
  match fuel with
  | O => Fault OutOfFuel
  | S fuel' =>
      v ← bucket s index;
      let next := Z.land (u32 (index + AREFSET_STEP)) (u32 (max_buckets s - 1)) in
      if v =? 0 then Ok (default index insert)
      else if v =? AREFSET_DELETED then
        insert_loop fuel' s item next (Some (default index insert))
      else if v =? item then Ok index
      else insert_loop fuel' s item next insert
  end.
Definition _arefSet_lookupInsert (s : ARefSet) (item : Z) : res Z :=
  insert_loop (S (Z.to_nat (max_buckets s))) s item (Z.land (_arefSet_hashItem item) (u32 (max_buckets s - 1))) None.

(** [ABool arefSet_has(s, item)] *)
Definition arefSet_has (s : ARefSet) (item : Z) : res bool :=
  if (item =? 0) || (max_buckets s =? 0) then Ok false
  else
    lookup ← _arefSet_lookup s item;
    v ← bucket s lookup;
    Ok (v =? item).

(** [void _arefSet_resize(s, newSize)] *)
Fixpoint rehash (items : list Z) (newSet : ARefSet) : res ARefSet :=
  match items with
  | [] => Ok newSet
  | item :: items' =>
      if negb (item =? 0) && negb (item =? AREFSET_DELETED) then
        lookup ← _arefSet_lookup newSet item;
        rehash items' (set_bucket lookup item newSet)
      else rehash items' newSet
  end.
Definition _arefSet_resize (s : ARefSet) (newSize : Z) : res ARefSet :=
  newSet ← rehash (buckets s) (vector_init_alloc newSize (mkRefSet [] 0 0 0));
  Ok {| s with buckets := buckets newSet; max_buckets := max_buckets newSet |}.

(** [s->num_buckets > s->max_buckets*0.85] and [... < ...*0.25].  The sizes are
    powers of two, so the product with the [double] 0.85 is never within
    rounding of an integer. *)
Definition overloaded (num max : Z) : bool := 17 * max <? 20 * num.
Definition underloaded (num max : Z) : bool := 4 * num <? max.

(** [void arefSet_add(s, item)] *)
Definition arefSet_add (item : Z) (s : ARefSet) : res ARefSet :=
  if item =? 0 then Ok s
  else
    let s := if max_buckets s =? 0 then vector_init_alloc 4 s else s in
    lookup ← _arefSet_lookupInsert s item;
    v ← bucket s lookup;
    if v =? item then Ok s
    else
      let s := set_bucket lookup item s in
      let s := {| s with num_buckets := u32 (num_buckets s + 1) |} in
      if (iteration s =? 0) && overloaded (num_buckets s) (max_buckets s)
      then _arefSet_resize s (u32 (max_buckets s * 2)) else Ok s.

(** [void arefSet_del(s, item)] *)
Definition arefSet_del (item : Z) (s : ARefSet) : res ARefSet :=
  if (item =? 0) || (max_buckets s =? 0) then Ok s
  else
    lookup ← _arefSet_lookup s item;
    v ← bucket s lookup;
    if negb (v =? item) then Ok s
    else
      let n := u32 (num_buckets s - 1) in
      if iteration s =? 0 then
        let s := {| (set_bucket lookup 0 s) with num_buckets := n |} in
        if underloaded n (max_buckets s) then _arefSet_resize s (max_buckets s / 2) else Ok s
      else
        Ok {| (set_bucket lookup AREFSET_DELETED s) with num_buckets := n; iteration := Z.lor (iteration s) 1 |}.

(** [void _arefSet_removeDeferred(s)]: the size is halved at most 32 times. *)
Fixpoint halve (fuel : nat) (num newSize : Z) : Z :=
  match fuel with
  | O => newSize
  | S fuel' => if underloaded num newSize then halve fuel' num (newSize / 2) else newSize
  end.
Definition _arefSet_removeDeferred (s : ARefSet) : res ARefSet :=
  let s := {| s with buckets := (fun v => if v =? AREFSET_DELETED then 0 else v) <$> buckets s; iteration := 0 |} in
  let newSize := halve 33 (num_buckets s) (max_buckets s) in
  if newSize =? max_buckets s then Ok s else _arefSet_resize s newSize.

(** [AREFSET_FOREACH(set, item, statement)] on the set [get st] of a program
    state [st]: the number of buckets is read before, each bucket when its turn
    comes. *)
Section foreach.
Context {S : Type} (get : S -> ARefSet) (put : ARefSet -> S -> S).
Context (body : Z -> S -> res S).

Fixpoint foreach_loop (indexes : list Z) (st : S) : res S :=
  match indexes with
  | [] => Ok st
  | nn :: indexes' =>
      item ← bucket (get st) nn;
      if (item =? 0) || (item =? AREFSET_DELETED) then foreach_loop indexes' st
      else st ← body item st; foreach_loop indexes' st
  end.

Definition arefSet_foreach (st : S) : res S :=
  let max := s32 (max_buckets (get st)) in
  let st := put {| (get st) with iteration := iteration (get st) + 2 |} st in
  st ← foreach_loop (seqZ 0 max) st;
  let s := {| (get st) with iteration := iteration (get st) - 2 |} in
  if iteration s =? 1 then s ← _arefSet_removeDeferred s; Ok (put s st) else Ok (put s st).
End foreach.
