(* ===== verification/RefsetProofs.v ===== *)
(** * Sets of pointers: what holds of the table, and where the code breaks it *)

From S2P Require Import Prelude Refset.

(** ** Probing *)

(** The [i]-th bucket that is looked at for [x] in a table of [m] buckets. *)
Definition probe (m x i : Z) : Z := (_arefSet_hashItem x + AREFSET_STEP * i) mod m.

Lemma probe_range m x i : 0 < m -> 0 <= probe m x i < m.
Proof. intros. by apply Z.mod_pos_bound. Qed.

Lemma land_mask a k m : 0 <= k < 32 -> m = 2 ^ k -> Z.land a (u32 (m - 1)) = a mod m.
Proof.
  intros Hk ->. assert (2 ^ k <= 2 ^ 31) by (apply Z.pow_le_mono_r; lia).
  assert (0 < 2 ^ k) by (apply Z.pow_pos_nonneg; lia).
  unfold wrap. rewrite Z.mod_small by lia. replace (2 ^ k - 1) with (Z.ones k) by (rewrite Z.ones_equiv; lia).
  apply Z.land_ones. lia.
Qed.

Lemma probe_succ m x i : 0 < m -> (probe m x i + AREFSET_STEP) mod m = probe m x (i + 1).
Proof.
  intros. unfold probe. rewrite Z.add_mod_idemp_l by lia. f_equal. lia.
Qed.

(** Five has an inverse modulo a power of two, so every bucket is looked at. *)
Lemma step_inverse k : 0 <= k -> exists u v, AREFSET_STEP * u = 1 + v * 2 ^ k.
Proof.
  revert k. apply natlike_ind; [exists 1, 4; done|]. intros k Hk (u & v & E). rewrite Z.pow_succ_r by done.
  destruct (Z.Even_or_Odd v) as [[w ->]|[w ->]].
  - exists u, w. rewrite E. ring.
  - exists (u + 2 ^ k), (w + 3). unfold AREFSET_STEP in *. lia.
Qed.

Lemma probe_covers k m x j :
  0 <= k -> m = 2 ^ k -> 0 <= j < m -> exists i, 0 <= i < m /\ probe m x i = j.
Proof.
  intros Hk -> Hj. destruct (step_inverse k Hk) as (u & v & E). set (m := 2 ^ k) in *.
  exists (((j - _arefSet_hashItem x) * u) mod m). split; [apply Z.mod_pos_bound; lia|]. unfold probe.
  rewrite <- Z.add_mod_idemp_r, Z.mul_mod_idemp_r, Z.add_mod_idemp_r by lia.
  replace (_arefSet_hashItem x + AREFSET_STEP * ((j - _arefSet_hashItem x) * u))
    with (j + v * (j - _arefSet_hashItem x) * m).
  - rewrite Z.mod_add by lia. by apply Z.mod_small.
  - replace (AREFSET_STEP * ((j - _arefSet_hashItem x) * u)) with ((j - _arefSet_hashItem x) * (AREFSET_STEP * u)) by ring.
    rewrite E. ring.
Qed.

(** ** Tables *)

Definition at_ (b : list Z) (i : Z) : option Z := b !! Z.to_nat i.
Definition pointer (x : Z) : Prop := x <> 0 /\ x <> AREFSET_DELETED.
#[global] Instance pointer_dec x : Decision (pointer x).
Proof. unfold pointer. apply _. Defined.

(** The items of a table. *)
Definition live (b : list Z) : list Z := filter pointer b.

(** Looking for [x] stops at the [i]-th place. *)
Definition stops (b : list Z) (m x i : Z) : Prop := at_ b (probe m x i) = Some x \/ at_ b (probe m x i) = Some 0.
Definition first_stop (b : list Z) (m x i : Z) : Prop :=
  0 <= i < m /\ stops b m x i /\ forall j, 0 <= j < i -> ~ stops b m x j.

(** A table of [m] buckets: every item is where looking for it stops. *)
Record sized (b : list Z) (m : Z) : Prop := {
  t_size : exists k, 2 <= k < 32 /\ m = 2 ^ k;
  t_length : Z.of_nat (length b) = m
}.
Record table (b : list Z) (m : Z) : Prop := {
  t_sized :> sized b m;
  t_chain : forall n x, b !! n = Some x -> pointer x -> exists i, first_stop b m x i /\ probe m x i = Z.of_nat n;
  t_nodup : NoDup (live b)
}.

Lemma table_pos b m : sized b m -> 4 <= m <= 2 ^ 31.
Proof.
  intros [(k & Hk & ->) _]. split.
  - change 4 with (2 ^ 2). apply Z.pow_le_mono_r; lia.
  - apply Z.pow_le_mono_r; lia.
Qed.

Lemma table_at b m i : sized b m -> 0 <= i < m -> exists v, at_ b i = Some v.
Proof.
  intros Ht Hi. pose proof (t_length _ _ Ht). unfold at_. apply lookup_lt_is_Some. lia.
Qed.

Lemma live_elem b x : x ∈ live b <-> x ∈ b /\ pointer x.
Proof. unfold live. rewrite list_elem_of_filter. tauto. Qed.

Lemma stops_dec b m x i : {stops b m x i} + {~ stops b m x i}.
Proof. unfold stops. apply (decide _). Defined.

Lemma first_from b m x n : forall i,
  (exists j, i <= j < i + Z.of_nat n /\ stops b m x j) ->
  exists j, i <= j < i + Z.of_nat n /\ stops b m x j /\ forall j', i <= j' < j -> ~ stops b m x j'.
Proof.
  induction n as [|n IH]; intros i (j & Hj & Hs); [lia|].
  destruct (stops_dec b m x i) as [Hi|Hi]; [exists i; split; [lia|]; split; [done|lia]|].
  assert (j <> i) by (by intros ->).
  destruct (IH (i + 1)) as (j' & Hj' & Hs' & Hf); [exists j; split; [lia|done]|].
  exists j'. split; [lia|]. split; [done|]. intros i' Hi'. destruct (decide (i' = i)) as [->|]; [done|apply Hf; lia].
Qed.

(** With an empty bucket the search stops. *)
Lemma first_stop_exists b m x : table b m -> 0 ∈ b -> exists i, first_stop b m x i.
Proof.
  intros Ht [n Hn]%list_elem_of_lookup. pose proof (table_pos _ _ Ht).
  destruct (t_size _ _ Ht) as (k & Hk & Em). pose proof (t_length _ _ Ht). apply lookup_lt_Some in Hn as Hl.
  destruct (probe_covers k m x (Z.of_nat n)) as (i & Hi & Ei); [lia|done|lia|].
  destruct (first_from b m x (Z.to_nat m) 0) as (j & Hj & Hs & Hf).
  { exists i. split; [lia|]. right. unfold at_. by rewrite Ei, Nat2Z.id. }
  exists j. split; [lia|]. split; [done|]. intros j' Hj'. apply Hf. lia.
Qed.

Lemma first_stop_unique b m x i j : first_stop b m x i -> first_stop b m x j -> i = j.
Proof.
  intros ([Hi _] & Hsi & Hfi) ([Hj _] & Hsj & Hfj).
  destruct (Z_lt_le_dec i j); [by destruct (Hfj i); [lia|]|].
  destruct (Z_lt_le_dec j i); [by destruct (Hfi j); [lia|]|lia].
Qed.

(** The search finds [x] iff it is in the table. *)
Lemma first_stop_found b m x i :
  table b m -> pointer x -> first_stop b m x i -> (at_ b (probe m x i) = Some x <-> x ∈ live b).
Proof.
  intros Ht Hx Hi. rewrite live_elem. split.
  - intros E. split; [|done]. unfold at_ in E. by eapply list_elem_of_lookup_2.
  - intros [[n Hn]%list_elem_of_lookup _]. destruct (t_chain _ _ Ht n x Hn Hx) as (j & Hj & Ej).
    rewrite (first_stop_unique _ _ _ _ _ Hi Hj). unfold at_. by rewrite Ej, Nat2Z.id.
Qed.

(** ** The two searches of the code *)

Lemma bucket_at s i v : at_ (buckets s) i = Some v -> bucket s i = Ok v.
Proof. unfold at_, bucket. by intros ->. Qed.

Lemma stops_at s m x i v :
  at_ (buckets s) (probe m x i) = Some v -> (stops (buckets s) m x i <-> v = x \/ v = 0).
Proof. unfold stops. intros ->. naive_solver. Qed.

(** The next place, computed with a subtraction or with a mask. *)
Lemma next_by_subtraction m x i :
  8 <= m <= 2 ^ 31 ->
  (let index := u32 (probe m x i + AREFSET_STEP) in if index >=? m then index - m else index) = probe m x (i + 1).
Proof.
  intros Hm. pose proof (probe_range m x i ltac:(lia)). cbv zeta. unfold wrap. rewrite Z.mod_small by (unfold AREFSET_STEP; lia).
  rewrite <- probe_succ by lia. unfold AREFSET_STEP in *. destruct (Z.geb_spec (probe m x i + 5) m).
  - apply (Z.mod_unique_pos _ _ 1); lia.
  - by rewrite Z.mod_small by lia.
Qed.

Lemma next_by_mask k m x i :
  2 <= k < 32 -> m = 2 ^ k -> m <= 2 ^ 31 ->
  Z.land (u32 (probe m x i + AREFSET_STEP)) (u32 (m - 1)) = probe m x (i + 1).
Proof.
  intros Hk Em Hm. assert (0 < m) by (subst; apply Z.pow_pos_nonneg; lia).
  pose proof (probe_range m x i ltac:(lia)). rewrite (land_mask _ k) by (lia || done).
  unfold wrap at 1. rewrite (Z.mod_small _ (2 ^ 32)) by (unfold AREFSET_STEP; lia). apply probe_succ. lia.
Qed.

Lemma lookup_loop_stops s x i : forall n fuel j,
  sized (buckets s) (max_buckets s) -> 8 <= max_buckets s ->
  first_stop (buckets s) (max_buckets s) x i -> 0 <= j -> i = j + Z.of_nat n -> (n < fuel)%nat ->
  lookup_loop fuel s x (probe (max_buckets s) x j) = Ok (probe (max_buckets s) x i).
Proof.
  intros n. induction n as [|n IH]; intros fuel j Ht Hm Hi Hj E Hf; (destruct fuel as [|fuel]; [lia|]);
    pose proof (table_pos _ _ Ht) as Hpos;
    destruct (table_at _ _ _ Ht (probe_range (max_buckets s) x j ltac:(lia))) as (v & Hv);
    pose proof (stops_at _ _ _ _ _ Hv) as Hst; cbn [lookup_loop]; rewrite (bucket_at _ _ v Hv); mon;
    pose proof Hi as (Hir & Hs & Hns).
  - replace i with j in * by lia. apply Hst in Hs. by replace ((v =? x) || (v =? 0)) with true by lia.
  - assert (Hn : ~ stops (buckets s) (max_buckets s) x j) by (apply Hns; lia). rewrite Hst in Hn.
    replace ((v =? x) || (v =? 0)) with false by lia.
    rewrite next_by_subtraction by lia. apply IH; try done; lia.
Qed.

(** [_arefSet_lookup] returns where the search stops. *)
Lemma lookup_spec s x i :
  sized (buckets s) (max_buckets s) -> 8 <= max_buckets s ->
  first_stop (buckets s) (max_buckets s) x i -> _arefSet_lookup s x = Ok (probe (max_buckets s) x i).
Proof.
  intros Ht Hm Hi. unfold _arefSet_lookup. destruct (t_size _ _ Ht) as (k & Hk & Em).
  rewrite (land_mask _ k) by (lia || done).
  replace (_arefSet_hashItem x mod max_buckets s) with (probe (max_buckets s) x 0) by (unfold probe; f_equal; lia).
  apply (lookup_loop_stops s x i (Z.to_nat i)); try done; destruct Hi as (? & _); lia.
Qed.

Lemma insert_loop_stops s x i : forall n fuel j,
  table (buckets s) (max_buckets s) -> AREFSET_DELETED ∉ buckets s -> pointer x ->
  first_stop (buckets s) (max_buckets s) x i -> 0 <= j -> i = j + Z.of_nat n -> (n < fuel)%nat ->
  insert_loop fuel s x (probe (max_buckets s) x j) None = Ok (probe (max_buckets s) x i).
Proof.
  intros n. induction n as [|n IH]; intros fuel j Ht Hd Hx Hi Hj E Hf; (destruct fuel as [|fuel]; [lia|]);
    pose proof (table_pos _ _ Ht) as Hpos;
    destruct (table_at _ _ _ Ht (probe_range (max_buckets s) x j ltac:(lia))) as (v & Hv);
    pose proof (stops_at _ _ _ _ _ Hv) as Hst; cbn [insert_loop]; rewrite (bucket_at _ _ v Hv); mon;
    assert (v <> AREFSET_DELETED) by (intros ->; by apply Hd, (list_elem_of_lookup_2 _ _ _ Hv));
    pose proof Hi as (Hir & Hs & Hns).
  - replace i with j in * by lia. apply Hst in Hs. destruct (Z.eqb_spec v 0); [done|].
    rewrite (proj2 (Z.eqb_neq v AREFSET_DELETED)) by done. by rewrite (proj2 (Z.eqb_eq v x)) by tauto.
  - assert (Hn : ~ stops (buckets s) (max_buckets s) x j) by (apply Hns; lia). rewrite Hst in Hn.
    rewrite (proj2 (Z.eqb_neq v 0)), (proj2 (Z.eqb_neq v AREFSET_DELETED)), (proj2 (Z.eqb_neq v x)) by tauto.
    destruct (t_size _ _ Ht) as (k & Hk & Em).
    rewrite (next_by_mask k) by (lia || done). apply IH; try done; lia.
Qed.

Lemma lookupInsert_spec s x i :
  table (buckets s) (max_buckets s) -> AREFSET_DELETED ∉ buckets s -> pointer x ->
  first_stop (buckets s) (max_buckets s) x i -> _arefSet_lookupInsert s x = Ok (probe (max_buckets s) x i).
Proof.
  intros Ht Hd Hx Hi. unfold _arefSet_lookupInsert. destruct (t_size _ _ Ht) as (k & Hk & Em).
  rewrite (land_mask _ k) by (lia || done).
  replace (_arefSet_hashItem x mod max_buckets s) with (probe (max_buckets s) x 0) by (unfold probe; f_equal; lia).
  apply (insert_loop_stops s x i (Z.to_nat i)); try done; destruct Hi as (? & _); lia.
Qed.

(** ** Changing a bucket *)

Definition put_at (i v : Z) (b : list Z) : list Z := <[Z.to_nat i := v]> b.

Lemma sized_put b m i v : sized b m -> sized (put_at i v b) m.
Proof. intros [Hk Hl]. split; [done|]. unfold put_at. by rewrite length_insert. Qed.

Lemma at_put b m i j v : sized b m -> 0 <= i < m -> 0 <= j < m ->
  at_ (put_at i v b) j = if decide (i = j) then Some v else at_ b j.
Proof.
  intros Ht Hi Hj. unfold at_, put_at. pose proof (t_length _ _ Ht). case_decide as E.
  - subst j. apply list_lookup_insert_eq. lia.
  - apply list_lookup_insert_ne. lia.
Qed.

Lemma live_put b i u v :
  at_ b i = Some u -> exists l1 l2, live b = l1 ++ live [u] ++ l2 /\ live (put_at i v b) = l1 ++ live [v] ++ l2.
Proof.
  intros Hi. unfold at_ in Hi. pose proof (lookup_lt_Some _ _ _ Hi). unfold put_at.
  rewrite insert_take_drop by done. exists (live (take (Z.to_nat i) b)), (live (drop (S (Z.to_nat i)) b)). split.
  - rewrite <- (take_drop_middle b (Z.to_nat i) u) at 1 by done. unfold live. rewrite filter_app. f_equal.
    by rewrite <- filter_app.
  - unfold live. rewrite filter_app. f_equal. by rewrite <- filter_app.
Qed.

Lemma live_pointer x : pointer x -> live [x] = [x].
Proof. intros. unfold live. by rewrite filter_cons_True, filter_nil. Qed.
Lemma live_other x : ~ pointer x -> live [x] = [].
Proof. intros. unfold live. by rewrite filter_cons_False, filter_nil. Qed.

(** Writing [v] in a bucket that is not empty, or an item in the empty bucket
    where looking for it stops, keeps the way to the other items. *)
Lemma first_stop_put b m i u v y j :
  table b m -> 0 <= i < m -> at_ b i = Some u -> v <> 0 -> v <> y -> u <> y ->
  first_stop b m y j -> at_ b (probe m y j) = Some y -> first_stop (put_at i v b) m y j.
Proof.
  intros Ht Hi Hu Hv Hvy Huy (Hj & Hs & Hns) Hy. pose proof (table_pos _ _ Ht).
  assert (Hput : forall j, at_ (put_at i v b) (probe m y j) = if decide (i = probe m y j) then Some v else at_ b (probe m y j)).
  { intros j'. apply (at_put b m); [apply Ht|done|]. apply probe_range. lia. }
  split; [done|]. split.
  - left. rewrite Hput. case_decide as E; [|done]. rewrite <- E in Hy. congruence.
  - intros j' Hj'. unfold stops. rewrite Hput. case_decide; [intros [[=]|[=]]; congruence|]. by apply Hns.
Qed.

(** Inserting an item. *)
Lemma table_insert b m x i :
  table b m -> pointer x -> x ∉ live b -> first_stop b m x i ->
  table (put_at (probe m x i) x b) m /\ Permutation (live (put_at (probe m x i) x b)) (x :: live b).
Proof.
  intros Ht Hx Hnx Hi. pose proof (table_pos _ _ Ht). pose proof (probe_range m x i ltac:(lia)) as Hr.
  assert (H0 : at_ b (probe m x i) = Some 0).
  { pose proof Hi as (_ & [Hs|Hs] & _); [|done]. destruct Hnx. apply (first_stop_found b m x i); done. }
  assert (Hp : Permutation (live (put_at (probe m x i) x b)) (x :: live b)).
  { destruct (live_put b (probe m x i) 0 x H0) as (l1 & l2 & -> & ->).
    rewrite (live_pointer x), live_other by (done || by intros []). cbn. symmetry. apply Permutation_middle. }
  split; [|done]. split.
  - apply sized_put, Ht.
  - intros n y Hn Hy. assert (Hin : 0 <= Z.of_nat n < m).
    { rewrite <- (t_length _ _ Ht). apply lookup_lt_Some in Hn. unfold put_at in Hn. rewrite length_insert in Hn. lia. }
    assert (Hat : at_ (put_at (probe m x i) x b) (Z.of_nat n) = Some y) by (unfold at_; by rewrite Nat2Z.id).
    rewrite (at_put b m) in Hat by (done || apply Ht). case_decide as E.
    + injection Hat as <-. exists i. split; [|done]. destruct Hi as (Hir & _ & Hns). split; [done|]. split.
      * left. rewrite (at_put b m) by (done || apply Ht). by rewrite decide_True.
      * intros j Hj. unfold stops. rewrite (at_put b m) by (done || apply Ht || apply probe_range; lia).
        case_decide as Ej; [|by apply Hns]. exfalso. apply (Hns j Hj). right. by rewrite <- Ej.
    + unfold at_ in Hat. rewrite Nat2Z.id in Hat.
      destruct (t_chain _ _ Ht n y Hat Hy) as (j & Hj & Ej). exists j. split; [|done].
      apply (first_stop_put b m _ 0); try done; [apply Hx| |by intros <-; destruct Hy|].
      * intros <-. apply Hnx, live_elem. split; [|done]. by eapply list_elem_of_lookup_2.
      * unfold at_. by rewrite Ej, Nat2Z.id.
  - rewrite Hp. constructor; [done|]. apply (t_nodup _ _ Ht).
Qed.

(** Replacing an item by the mark of a deletion. *)
Lemma table_mark b m x i :
  table b m -> pointer x -> x ∈ live b -> first_stop b m x i ->
  table (put_at (probe m x i) AREFSET_DELETED b) m /\
  Permutation (x :: live (put_at (probe m x i) AREFSET_DELETED b)) (live b).
Proof.
  intros Ht Hx Hin Hi. pose proof (table_pos _ _ Ht). pose proof (probe_range m x i ltac:(lia)) as Hr.
  assert (H0 : at_ b (probe m x i) = Some x) by (by apply (first_stop_found b m x i)).
  assert (Hp : Permutation (x :: live (put_at (probe m x i) AREFSET_DELETED b)) (live b)).
  { destruct (live_put b (probe m x i) x AREFSET_DELETED H0) as (l1 & l2 & -> & ->).
    rewrite (live_pointer x), live_other by (done || by intros []). cbn. apply Permutation_middle. }
  pose proof (t_nodup _ _ Ht) as Hnd. rewrite <- Hp in Hnd. apply NoDup_cons in Hnd as [Hnx Hnd].
  split; [|done]. split; [apply sized_put, Ht| |done].
  intros n y Hn Hy.
  assert (y <> x). { intros ->. apply Hnx, live_elem. split; [by eapply list_elem_of_lookup_2|done]. }
  assert (Hl : b !! n = Some y).
  { unfold put_at in Hn. destruct (decide (Z.to_nat (probe m x i) = n)) as [E|E].
    - rewrite E, list_lookup_insert_eq in Hn; [by destruct Hy; congruence|].
      rewrite <- E. by eapply lookup_lt_Some.
    - by rewrite list_lookup_insert_ne in Hn. }
  destruct (t_chain _ _ Ht n y Hl Hy) as (j & Hj & Ej). exists j. split; [|done].
  apply (first_stop_put b m _ x); try done; [by intros <-; destruct Hy|].
  unfold at_. by rewrite Ej, Nat2Z.id.
Qed.

(** ** Sizes *)

Lemma null_exists b m :
  table b m -> AREFSET_DELETED ∉ b -> Z.of_nat (length (live b)) < m -> 0 ∈ b.
Proof.
  intros Ht Hd Hl. destruct (decide (0 ∈ b)) as [|Hn]; [done|]. exfalso.
  assert (E : live b = b).
  { unfold live. clear Ht Hl. induction b as [|v b IH]; [done|]. rewrite not_elem_of_cons in Hn, Hd.
    rewrite filter_cons_True by (unfold pointer; naive_solver). f_equal. apply IH; tauto. }
  rewrite E, (t_length _ _ Ht) in Hl. lia.
Qed.

Lemma live_replicate n : live (replicate n 0) = [].
Proof. induction n as [|n IH]; [done|]. cbn [replicate]. unfold live in *. rewrite filter_cons_False by (by intros []). done. Qed.

Lemma table_empty k : 2 <= k < 32 -> table (replicate (Z.to_nat (2 ^ k)) 0) (2 ^ k).
Proof.
  intros Hk. assert (0 < 2 ^ k) by (apply Z.pow_pos_nonneg; lia). split.
  - split; [eauto|]. rewrite length_replicate. lia.
  - intros n x [-> _]%lookup_replicate [Hx _]. done.
  - rewrite live_replicate. constructor.
Qed.

Lemma put_no_mark i x b : pointer x -> AREFSET_DELETED ∉ b -> AREFSET_DELETED ∉ put_at i x b.
Proof.
  intros [_ Hx] Hd [n Hn]%list_elem_of_lookup. unfold put_at in Hn.
  apply list_lookup_insert_Some in Hn as [(_ & E & _)|[_ Hn]]; [done|]. by apply Hd, (list_elem_of_lookup_2 _ n).
Qed.

(** Filling a new table. *)
Lemma rehash_spec items : forall s,
  table (buckets s) (max_buckets s) -> 8 <= max_buckets s -> AREFSET_DELETED ∉ buckets s ->
  NoDup (live items ++ live (buckets s)) ->
  Z.of_nat (length (live items ++ live (buckets s))) < max_buckets s ->
  exists s', rehash items s = Ok s' /\ table (buckets s') (max_buckets s') /\ max_buckets s' = max_buckets s /\
    (AREFSET_DELETED ∉ buckets s') /\ Permutation (live (buckets s')) (live items ++ live (buckets s)).
Proof.
  induction items as [|x items IH]; intros s Ht Hm Hd Hnd Hl; [exists s; done|]. cbn [rehash].
  destruct (decide (pointer x)) as [Hx|Hx].
  - replace (negb (x =? 0) && negb (x =? AREFSET_DELETED)) with true by (destruct Hx; lia).
    assert (El : live (x :: items) = x :: live items) by (unfold live; by rewrite filter_cons_True).
    rewrite El in Hnd, Hl |- *. cbn [app length] in Hnd, Hl |- *. rewrite length_app in Hl.
    apply NoDup_cons in Hnd as [Hnx Hnd]. rewrite not_elem_of_app in Hnx.
    destruct (first_stop_exists (buckets s) (max_buckets s) x) as (i & Hi); [done|apply (null_exists _ _ Ht Hd); lia|].
    rewrite (lookup_spec s x i) by (done || apply Ht). mon.
    destruct (table_insert (buckets s) (max_buckets s) x i) as [Ht' Hp]; [tauto..|].
    set (s1 := set_bucket _ _ _). change (put_at _ _ _) with (buckets s1) in Ht', Hp.
    destruct (IH s1) as (s' & E & Ht2 & Em & Hd' & Hp'); try done.
    + by apply (put_no_mark _ _ _ Hx).
    + rewrite Hp. rewrite <- Permutation_middle. constructor; [|done]. rewrite not_elem_of_app. tauto.
    + rewrite length_app, Hp. cbn [length]. cbn [max_buckets s1 set_bucket]. lia.
    + exists s'. split; [done|]. split; [done|]. split; [done|]. split; [done|]. rewrite Hp', Hp. symmetry. apply Permutation_middle.
  - replace (negb (x =? 0) && negb (x =? AREFSET_DELETED)) with false by (unfold pointer in Hx; lia).
    assert (El : live (x :: items) = live items) by (unfold live; by rewrite filter_cons_False).
    rewrite El in Hnd, Hl |- *. by apply IH.
Qed.

Lemma resize_spec s k :
  3 <= k < 32 -> NoDup (live (buckets s)) -> Z.of_nat (length (live (buckets s))) < 2 ^ k ->
  exists b, _arefSet_resize s (2 ^ k) = Ok {| s with buckets := b; max_buckets := 2 ^ k |} /\
    table b (2 ^ k) /\ (AREFSET_DELETED ∉ b) /\ Permutation (live b) (live (buckets s)).
Proof.
  intros Hk Hnd Hl. unfold _arefSet_resize. set (s0 := vector_init_alloc _ _).
  assert (8 <= 2 ^ k) by (change 8 with (2 ^ 3); apply Z.pow_le_mono_r; lia).
  assert (E0 : live (buckets s0) = []) by apply live_replicate.
  destruct (rehash_spec (buckets s) s0) as (s' & E & Ht & Em & Hd & Hp); rewrite ?E0, ?app_nil_r in *; try done.
  - apply table_empty. lia.
  - intros [E _]%elem_of_replicate. discriminate E.
  - rewrite E. mon. change (max_buckets s0) with (2 ^ k) in Em. rewrite Em in *. by exists (buckets s').
Qed.
