(* ===== verification/RefsetTheorems.v ===== *)
(** * What the sets of pointers guarantee, and where they fail *)

From S2P Require Import Prelude Refset RefsetProofs.

(** [s] holds the set [X] of pointers. *)
Record represents (s : ARefSet) (X : gset Z) : Prop := {
  r_table : table (buckets s) (max_buckets s);
  r_null : 0 ∈ buckets s;
  r_live : forall x, x ∈ X <-> x ∈ live (buckets s);
  r_num : num_buckets s = Z.of_nat (size X)
}.

Lemma live_size b m (X : gset Z) :
  table b m -> (forall x, x ∈ X <-> x ∈ live b) -> length (live b) = size X.
Proof.
  intros Ht HX. unfold size, set_size. cbn. apply Permutation_length, NoDup_Permutation.
  - apply (t_nodup _ _ Ht).
  - apply NoDup_elements.
  - intros x. rewrite elem_of_elements. symmetry. apply HX.
Qed.

(** A set on which no iteration runs: no marks, and room left. *)
Definition settled (s : ARefSet) : Prop :=
  iteration s = 0 /\ (AREFSET_DELETED ∉ buckets s) /\ 20 * num_buckets s <= 17 * max_buckets s /\
  (max_buckets s = 4 \/ 17 * max_buckets s < 40 * num_buckets s).

Definition growing (s : ARefSet) (X : gset Z) : Prop :=
  s = arefSet_init /\ X = ∅ \/ represents s X /\ settled s.

(** ** The operations *)

Lemma has_spec s X x :
  represents s X -> 8 <= max_buckets s -> pointer x -> arefSet_has s x = Ok (bool_decide (x ∈ X)).
Proof.
  intros [Ht Hn HX _] Hm Hx. unfold arefSet_has. replace ((x =? 0) || (max_buckets s =? 0)) with false by (destruct Hx; lia).
  destruct (first_stop_exists _ _ x Ht Hn) as (i & Hi). rewrite (lookup_spec s x i) by (done || apply Ht). mon.
  destruct (table_at _ _ _ Ht (probe_range (max_buckets s) x i ltac:(lia))) as (v & Hv).
  rewrite (bucket_at _ _ v Hv). mon. f_equal. pose proof (first_stop_found _ _ _ _ Ht Hx Hi) as Hf.
  rewrite Hv, <- HX in Hf. destruct (Z.eqb_spec v x) as [->|Hne].
  - symmetry. by apply bool_decide_eq_true, Hf.
  - symmetry. apply bool_decide_eq_false. intros Hin. apply Hf in Hin. congruence.
Qed.

(** A deletion during an iteration. *)
Lemma del_spec s X x :
  represents s X -> 8 <= max_buckets s -> pointer x -> iteration s <> 0 -> Z.of_nat (size X) < 2 ^ 30 ->
  exists s', arefSet_del x s = Ok s' /\ represents s' (X ∖ {[x]}) /\ max_buckets s' = max_buckets s /\ iteration s' <> 0.
Proof.
  intros Hr Hm Hx Hit Hsz. pose proof Hr as [Ht Hn HX Hnum]. unfold arefSet_del.
  replace ((x =? 0) || (max_buckets s =? 0)) with false by (destruct Hx; lia).
  destruct (first_stop_exists _ _ x Ht Hn) as (i & Hi). rewrite (lookup_spec s x i) by (done || apply Ht). mon.
  destruct (table_at _ _ _ Ht (probe_range (max_buckets s) x i ltac:(lia))) as (v & Hv).
  rewrite (bucket_at _ _ v Hv). mon. pose proof (first_stop_found _ _ _ _ Ht Hx Hi) as Hf. rewrite Hv in Hf.
  destruct (Z.eqb_spec v x) as [->|Hne]; cbn [negb].
  - assert (Hin : x ∈ live (buckets s)) by (by apply Hf).
    rewrite (proj2 (Z.eqb_neq _ _) Hit).
    destruct (table_mark _ _ x i Ht Hx Hin Hi) as [Ht' Hp]. set (b := put_at _ _ _) in *.
    eexists. split; [done|]. split; [|split; [done|]].
    + assert (Hxn : x ∉ live b). { pose proof (t_nodup _ _ Ht) as Hnd. rewrite <- Hp in Hnd. by apply NoDup_cons in Hnd as [? _]. }
      assert (HX' : forall y, y ∈ X ∖ {[x]} <-> y ∈ live b).
      { intros y. rewrite elem_of_difference, not_elem_of_singleton, HX, <- Hp, elem_of_cons. naive_solver. }
      split; cbn; try done.
      * apply list_elem_of_lookup in Hn as (n & Hn). apply (list_elem_of_lookup_2 _ n). unfold set_bucket. cbn.
        rewrite list_lookup_insert_ne; [done|]. intros E. unfold at_ in Hv. rewrite E, Hn in Hv. destruct Hx. congruence.
      * pose proof (live_size _ _ _ Ht' HX') as E1. pose proof (live_size _ _ _ Ht HX) as E2.
        apply Permutation_length in Hp. cbn in Hp. rewrite Hnum. unfold wrap. rewrite Z.mod_small by lia. lia.
    + cbn. intros E. apply Z.lor_eq_0_iff in E as [_ E]. done.
  - exists s. split; [done|]. split; [|done].
    replace (X ∖ {[x]}) with X; [done|]. apply set_eq. intros y. rewrite elem_of_difference, not_elem_of_singleton.
    split; [|tauto]. intros Hy. split; [done|]. intros ->. rewrite HX, <- Hf in Hy. congruence.
Qed.

(** An item put in the empty bucket where looking for it stops. *)
Lemma put_represents s X x i :
  represents s X -> pointer x -> (x ∉ X) -> first_stop (buckets s) (max_buckets s) x i ->
  let b := put_at (probe (max_buckets s) x i) x (buckets s) in
  table b (max_buckets s) /\ (forall y, y ∈ {[x]} ∪ X <-> y ∈ live b) /\ Z.of_nat (length (live b)) = num_buckets s + 1.
Proof.
  intros [Ht Hn HX Hnum] Hx Hxn Hi b.
  destruct (table_insert _ _ x i Ht Hx ltac:(by rewrite <- HX) Hi) as [Ht' Hp]. fold b in Ht', Hp.
  split; [done|]. split.
  - intros y. rewrite Hp, elem_of_cons, elem_of_union, elem_of_singleton, HX. done.
  - rewrite Hp, Hnum. cbn [length]. rewrite (live_size _ _ _ Ht HX). lia.
Qed.

Lemma settled_add s X x :
  represents s X -> settled s -> pointer x -> Z.of_nat (size X) < 2 ^ 30 -> max_buckets s <> 0 ->
  exists s', arefSet_add x s = Ok s' /\ represents s' ({[x]} ∪ X) /\ settled s'.
Proof.
  intros Hr (Hit & Hd & Hload & Hmax) Hx Hsz Hm0. pose proof Hr as [Ht Hn HX Hnum]. pose proof (table_pos _ _ Ht) as Hpos.
  unfold arefSet_add. rewrite (proj2 (Z.eqb_neq x 0)) by apply Hx. rewrite (proj2 (Z.eqb_neq _ 0) Hm0).
  destruct (first_stop_exists _ _ x Ht Hn) as (i & Hi). rewrite (lookupInsert_spec s x i) by done. mon.
  destruct (table_at _ _ _ Ht (probe_range (max_buckets s) x i ltac:(lia))) as (v & Hv).
  rewrite (bucket_at _ _ v Hv). mon. pose proof (first_stop_found _ _ _ _ Ht Hx Hi) as Hf. rewrite Hv, <- HX in Hf.
  destruct (Z.eqb_spec v x) as [->|Hne].
  { exists s. split; [done|]. replace ({[x]} ∪ X) with X; [done|]. assert (x ∈ X) by (by apply Hf). set_solver. }
  assert (Hxn : x ∉ X) by (intros Hin; apply Hf in Hin; congruence).
  destruct (put_represents s X x i Hr Hx Hxn Hi) as (Ht' & HX' & Hlen). set (b := put_at _ _ _) in *.
  assert (Hd' : AREFSET_DELETED ∉ b) by (by apply put_no_mark).
  pose proof (live_size _ _ _ Ht' HX') as Esz. unfold set_bucket. cbn [buckets num_buckets max_buckets iteration].
  change (<[_ := x]> (buckets s)) with b. assert (En : u32 (num_buckets s + 1) = num_buckets s + 1).
  { unfold wrap. rewrite Z.mod_small; lia. }
  rewrite Hit, En. cbn [Z.eqb andb]. destruct (overloaded _ _) eqn:Eo; unfold overloaded in Eo.
  - apply Z.ltb_lt in Eo. destruct (t_size _ _ Ht) as (k & Hk & Em).
    assert (E2 : u32 (max_buckets s * 2) = 2 ^ (k + 1)).
    { rewrite Z.pow_add_r, <- Em by lia. unfold wrap. rewrite Z.mod_small; lia. }
    assert (k + 1 < 32). { destruct (decide (k = 31)) as [->|]; [|lia]. rewrite Em in Eo. lia. }
    rewrite E2. match goal with |- context [_arefSet_resize ?s1 _] => destruct (resize_spec s1 (k + 1)) as (b2 & -> & Ht2 & Hd2 & Hp2) end.
    + lia.
    + apply (t_nodup _ _ Ht').
    + change (Z.of_nat (length (live b)) < 2 ^ (k + 1)). rewrite Hlen, Z.pow_add_r, <- Em by lia. lia.
    + change (Permutation (live b2) (live b)) in Hp2. eexists. split; [done|].
      assert (Hl2 : Z.of_nat (length (live b2)) = num_buckets s + 1) by (by rewrite Hp2).
      assert (Em2 : 2 ^ (k + 1) = 2 * max_buckets s) by (rewrite Z.pow_add_r, <- Em by lia; lia).
      split; [split; cbn; [done| |intros y; by rewrite HX', Hp2|lia]|].
      * apply (null_exists _ _ Ht2 Hd2). lia.
      * split; [done|]. split; [done|]. cbn. lia.
  - apply Z.ltb_ge in Eo. eexists. split; [done|].
    split; [split; cbn; [done| |done|lia]|].
    + apply (null_exists _ _ Ht' Hd'). lia.
    + split; [done|]. split; [done|]. cbn. lia.
Qed.

Lemma add_spec s X x :
  growing s X -> pointer x -> Z.of_nat (size X) < 2 ^ 30 ->
  exists s', arefSet_add x s = Ok s' /\ represents s' ({[x]} ∪ X) /\ settled s'.
Proof.
  intros [[-> ->]|[Hr Hs]] Hx Hsz.
  - set (s0 := vector_init_alloc 4 arefSet_init).
    assert (Hr : represents s0 ∅).
    { split; cbn; [apply (table_empty 2); lia|set_solver|set_solver|done]. }
    destruct (settled_add s0 ∅ x Hr) as (s' & E & Hr' & Hs'); try done.
    { split; [done|]. split; [|cbn; lia]. intros [E _]%elem_of_replicate. discriminate E. }
    exists s'. split; [|done]. rewrite <- E. unfold arefSet_add. by rewrite (proj2 (Z.eqb_neq x 0)) by apply Hx.
  - apply settled_add; try done. pose proof (table_pos _ _ (r_table _ _ Hr)). lia.
Qed.

(** ** Runs *)

Fixpoint each (f : Z -> ARefSet -> res ARefSet) (l : list Z) (s : ARefSet) : res ARefSet :=
  match l with
  | [] => Ok s
  | x :: l' => s' ← f x s; each f l' s'
  end.

Lemma adds_spec l : forall s X,
  growing s X -> Forall pointer l -> Z.of_nat (size X + length l) < 2 ^ 30 ->
  exists s', each arefSet_add l s = Ok s' /\ growing s' (list_to_set l ∪ X).
Proof.
  induction l as [|x l IH]; intros s X Hg Hl Hsz.
  { exists s. split; [done|]. cbn. by rewrite union_empty_l_L. }
  apply Forall_cons in Hl as [Hx Hl]. cbn [length] in Hsz.
  destruct (add_spec s X x Hg Hx ltac:(lia)) as (s1 & E & Hr & Hs). cbn [each]. rewrite E. mon.
  destruct (IH s1 ({[x]} ∪ X)) as (s2 & E2 & Hg2); [by right|done| |].
  { pose proof (size_union_alt {[x]} X) as Hu. rewrite size_singleton in Hu.
    assert (size (X ∖ {[x]}) <= size X)%nat by (apply subseteq_size; set_solver). lia. }
  exists s2. split; [done|]. replace (list_to_set (x :: l) ∪ X) with (list_to_set l ∪ ({[x]} ∪ X)); [done|].
  cbn. set_solver.
Qed.

Lemma dels_spec l : forall s X,
  represents s X -> 8 <= max_buckets s -> iteration s <> 0 -> Z.of_nat (size X) < 2 ^ 30 -> Forall pointer l ->
  exists s', each arefSet_del l s = Ok s' /\ represents s' (X ∖ list_to_set l) /\ max_buckets s' = max_buckets s.
Proof.
  induction l as [|x l IH]; intros s X Hr Hm Hit Hsz Hl.
  { exists s. split; [done|]. split; [|done]. by replace (X ∖ _) with X by (cbn; set_solver). }
  apply Forall_cons in Hl as [Hx Hl]. destruct (del_spec s X x Hr Hm Hx Hit Hsz) as (s1 & E & Hr1 & Em & Hit1).
  cbn [each]. rewrite E. mon. destruct (IH s1 (X ∖ {[x]})) as (s2 & E2 & Hr2 & Em2); try done; [lia| |].
  { assert (size (X ∖ {[x]}) <= size X)%nat by (apply subseteq_size; set_solver). lia. }
  exists s2. split; [done|]. split; [|by rewrite Em2].
  replace (X ∖ list_to_set (x :: l)) with (X ∖ {[x]} ∖ list_to_set l) by (cbn; set_solver). done.
Qed.


(** ** Defects *)

(** A deletion outside of an iteration empties the bucket. *)
Lemma direct_del s X a i :
  represents s X -> 8 <= max_buckets s -> iteration s = 0 -> pointer a ->
  first_stop (buckets s) (max_buckets s) a i -> at_ (buckets s) (probe (max_buckets s) a i) = Some a ->
  underloaded (u32 (num_buckets s - 1)) (max_buckets s) = false ->
  arefSet_del a s = Ok {| s with buckets := put_at (probe (max_buckets s) a i) 0 (buckets s);
                                 num_buckets := u32 (num_buckets s - 1) |}.
Proof.
  intros [Ht Hn HX Hnum] Hm Hit Ha Hi Hat Hu. unfold arefSet_del.
  replace ((a =? 0) || (max_buckets s =? 0)) with false by (destruct Ha; lia).
  rewrite (lookup_spec s a i) by (done || apply Ht). mon. rewrite (bucket_at _ _ a Hat). mon.
  rewrite Z.eqb_refl, Hit. cbn [negb Z.eqb]. unfold set_bucket. cbn [buckets max_buckets num_buckets].
  rewrite Hu. cbn [iteration]. by rewrite Hit.
Qed.

(** Emptying a bucket on the way to an item hides the item. *)
Lemma hidden_by_hole s x i j :
  sized (buckets s) (max_buckets s) -> 8 <= max_buckets s -> pointer x ->
  first_stop (buckets s) (max_buckets s) x j -> at_ (buckets s) (probe (max_buckets s) x j) = Some x -> 0 <= i < j ->
  let s' := set_bucket (probe (max_buckets s) x i) 0 s in
  arefSet_has s' x = Ok false.
Proof.
  intros Hsz Hm Hx Hj Hat Hij s'. set (m := max_buckets s) in *. pose proof (table_pos _ _ Hsz) as Hpos.
  assert (Hsz' : sized (buckets s') m) by (by apply sized_put).
  pose proof (probe_range m x i ltac:(lia)) as Hri. destruct Hj as (Hjr & _ & Hns).
  destruct (first_from (buckets s') m x (Z.to_nat m) 0) as (i0 & Hi0 & Hs0 & Hf0).
  { exists i. split; [lia|]. right. change (buckets s') with (put_at (probe m x i) 0 (buckets s)).
    rewrite (at_put _ m) by done. by rewrite decide_True. }
  assert (i0 <= i).
  { destruct (Z_lt_le_dec i i0) as [Hlt|]; [|done]. destruct (Hf0 i); [lia|]. right.
    change (buckets s') with (put_at (probe m x i) 0 (buckets s)). rewrite (at_put _ m) by done. by rewrite decide_True. }
  assert (H0 : at_ (buckets s') (probe m x i0) = Some 0).
  { destruct Hs0 as [Hs0|]; [|done]. destruct (Hns i0); [lia|]. left. revert Hs0.
    change (buckets s') with (put_at (probe m x i) 0 (buckets s)).
    rewrite (at_put _ m) by (done || apply probe_range; lia). case_decide; [|done]. intros [= E]. destruct Hx. congruence. }
  unfold arefSet_has. change (max_buckets s') with m. replace ((x =? 0) || (m =? 0)) with false by (destruct Hx; lia).
  rewrite (lookup_spec s' x i0); [|done|done|].
  - mon. change (max_buckets s') with m. rewrite (bucket_at _ _ 0 H0). mon.
    by rewrite (proj2 (Z.eqb_neq 0 x)) by (destruct Hx; congruence).
  - split; [change (max_buckets s') with m; lia|]. split; [done|]. intros. apply Hf0. lia.
Qed.

(** The search reads nothing but the buckets and their number. *)
Lemma has_ext s s' x :
  buckets s = buckets s' -> max_buckets s = max_buckets s' -> arefSet_has s x = arefSet_has s' x.
Proof.
  intros Eb Em. unfold arefSet_has, _arefSet_lookup, bucket. rewrite Em, Eb.
  assert (E : forall fuel i, lookup_loop fuel s x i = lookup_loop fuel s' x i).
  { induction fuel as [|fuel IH]; intros i; [done|]. cbn [lookup_loop]. unfold bucket. rewrite Em, Eb.
    destruct (of_opt _ _); [|done]. mon. by rewrite IH. }
  by rewrite E.
Qed.

(** Three defects of the sets of pointers.  In the initial table of four
    buckets the search for a pointer whose place is taken, the last one, leaves
    the table.  A deletion outside of an iteration empties the bucket, also
    when it is on the way to another item: that item is in the table and not
    found any more.  [arefSet_clear] only resets the count: the items stay. *)
Theorem refset_defects :
  (forall a b, pointer a -> pointer b -> a <> b ->
     _arefSet_hashItem a mod 4 = 3 -> _arefSet_hashItem b mod 4 = 3 ->
     exists s, arefSet_add a arefSet_init = Ok s /\ arefSet_has s b = Fault OutOfBounds) /\
  (forall s X a x i j, represents s X -> 8 <= max_buckets s -> iteration s = 0 -> pointer a -> pointer x -> a <> x ->
     first_stop (buckets s) (max_buckets s) x j -> at_ (buckets s) (probe (max_buckets s) x j) = Some x ->
     0 <= i < j -> at_ (buckets s) (probe (max_buckets s) x i) = Some a ->
     underloaded (u32 (num_buckets s - 1)) (max_buckets s) = false ->
     exists s', arefSet_del a s = Ok s' /\ arefSet_has s' x = Ok false /\ x ∈ buckets s') /\
  (forall s X x, represents s X -> 8 <= max_buckets s -> pointer x -> x ∈ X ->
     arefSet_count (arefSet_clear s) = 0 /\ arefSet_has (arefSet_clear s) x = Ok true).
Proof.
  split; [|split].
  - intros a b [Ha0 Ha1] [Hb0 Hb1] Hab Ea Eb.
    assert (La : Z.land (_arefSet_hashItem a) (u32 (4 - 1)) = 3) by (by rewrite (land_mask _ 2)).
    assert (Lb : Z.land (_arefSet_hashItem b) (u32 (4 - 1)) = 3) by (by rewrite (land_mask _ 2)).
    exists {| arefSet_init with buckets := [0; 0; 0; a]; num_buckets := 1; max_buckets := 4 |}. split.
    + unfold arefSet_add. rewrite (proj2 (Z.eqb_neq a 0) Ha0). unfold _arefSet_lookupInsert. cbn -[Z.land _arefSet_hashItem wrap].
      rewrite La. change (bucket (vector_init_alloc 4 arefSet_init) 3) with (Ok 0). mon. rewrite Z.eqb_refl. mon.
      change (bucket (vector_init_alloc 4 arefSet_init) 3) with (Ok 0). mon.
      rewrite (proj2 (Z.eqb_neq 0 a)) by congruence. reflexivity.
    + unfold arefSet_has. rewrite (proj2 (Z.eqb_neq b 0) Hb0). unfold _arefSet_lookup.
      cbn -[Z.land _arefSet_hashItem wrap bucket]. rewrite Lb. set (s := mkRefSet _ _ _ _).
      change (bucket s 3) with (Ok a). mon.
      rewrite (proj2 (Z.eqb_neq a b)), (proj2 (Z.eqb_neq a 0)) by done. reflexivity.
  - intros s X a x i j Hr Hm Hit Ha Hx Hax Hj Hatx Hij Hata Hu. pose proof (r_table _ _ Hr) as Ht.
    pose proof (table_pos _ _ Ht). pose proof (probe_range (max_buckets s) x i ltac:(lia)) as Hri.
    destruct (t_chain _ _ Ht _ a Hata Ha) as (ia & Hia & Eia). rewrite Z2Nat.id in Eia by lia.
    rewrite (direct_del s X a ia) by (done || by rewrite Eia). eexists. split; [done|]. rewrite Eia. split.
    + apply (hidden_by_hole {| s with num_buckets := u32 (num_buckets s - 1) |} x i j); try done. apply Ht.
    + cbn [buckets]. apply (list_elem_of_lookup_2 _ (Z.to_nat (probe (max_buckets s) x j))).
      change (at_ (put_at (probe (max_buckets s) x i) 0 (buckets s)) (probe (max_buckets s) x j) = Some x).
      rewrite (at_put _ (max_buckets s)) by (apply Ht || apply probe_range; lia).
      case_decide as E; [|done]. rewrite E in Hata. congruence.
  - intros s X x Hr Hm Hx Hin. split; [done|]. pose proof (has_spec s X x Hr Hm Hx) as E.
    rewrite bool_decide_eq_true_2 in E by done. by rewrite (has_ext _ s).
Qed.

(** ** Concrete sets *)


(** The set of the run above, as it is in memory. *)
Definition four_items : ARefSet := mkRefSet [0; 36; 8; 12; 0; 0; 4; 0] 4 8 0.

Lemma four_items_set : represents four_items (list_to_set [4; 8; 12; 36]).
Proof.
  destruct (adds_spec [4; 8; 12; 36] arefSet_init ∅) as (s & E & Hg).
  - by left.
  - repeat constructor; discriminate.
  - vm_compute. reflexivity.
  - assert (Es : each arefSet_add [4; 8; 12; 36] arefSet_init = Ok four_items) by (vm_compute; reflexivity).
    rewrite E in Es. injection Es as ->. clear E. rewrite union_empty_r_L in Hg. destruct Hg as [[Hg _]|[Hr _]]; done.
Qed.

Lemma refset_defects_witness :
  (exists s, arefSet_add 12 arefSet_init = Ok s /\ arefSet_has s 28 = Fault OutOfBounds) /\
  (exists s', arefSet_del 36 four_items = Ok s' /\ arefSet_has s' 4 = Ok false /\ 4 ∈ buckets s') /\
  arefSet_count (arefSet_clear four_items) = 0 /\ arefSet_has (arefSet_clear four_items) 36 = Ok true.
Proof.
  destruct refset_defects as (H1 & H2 & H3). split; [|split].
  - apply H1; (split; discriminate) || discriminate || (vm_compute; reflexivity).
  - apply (H2 four_items (list_to_set [4; 8; 12; 36]) 36 4 0 1); try (split; discriminate); try discriminate;
      try (vm_compute; reflexivity); try (cbn; lia).
    + apply four_items_set.
    + split; [cbn; lia|]. split; [left; vm_compute; reflexivity|].
      intros j Hj. assert (j = 0) as -> by lia. intros [H|H]; vm_compute in H; discriminate.
  - apply (H3 four_items (list_to_set [4; 8; 12; 36])); [apply four_items_set|cbn; lia|split; discriminate|].
    apply elem_of_list_to_set, (bool_decide_unpack _). vm_compute. exact I.
Defined.
