(* ===== verification/IoLooper.v ===== *)
(** * Waiting for descriptors ([android/iolooper-select.c], [android/iolooper.h])

    An [IoLooper] keeps the descriptors to watch in two [fd_set]s and the
    greatest of them, which [select] needs to know; the greatest is computed
    again when it may have been removed.  [select] and the clock belong to the
    host, a parameter (class [SelectHost]). *)

From S2P Require Import Prelude SockAddr.

Definition IOLOOPER_READ := 1.
Definition IOLOOPER_WRITE := 2.
Definition FD_SETSIZE := 1024.
Definition ETIMEDOUT := 110.

(** ** The host *)

(** [struct timeval] *)
Record timeval : Type := mkTimeval { tv_sec : Z; tv_usec : Z }.

(** The answer of [select]: its result, [errno] if it failed, the two sets, and
    the time that was left (Linux stores it in the [timeval]). *)
Record selres : Type := mkSel {
  sel_ret : Z; sel_errno : Z; sel_reads : gset Z; sel_writes : gset Z; sel_left : option timeval
}.

Class SelectHost (O : Type) : Type := {
  select : Z -> gset Z -> gset Z -> option timeval -> O -> selres * O;
  gettimeofday : O -> option timeval * O;
  sel_signals : O -> nat
}.

(** ** The looper *)

Record IoLooper : Type := mkIoLooper {
  reads : gset Z;
  writes : gset Z;
  reads_result : gset Z;
  writes_result : gset Z;
  max_fd : Z;
  max_fd_valid : bool
}.

(** [FD_SET], [FD_CLR], [FD_ISSET]: beyond [FD_SETSIZE] they leave the set. *)
Definition in_fd_set (fd : Z) : bool := (0 <=? fd) && (fd <? FD_SETSIZE).
Definition FD_SET (fd : Z) (s : gset Z) : res (gset Z) :=
  if in_fd_set fd then Ok ({[fd]} ∪ s) else Fault OutOfBounds.
Definition FD_CLR (fd : Z) (s : gset Z) : res (gset Z) :=
  if in_fd_set fd then Ok (s ∖ {[fd]}) else Fault OutOfBounds.
Definition FD_ISSET (fd : Z) (s : gset Z) : res bool :=
  if in_fd_set fd then Ok (bool_decide (fd ∈ s)) else Fault OutOfBounds.

(** [void iolooper_reset(iol)] *)
Definition iolooper_reset (iol : IoLooper) : IoLooper :=
  {| iol with reads := ∅; writes := ∅; max_fd := -1; max_fd_valid := true |}.
(** [IoLooper* iolooper_new(void)]; [junk] is what the memory held *)
Definition iolooper_new (junk : IoLooper) : IoLooper := iolooper_reset junk.

(** [void iolooper_add_fd(iol, fd)] and [iolooper_del_fd] *)
Definition iolooper_add_fd (fd : Z) (iol : IoLooper) : IoLooper :=
  if max_fd_valid iol && (fd >? max_fd iol) then {| iol with max_fd := fd |} else iol.
Definition iolooper_del_fd (fd : Z) (iol : IoLooper) : IoLooper :=
  if max_fd_valid iol && (fd =? max_fd iol) then {| iol with max_fd_valid := false |} else iol.

Definition iolooper_add_read (fd : Z) (iol : IoLooper) : res IoLooper :=
  if fd >=? 0 then
    let iol := iolooper_add_fd fd iol in
    s ← FD_SET fd (reads iol); Ok {| iol with reads := s |}
  else Ok iol.
Definition iolooper_add_write (fd : Z) (iol : IoLooper) : res IoLooper :=
  if fd >=? 0 then
    let iol := iolooper_add_fd fd iol in
    s ← FD_SET fd (writes iol); Ok {| iol with writes := s |}
  else Ok iol.
Definition iolooper_del_read (fd : Z) (iol : IoLooper) : res IoLooper :=
  if fd >=? 0 then
    let iol := iolooper_del_fd fd iol in
    s ← FD_CLR fd (reads iol); Ok {| iol with reads := s |}
  else Ok iol.
Definition iolooper_del_write (fd : Z) (iol : IoLooper) : res IoLooper :=
  if fd >=? 0 then
    let iol := iolooper_del_fd fd iol in
    s ← FD_CLR fd (writes iol); Ok {| iol with writes := s |}
  else Ok iol.

(** [void iolooper_modify(iol, fd, oldflags, newflags)] *)
Definition iolooper_modify (fd oldflags newflags : Z) (iol : IoLooper) : res IoLooper :=
  if fd <? 0 then Ok iol
  else
    let changed := Z.lxor oldflags newflags in
    iol ← (if flag_set changed IOLOOPER_READ then
             if flag_set newflags IOLOOPER_READ then iolooper_add_read fd iol else iolooper_del_read fd iol
           else Ok iol);
    if flag_set changed IOLOOPER_WRITE then
      if flag_set newflags IOLOOPER_WRITE then iolooper_add_write fd iol else iolooper_del_write fd iol
    else Ok iol.

(** [int iolooper_fd_count(iol)] *)
Definition recompute_max_fd (iol : IoLooper) : Z :=
  foldl (fun max fd => if bool_decide (fd ∈ reads iol) || bool_decide (fd ∈ writes iol) then fd else max)
    (max_fd iol) (seqZ 0 FD_SETSIZE).
Definition iolooper_fd_count (iol : IoLooper) : Z * IoLooper :=
  if max_fd_valid iol then (max_fd iol + 1, iol)
  else
    let m := recompute_max_fd iol in
    (m + 1, {| iol with max_fd := m; max_fd_valid := true |}).

(** [int iolooper_is_read(iol, fd)], [iolooper_is_write] *)
Definition iolooper_is_read (iol : IoLooper) (fd : Z) : res bool := FD_ISSET fd (reads_result iol).
Definition iolooper_is_write (iol : IoLooper) (fd : Z) : res bool := FD_ISSET fd (writes_result iol).

(** [int iolooper_has_operations(iol)] *)
Definition iolooper_has_operations (iol : IoLooper) : bool * IoLooper :=
  let '(n, iol) := iolooper_fd_count iol in (n >? 0, iol).

(** ** Waiting *)

Section wait.
Context {O : Type} `{SelectHost O}.

(** [errno] and the host. *)
Record sel : Type := mkSelState { sel_err : Z; sel_os : O }.

(** The loops of [iolooper_poll] ([fresh] is the timeout each turn starts with) and
    of [iolooper_wait] (the time that is left). *)
Fixpoint select_loop (fuel : nat) (count : Z) (tm : option timeval) (fresh : option (option timeval))
    (timed_out : bool) (iol : IoLooper) (s : sel) : res (Z * IoLooper * sel) :=
  match fuel with
  | 0%nat => Fault OutOfFuel
  | S fuel' =>
      let '(r, o) := select count (reads iol) (writes iol) (default tm fresh) (sel_os s) in
      let iol := {| iol with reads_result := sel_reads r; writes_result := sel_writes r |} in
      let e := if sel_ret r <? 0 then sel_errno r
               else if timed_out && (sel_ret r =? 0) then ETIMEDOUT else sel_err s in
      let s := mkSelState e o in
      if (sel_ret r <? 0) && (e =? EINTR) then select_loop fuel' count (sel_left r) fresh timed_out iol s
      else Ok (sel_ret r, iol, s)
  end.

(** [int iolooper_poll(iol)] *)
Definition iolooper_poll (iol : IoLooper) (s : sel) : res (Z * IoLooper * sel) :=
  let '(count, iol) := iolooper_fd_count iol in
  if count =? 0 then Ok (0, iol, s)
  else select_loop (S (sel_signals (sel_os s))) count None (Some (Some (mkTimeval 0 0))) false iol s.

(** The timeout of [iolooper_wait]: none for ever. *)
Definition wait_timeout (duration : Z) : option timeval :=
  if duration <? 0 then None
  else Some (mkTimeval (duration / 1000) ((duration - 1000 * (duration / 1000)) * 1000)).

(** [int iolooper_wait(iol, duration)] *)
Definition iolooper_wait (duration : Z) (iol : IoLooper) (s : sel) : res (Z * IoLooper * sel) :=
  let '(count, iol) := iolooper_fd_count iol in
  if count =? 0 then Ok (0, iol, s)
  else select_loop (S (sel_signals (sel_os s))) count (wait_timeout duration) None true iol s.

(** [int64_t iolooper_now(void)] *)
Definition iolooper_now (s : sel) : Z * sel :=
  let '(t, o) := gettimeofday (sel_os s) in
  (match t with None => -1 | Some t => tv_sec t * 1000 + Z.quot (tv_usec t) 1000 end, mkSelState (sel_err s) o).

(** [int iolooper_wait_absolute(iol, deadline)] *)
Definition iolooper_wait_absolute (deadline : Z) (iol : IoLooper) (s : sel) : res (Z * IoLooper * sel) :=
  let '(now, s) := iolooper_now s in
  let timeout := s64 (deadline - now) in
  iolooper_wait (if timeout <? 0 then 0 else timeout) iol s.
End wait.
Arguments sel : clear implicits.
Arguments mkSelState {O}.
Arguments sel_err {O}.
Arguments sel_os {O}.
