(* ===== verification/IoLooperProofs.v ===== *)
(** * Waiting for descriptors: every watched descriptor is asked for, and reported *)

From S2P Require Import Prelude SockAddr IoLooper.

(** ** The watched sets *)

Definition watched (iol : IoLooper) : gset Z := reads iol ∪ writes iol.

Record iwf (iol : IoLooper) : Prop := {
  iw_range : forall fd, fd ∈ watched iol -> in_fd_set fd = true;
  iw_max : max_fd_valid iol = true -> forall fd, fd ∈ watched iol -> fd <= max_fd iol;
  iw_bound : -1 <= max_fd iol /\ (max_fd_valid iol = false -> 0 <= max_fd iol)
}.

Lemma in_fd_set_spec fd : in_fd_set fd = true <-> 0 <= fd < FD_SETSIZE.
Proof. unfold in_fd_set. lia. Qed.

(** The greatest descriptor, or what it was before when nothing is watched. *)
Lemma recompute_spec iol :
  (forall fd, fd ∈ watched iol -> in_fd_set fd = true) ->
  (watched iol = ∅ /\ recompute_max_fd iol = max_fd iol) \/
  (recompute_max_fd iol ∈ watched iol /\ forall fd, fd ∈ watched iol -> fd <= recompute_max_fd iol).
Proof.
  intros Hr. unfold recompute_max_fd.
  set (step := fun max fd => if bool_decide (fd ∈ reads iol) || bool_decide (fd ∈ writes iol) then fd else max).
  assert (Hstep : forall m fd, step m fd = if decide (fd ∈ watched iol) then fd else m).
  { intros m fd. unfold step, watched. repeat case_bool_decide; case_decide; set_solver. }
  assert (H : forall n, let r := foldl step (max_fd iol) (seqZ 0 (Z.of_nat n)) in
    (r = max_fd iol /\ forall fd, fd ∈ watched iol -> 0 <= fd < Z.of_nat n -> False) \/
    (r ∈ watched iol /\ forall fd, fd ∈ watched iol -> 0 <= fd < Z.of_nat n -> fd <= r)).
  { induction n as [|n IH]; [left; split; [done|lia]|].
    rewrite seqZ_S, foldl_app. cbn [foldl Z.add]. rewrite Hstep. case_decide as E.
    - right. split; [done|]. lia.
    - destruct IH as [[E1 E2]|[E1 E2]]; [left|right].
      + split; [done|]. intros fd Hfd ?. destruct (decide (fd = Z.of_nat n)) as [->|]; [done|]. apply (E2 fd Hfd). lia.
      + split; [done|]. intros fd Hfd ?. destruct (decide (fd = Z.of_nat n)) as [->|]; [done|]. apply (E2 fd Hfd). lia. }
  assert (E : Z.of_nat (Z.to_nat FD_SETSIZE) = FD_SETSIZE) by (apply Z2Nat.id; unfold FD_SETSIZE; lia).
  specialize (H (Z.to_nat FD_SETSIZE)). rewrite E in H. cbv zeta in H.
  destruct H as [[E1 E2]|[E1 E2]]; [left|right].
  - split; [|exact E1]. clear E1. apply set_eq. intros fd. split; [|intros Hx; by apply not_elem_of_empty in Hx].
    intros Hfd. destruct (E2 fd Hfd). by apply in_fd_set_spec, Hr.
  - split; [exact E1|]. intros fd Hfd. apply E2; [exact Hfd|]. apply in_fd_set_spec, Hr. exact Hfd.
Qed.

(** [select] is asked about every watched descriptor. *)
Lemma fd_count_spec iol n iol' :
  iwf iol -> iolooper_fd_count iol = (n, iol') ->
  iwf iol' /\ reads iol' = reads iol /\ writes iol' = writes iol /\ 0 <= n /\ forall fd, fd ∈ watched iol -> fd < n.
Proof.
  intros [Hr Hm Hb] E. unfold iolooper_fd_count in E. destruct (max_fd_valid iol) eqn:Ev.
  - injection E as <- <-. split; [by split; rewrite ?Ev|]. split; [done|]. split; [done|]. split; [lia|].
    intros fd Hfd. specialize (Hm eq_refl fd Hfd). lia.
  - pose proof (recompute_spec iol Hr) as Hm'. revert E Hm'. generalize (recompute_max_fd iol). intros m [= <- <-] Hm'.
    cbn. destruct Hb as [_ Hb]. specialize (Hb eq_refl). destruct Hm' as [[He Em]|[Hin Hle]].
    + subst m. split; [|split; [done|]; split; [done|]; split; [lia|set_solver]].
      split; cbn; [done| |lia]. unfold watched in *. cbn. set_solver.
    + specialize (Hr _ Hin) as Hrange. apply in_fd_set_spec in Hrange.
      split; [split; cbn; [done|done|lia]|]. split; [done|]. split; [done|]. split; [lia|].
      intros fd Hfd. specialize (Hle fd Hfd). lia.
Qed.

(** ** Changing what is watched *)

Lemma add_fd_wf fd iol :
  iwf iol -> 0 <= fd -> iwf (iolooper_add_fd fd iol) /\ reads (iolooper_add_fd fd iol) = reads iol /\
  writes (iolooper_add_fd fd iol) = writes iol /\
  (max_fd_valid (iolooper_add_fd fd iol) = true -> fd <= max_fd (iolooper_add_fd fd iol)).
Proof.
  intros Hw Hfd. unfold iolooper_add_fd. destruct (max_fd_valid iol) eqn:Ev; cbn [andb].
  2:{ split; [done|]. split; [done|]. split; [done|]. congruence. }
  destruct (Z.gtb_spec fd (max_fd iol)) as [Hgt|Hle]; [|split; [done|]; done].
  split; [|split; [done|]; split; [done|]; cbn; lia].
  destruct Hw as [Hr Hm [Hb _]]. split; cbn; [done| |split; [lia|congruence]].
  intros _ x Hx. specialize (Hm Ev x Hx). lia.
Qed.

Lemma del_fd_wf fd iol :
  iwf iol -> 0 <= fd -> iwf (iolooper_del_fd fd iol) /\ reads (iolooper_del_fd fd iol) = reads iol /\
  writes (iolooper_del_fd fd iol) = writes iol.
Proof.
  intros Hw Hfd. unfold iolooper_del_fd. destruct (max_fd_valid iol && (fd =? max_fd iol)) eqn:Ev; [|done].
  split; [|done]. destruct Hw as [Hr Hm [Hb _]]. split; cbn; [done|done|]. lia.
Qed.

(** The four operations are the set operations. *)
Definition updated (r w : gset Z) (o : res IoLooper) : Prop :=
  exists iol, o = Ok iol /\ iwf iol /\ reads iol = r /\ writes iol = w.

Lemma iwf_add fd iol r w :
  iwf iol -> (max_fd_valid iol = true -> fd <= max_fd iol) -> 0 <= fd < FD_SETSIZE ->
  (forall x, x ∈ r ∪ w -> x = fd \/ x ∈ watched iol) -> iwf {| iol with reads := r; writes := w |}.
Proof.
  intros [Hr Hm Hb] Hfd Hin Hsub. split; cbn; [| |done].
  - intros x Hx. destruct (Hsub x Hx) as [->|]; [by apply in_fd_set_spec|auto].
  - intros Hv x Hx. destruct (Hsub x Hx) as [->|]; [auto|]. by apply Hm.
Qed.

Lemma add_del_spec iol fd :
  iwf iol -> in_fd_set fd = true ->
  updated ({[fd]} ∪ reads iol) (writes iol) (iolooper_add_read fd iol) /\
  updated (reads iol) ({[fd]} ∪ writes iol) (iolooper_add_write fd iol) /\
  updated (reads iol ∖ {[fd]}) (writes iol) (iolooper_del_read fd iol) /\
  updated (reads iol) (writes iol ∖ {[fd]}) (iolooper_del_write fd iol).
Proof.
  intros Hw Hin. pose proof (proj1 (in_fd_set_spec fd) Hin) as Hr.
  destruct (add_fd_wf fd iol Hw ltac:(lia)) as (Ha & Ear & Eaw & Hmax).
  destruct (del_fd_wf fd iol Hw ltac:(lia)) as (Hd & Edr & Edw).
  unfold iolooper_add_read, iolooper_add_write, iolooper_del_read, iolooper_del_write, FD_SET, FD_CLR.
  replace (fd >=? 0) with true by lia. rewrite Hin. mon. unfold updated.
  split_and!; eexists; (split; [done|]); cbn [reads writes]; rewrite ?Ear, ?Eaw, ?Edr, ?Edw;
    (split; [|done]).
  - apply (iwf_add fd _ _ (writes _) Ha Hmax Hr). unfold watched. set_solver.
  - apply (iwf_add fd _ (reads _) _ Ha Hmax Hr). unfold watched. set_solver.
  - destruct Hd as [Hd1 Hd2 Hd3]. unfold watched in *. split; cbn; [|intros Hv|done]; set_solver.
  - destruct Hd as [Hd1 Hd2 Hd3]. unfold watched in *. split; cbn; [|intros Hv|done]; set_solver.
Qed.

(** ** Runs *)

Inductive iop : Type :=
| AddRead (fd : Z) | AddWrite (fd : Z) | DelRead (fd : Z) | DelWrite (fd : Z)
| Modify (fd oldflags newflags : Z) | Reset.

Definition iop_run (o : iop) (iol : IoLooper) : res IoLooper :=
  match o with
  | AddRead fd => iolooper_add_read fd iol
  | AddWrite fd => iolooper_add_write fd iol
  | DelRead fd => iolooper_del_read fd iol
  | DelWrite fd => iolooper_del_write fd iol
  | Modify fd old new => iolooper_modify fd old new iol
  | Reset => Ok (iolooper_reset iol)
  end.

(** What the operations mean: the two sets. *)
Definition change (b : bool) (fd : Z) (s : gset Z) : gset Z := if b then {[fd]} ∪ s else s ∖ {[fd]}.
Definition iop_spec (o : iop) (rw : gset Z * gset Z) : gset Z * gset Z :=
  let '(r, w) := rw in
  match o with
  | AddRead fd => (change true fd r, w)
  | AddWrite fd => (r, change true fd w)
  | DelRead fd => (change false fd r, w)
  | DelWrite fd => (r, change false fd w)
  | Modify fd old new =>
      (if flag_set (Z.lxor old new) IOLOOPER_READ then change (flag_set new IOLOOPER_READ) fd r else r,
       if flag_set (Z.lxor old new) IOLOOPER_WRITE then change (flag_set new IOLOOPER_WRITE) fd w else w)
  | Reset => (∅, ∅)
  end.
Definition iop_fd (o : iop) : Z :=
  match o with AddRead fd | AddWrite fd | DelRead fd | DelWrite fd | Modify fd _ _ => fd | Reset => 0 end.

Fixpoint iops_run (l : list iop) (iol : IoLooper) : res IoLooper :=
  match l with [] => Ok iol | o :: l' => iol ← iop_run o iol; iops_run l' iol end.

Lemma change_read b fd iol :
  iwf iol -> in_fd_set fd = true ->
  updated (change b fd (reads iol)) (writes iol) (if b then iolooper_add_read fd iol else iolooper_del_read fd iol).
Proof. intros Hw Hin. destruct (add_del_spec iol fd Hw Hin) as (? & ? & ? & ?). by destruct b. Qed.

Lemma change_write b fd iol :
  iwf iol -> in_fd_set fd = true ->
  updated (reads iol) (change b fd (writes iol)) (if b then iolooper_add_write fd iol else iolooper_del_write fd iol).
Proof. intros Hw Hin. destruct (add_del_spec iol fd Hw Hin) as (? & ? & ? & ?). by destruct b. Qed.

Lemma iop_run_spec o iol :
  iwf iol -> in_fd_set (iop_fd o) = true ->
  updated (iop_spec o (reads iol, writes iol)).1 (iop_spec o (reads iol, writes iol)).2 (iop_run o iol).
Proof.
  intros Hw Hin. destruct o as [fd|fd|fd|fd|fd old new|]; cbn [iop_run iop_spec iop_fd fst snd] in *.
  - by apply (change_read true).
  - by apply (change_write true).
  - by apply (change_read false).
  - by apply (change_write false).
  - unfold iolooper_modify. apply in_fd_set_spec in Hin as Hr. replace (fd <? 0) with false by lia.
    assert (H1 : updated (if flag_set (Z.lxor old new) IOLOOPER_READ then change (flag_set new IOLOOPER_READ) fd (reads iol) else reads iol)
        (writes iol) (if flag_set (Z.lxor old new) IOLOOPER_READ then
          if flag_set new IOLOOPER_READ then iolooper_add_read fd iol else iolooper_del_read fd iol else Ok iol)).
    { destruct (flag_set (Z.lxor old new) IOLOOPER_READ); [by apply change_read|]. by exists iol. }
    destruct H1 as (iol1 & -> & Hw1 & <- & <-). mon.
    destruct (flag_set (Z.lxor old new) IOLOOPER_WRITE); [by apply change_write|]. by exists iol1.
  - eexists. split; [done|]. split; [|done]. split; cbn; [set_solver|set_solver|lia].
Qed.

Lemma new_wf junk : iwf (iolooper_new junk).
Proof. split; cbn; [set_solver|set_solver|lia]. Qed.

Lemma iops_run_spec l : forall iol,
  iwf iol -> Forall (fun o => in_fd_set (iop_fd o) = true) l ->
  updated (foldl (fun rw o => iop_spec o rw) (reads iol, writes iol) l).1
          (foldl (fun rw o => iop_spec o rw) (reads iol, writes iol) l).2 (iops_run l iol).
Proof.
  induction l as [|o l IH]; intros iol Hw Hl; [by exists iol|]. apply Forall_cons in Hl as [Ho Hl].
  destruct (iop_run_spec o iol Hw Ho) as (iol1 & E & Hw1 & Er & Ew). cbn [iops_run foldl]. rewrite E. mon.
  destruct (iop_spec o (reads iol, writes iol)) as [r w]. cbn in Er, Ew. subst r w. by apply IH.
Qed.

(** ** The wait *)

(** What [select(2)] documents: an interrupted call has used up a signal; when it
    succeeds the sets hold the descriptors below the count that are ready, and
    the result is their number. *)
Class SelectLaws (O : Type) `{SelectHost O} (readable writable : O -> gset Z) : Prop := {
  law_sel_intr : forall n r w t o a o', select n r w t o = (a, o') ->
    sel_ret a < 0 -> sel_errno a = EINTR -> (sel_signals o' < sel_signals o)%nat;
  law_sel_ready : forall n r w t o a o', select n r w t o = (a, o') -> 0 <= sel_ret a ->
    (forall fd, fd ∈ sel_reads a <-> fd ∈ r /\ fd < n /\ fd ∈ readable o') /\
    (forall fd, fd ∈ sel_writes a <-> fd ∈ w /\ fd < n /\ fd ∈ writable o') /\
    sel_ret a = Z.of_nat (size (sel_reads a) + size (sel_writes a));
  law_sel_fail : forall n r w t o a o', select n r w t o = (a, o') -> -1 <= sel_ret a
}.

Section wait.
Context {O : Type} `{HS : SelectHost O} {readable writable : O -> gset Z} `{!SelectLaws O readable writable}.
Implicit Type s : sel O.

(** The last turn of the loop. *)
Lemma select_loop_ends count fresh timed : forall fuel tm iol s,
  (sel_signals (sel_os s) < fuel)%nat ->
  exists ret iol' s', select_loop fuel count tm fresh timed iol s = Ok (ret, iol', s') /\
    reads iol' = reads iol /\ writes iol' = writes iol /\
    max_fd iol' = max_fd iol /\ max_fd_valid iol' = max_fd_valid iol /\ -1 <= ret /\
    (0 <= ret ->
      (forall fd, fd ∈ reads_result iol' <-> fd ∈ reads iol /\ fd < count /\ fd ∈ readable (sel_os s')) /\
      (forall fd, fd ∈ writes_result iol' <-> fd ∈ writes iol /\ fd < count /\ fd ∈ writable (sel_os s')) /\
      ret = Z.of_nat (size (reads_result iol') + size (writes_result iol'))) /\
    (timed = true -> ret = 0 -> sel_err s' = ETIMEDOUT).
Proof.
  induction fuel as [|fuel IH]; intros tm iol s Hf; [lia|]. cbn [select_loop].
  destruct (select count (reads iol) (writes iol) (default tm fresh) (sel_os s)) as [a o] eqn:E.
  pose proof (law_sel_intr _ _ _ _ _ _ _ E) as Hintr. pose proof (law_sel_ready _ _ _ _ _ _ _ E) as Hready.
  pose proof (law_sel_fail _ _ _ _ _ _ _ E) as Hfail.
  destruct ((sel_ret a <? 0) && _) eqn:Eb.
  - apply andb_true_iff in Eb as [Hlt He]. rewrite Hlt in He. apply Z.ltb_lt in Hlt. apply Z.eqb_eq in He.
    match goal with |- context [select_loop fuel count ?t fresh timed ?i ?s1] =>
      destruct (IH t i s1) as (ret & iol' & s' & E' & Hrest) end.
    { cbn. specialize (Hintr Hlt He). lia. }
    rewrite E'. exists ret, iol', s'. split; [done|]. exact Hrest.
  - eexists _, _, _. split; [done|]. cbn [reads writes reads_result writes_result sel_err sel_os].
    split; [done|]. split; [done|]. split; [done|]. split; [done|]. split; [lia|]. split; [intros Hr; by apply Hready|].
    intros -> Hr. rewrite Hr. done.
Qed.

(** What a wait reports of a looper that is well formed. *)
Lemma wait_spec iol duration s :
  iwf iol ->
  exists ret iol' s', iolooper_wait duration iol s = Ok (ret, iol', s') /\ iwf iol' /\
    reads iol' = reads iol /\ writes iol' = writes iol /\ -1 <= ret /\
    (0 <= ret -> watched iol <> ∅ ->
      reads_result iol' = reads iol ∩ readable (sel_os s') /\ writes_result iol' = writes iol ∩ writable (sel_os s') /\
      ret = Z.of_nat (size (reads_result iol') + size (writes_result iol')) /\ (ret = 0 -> sel_err s' = ETIMEDOUT)) /\
    (ret > 0 -> watched iol <> ∅).
Proof.
  intros Hw. unfold iolooper_wait. destruct (iolooper_fd_count iol) as [count iol1] eqn:Ec.
  destruct (fd_count_spec iol count iol1 Hw Ec) as (Hw1 & Er1 & Ew1 & Hc & Hlt).
  destruct (Z.eqb_spec count 0) as [->|Hne].
  - exists 0, iol1, s. split; [done|]. split; [done|]. split; [done|]. split; [done|]. split; [lia|]. split; [|lia].
    intros _ Hwatch. destruct Hwatch. apply set_eq. intros fd. split; [|set_solver]. intros Hfd.
    specialize (iw_range _ Hw fd Hfd) as Hr. specialize (Hlt fd Hfd). apply in_fd_set_spec in Hr. lia.
  - destruct (select_loop_ends count None true (S (sel_signals (sel_os s))) (wait_timeout duration) iol1 s ltac:(lia))
      as (ret & iol' & s' & E' & Er' & Ew' & Emf & Emv & Hret & Hready & Hto).
    exists ret, iol', s'. split; [exact E'|].
    split; [destruct Hw1; split; unfold watched in *; rewrite ?Er', ?Ew', ?Emf, ?Emv; done|].
    split; [congruence|]. split; [congruence|]. split; [done|].
    assert (Hres : 0 <= ret -> reads_result iol' = reads iol ∩ readable (sel_os s') /\
      writes_result iol' = writes iol ∩ writable (sel_os s') /\
      ret = Z.of_nat (size (reads_result iol') + size (writes_result iol'))).
    { intros Hr. destruct (Hready Hr) as (Hrd & Hwr & Hn). split; [|split; [|done]].
      - apply set_eq. intros fd. rewrite Hrd, elem_of_intersection, Er1. specialize (Hlt fd). unfold watched in Hlt. set_solver.
      - apply set_eq. intros fd. rewrite Hwr, elem_of_intersection, Ew1. specialize (Hlt fd). unfold watched in Hlt. set_solver. }
    split; [intros Hr _; destruct (Hres Hr) as (? & ? & ?); auto|].
    intros Hpos Hempty. destruct (Hres ltac:(lia)) as (ER & EW & Hn).
    assert (reads_result iol' = ∅) as E1 by (rewrite ER; unfold watched in Hempty; set_solver).
    assert (writes_result iol' = ∅) as E2 by (rewrite EW; unfold watched in Hempty; set_solver).
    rewrite E1, E2, size_empty in Hn. lia.
Qed.

(** C34.  Whatever descriptors were added, removed and modified, [iolooper_wait]
    returns, however often signals interrupt it; unless it fails, the
    descriptors it then reports as readable and writable are exactly the watched
    ones that are ready, its result is their number, and a result of zero comes
    with [errno] set to [ETIMEDOUT].  The timeout it gives to [select] is the
    duration in milliseconds. *)
Theorem iolooper_wait_reports junk ops duration s :
  Forall (fun o => in_fd_set (iop_fd o) = true) ops ->
  let '(rs, ws) := foldl (fun rw o => iop_spec o rw) (∅, ∅) ops in
  exists iol, iops_run ops (iolooper_new junk) = Ok iol /\
  exists ret iol' s', iolooper_wait duration iol s = Ok (ret, iol', s') /\
    reads iol' = rs /\ writes iol' = ws /\ -1 <= ret /\
    (0 <= ret -> rs ∪ ws <> ∅ ->
      (forall fd, in_fd_set fd = true ->
        iolooper_is_read iol' fd = Ok (bool_decide (fd ∈ rs ∩ readable (sel_os s'))) /\
        iolooper_is_write iol' fd = Ok (bool_decide (fd ∈ ws ∩ writable (sel_os s')))) /\
      ret = Z.of_nat (size (rs ∩ readable (sel_os s')) + size (ws ∩ writable (sel_os s'))) /\
      (ret = 0 -> sel_err s' = ETIMEDOUT)) /\
    (0 <= duration -> exists t, wait_timeout duration = Some t /\ 0 <= tv_usec t < 1000000 /\
       tv_sec t * 1000000 + tv_usec t = duration * 1000).
Proof.
  intros Hops. destruct (iops_run_spec ops (iolooper_new junk) (new_wf junk) Hops) as (iol & E & Hw & Er & Ew).
  change (reads (iolooper_new junk)) with (∅ : gset Z) in Er, Ew.
  change (writes (iolooper_new junk)) with (∅ : gset Z) in Er, Ew.
  destruct (foldl (fun rw o => iop_spec o rw) (∅, ∅) ops) as [rs ws]. cbn in Er, Ew. exists iol. split; [exact E|].
  destruct (wait_spec iol duration s Hw) as (ret & iol' & s' & E' & _ & Er' & Ew' & Hret & Hready & _).
  exists ret, iol', s'. split; [exact E'|]. split; [congruence|]. split; [congruence|]. split; [done|]. split.
  - intros Hr Hwatch. unfold watched in Hready. rewrite Er, Ew in Hready. destruct (Hready Hr Hwatch) as (ER & EW & Hn & Hto).
    split; [|split; [by rewrite Hn, ER, EW|done]].
    intros fd Hin. unfold iolooper_is_read, iolooper_is_write, FD_ISSET. by rewrite Hin, ER, EW.
  - intros Hd. unfold wait_timeout. rewrite (proj2 (Z.ltb_ge _ _) Hd). eexists. split; [done|]. cbn.
    pose proof (Z.div_mod duration 1000 ltac:(lia)). pose proof (Z.mod_pos_bound duration 1000 ltac:(lia)). lia.
Qed.
End wait.

(** ** A concrete host

    Descriptor 4 is readable and nothing is writable; the state counts the
    signals to come. *)
Module SelectToy.
#[global] Instance host : SelectHost nat := {|
  select n r w t o :=
    match o with
    | S o' => (mkSel (-1) EINTR r w t, o')
    | O => let rd := filter (fun fd => fd < n) (r ∩ {[4]}) in (mkSel (Z.of_nat (size rd)) 0 rd ∅ t, O)
    end;
  gettimeofday o := (Some (mkTimeval 100 5000), o);
  sel_signals o := o
|}.
#[global] Instance laws : SelectLaws nat (fun _ => {[4]}) (fun _ => ∅).
Proof.
  split; intros n r w t o a o' E; cbn in E; destruct o; simplify_eq; cbn [sel_ret sel_reads sel_writes sel_errno sel_signals host];
    try lia.
  intros _. split; [|split].
  - intros fd. rewrite elem_of_filter, elem_of_intersection, elem_of_singleton. tauto.
  - intros fd. split; [set_solver|]. intros (_ & _ & H). set_solver.
  - rewrite size_empty. lia.
Qed.
Definition junk : IoLooper := mkIoLooper ∅ ∅ {[9]} ∅ 0 false.
End SelectToy.

Lemma iolooper_wait_reports_witness :
  exists iol, iops_run [Modify 4 0 3; AddRead 7; DelRead 7] (iolooper_new SelectToy.junk) = Ok iol /\
  exists ret iol' s', iolooper_wait 1500 iol (mkSelState 0 2%nat) = Ok (ret, iol', s') /\
    reads iol' = {[4]} ∪ ∅ /\ -1 <= ret.
Proof.
  destruct (iolooper_wait_reports (readable := fun _ => {[4]}) (writable := fun _ => ∅) SelectToy.junk
    [Modify 4 0 3; AddRead 7; DelRead 7] 1500 (mkSelState 0 2%nat)) as (iol & E & ret & iol' & s' & E' & Hr & _ & Hret & _).
  - repeat constructor.
  - exists iol. split; [exact E|]. exists ret, iol', s'. split; [exact E'|]. split; [|exact Hret]. rewrite Hr.
    vm_compute. reflexivity.
Defined.

(** The greatest descriptor is not forgotten when the last one is removed: the
    looper still claims to have operations. *)
Lemma has_operations_stale junk fd :
  in_fd_set fd = true ->
  exists iol, iops_run [AddRead fd; DelRead fd] (iolooper_new junk) = Ok iol /\ watched iol = ∅ /\
    fst (iolooper_has_operations iol) = true.
Proof.
  intros Hin. destruct (iops_run_spec [AddRead fd; DelRead fd] (iolooper_new junk) (new_wf junk)) as (iol & E & Hw & Er & Ew).
  { repeat constructor; done. }
  exists iol. split; [exact E|]. cbn in Er, Ew. split; [unfold watched; rewrite Er, Ew; set_solver|].
  unfold iolooper_has_operations. destruct (iolooper_fd_count iol) as [n iol1] eqn:Ec. cbn.
  cbn in E. unfold iolooper_add_read, iolooper_del_read, FD_SET, FD_CLR in E.
  apply in_fd_set_spec in Hin as Hr. replace (fd >=? 0) with true in E by lia. rewrite Hin in E. cbn in E.
  unfold iolooper_add_fd, iolooper_del_fd in E. cbn in E. replace (fd >? -1) with true in E by lia. cbn in E.
  rewrite Z.eqb_refl in E. injection E as <-. unfold iolooper_fd_count in Ec. cbn [max_fd_valid] in Ec.
  match type of Ec with context [recompute_max_fd ?i] => destruct (recompute_spec i) as [[_ Em]|[Hx _]] end.
  - clear Ec. intros x. cbn. unfold watched. cbn. set_solver.
  - rewrite Em in Ec. cbn in Ec. injection Ec as <- _. lia.
  - unfold watched in Hx. cbn [reads writes] in Hx. clear Ec Hw Er Ew. set_solver.
Qed.
