(* ===== verification/LooperGeneric.v ===== *)
(** * The generic event loop ([android/looper-generic.c])

    A [GLooper] runs without the QEMU core: it keeps its active timers in a list
    sorted by deadline, its watchers in sets of pointers, and waits with an
    [IoLooper].  The memory allocator belongs to the host: the functions that
    allocate take the address it returned. *)

From S2P Require Import Prelude IntrusiveList LooperQemu SockAddr SocketCalls Refset IoLooper.

Definition EWOULDBLOCK := 11.
Definition DURATION_INFINITE := 0x7fffffffffffffff.

(** ** Data *)

(** [struct GLoopTimer]; its callback is one function for all timers, which gets
    [gt_opaque]. *)
Record GLoopTimer : Type := mkGTimer { gt_deadline : Z; gt_opaque : Z; gt_next : Z }.
Definition set_activeNext (v : Z) (t : GLoopTimer) : GLoopTimer := {| t with gt_next := v |}.
Definition set_deadline (v : Z) (t : GLoopTimer) : GLoopTimer := {| t with gt_deadline := v |}.

(** [struct GLoopIo] *)
Record GLoopIo : Type := mkGIo { gio_fd : Z; gio_opaque : Z; gio_wanted : Z; gio_ready : Z }.

(** [struct GLooper] with the objects it uses. *)
Record GLooper : Type := mkGLooper {
  timers : ARefSet;
  activeTimers : Z;
  ios : ARefSet;
  pendingIos : ARefSet;
  numActiveIos : Z;
  iolooper : IoLooper;
  running : bool;
  gtheap : gmap Z GLoopTimer;
  gioheap : gmap Z GLoopIo
}.

Definition mod_gtimer (p : Z) (f : GLoopTimer -> GLoopTimer) (g : GLooper) : res GLooper :=
  t ← deref (gtheap g) p; Ok {| g with gtheap := <[p := f t]> (gtheap g) |}.
Definition mod_gio (p : Z) (f : GLoopIo -> GLoopIo) (g : GLooper) : res GLooper :=
  i ← deref (gioheap g) p; Ok {| g with gioheap := <[p := f i]> (gioheap g) |}.

(** [Looper* looper_newGeneric(void)]; [junk] is the memory of the [IoLooper] *)
Definition looper_newGeneric (junk : IoLooper) : GLooper :=
  mkGLooper arefSet_init 0 arefSet_init arefSet_init 0 (iolooper_new junk) false ∅ ∅.

(** ** Timers *)

Definition glooper_addTimer (tt : Z) (g : GLooper) : res GLooper :=
  s ← arefSet_add tt (timers g); Ok {| g with timers := s |}.
Definition glooper_delTimer (tt : Z) (g : GLooper) : res GLooper :=
  s ← arefSet_del tt (timers g); Ok {| g with timers := s |}.

(** [void glooper_addActiveTimer(looper, tt)] *)
Definition glooper_addActiveTimer (tt : Z) (g : GLooper) : res GLooper :=
  t ← deref (gtheap g) tt;
  let deadline := gt_deadline t in
  pnode ← find_link gt_next (fun node => n ← deref (gtheap g) node; Ok (gt_deadline n >? deadline))
            (walk_fuel (gtheap g)) (gtheap g) (activeTimers g) LHead;
  v ← load_link gt_next (gtheap g) (activeTimers g) pnode;
  g ← mod_gtimer tt (set_activeNext v) g;
  '(h, hd) ← store_link set_activeNext (gtheap g) (activeTimers g) pnode tt;
  Ok {| g with gtheap := h; activeTimers := hd |}.

(** [void glooper_delActiveTimer(looper, tt)] *)
Definition glooper_delActiveTimer (tt : Z) (g : GLooper) : res GLooper :=
  pnode ← find_link gt_next (fun node => Ok (node =? tt)) (walk_fuel (gtheap g)) (gtheap g) (activeTimers g) LHead;
  node ← load_link gt_next (gtheap g) (activeTimers g) pnode;
  if node =? 0 then Ok g
  else
    t ← deref (gtheap g) tt;
    '(h, hd) ← store_link set_activeNext (gtheap g) (activeTimers g) pnode (gt_next t);
    mod_gtimer tt (set_activeNext 0) {| g with gtheap := h; activeTimers := hd |}.

(** [void glooptimer_stop(impl)] *)
Definition glooptimer_stop (tt : Z) (g : GLooper) : res GLooper :=
  t ← deref (gtheap g) tt;
  if negb (gt_deadline t =? DURATION_INFINITE) then
    g ← glooper_delActiveTimer tt g;
    mod_gtimer tt (set_deadline DURATION_INFINITE) g
  else Ok g.

(** [void glooptimer_startAbsolute(impl, deadline_ms)] *)
Definition glooptimer_startAbsolute (tt deadline_ms : Z) (g : GLooper) : res GLooper :=
  t ← deref (gtheap g) tt;
  g ← (if negb (gt_deadline t =? DURATION_INFINITE) then glooptimer_stop tt g else Ok g);
  if deadline_ms =? DURATION_INFINITE then Ok g
  else
    g ← mod_gtimer tt (set_deadline deadline_ms) g;
    glooper_addActiveTimer tt g.

(** [int glooptimer_isActive(impl)] *)
Definition glooptimer_isActive (tt : Z) (g : GLooper) : res bool :=
  t ← deref (gtheap g) tt; Ok (negb (gt_deadline t =? DURATION_INFINITE)).

(** [void glooptimer_free(impl)] *)
Definition glooptimer_free (tt : Z) (g : GLooper) : res GLooper :=
  t ← deref (gtheap g) tt;
  g ← (if negb (gt_deadline t =? DURATION_INFINITE) then glooptimer_stop tt g else Ok g);
  g ← glooper_delTimer tt g;
  _ ← deref (gtheap g) tt;
  Ok {| g with gtheap := delete tt (gtheap g) |}.

(** [void glooper_timer_init(looper, timer, callback, opaque)]: [tt] is the
    address of the new timer *)
Definition glooper_timer_init (tt opaque : Z) (g : GLooper) : res GLooper :=
  glooper_addTimer tt {| g with gtheap := <[tt := mkGTimer DURATION_INFINITE opaque 0]> (gtheap g) |}.

(** ** Watchers *)

Definition glooper_addIo (io : Z) (g : GLooper) : res GLooper :=
  s ← arefSet_add io (ios g); Ok {| g with ios := s |}.
Definition glooper_delIo (io : Z) (g : GLooper) : res GLooper :=
  s ← arefSet_del io (ios g); Ok {| g with ios := s |}.
Definition glooper_delPendingIo (io : Z) (g : GLooper) : res GLooper :=
  s ← arefSet_del io (pendingIos g); Ok {| g with pendingIos := s |}.

(** [void glooper_modifyFd(looper, fd, oldWanted, newWanted)] *)
Definition glooper_modifyFd (fd oldWanted newWanted : Z) (g : GLooper) : res GLooper :=
  let n := numActiveIos g in
  let n := if (oldWanted =? 0) && negb (newWanted =? 0) then n + 1 else n in
  let n := if negb (oldWanted =? 0) && (newWanted =? 0) then n - 1 else n in
  iol ← iolooper_modify fd oldWanted newWanted (iolooper g);
  Ok {| g with numActiveIos := n; iolooper := iol |}.

(** [void gloopio_modify(io, wanted)] *)
Definition gloopio_modify (io wanted : Z) (g : GLooper) : res GLooper :=
  i ← deref (gioheap g) io;
  if gio_wanted i =? wanted then Ok g
  else
    g ← (if negb (gio_ready i =? 0) && (Z.land (gio_ready i) wanted =? 0)
         then glooper_delPendingIo io g else Ok g);
    g ← mod_gio io (fun i => {| i with gio_ready := Z.land (gio_ready i) wanted |}) g;
    g ← glooper_modifyFd (gio_fd i) (gio_wanted i) wanted g;
    mod_gio io (fun i => {| i with gio_wanted := wanted |}) g.

Definition gloopio_wantRead (io : Z) (g : GLooper) : res GLooper :=
  i ← deref (gioheap g) io; gloopio_modify io (Z.lor (gio_wanted i) LOOP_IO_READ) g.
Definition gloopio_wantWrite (io : Z) (g : GLooper) : res GLooper :=
  i ← deref (gioheap g) io; gloopio_modify io (Z.lor (gio_wanted i) LOOP_IO_WRITE) g.
Definition gloopio_dontWantRead (io : Z) (g : GLooper) : res GLooper :=
  i ← deref (gioheap g) io; gloopio_modify io (Z.ldiff (gio_wanted i) LOOP_IO_READ) g.
Definition gloopio_dontWantWrite (io : Z) (g : GLooper) : res GLooper :=
  i ← deref (gioheap g) io; gloopio_modify io (Z.ldiff (gio_wanted i) LOOP_IO_WRITE) g.
Definition gloopio_poll (io : Z) (g : GLooper) : res Z :=
  i ← deref (gioheap g) io; Ok (gio_ready i).

(** [void gloopio_free(impl)] *)
Definition gloopio_free (io : Z) (g : GLooper) : res GLooper :=
  i ← deref (gioheap g) io;
  g ← (if negb (gio_ready i =? 0) then glooper_delPendingIo io g else Ok g);
  g ← glooper_delIo io g;
  Ok {| g with gioheap := delete io (gioheap g) |}.

(** [void glooper_io_init(looper, user, fd, callback, opaque)]: [io] is the
    address of the new watcher, [s] the host's sockets *)
Definition glooper_io_init {P : Type} `{Host P} (io fd opaque : Z) (g : GLooper) (s : sock P)
    : res (GLooper * sock P) :=
  let g := {| g with gioheap := <[io := mkGIo fd opaque 0 0]> (gioheap g) |} in
  let '(_, s) := socket_set_nonblock fd s in
  g ← glooper_addIo io g;
  Ok (g, s).

(** [void glooper_forceQuit(ll)] *)
Definition glooper_forceQuit (g : GLooper) : GLooper := {| g with running := false |}.

(** [void glooper_free(ll)] *)
Definition glooper_free (g : GLooper) : GLooper :=
  {| g with timers := arefSet_done (timers g); activeTimers := 0; ios := arefSet_done (ios g);
            pendingIos := arefSet_done (pendingIos g) |}.

(** ** The loop *)

Section run.
Context {O : Type} `{SelectHost O} {S : Type}.
(** A program of state [S] that contains the looper and the host. *)
Context (get : S -> GLooper) (put : GLooper -> S -> S) (host : S -> sel O) (set_host : sel O -> S -> S).
Context (timer_callback : Z -> S -> res S) (io_callback : Z -> Z -> Z -> S -> res S).

(** [int64_t glooper_now(ll)] *)
Definition glooper_now (s : S) : Z * S :=
  let '(now, h) := iolooper_now (host s) in (now, set_host h s).

(** [void glooptimer_startRelative(impl, timeout_ms)] *)
Definition glooptimer_startRelative (tt timeout_ms : Z) (s : S) : res S :=
  if timeout_ms =? DURATION_INFINITE then
    g ← glooptimer_stop tt (get s); Ok (put g s)
  else
    let '(now, s) := glooper_now s in
    g ← glooptimer_startAbsolute tt (s64 (timeout_ms + now)) (get s); Ok (put g s).

(** Waiters whose descriptor is ready become pending. *)
Definition collect_io (io : Z) (g : GLooper) : res GLooper :=
  i ← deref (gioheap g) io;
  if gio_wanted i =? 0 then Ok g
  else
    rd ← iolooper_is_read (iolooper g) (gio_fd i);
    wr ← iolooper_is_write (iolooper g) (gio_fd i);
    let ready := Z.lor (if rd : bool then LOOP_IO_READ else 0) (if wr : bool then LOOP_IO_WRITE else 0) in
    g ← mod_gio io (fun i => {| i with gio_ready := ready |}) g;
    if negb (ready =? 0) then
      s ← arefSet_add io (pendingIos g); Ok {| g with pendingIos := s |}
    else Ok g.
Definition collect_ios (g : GLooper) : res GLooper :=
  arefSet_foreach ios (fun s g => {| g with ios := s |}) collect_io g.

(** Expired timers go from the active list to a pending list, whose head is
    [pending] and whose last link is [lastp]. *)
Fixpoint take_expired (fuel : nat) (now pending : Z) (lastp : link) (g : GLooper) : res (Z * GLooper) :=
  match fuel with
  | 0%nat => Fault OutOfFuel
  | Datatypes.S fuel' =>
      let timer := activeTimers g in
      if timer =? 0 then Ok (pending, g)
      else
        t ← deref (gtheap g) timer;
        if gt_deadline t >? now then Ok (pending, g)
        else
          g ← mod_gtimer timer (set_deadline DURATION_INFINITE) {| g with activeTimers := gt_next t |};
          '(h, pending) ← store_link set_activeNext (gtheap g) pending lastp timer;
          g ← mod_gtimer timer (set_activeNext 0) {| g with gtheap := h |};
          take_expired fuel' now pending (LNext timer) g
  end.

(** The pending timers are called back. *)
Fixpoint fire_timers (fuel : nat) (pending : Z) (s : S) : res S :=
  match fuel with
  | 0%nat => Fault OutOfFuel
  | Datatypes.S fuel' =>
      if pending =? 0 then Ok s
      else
        t ← deref (gtheap (get s)) pending;
        g ← mod_gtimer pending (set_activeNext 0) (get s);
        s ← timer_callback (gt_opaque t) (put g s);
        fire_timers fuel' (gt_next t) s
  end.

(** The pending watchers are called back, and the set of them is cleared. *)
Definition fire_io (io : Z) (s : S) : res S :=
  i ← deref (gioheap (get s)) io;
  io_callback (gio_opaque i) (gio_fd i) (gio_ready i) s.
Definition fire_ios (s : S) : res S :=
  s ← arefSet_foreach (fun s => pendingIos (get s)) (fun p s => put {| (get s) with pendingIos := p |} s) fire_io s;
  Ok (put {| (get s) with pendingIos := arefSet_clear (pendingIos (get s)) |} s).

(** The deadline of the next wait. *)
Definition next_deadline (loop_deadline_ms : Z) (g : GLooper) : res Z :=
  deadline ← (if negb (activeTimers g =? 0) then t ← deref (gtheap g) (activeTimers g); Ok (gt_deadline t)
              else Ok DURATION_INFINITE);
  Ok (if deadline >? loop_deadline_ms then loop_deadline_ms else deadline).

(** One turn of the loop of [glooper_run]: the result if it ends. *)
Definition run_turn (loop_deadline_ms : Z) (s : S) : res (option Z * S) :=
  let g := get s in
  if negb (running g) then Ok (Some 0, s)
  else if (numActiveIos g =? 0) && (activeTimers g =? 0) then Ok (Some EWOULDBLOCK, s)
  else
    deadline ← next_deadline loop_deadline_ms g;
    '(ret, iol, h) ← iolooper_wait_absolute deadline (iolooper g) (host s);
    let g := {| g with iolooper := iol |} in
    let s := put g (set_host h s) in
    if ret <? 0 then Ok (Some 0, s)
    else
      g ← (if ret >? 0 then collect_ios g else Ok g);
      let '(now, s) := glooper_now (put g s) in
      '(pending, g) ← take_expired (walk_fuel (gtheap (get s))) now 0 LHead (get s);
      s ← fire_timers (walk_fuel (gtheap g)) pending (put g s);
      s ← fire_ios s;
      Ok (if now >? loop_deadline_ms then Some ETIMEDOUT else None, s).

(** [int glooper_run(ll, loop_deadline_ms)]: [turns] bounds the turns of the
    loop, which ends when a callback asks it to, when nothing is watched, on an
    error and after the deadline. *)
Fixpoint glooper_loop (turns : nat) (loop_deadline_ms : Z) (s : S) : res (Z * S) :=
  match turns with
  | 0%nat => Fault OutOfFuel
  | Datatypes.S turns' =>
      '(r, s) ← run_turn loop_deadline_ms s;
      match r with Some v => Ok (v, s) | None => glooper_loop turns' loop_deadline_ms s end
  end.
Definition glooper_run (turns : nat) (loop_deadline_ms : Z) (s : S) : res (Z * S) :=
  glooper_loop turns loop_deadline_ms (put {| (get s) with running := true |} s).
End run.
