(* ===== verification/LooperGenericProofs.v ===== *)
(** * The generic event loop: timers and watchers *)

From S2P Require Import Prelude IntrusiveList LooperQemu SockAddr SocketCalls Refset RefsetProofs RefsetTheorems IoLooper IoLooperProofs LooperGeneric.

(** ** Active timers *)

Definition ginfo (t : GLoopTimer) : GLoopTimer := {| t with gt_next := 0 |}.
Definition gkey (h : gmap Z GLoopTimer) (x : Z) : Z := default 0 (gt_deadline <$> h !! x).
Definition gactive (h : gmap Z GLoopTimer) (x : Z) : Prop :=
  exists t, h !! x = Some t /\ gt_deadline t <> DURATION_INFINITE.

(** The list of head [p] holds the active timers, in the order of deadlines. *)
Record glist (h : gmap Z GLoopTimer) (p : Z) (l : list Z) : Prop := {
  gl_chain : chain gt_next h p l;
  gl_sorted : key_sorted (gkey h) l;
  gl_elem : forall x, x ∈ l <-> gactive h x
}.

Lemma ginfo_deadline t t' : ginfo t = ginfo t' -> gt_deadline t = gt_deadline t' /\ gt_opaque t = gt_opaque t'.
Proof. destruct t, t'. by intros [= -> ->]. Qed.

Lemma ginfo_lookup (h h' : gmap Z GLoopTimer) x :
  ginfo <$> h' = ginfo <$> h -> (gt_deadline <$> h' !! x) = (gt_deadline <$> h !! x).
Proof.
  intros E. pose proof (fmap_eq_lookup _ _ _ x E) as Ex. destruct (h' !! x), (h !! x); try done.
  injection Ex as Ex. cbn. f_equal. cbn in *. by destruct g, g0; cbn in *; simplify_eq.
Qed.

Lemma gkey_info h h' x : ginfo <$> h' = ginfo <$> h -> gkey h' x = gkey h x.
Proof. intros E. unfold gkey. by rewrite (ginfo_lookup _ _ x E). Qed.

Lemma gactive_alt h x : gactive h x <-> exists d, gt_deadline <$> h !! x = Some d /\ d <> DURATION_INFINITE.
Proof.
  unfold gactive. split.
  - intros (t & -> & Hd). by exists (gt_deadline t).
  - intros (d & Hd & Hne). apply fmap_Some in Hd as (t & Ht & ->). eauto.
Qed.

Lemma gactive_info h h' x : ginfo <$> h' = ginfo <$> h -> (gactive h' x <-> gactive h x).
Proof. intros E. rewrite !gactive_alt. by rewrite (ginfo_lookup _ _ x E). Qed.

Lemma glist_info h h' p l :
  ginfo <$> h' = ginfo <$> h -> chain gt_next h' p l -> key_sorted (gkey h) l ->
  (forall x, x ∈ l <-> gactive h x) -> glist h' p l.
Proof.
  intros E Hc Hs He. split; [done|..].
  - eapply key_sorted_ext; [|exact Hs]. intros. symmetry. by apply gkey_info.
  - intros x. by rewrite He, (gactive_info _ _ _ E).
Qed.

Lemma gkey_insert h q t x : gkey (<[q := t]> h) x = if decide (q = x) then gt_deadline t else gkey h x.
Proof. unfold gkey. rewrite lookup_insert. by case_decide. Qed.

Lemma gactive_insert h q t x :
  gactive (<[q := t]> h) x <-> (if decide (q = x) then gt_deadline t <> DURATION_INFINITE else gactive h x).
Proof. unfold gactive. rewrite lookup_insert. case_decide; naive_solver. Qed.

Lemma mod_gtimer_Ok p f g t :
  p <> 0 -> gtheap g !! p = Some t -> mod_gtimer p f g = Ok {| g with gtheap := <[p := f t]> (gtheap g) |}.
Proof. intros. unfold mod_gtimer. by rewrite (deref_Some _ _ t). Qed.

Lemma chain_set_deadline h p l tt t d :
  h !! tt = Some t -> chain gt_next h p l -> chain gt_next (<[tt := set_deadline d t]> h) p l.
Proof.
  intros Ht. apply chain_frame. intros x _. rewrite lookup_insert. by case_decide; subst; rewrite ?Ht.
Qed.

(** Stopping an active timer. *)
Lemma stop_active g l tt t :
  glist (gtheap g) (activeTimers g) l -> gtheap g !! tt = Some t -> tt ∈ l ->
  exists h hd, (g ← glooper_delActiveTimer tt g; mod_gtimer tt (set_deadline DURATION_INFINITE) g)
      = Ok {| g with gtheap := h; activeTimers := hd |} /\
    glist h hd (filter (fun x => x <> tt) l) /\
    ginfo <$> h = ginfo <$> <[tt := set_deadline DURATION_INFINITE t]> (gtheap g).
Proof.
  intros [Hc Hs He] Ht Hin. destruct (chain_elem _ _ _ _ Hc Hin) as [Htt _].
  apply list_elem_of_split in Hin as (l1 & l2 & ->). pose proof (chain_NoDup _ _ _ Hc) as Hnd.
  unfold glooper_delActiveTimer. rewrite (find_link_spec _ _ _ l1 (tt :: l2) Hc); cycle 1.
  { intros x Hx. f_equal. apply Z.eqb_neq. intros ->. apply NoDup_app in Hnd. set_solver. }
  { intros x [= ->]. by rewrite Z.eqb_refl. }
  mon. rewrite (load_link_after _ _ _ _ Hc). mon. change (default 0 (head (tt :: l2))) with tt.
  rewrite (proj2 (Z.eqb_neq tt 0)) by done. rewrite (deref_Some _ tt t) by done. mon.
  destruct (unlink_clear (next := gt_next) (set_next := set_activeNext) ltac:(done) (gtheap g) _ l1 tt l2 t Hc Ht)
    as (h' & p' & E & Hq & Hc' & Hf).
  rewrite E. mon. rewrite (mod_gtimer_Ok tt _ _ t) by done. mon. cbn [gtheap].
  rewrite (mod_gtimer_Ok tt _ _ (set_activeNext 0 t)) by (done || apply lookup_insert_eq). cbn [gtheap].
  rewrite insert_insert_eq. eexists _, _. split; [done|].
  assert (Ei : ginfo <$> <[tt := set_deadline DURATION_INFINITE (set_activeNext 0 t)]> h'
    = ginfo <$> <[tt := set_deadline DURATION_INFINITE t]> (gtheap g)).
  { rewrite !fmap_insert. specialize (Hf _ ginfo ltac:(done)). rewrite fmap_insert in Hf.
    apply (f_equal (fun m => <[tt := ginfo (set_deadline DURATION_INFINITE t)]> m)) in Hf.
    rewrite insert_insert_eq in Hf. exact Hf. }
  split; [|exact Ei]. rewrite filter_ne_split by done. eapply glist_info; [exact Ei|..].
  - replace (<[tt := set_deadline DURATION_INFINITE (set_activeNext 0 t)]> h')
      with (<[tt := set_deadline DURATION_INFINITE (set_activeNext 0 t)]> (<[tt := set_activeNext 0 t]> h'))
      by apply insert_insert_eq.
    apply chain_set_deadline; [apply lookup_insert_eq|done].
  - rewrite <- (filter_ne_split l1 l2 tt) by done.
    eapply key_sorted_ext; [|by apply key_sorted_filter]. intros x [Hx _]%list_elem_of_filter.
    rewrite gkey_insert. by case_decide; subst.
  - intros x. rewrite <- (filter_ne_split l1 l2 tt) by done. rewrite list_elem_of_filter, He, gactive_insert.
    case_decide as Ex; [|naive_solver]. cbn. naive_solver.
Qed.

(** Starting an inactive timer puts it after those that expire no later. *)
Lemma start_inactive g l tt t d :
  glist (gtheap g) (activeTimers g) l -> gtheap g !! tt = Some t -> gt_deadline t = DURATION_INFINITE ->
  tt <> 0 -> d <> DURATION_INFINITE ->
  exists h hd l1 l2, (g ← mod_gtimer tt (set_deadline d) g; glooper_addActiveTimer tt g)
      = Ok {| g with gtheap := h; activeTimers := hd |} /\
    l = l1 ++ l2 /\ glist h hd (l1 ++ tt :: l2) /\
    ginfo <$> h = ginfo <$> <[tt := set_deadline d t]> (gtheap g).
Proof.
  intros [Hc Hs He] Ht Hd Htt Hdi. rewrite (mod_gtimer_Ok tt _ g t) by done. mon.
  set (h1 := <[tt := set_deadline d t]> (gtheap g)).
  assert (Hni : tt ∉ l) by (rewrite He; intros (x & Hx & Hxd); congruence).
  destruct (key_sorted_split _ l d Hs) as (l1 & l2 & El & H1 & H2).
  assert (Hc1 : chain gt_next h1 (activeTimers g) (l1 ++ l2)) by (rewrite <- El; by apply chain_set_deadline).
  assert (Hk : forall x, x ∈ l -> gkey h1 x = gkey (gtheap g) x).
  { intros x Hx. unfold h1. rewrite gkey_insert. case_decide; [congruence|done]. }
  unfold glooper_addActiveTimer. cbn [gtheap activeTimers].
  rewrite (deref_Some _ tt (set_deadline d t)) by (done || apply lookup_insert_eq). mon.
  assert (Hstop : forall x, x ∈ l -> (n ← deref h1 x; Ok (gt_deadline n >? d)) = Ok (gkey (gtheap g) x >? d)).
  { intros x Hx. rewrite <- (Hk x Hx). rewrite El in Hx. destruct (chain_elem _ _ _ _ Hc1 Hx) as [Hx0 [n Hn]].
    rewrite (deref_Some _ _ n) by done. unfold gkey. by rewrite Hn. }
  change (gt_deadline (set_deadline d t)) with d. fold h1.
  rewrite (find_link_spec _ _ _ l1 l2 Hc1); cycle 1.
  { intros x Hx. rewrite Hstop by (rewrite El; set_solver). f_equal. specialize (H1 x Hx). lia. }
  { intros x Hx. apply head_Some_elem_of in Hx. rewrite Hstop by (rewrite El; set_solver). f_equal. specialize (H2 x Hx). lia. }
  mon. rewrite (load_link_after _ _ _ _ Hc1). mon.
  rewrite (mod_gtimer_Ok tt _ _ (set_deadline d t)) by (done || apply lookup_insert_eq). mon. cbn [gtheap activeTimers].
  set (n2 := set_activeNext _ _).
  destruct (store_link_insert (next := gt_next) (set_next := set_activeNext) ltac:(done)
              h1 _ l1 l2 tt n2 Hc1 ltac:(by rewrite <- El) Htt eq_refl) as (h' & hd & E & Hc' & Hf).
  fold h1. rewrite E. mon. specialize (Hf _ ginfo ltac:(done)).
  assert (Ei : ginfo <$> h' = ginfo <$> h1).
  { rewrite Hf. unfold h1. rewrite insert_insert_eq, !fmap_insert. done. }
  eexists h', hd, l1, l2. split; [done|]. split; [done|]. split; [|exact Ei].
  eapply glist_info; [exact Ei|done|..].
  - assert (Hkt : gkey h1 tt = d) by (unfold h1; rewrite gkey_insert; by rewrite decide_True).
    apply key_sorted_insert.
    + eapply key_sorted_ext; [|rewrite <- El; exact Hs]. intros. symmetry. apply Hk. by rewrite El.
    + intros x Hx. rewrite Hkt, Hk by (rewrite El; set_solver). auto.
    + intros x Hx. rewrite Hkt, Hk by (rewrite El; set_solver). specialize (H2 x Hx). lia.
  - intros x. unfold h1. rewrite gactive_insert, elem_of_app, elem_of_cons. case_decide as Ex.
    + subst x. cbn. naive_solver.
    + rewrite <- He, El, elem_of_app. naive_solver.
Qed.

(** ** The timers of a looper *)

(** What an operation on timers leaves alone. *)
Definition same_ios (g g' : GLooper) : Prop :=
  ios g' = ios g /\ pendingIos g' = pendingIos g /\ numActiveIos g' = numActiveIos g /\ iolooper g' = iolooper g /\
  gioheap g' = gioheap g /\ running g' = running g.

Definition timers_wf (g : GLooper) : Prop :=
  (exists l, glist (gtheap g) (activeTimers g) l) /\ (forall x, is_Some (gtheap g !! x) -> x <> 0).

Lemma info_dom (h h' : gmap Z GLoopTimer) : ginfo <$> h' = ginfo <$> h -> forall x : Z, is_Some (h' !! x) <-> is_Some (h !! x).
Proof.
  intros E x. pose proof (fmap_eq_lookup _ _ _ x E) as Ex. destruct (h' !! x), (h !! x); naive_solver.
Qed.

(** The timers are those of [h], with new links. *)
Lemma timers_wf_info g h hd l tt t :
  timers_wf g -> gtheap g !! tt = Some t -> forall t', glist h hd l -> ginfo <$> h = ginfo <$> <[tt := t']> (gtheap g) ->
  timers_wf {| g with gtheap := h; activeTimers := hd |}.
Proof.
  intros [_ Hz] Ht t' Hl Ei. split; [by exists l|]. cbn. intros x Hx. apply (info_dom _ _ Ei) in Hx.
  rewrite lookup_insert_is_Some in Hx. destruct Hx as [<-|[_ ?]]; apply Hz; eauto.
Qed.

Lemma stop_spec g tt t :
  timers_wf g -> gtheap g !! tt = Some t ->
  exists g', glooptimer_stop tt g = Ok g' /\ timers_wf g' /\ same_ios g g' /\ timers g' = timers g /\
    ginfo <$> gtheap g' = ginfo <$> <[tt := set_deadline DURATION_INFINITE t]> (gtheap g).
Proof.
  intros Hwf Ht. pose proof Hwf as [(l & Hl) Hz]. assert (Htt : tt <> 0) by eauto.
  unfold glooptimer_stop. rewrite (deref_Some _ _ t) by done. mon.
  destruct (Z.eqb_spec (gt_deadline t) DURATION_INFINITE) as [Ed|Ed]; cbn [negb].
  - exists g. split; [done|]. split; [done|]. split; [done|]. split; [done|].
    rewrite fmap_insert. symmetry. apply insert_id. rewrite lookup_fmap, Ht. cbn. f_equal.
    destruct t. cbn in *. by subst.
  - destruct (stop_active g l tt t Hl Ht) as (h & hd & E & Hl' & Ei).
    { rewrite (gl_elem _ _ _ Hl). by exists t. }
    rewrite E. eexists. split; [done|]. split; [by eapply timers_wf_info|]. done.
Qed.

Lemma startAbsolute_spec g tt t d :
  timers_wf g -> gtheap g !! tt = Some t ->
  exists g', glooptimer_startAbsolute tt d g = Ok g' /\ timers_wf g' /\ same_ios g g' /\ timers g' = timers g /\
    ginfo <$> gtheap g' = ginfo <$> <[tt := set_deadline d t]> (gtheap g).
Proof.
  intros Hwf Ht. pose proof Hwf as [_ Hz]. assert (Htt : tt <> 0) by eauto.
  unfold glooptimer_startAbsolute. rewrite (deref_Some _ _ t) by done. mon.
  set (stop := if negb _ then _ else _).
  assert (Hs : exists g1, stop = Ok g1 /\ timers_wf g1 /\ same_ios g g1 /\ timers g1 = timers g /\
    ginfo <$> gtheap g1 = ginfo <$> <[tt := set_deadline DURATION_INFINITE t]> (gtheap g)).
  { unfold stop. destruct (Z.eqb_spec (gt_deadline t) DURATION_INFINITE) as [Ed|Ed]; cbn [negb]; [|by apply stop_spec].
    exists g. do 4 (split; [done|]). rewrite fmap_insert. symmetry. apply insert_id. rewrite lookup_fmap, Ht. cbn. f_equal.
    destruct t. cbn in *. by subst. }
  destruct Hs as (g1 & -> & Hwf1 & Hs1 & Et1 & Ei1). mon.
  destruct (Z.eqb_spec d DURATION_INFINITE) as [->|Hd]; [by exists g1|].
  assert (exists t1, gtheap g1 !! tt = Some t1 /\ ginfo t1 = ginfo (set_deadline DURATION_INFINITE t)) as (t1 & Ht1 & Eit).
  { pose proof (fmap_eq_lookup _ _ _ tt Ei1) as Ex. rewrite lookup_insert_eq in Ex. cbn in Ex.
    apply fmap_Some in Ex as (t1 & ? & ?). eauto. }
  apply ginfo_deadline in Eit as (Ed1 & Eo1). pose proof Hwf1 as [(l & Hl) _].
  destruct (start_inactive g1 l tt t1 d Hl Ht1 Ed1 Htt Hd) as (h & hd & l1 & l2 & E & _ & Hl' & Ei).
  rewrite E. eexists. split; [done|]. split; [by eapply timers_wf_info|]. split; [exact Hs1|]. split; [exact Et1|].
  cbn [gtheap]. rewrite Ei, !fmap_insert, Ei1, fmap_insert, insert_insert_eq. f_equal. unfold ginfo, set_deadline. cbn.
  by rewrite Eo1.
Qed.

(** ** Watchers *)

(** The watchers that want some event. *)
Definition wanting (h : gmap Z GLoopIo) : gmap Z GLoopIo := filter (fun kv => gio_wanted kv.2 <> 0) h.

(** Someone wants the event [flag] of the descriptor [fd]. *)
Definition wants (h : gmap Z GLoopIo) (flag fd : Z) : Prop :=
  exists io i, h !! io = Some i /\ gio_fd i = fd /\ flag_set (gio_wanted i) flag = true.

(** An idle looper: nothing is pending, the descriptors it waits for are those
    its watchers want, each watcher has a descriptor of its own. *)
Record gwf (g : GLooper) : Prop := {
  g_timers : timers_wf g;
  g_tset : growing (timers g) (dom (gtheap g));
  g_ios : growing (ios g) (dom (gioheap g));
  g_ptr : forall io, is_Some (gioheap g !! io) -> pointer io;
  g_idle : pendingIos g = arefSet_init;
  g_io : forall io i, gioheap g !! io = Some i ->
    gio_ready i = 0 /\ in_fd_set (gio_fd i) = true /\ in_range 2 (gio_wanted i);
  g_own : forall io io' i i', gioheap g !! io = Some i -> gioheap g !! io' = Some i' -> gio_fd i = gio_fd i' -> io = io';
  g_iol : iwf (iolooper g);
  g_reads : forall fd, fd ∈ reads (iolooper g) <-> wants (gioheap g) LOOP_IO_READ fd;
  g_writes : forall fd, fd ∈ writes (iolooper g) <-> wants (gioheap g) LOOP_IO_WRITE fd;
  g_num : numActiveIos g = Z.of_nat (size (wanting (gioheap g)))
}.

Lemma mod_gio_Ok p f g i :
  p <> 0 -> gioheap g !! p = Some i -> mod_gio p f g ⇓ {| g with gioheap := <[p := f i]> (gioheap g) |}.
Proof. intros. unfold mod_gio. by rewrite (deref_Some _ _ i). Qed.

(** The number of watchers that want something, when one changes its wishes. *)
Lemma wanting_insert h io i :
  Z.of_nat (size (wanting (<[io := i]> h))) =
  Z.of_nat (size (wanting (delete io h))) + (if gio_wanted i =? 0 then 0 else 1).
Proof.
  unfold wanting. rewrite map_filter_insert. cbn [snd]. destruct (Z.eqb_spec (gio_wanted i) 0) as [E|E].
  - rewrite decide_False by (by intros ?). lia.
  - rewrite decide_True by done. rewrite <- insert_delete_eq, map_size_insert_None; [|apply lookup_delete_eq].
    rewrite map_filter_delete. lia.
Qed.

Lemma wanting_modify h io i w :
  h !! io = Some i ->
  Z.of_nat (size (wanting (<[io := {| i with gio_wanted := w |}]> h))) =
  let n := Z.of_nat (size (wanting h)) in
  let n := if (gio_wanted i =? 0) && negb (w =? 0) then n + 1 else n in
  if negb (gio_wanted i =? 0) && (w =? 0) then n - 1 else n.
Proof.
  intros Hi. rewrite wanting_insert. cbn [gio_wanted].
  assert (E : Z.of_nat (size (wanting h)) = Z.of_nat (size (wanting (delete io h))) + (if gio_wanted i =? 0 then 0 else 1)).
  { rewrite <- wanting_insert. by rewrite insert_id. }
  cbv zeta. rewrite E. destruct (gio_wanted i =? 0), (w =? 0); cbn [andb negb]; lia.
Qed.

(** Who wants an event, when one watcher changes its wishes. *)
Lemma wants_modify h io i w flag fd :
  h !! io = Some i -> (forall io' i', h !! io' = Some i' -> gio_fd i = gio_fd i' -> io = io') ->
  (wants (<[io := {| i with gio_wanted := w |}]> h) flag fd <->
   if decide (fd = gio_fd i) then flag_set w flag = true else wants h flag fd).
Proof.
  intros Hi Hown. unfold wants. split.
  - intros (q & j & Hj & Hfd & Hf). rewrite lookup_insert in Hj. case_decide as Eq.
    + injection Hj as <-. cbn in Hfd, Hf. by rewrite decide_True.
    + rewrite decide_False; [eauto|]. intros E. apply Eq, (Hown q j Hj). congruence.
  - case_decide as E.
    + intros Hf. exists io, {| i with gio_wanted := w |}. by rewrite lookup_insert_eq.
    + intros (q & j & Hj & Hfd & Hf). exists q, j. rewrite lookup_insert_ne; [done|]. intros <-. congruence.
Qed.

Lemma wants_own h io i flag :
  h !! io = Some i -> (forall io' i', h !! io' = Some i' -> gio_fd i = gio_fd i' -> io = io') ->
  (wants h flag (gio_fd i) <-> flag_set (gio_wanted i) flag = true).
Proof.
  intros Hi Hown. split.
  - intros (q & j & Hj & Hfd & Hf). assert (io = q) as <- by (apply (Hown q j); congruence). congruence.
  - intros Hf. by exists io, i.
Qed.

(** The effect of [iolooper_modify] on one set, from accurate old flags. *)
Lemma change_wants h io i w k (s : gset Z) fd :
  0 <= k -> h !! io = Some i -> (forall io' i', h !! io' = Some i' -> gio_fd i = gio_fd i' -> io = io') ->
  (forall fd, fd ∈ s <-> wants h (2 ^ k) fd) ->
  (fd ∈ (if flag_set (Z.lxor (gio_wanted i) w) (2 ^ k) then change (flag_set w (2 ^ k)) (gio_fd i) s else s) <->
   wants (<[io := {| i with gio_wanted := w |}]> h) (2 ^ k) fd).
Proof.
  intros Hk Hi Hown Hs. rewrite (wants_modify h io i) by done. rewrite flag_set_lxor by done.
  pose proof (wants_own h io i (2 ^ k) Hi Hown) as Ho. specialize (Hs (gio_fd i)) as Hsi. specialize (Hs fd).
  destruct (flag_set (gio_wanted i) (2 ^ k)), (flag_set w (2 ^ k)); cbn [xorb change]; case_decide as E; subst;
    rewrite ?elem_of_union, ?elem_of_difference, ?elem_of_singleton; naive_solver.
Qed.

Lemma modify_spec g io i w :
  gwf g -> gioheap g !! io = Some i -> in_range 2 w ->
  exists g', gloopio_modify io w g ⇓ g' /\ gwf g' /\ gioheap g' = <[io := {| i with gio_wanted := w |}]> (gioheap g) /\
    gtheap g' = gtheap g /\ timers g' = timers g.
Proof.
  intros Hg Hi Hw. destruct (g_io _ Hg io i Hi) as (Hr & Hfd & Hwr). assert (Hp : pointer io) by (apply (g_ptr _ Hg); eauto).
  assert (Hio : io <> 0) by apply Hp. unfold gloopio_modify. rewrite (deref_Some _ _ i) by done. mon.
  assert (Ei : forall w', gio_wanted i = w' -> i = {| i with gio_wanted := w' |}) by (intros; destruct i; cbn in *; by subst).
  destruct (Z.eqb_spec (gio_wanted i) w) as [Ew|Ew].
  { exists g. split; [done|]. split; [done|]. split; [|done]. rewrite <- (Ei w Ew). by rewrite insert_id. }
  replace (negb (gio_ready i =? 0)) with false by (by rewrite Hr). cbn [andb]. mon.
  rewrite (mod_gio_Ok io _ g i) by done. mon. unfold glooper_modifyFd. cbn [numActiveIos iolooper].
  destruct (iop_run_spec (Modify (gio_fd i) (gio_wanted i) w) (iolooper g) (g_iol _ Hg) Hfd) as (iol & E & Hiw & Er & Ewr).
  cbn [iop_run iop_spec fst snd] in E, Er, Ewr. rewrite E. mon.
  rewrite (mod_gio_Ok io _ _ {| i with gio_ready := Z.land (gio_ready i) w |}) by (done || cbn; apply lookup_insert_eq).
  cbn [gioheap]. rewrite insert_insert_eq.
  assert (En : {| gio_fd := gio_fd i; gio_opaque := gio_opaque i; gio_wanted := w; gio_ready := Z.land (gio_ready i) w |}
    = {| i with gio_wanted := w |}) by (rewrite Hr; done).
  cbn [gio_fd gio_opaque gio_ready timers activeTimers ios pendingIos numActiveIos iolooper running gtheap gioheap].
  rewrite En. eexists. split; [reflexivity|]. split; [|split; [reflexivity|done]].
  assert (Hdom : dom (<[io := {| i with gio_wanted := w |}]> (gioheap g)) = dom (gioheap g)) by (apply dom_insert_lookup_L; eauto).
  assert (Hown : forall io' i', gioheap g !! io' = Some i' -> gio_fd i = gio_fd i' -> io = io') by (intros; by eapply (g_own _ Hg)).
  destruct Hg as [H1 H2 H3 H4 H5 H6 H7 H8 H9 H10 H11]. split; cbn [timers activeTimers ios pendingIos numActiveIos iolooper running gtheap gioheap]; try done.
  - by rewrite Hdom.
  - intros q. rewrite <- elem_of_dom, Hdom, elem_of_dom. apply H4.
  - intros q j. rewrite lookup_insert. case_decide; [|apply H6]. intros [= <-]. done.
  - intros q q' j j'. rewrite !lookup_insert. repeat case_decide; subst; try done.
    + intros [= <-] Hj' Hf. cbn in Hf. by eapply Hown.
    + intros Hj [= <-] Hf. cbn in Hf. symmetry. by eapply Hown.
    + apply H7.
  - intros fd. rewrite Er. by apply (change_wants _ io i w 0).
  - intros fd. rewrite Ewr. by apply (change_wants _ io i w 1).
  - rewrite wanting_modify by done. by rewrite H11.
Qed.

(** ** New timers and watchers *)

Lemma growing_add s X x :
  growing s X -> pointer x -> Z.of_nat (size X) < 2 ^ 30 ->
  exists s', arefSet_add x s ⇓ s' /\ growing s' ({[x]} ∪ X).
Proof. intros Hg Hx Hs. destruct (add_spec s X x Hg Hx Hs) as (s' & E & Hr & Hst). exists s'. split; [done|]. by right. Qed.

(** An inactive timer more. *)
Lemma glist_fresh h p l tt o :
  glist h p l -> h !! tt = None -> glist (<[tt := mkGTimer DURATION_INFINITE o 0]> h) p l.
Proof.
  intros [Hc Hs He] Hn.
  assert (Hni : forall x, x ∈ l -> x <> tt) by (intros x Hx ->; apply He in Hx as (t & Ht & _); congruence).
  split.
  - eapply chain_frame; [|exact Hc]. intros x Hx. rewrite lookup_insert_ne; [done|]. intros <-. by destruct (Hni tt Hx).
  - eapply key_sorted_ext; [|exact Hs]. intros x Hx. rewrite gkey_insert. case_decide; [|done]. subst. by destruct (Hni x Hx).
  - intros x. rewrite gactive_insert, He. case_decide as E; [|done]. subst. cbn. split; [|done].
    intros (t & Ht & _). congruence.
Qed.

Lemma timer_init_spec g tt o :
  gwf g -> gtheap g !! tt = None -> pointer tt -> Z.of_nat (size (gtheap g)) < 2 ^ 30 ->
  exists g', glooper_timer_init tt o g ⇓ g' /\ gwf g' /\ gioheap g' = gioheap g /\
    gtheap g' = <[tt := mkGTimer DURATION_INFINITE o 0]> (gtheap g).
Proof.
  intros Hg Hn Hp Hs. unfold glooper_timer_init, glooper_addTimer. cbn [timers].
  destruct (growing_add _ _ tt (g_tset _ Hg) Hp) as (s' & E & Hgr); [by rewrite size_dom|].
  rewrite E. mon. eexists. split; [done|]. split; [|done]. destruct Hg as [[(l & Hl) H1] H2 H3 H4 H5 H6 H7 H8 H9 H10 H11].
  split; cbn [timers activeTimers ios pendingIos numActiveIos iolooper running gtheap gioheap]; try done.
  - split; [exists l; by apply glist_fresh|]. cbn. intros x. rewrite lookup_insert_is_Some. intros [<-|[_ ?]]; [apply Hp|auto].
  - rewrite dom_insert_L. done.
Qed.

Lemma wanting_fresh h io fd o : h !! io = None -> wanting (<[io := mkGIo fd o 0 0]> h) = wanting h.
Proof.
  intros Hn. unfold wanting. rewrite map_filter_insert, decide_False by (by intros ?). by rewrite delete_id.
Qed.

Lemma wants_fresh h io fd o flag fd' :
  h !! io = None -> (wants (<[io := mkGIo fd o 0 0]> h) flag fd' <-> wants h flag fd').
Proof.
  intros Hn. unfold wants. split; intros (q & j & Hj & Hf & Hw).
  - rewrite lookup_insert in Hj. case_decide; [|eauto]. injection Hj as <-. done.
  - exists q, j. rewrite lookup_insert_ne; [done|]. intros <-. congruence.
Qed.

Lemma io_init_spec {P} `{Host P} g (s : sock P) io fd o :
  gwf g -> gioheap g !! io = None -> pointer io -> Z.of_nat (size (gioheap g)) < 2 ^ 30 ->
  in_fd_set fd = true -> (forall q j, gioheap g !! q = Some j -> gio_fd j <> fd) ->
  exists g' s', glooper_io_init io fd o g s ⇓ (g', s') /\ gwf g' /\
    gioheap g' = <[io := mkGIo fd o 0 0]> (gioheap g) /\ gtheap g' = gtheap g.
Proof.
  intros Hg Hn Hp Hs Hfd Hfree. unfold glooper_io_init, glooper_addIo. destruct (socket_set_nonblock fd s) as [r s'].
  cbn [ios]. destruct (growing_add _ _ io (g_ios _ Hg) Hp) as (s1 & E & Hgr); [by rewrite size_dom|].
  rewrite E. mon. eexists _, _. split; [done|]. split; [|done]. destruct Hg as [H1 H2 H3 H4 H5 H6 H7 H8 H9 H10 H11].
  split; cbn [timers activeTimers ios pendingIos numActiveIos iolooper running gtheap gioheap]; try done.
  - by rewrite dom_insert_L.
  - intros q. rewrite lookup_insert_is_Some. intros [<-|[_ ?]]; auto.
  - intros q j. rewrite lookup_insert. case_decide; [|apply H6]. intros [= <-]. cbn. split; [done|]. split; [done|]. unfold in_range. lia.
  - intros q q' j j'. rewrite !lookup_insert. repeat case_decide; subst; try done.
    + intros [= <-] Hj' Hf. cbn in Hf. by destruct (Hfree q' j' Hj').
    + intros Hj [= <-] Hf. cbn in Hf. by destruct (Hfree q j Hj).
    + apply H7.
  - intros x. by rewrite wants_fresh, H9.
  - intros x. by rewrite wants_fresh, H10.
  - by rewrite wanting_fresh, H11.
Qed.

Lemma gwf_timers g g' :
  gwf g -> timers_wf g' -> same_ios g g' -> timers g' = timers g -> dom (gtheap g') = dom (gtheap g) -> gwf g'.
Proof.
  intros [H1 H2 H3 H4 H5 H6 H7 H8 H9 H10 H11] Ht (E1 & E2 & E3 & E4 & E5 & E6) Et Ed.
  split; try done; rewrite ?E1, ?E2, ?E3, ?E4, ?E5, ?E6, ?Et, ?Ed; done.
Qed.

Lemma info_dom_insert (h h' : gmap Z GLoopTimer) tt t t' :
  h !! tt = Some t -> ginfo <$> h' = ginfo <$> <[tt := t']> h -> dom h' = dom h.
Proof.
  intros Ht E. apply (f_equal dom) in E. rewrite !dom_fmap_L in E. rewrite E. apply dom_insert_lookup_L. eauto.
Qed.
