(* ===== verification/LooperGenericTheorems.v ===== *)
(** * What the generic event loop guarantees, and where it fails *)

From S2P Require Import Prelude IntrusiveList LooperQemu LooperQemuProofs LooperQemuTheorems SockAddr SocketCalls Refset RefsetProofs RefsetTheorems IoLooper IoLooperProofs LooperGeneric LooperGenericProofs.

(** ** Iterations over a set of pointers *)

Section foreach.
Context {S : Type} (get : S -> ARefSet) (put : ARefSet -> S -> S) (body : Z -> S -> res S).

Fixpoint for_items (l : list Z) (st : S) : res S :=
  match l with [] => Ok st | x :: l' => st ← body x st; for_items l' st end.

(** An iteration whose body leaves the set alone visits its items in turn. *)
Lemma foreach_loop_items s : (forall x st st', get st = s -> body x st ⇓ st' -> get st' = s) ->
  forall l k st, get st = s -> drop k (buckets s) = l ->
  foreach_loop get body (seqZ (Z.of_nat k) (Z.of_nat (length l))) st = for_items (live l) st.
Proof.
  intros Hbody. induction l as [|v l IH]; intros k st Hst El; [done|].
  assert (Hk : buckets s !! k = Some v). { rewrite <- (Nat.add_0_r k), <- lookup_drop, El. done. }
  cbn [length]. rewrite Nat2Z.inj_succ, seqZ_cons by lia. cbn [foreach_loop]. unfold bucket.
  rewrite Hst, Nat2Z.id, Hk. cbn [of_opt]. mon.
  replace (Z.succ (Z.of_nat k)) with (Z.of_nat (Datatypes.S k)) by lia. replace (Z.pred (Z.succ (Z.of_nat (length l)))) with (Z.of_nat (length l)) by lia.
  assert (El' : drop (Datatypes.S k) (buckets s) = l) by (rewrite <- Nat.add_1_r, <- drop_drop, El; done).
  unfold live. rewrite filter_cons. destruct ((v =? 0) || (v =? AREFSET_DELETED)) eqn:Ev.
  - rewrite decide_False by (unfold pointer; lia). by apply IH.
  - rewrite decide_True by (unfold pointer; lia). cbn [for_items]. destruct (body v st) as [st'|f] eqn:Eb; [|done]. mon.
    apply IH; [by eapply Hbody|done].
Qed.
End foreach.

(** The items of a set on which no iteration runs; the count may be wrong. *)
Definition items_ok (s : ARefSet) (X : gset Z) : Prop :=
  Permutation (live (buckets s)) (elements X) /\ iteration s = 0 /\ Z.of_nat (length (buckets s)) = max_buckets s /\
  s32 (max_buckets s) = max_buckets s.

Lemma growing_items s X : growing s X -> Z.of_nat (size X) < 2 ^ 29 -> items_ok s X.
Proof.
  intros [[-> ->]|[Hr (Hit & _ & _ & Hmax)]] Hs.
  { unfold items_ok. by rewrite elements_empty. }
  pose proof Hr as [Ht _ HX Hn]. pose proof (table_pos _ _ Ht). split; [|split; [done|split; [apply (t_length _ _ Ht)|]]].
  - apply NoDup_Permutation; [apply (t_nodup _ _ Ht)|apply NoDup_elements|]. intros x. by rewrite elem_of_elements, HX.
  - apply signed_small; lia.
Qed.

Lemma foreach_items {S} (get : S -> ARefSet) put body s X st :
  (forall a t, get (put a t) = a) -> (forall a b t, put a (put b t) = put a t) -> (forall t, put (get t) t = t) ->
  (forall x t t', body x t ⇓ t' -> get t' = get t) ->
  get st = s -> items_ok s X ->
  let t0 := put {| s with iteration := 2 |} st in
  arefSet_foreach get put body st = (t ← for_items body (live (buckets s)) t0; Ok (put s t)).
Proof.
  intros Hgp Hpp Hpg Hbody Hst (_ & Hit & Hlen & H32) t0.
  unfold arefSet_foreach. rewrite Hst, H32, Hit. change (0 + 2) with 2. fold t0. rewrite <- Hlen.
  change (seqZ 0) with (seqZ (Z.of_nat 0)).
  pose proof (foreach_loop_items get body {| s with iteration := 2 |}) as Hf.
  rewrite (Hf ltac:(intros x a b Ha Hb; by rewrite (Hbody x a b)) (buckets s) 0%nat t0); [|apply Hgp|done].
  assert (Hkeep : forall l t t', for_items body l t ⇓ t' -> get t' = get t).
  { induction l as [|x l IH]; intros t t'; cbn; [by intros [= ->]|]. intros E. apply bind_Ok in E as (t1 & E1 & E2).
    rewrite (IH _ _ E2). by apply (Hbody x). }
  destruct (for_items body (live (buckets s)) t0) as [t|f] eqn:E; [|done]. mon.
  rewrite (Hkeep _ _ _ E). unfold t0. rewrite Hgp. cbn [iteration buckets num_buckets max_buckets Z.sub Z.eqb Z.add Z.opp].
  do 2 f_equal. destruct s. cbn in *. by subst.
Qed.

(** ** Expired timers *)

(** [h'] is [h] with the timers of [l] stopped, up to the links. *)
Definition stopped (l : list Z) (h h' : gmap Z GLoopTimer) : Prop :=
  forall x, (ginfo <$> h' !! x) =
    (if decide (x ∈ l) then ginfo <$> (set_deadline DURATION_INFINITE <$> h !! x) else ginfo <$> h !! x).

Lemma gkey_same h h' y : ginfo <$> h' !! y = ginfo <$> h !! y -> gkey h' y = gkey h y.
Proof.
  unfold gkey. intros E. destruct (h' !! y), (h !! y); try done. injection E as Ei E'. cbn in *. congruence.
Qed.

Lemma take_expired_spec now l2 : forall l1 fuel pl pending g,
  chain gt_next (gtheap g) pending pl -> chain gt_next (gtheap g) (activeTimers g) (l1 ++ l2) ->
  NoDup (pl ++ l1 ++ l2) -> (forall x, x ∈ l1 -> gkey (gtheap g) x <= now) ->
  (forall x, head l2 = Some x -> now < gkey (gtheap g) x) -> (length l1 < fuel)%nat ->
  exists pending' h, take_expired fuel now pending (link_after pl) g
      ⇓ (pending', {| g with gtheap := h; activeTimers := default 0 (head l2) |}) /\
    chain gt_next h pending' (pl ++ l1) /\ chain gt_next h (default 0 (head l2)) l2 /\ stopped l1 (gtheap g) h.
Proof.
  induction l1 as [|x l1 IH]; intros fuel pl pending g Hp Ha Hnd H1 H2 Hf; (destruct fuel as [|fuel]; [cbn in Hf; lia|]);
    cbn [take_expired].
  - exists pending, (gtheap g). cbn [app] in Ha. rewrite app_nil_r. pose proof (chain_head _ _ _ Ha) as Eh. rewrite <- Eh.
    split; [|split; [done|split; [done|]]].
    + destruct l2 as [|y l2]; cbn in Eh; [rewrite Eh; destruct g; cbn in *; by subst|]. rewrite Eh.
      destruct Ha as (_ & Hy & n & Hn & _). rewrite (proj2 (Z.eqb_neq y 0)) by done. rewrite (deref_Some _ _ n) by done. mon.
      specialize (H2 y eq_refl). unfold gkey in H2. rewrite Hn in H2. cbn in H2.
      replace (gt_deadline n >? now) with true by lia. destruct g. cbn in *. by subst.
    + intros y. by rewrite decide_False by set_solver.
  - pose proof (chain_head _ _ _ Ha) as Eh. cbn in Eh. destruct Ha as (_ & Hx & t & Ht & Ha). rewrite Eh.
    rewrite (proj2 (Z.eqb_neq x 0)) by done. rewrite (deref_Some _ _ t) by done. mon.
    assert (Hk : gt_deadline t <= now). { specialize (H1 x ltac:(set_solver)). unfold gkey in H1. by rewrite Ht in H1. }
    replace (gt_deadline t >? now) with false by lia.
    rewrite (mod_gtimer_Ok x _ _ t) by done. mon. cbn [gtheap].
    assert (Hxpl : x ∉ pl) by (apply NoDup_app in Hnd; set_solver).
    set (n := set_deadline DURATION_INFINITE t). set (n0 := set_activeNext 0 n).
    destruct (store_link_insert (next := gt_next) (set_next := set_activeNext) ltac:(done) (gtheap g) pending pl [] x n0)
      as (h' & p' & E & Hc' & Hi); [by rewrite app_nil_r|by rewrite app_nil_r|done|done|].
    assert (E0 : store_link set_activeNext (gtheap g) pending (link_after pl) x = Ok (<[x := t]> h', p')).
    { apply (store_link_comm _ _ _ _ _ x t) in E; [|done]. by rewrite insert_insert_eq, insert_id in E. }
    apply (store_link_comm _ _ _ _ _ x n) in E0; [|done]. rewrite E0. mon. rewrite insert_insert_eq.
    rewrite (mod_gtimer_Ok x _ _ n) by (done || cbn; apply lookup_insert_eq). mon. cbn [gtheap]. rewrite insert_insert_eq.
    fold n0. assert (Ehx : <[x := n0]> h' = h').
    { apply insert_id. rewrite (store_link_frame _ _ _ _ _ _ _ x E Hxpl). apply lookup_insert_eq. }
    rewrite Ehx. specialize (Hi _ ginfo ltac:(done)).
    assert (Hinfo : forall y, ginfo <$> h' !! y = if decide (y = x) then Some (ginfo n) else ginfo <$> gtheap g !! y).
    { intros y. pose proof (fmap_eq_lookup _ _ _ y Hi) as Ey. rewrite Ey, lookup_insert. repeat case_decide; try done; congruence. }
    assert (Hxl : x ∉ l1 ++ l2) by (apply NoDup_app in Hnd as (_ & _ & Hnd); by apply NoDup_cons in Hnd as [? _]).
    assert (Hsame : forall y, y ∈ l1 ++ l2 -> gkey h' y = gkey (gtheap g) y).
    { intros y Hy. apply gkey_same. rewrite Hinfo. rewrite decide_False; [done|]. by intros ->. }
    replace (LNext x) with (link_after (pl ++ [x])) by (unfold link_after; by rewrite last_snoc).
    destruct (IH fuel (pl ++ [x]) p' {| g with gtheap := h'; activeTimers := gt_next t |}) as (pending' & h & E1 & Hc1 & Hc2 & Hst);
      cbn [gtheap activeTimers]; try done.
    + eapply chain_frame; [|exact Ha]. intros y Hy. assert (y <> x) by (by intros ->).
      assert (y ∉ pl) by (apply NoDup_app in Hnd; set_solver).
      rewrite (store_link_frame _ _ _ _ _ _ _ y E) by done. by rewrite lookup_insert_ne.
    + by rewrite <- app_assoc.
    + intros y Hy. rewrite Hsame by set_solver. apply H1. set_solver.
    + intros y Hy. specialize (H2 y Hy). apply head_Some_elem_of in Hy. rewrite Hsame by set_solver. done.
    + cbn in Hf. lia.
    + exists pending', h. split; [exact E1|]. rewrite <- app_assoc in Hc1. split; [done|]. split; [done|].
      intros y. rewrite Hst. cbn [gtheap]. specialize (Hinfo y). destruct (decide (y = x)) as [->|Hne].
      * rewrite decide_False by set_solver. rewrite decide_True by set_solver. by rewrite Hinfo, Ht.
      * destruct (decide (y ∈ l1)) as [Hin|Hin].
        -- rewrite decide_True by set_solver. destruct (h' !! y), (gtheap g !! y); try done. cbn in *.
           f_equal. injection Hinfo as E3 E4. unfold ginfo, set_deadline. cbn. congruence.
        -- rewrite decide_False by set_solver. done.
Qed.

(** ** A program that records what it is called for *)

Inductive event : Type := TimerFired (opaque : Z) | IoReady (opaque fd events : Z).

Record app (O : Type) : Type := mkApp { a_g : GLooper; a_host : sel O; a_log : list event }.
Arguments mkApp {O}.
Arguments a_g {O}.
Arguments a_host {O}.
Arguments a_log {O}.

Definition set_g {O} (g : GLooper) (s : app O) : app O := {| s with a_g := g |}.
Definition set_h {O} (h : sel O) (s : app O) : app O := {| s with a_host := h |}.
Definition on_timer {O} (opaque : Z) (s : app O) : res (app O) := Ok {| s with a_log := a_log s ++ [TimerFired opaque] |}.
Definition on_io {O} (opaque fd events : Z) (s : app O) : res (app O) :=
  Ok {| s with a_log := a_log s ++ [IoReady opaque fd events] |}.

Lemma on_timer_Ok {O} opaque (s : app O) : on_timer opaque s ⇓ {| s with a_log := a_log s ++ [TimerFired opaque] |}.
Proof. done. Qed.

Section turn.
Context {O : Type} `{HS : SelectHost O} {readable writable : O -> gset Z} `{!SelectLaws O readable writable}.
Implicit Types (s : app O) (g : GLooper).

Definition opaques (h : gmap Z GLoopTimer) (l : list Z) : list Z := omap (fun x => gt_opaque <$> h !! x) l.

Lemma opaques_cons h x l t : h !! x = Some t -> opaques h (x :: l) = gt_opaque t :: opaques h l.
Proof. intros E. unfold opaques. cbn. by rewrite E. Qed.
Lemma opaques_ext h h' l : (forall x, x ∈ l -> gt_opaque <$> h !! x = gt_opaque <$> h' !! x) -> opaques h l = opaques h' l.
Proof.
  intros H. unfold opaques. induction l as [|y l IH]; [done|]. cbn. rewrite H by set_solver. rewrite IH by set_solver. done.
Qed.

(** The pending timers are called back in their order; the looper does not
    change, up to the links of these timers. *)
Lemma fire_timers_spec pl : forall fuel pending s,
  chain gt_next (gtheap (a_g s)) pending pl -> (length pl < fuel)%nat ->
  exists h, fire_timers a_g set_g on_timer fuel pending s
      ⇓ mkApp {| (a_g s) with gtheap := h |} (a_host s) (a_log s ++ (TimerFired <$> opaques (gtheap (a_g s)) pl)) /\
    ginfo <$> h = ginfo <$> gtheap (a_g s) /\ (forall x, x ∉ pl -> h !! x = gtheap (a_g s) !! x).
Proof.
  induction pl as [|x pl IH]; intros fuel pending s Hc Hf; (destruct fuel as [|fuel]; [cbn in Hf; lia|]); cbn [fire_timers].
  - cbn in Hc. subst pending. exists (gtheap (a_g s)). split; [|done]. cbn. rewrite app_nil_r. by destruct s as [[] ? ?].
  - pose proof (chain_NoDup _ _ _ Hc) as Hnd. apply NoDup_cons in Hnd as [Hx _].
    destruct Hc as (-> & Hx0 & t & Ht & Hc). rewrite (proj2 (Z.eqb_neq x 0)) by done.
    rewrite (deref_Some _ _ t) by done. mon. rewrite (mod_gtimer_Ok x _ _ t) by done. mon. rewrite on_timer_Ok. mon.
    match goal with |- context [fire_timers _ _ _ fuel _ ?s'] => set (s1 := s') end.
    set (h1 := <[x := set_activeNext 0 t]> (gtheap (a_g s))).
    destruct (IH fuel (gt_next t) s1) as (h & E & Ei & Hh); [|cbn in Hf; lia|].
    { eapply chain_frame; [|exact Hc]. intros y Hy. cbn. rewrite lookup_insert_ne; [done|]. by intros ->. }
    exists h. rewrite E. cbn [s1 a_g a_host a_log set_g gtheap]. split; [|split].
    + fold h1. rewrite (opaques_cons _ x pl t) by done. rewrite (opaques_ext h1 (gtheap (a_g s)) pl), <- app_assoc; [done|].
      intros y Hy. unfold h1. rewrite lookup_insert_ne; [done|]. by intros ->.
    + cbn [s1 a_g set_g gtheap] in Ei. rewrite Ei. unfold h1. rewrite fmap_insert. apply insert_id. by rewrite lookup_fmap, Ht.
    + intros y Hy. rewrite Hh by set_solver. cbn. apply lookup_insert_ne. set_solver.
Qed.

(** ** Watchers that become pending *)

(** The events of a watcher in the results of the last wait. *)
Definition ready_in (iol : IoLooper) (i : GLoopIo) : Z :=
  Z.lor (if bool_decide (gio_fd i ∈ reads_result iol) then LOOP_IO_READ else 0)
        (if bool_decide (gio_fd i ∈ writes_result iol) then LOOP_IO_WRITE else 0).
Definition collected (iol : IoLooper) (i : GLoopIo) : GLoopIo :=
  if gio_wanted i =? 0 then i else {| i with gio_ready := ready_in iol i |}.
Definition is_ready (iol : IoLooper) (h : gmap Z GLoopIo) (x : Z) : Prop :=
  exists i, h !! x = Some i /\ gio_wanted i <> 0 /\ ready_in iol i <> 0.
#[local] Instance is_ready_dec iol h x : Decision (is_ready iol h x).
Proof.
  unfold is_ready. destruct (h !! x) as [i|] eqn:E; [|right; naive_solver].
  destruct (decide (gio_wanted i <> 0 /\ ready_in iol i <> 0)); [left; eauto|right; naive_solver].
Defined.

Lemma collect_io_spec g x i P :
  pointer x -> gioheap g !! x = Some i -> in_fd_set (gio_fd i) = true ->
  growing (pendingIos g) P -> Z.of_nat (size P) < 2 ^ 30 ->
  exists p, collect_io x g ⇓ {| g with pendingIos := p; gioheap := <[x := collected (iolooper g) i]> (gioheap g) |} /\
    growing p ((if decide (is_ready (iolooper g) (gioheap g) x) then {[x]} else ∅) ∪ P).
Proof.
  intros Hx Hi Hfd Hg Hs. unfold collect_io. rewrite (deref_Some _ _ i) by (done || apply Hx). mon. unfold collected.
  destruct (Z.eqb_spec (gio_wanted i) 0) as [Ew|Ew].
  - exists (pendingIos g). split; [rewrite insert_id by done; by destruct g|].
    rewrite decide_False by (intros (j & Hj & Hw & _); congruence). by rewrite union_empty_l_L.
  - unfold iolooper_is_read, iolooper_is_write, FD_ISSET. rewrite Hfd. mon. fold (ready_in (iolooper g) i).
    rewrite (mod_gio_Ok x _ g i) by (done || apply Hx). mon.
    destruct (Z.eqb_spec (ready_in (iolooper g) i) 0) as [Er|Er]; cbn [negb].
    + exists (pendingIos g). split; [done|]. rewrite decide_False by (intros (j & Hj & _ & Hr); congruence).
      by rewrite union_empty_l_L.
    + cbn [pendingIos]. destruct (growing_add _ _ x Hg Hx Hs) as (p & E & Hp). rewrite E. mon. exists p. split; [done|].
      rewrite decide_True by (by exists i). done.
Qed.

(** The watchers collected so far are [done], the pending ones [P]. *)
Lemma collect_items l : forall g P,
  NoDup l -> (forall x, x ∈ l -> pointer x /\ exists i, gioheap g !! x = Some i /\ in_fd_set (gio_fd i) = true) ->
  growing (pendingIos g) P -> Z.of_nat (size P + length l) < 2 ^ 30 ->
  exists p h, for_items collect_io l g ⇓ {| g with pendingIos := p; gioheap := h |} /\
    growing p (list_to_set (filter (is_ready (iolooper g) (gioheap g)) l) ∪ P) /\
    forall x, h !! x = if decide (x ∈ l) then collected (iolooper g) <$> gioheap g !! x else gioheap g !! x.
Proof.
  induction l as [|x l IH]; intros g P Hnd Hl Hg Hs.
  { exists (pendingIos g), (gioheap g). cbn. split; [by destruct g|]. split; [by rewrite union_empty_l_L|]. done. }
  apply NoDup_cons in Hnd as [Hxl Hnd]. destruct (Hl x ltac:(set_solver)) as (Hx & i & Hi & Hfd). cbn [length] in Hs.
  destruct (collect_io_spec g x i P Hx Hi Hfd Hg ltac:(lia)) as (p & E & Hp). cbn [for_items]. rewrite E. mon.
  set (g1 := {| pendingIos := p |}) in *. set (P1 := _ ∪ P) in *.
  destruct (IH g1 P1) as (p2 & h & E2 & Hp2 & Hh); [done| |done| |].
  - intros y Hy. destruct (Hl y ltac:(set_solver)) as (Hy' & j & Hj & Hfdj). split; [done|]. exists j. cbn.
    rewrite lookup_insert_ne; [done|]. by intros ->.
  - assert (size P1 <= 1 + size P)%nat; [|lia]. unfold P1. case_decide; rewrite size_union_alt, ?size_singleton, ?size_empty.
    + assert (size (P ∖ {[x]}) <= size P)%nat by (apply subseteq_size; set_solver). lia.
    + assert (size (P ∖ ∅) <= size P)%nat by (apply subseteq_size; set_solver). lia.
  - exists p2, h. rewrite E2. cbn [g1 iolooper gioheap] in *. split; [done|]. split.
    + match type of Hp2 with growing _ ?X => enough (E3 : X = list_to_set (filter (is_ready (iolooper g) (gioheap g)) (x :: l)) ∪ P)
        by (by rewrite <- E3) end.
      assert (Hr : forall y, y ∈ l -> (is_ready (iolooper g) (<[x := collected (iolooper g) i]> (gioheap g)) y <->
        is_ready (iolooper g) (gioheap g) y)).
      { intros y Hy. unfold is_ready. rewrite lookup_insert_ne; [done|]. by intros ->. }
      apply set_eq. intros y. unfold P1. rewrite !elem_of_union, !elem_of_list_to_set, !list_elem_of_filter, elem_of_cons.
      specialize (Hr y). case_decide; rewrite ?elem_of_singleton, ?elem_of_empty; naive_solver.
    + intros y. rewrite Hh. destruct (decide (y = x)) as [->|Hne].
      * rewrite decide_False by done. rewrite decide_True by set_solver. by rewrite lookup_insert_eq, Hi.
      * rewrite lookup_insert_ne by done. destruct (decide (y ∈ l)); [rewrite decide_True by set_solver; done|].
        rewrite decide_False by set_solver. done.
Qed.

Lemma collect_io_keeps x g g' : collect_io x g ⇓ g' -> ios g' = ios g.
Proof.
  unfold collect_io, mod_gio. intros E. inv_res; try done.
Qed.

(** All watchers. *)
Lemma collect_ios_spec g :
  gwf g -> Z.of_nat (size (gioheap g)) < 2 ^ 29 ->
  exists p h, collect_ios g ⇓ {| g with pendingIos := p; gioheap := h |} /\
    growing p (filter (is_ready (iolooper g) (gioheap g)) (dom (gioheap g))) /\ h = collected (iolooper g) <$> gioheap g.
Proof.
  intros Hg Hs. unfold collect_ios.
  assert (Hsz : Z.of_nat (size (dom (gioheap g))) < 2 ^ 29) by (by rewrite size_dom).
  rewrite (foreach_items ios (fun a g => {| g with ios := a |}) collect_io (ios g) (dom (gioheap g)) g);
    try done; [|by intros []|by intros x t t' ?%collect_io_keeps|by apply growing_items; [apply (g_ios _ Hg)|]].
  destruct (growing_items _ _ (g_ios _ Hg) Hsz) as (Hp & _ & _ & _). set (l := live (buckets (ios g))) in *.
  assert (Hmem : forall x, x ∈ l <-> is_Some (gioheap g !! x)) by (intros x; by rewrite Hp, elem_of_elements, elem_of_dom).
  set (g0 := {| g with ios := _ |}).
  destruct (collect_items l g0 ∅) as (p & h & E & Hgr & Hh).
  - rewrite Hp. apply NoDup_elements.
  - intros x Hx. apply Hmem in Hx as Hx'. split; [by apply (g_ptr _ Hg)|]. destruct Hx' as [i Hi]. exists i. split; [done|].
    by apply (g_io _ Hg x i).
  - cbn. rewrite (g_idle _ Hg). by left.
  - apply Permutation_length in Hp. rewrite size_empty, Hp. unfold size, set_size in Hsz. cbn in *. lia.
  - rewrite E. mon. exists p, h. split; [by destruct g|]. cbn [g0 iolooper gioheap] in Hgr, Hh. split.
    + match type of Hgr with growing _ ?X => replace X with (filter (is_ready (iolooper g) (gioheap g)) (dom (gioheap g))) in Hgr; [done|] end.
      apply set_eq. intros x. rewrite elem_of_filter, elem_of_union, elem_of_list_to_set, list_elem_of_filter, Hmem, elem_of_dom, elem_of_empty. naive_solver.
    + apply map_eq. intros x. rewrite Hh, lookup_fmap. destruct (decide (x ∈ l)) as [|Hx]; [done|]. rewrite Hmem in Hx.
      destruct (gioheap g !! x); [|done]. destruct Hx. eauto.
Qed.

(** ** Watchers called back *)

Definition io_event (h : gmap Z GLoopIo) (x : Z) : option event :=
  (fun i => IoReady (gio_opaque i) (gio_fd i) (gio_ready i)) <$> h !! x.

Lemma fire_io_Ok x s i :
  x <> 0 -> gioheap (a_g s) !! x = Some i ->
  fire_io a_g on_io x s ⇓ {| s with a_log := a_log s ++ [IoReady (gio_opaque i) (gio_fd i) (gio_ready i)] |}.
Proof. intros Hx Hi. unfold fire_io. rewrite (deref_Some _ _ i) by done. done. Qed.

Lemma fire_items l : forall s,
  (forall x, x ∈ l -> x <> 0 /\ is_Some (gioheap (a_g s) !! x)) ->
  for_items (fire_io a_g on_io) l s ⇓ {| s with a_log := a_log s ++ omap (io_event (gioheap (a_g s))) l |}.
Proof.
  induction l as [|x l IH]; intros s Hl; [cbn; rewrite app_nil_r; by destruct s|].
  destruct (Hl x ltac:(set_solver)) as (Hx & i & Hi). cbn [for_items]. rewrite (fire_io_Ok x s i) by done. mon.
  rewrite IH; [|intros y Hy; apply Hl; set_solver]. cbn [a_g a_host a_log]. cbn [omap list_omap]. unfold io_event at 2.
  rewrite Hi. cbn. by rewrite <- app_assoc.
Qed.

(** The iteration over the pending watchers. *)
Lemma fire_ios_items s P :
  items_ok (pendingIos (a_g s)) P ->
  fire_ios a_g set_g on_io s =
  (s' ← for_items (fire_io a_g on_io) (live (buckets (pendingIos (a_g s))))
          (set_g {| (a_g s) with pendingIos := {| (pendingIos (a_g s)) with iteration := 2 |} |} s);
   Ok (set_g {| (a_g s') with pendingIos := arefSet_clear (pendingIos (a_g s)) |} s')).
Proof.
  intros Hp. unfold fire_ios.
  rewrite (foreach_items (fun s : app O => pendingIos (a_g s)) (fun p s => set_g {| (a_g s) with pendingIos := p |} s)
    (fire_io a_g on_io) (pendingIos (a_g s)) P s); try done; [|by intros [[]]|].
  - destruct (for_items _ _ _); done.
  - intros x t t' E. unfold fire_io, on_io in E. inv_res. done.
Qed.

Lemma fire_ios_spec s P :
  items_ok (pendingIos (a_g s)) P -> (forall x, x ∈ P -> x <> 0 /\ is_Some (gioheap (a_g s) !! x)) ->
  let evs := omap (io_event (gioheap (a_g s))) (live (buckets (pendingIos (a_g s)))) in
  fire_ios a_g set_g on_io s
    ⇓ mkApp {| (a_g s) with pendingIos := arefSet_clear (pendingIos (a_g s)) |} (a_host s) (a_log s ++ evs) /\
  Permutation evs (omap (io_event (gioheap (a_g s))) (elements P)).
Proof.
  intros Hp HP evs. rewrite (fire_ios_items s P Hp). destruct Hp as (Hp & _). split; [|unfold evs; by rewrite Hp].
  rewrite fire_items; [done|]. intros x Hx. apply HP. by rewrite Hp, elem_of_elements in Hx.
Qed.

(** ** One turn of the loop *)

(** The events of a watcher when the host is in the state [o]. *)
Definition events_at (o : O) (i : GLoopIo) : Z :=
  Z.lor (if flag_set (gio_wanted i) LOOP_IO_READ && bool_decide (gio_fd i ∈ readable o) then LOOP_IO_READ else 0)
        (if flag_set (gio_wanted i) LOOP_IO_WRITE && bool_decide (gio_fd i ∈ writable o) then LOOP_IO_WRITE else 0).
Definition io_due (o : O) (kv : Z * GLoopIo) : option event :=
  if events_at o kv.2 =? 0 then None else Some (IoReady (gio_opaque kv.2) (gio_fd kv.2) (events_at o kv.2)).

(** The results of a successful wait are the events of the watchers. *)
Lemma ready_in_events g iol o x i :
  gwf g -> gioheap g !! x = Some i ->
  reads_result iol = reads (iolooper g) ∩ readable o -> writes_result iol = writes (iolooper g) ∩ writable o ->
  ready_in iol i = events_at o i.
Proof.
  intros Hg Hi ER EW. unfold ready_in, events_at. rewrite ER, EW.
  assert (Hown : forall io' i', gioheap g !! io' = Some i' -> gio_fd i = gio_fd i' -> x = io') by (intros; by eapply (g_own _ Hg)).
  assert (Hw : forall flag (s : gset Z) (q : gset Z), (forall fd, fd ∈ s <-> wants (gioheap g) flag fd) ->
    bool_decide (gio_fd i ∈ s ∩ q) = flag_set (gio_wanted i) flag && bool_decide (gio_fd i ∈ q)).
  { intros flag s q Hs. specialize (Hs (gio_fd i)). rewrite (wants_own (gioheap g) x i flag Hi Hown) in Hs.
    apply eq_bool_prop_intro. rewrite andb_True, !bool_decide_spec, elem_of_intersection, Hs. by rewrite Is_true_true. }
  rewrite (Hw LOOP_IO_READ (reads (iolooper g))) by apply (g_reads _ Hg).
  rewrite (Hw LOOP_IO_WRITE (writes (iolooper g))) by apply (g_writes _ Hg). done.
Qed.

(** The watchers that are called back, as a list of events. *)
Lemma due_events g iol o :
  gwf g -> (forall x i, gioheap g !! x = Some i -> ready_in iol i = events_at o i) ->
  Permutation (omap (io_event (collected iol <$> gioheap g)) (elements (filter (is_ready iol (gioheap g)) (dom (gioheap g)))))
    (omap (io_due o) (map_to_list (gioheap g))).
Proof.
  intros Hg Hr. set (h := gioheap g) in *.
  assert (E1 : omap (io_due o) (map_to_list h) = omap (io_event (collected iol <$> h)) (filter (is_ready iol h) (map_to_list h).*1)).
  { assert (Hin : forall kv, kv ∈ map_to_list h -> h !! kv.1 = Some kv.2) by (intros [] ?; by apply elem_of_map_to_list).
    revert Hin. generalize (map_to_list h). induction l as [|[x i] l IH]; intros Hin; [done|].
    specialize (Hin (x, i) ltac:(set_solver)) as Hi. cbn in Hi. cbn [fmap list_fmap fst]. rewrite filter_cons.
    specialize (IH ltac:(intros; apply Hin; set_solver)). specialize (Hr x i Hi).
    assert (Hw : events_at o i <> 0 -> gio_wanted i <> 0) by (intros He E; apply He; unfold events_at; rewrite E; done).
    cbn [omap list_omap]. unfold io_due at 1. cbn [snd]. destruct (Z.eqb_spec (events_at o i) 0) as [E|E].
    - rewrite decide_False; [exact IH|]. intros (j & Hj & _ & Hne). simplify_eq. congruence.
    - rewrite decide_True by (exists i; rewrite Hr; auto). cbn [omap list_omap]. unfold io_event at 1.
      rewrite lookup_fmap, Hi. cbn. unfold collected. rewrite (proj2 (Z.eqb_neq _ _) (Hw E)). cbn. rewrite Hr. by f_equal. }
  rewrite E1. apply omap_Permutation, NoDup_Permutation.
  - apply NoDup_elements.
  - apply NoDup_filter, NoDup_fst_map_to_list.
  - intros x. rewrite elem_of_elements, elem_of_filter, list_elem_of_filter, elem_of_dom.
    assert (x ∈ (map_to_list h).*1 <-> is_Some (h !! x)); [|tauto].
    rewrite list_elem_of_fmap. split.
    + intros ([y i] & -> & Hy%elem_of_map_to_list). eauto.
    + intros [i Hi]. exists (x, i). split; [done|]. by apply elem_of_map_to_list.
Qed.

Lemma gwf_iol g iol :
  gwf g -> iwf iol -> reads iol = reads (iolooper g) -> writes iol = writes (iolooper g) -> gwf {| g with iolooper := iol |}.
Proof.
  intros [H1 H2 H3 H4 H5 H6 H7 H8 H9 H10 H11] Hi Er Ew. split; cbn; try done; by rewrite ?Er, ?Ew.
Qed.

(** From the result of the wait to the pending watchers. *)
Lemma collect_step g deadline h0 :
  gwf g -> Z.of_nat (size (gioheap g)) < 2 ^ 29 ->
  exists ret iol h1, iolooper_wait_absolute deadline (iolooper g) h0 ⇓ (ret, iol, h1) /\
    (0 <= ret -> exists p h P, (if ret >? 0 then collect_ios {| g with iolooper := iol |} else Ok {| g with iolooper := iol |})
        ⇓ {| g with iolooper := iol; pendingIos := p; gioheap := h |} /\
      growing p P /\ Z.of_nat (size P) < 2 ^ 29 /\ (forall x, x ∈ P -> x <> 0 /\ is_Some (h !! x)) /\
      Permutation (omap (io_event h) (elements P)) (omap (io_due (sel_os h1)) (map_to_list (gioheap g)))).
Proof.
  intros Hg Hs. unfold iolooper_wait_absolute. destruct (iolooper_now h0) as [now0 h00].
  destruct (wait_spec (iolooper g) (if s64 (deadline - now0) <? 0 then 0 else s64 (deadline - now0)) h00 (g_iol _ Hg))
    as (ret & iol & h1 & E & Hiw & Er & Ew & _ & Hready & Hpos).
  exists ret, iol, h1. split; [done|]. intros Hret. pose proof (gwf_iol g iol Hg Hiw Er Ew) as Hg1.
  destruct (Z.gtb_spec ret 0) as [Hgt|Hle].
  - destruct (Hready Hret (Hpos ltac:(lia))) as (ER & EW & _).
    destruct (collect_ios_spec {| g with iolooper := iol |} Hg1 Hs) as (p & h & Ec & Hgr & Eh).
    cbn [iolooper gioheap] in Hgr, Eh. rewrite Ec. exists p, h, (filter (is_ready iol (gioheap g)) (dom (gioheap g))).
    split; [done|]. split; [done|]. split; [|split].
    + assert (size (filter (is_ready iol (gioheap g)) (dom (gioheap g))) <= size (dom (gioheap g)))%nat by (apply subseteq_size; set_solver).
      rewrite size_dom in *. lia.
    + intros x Hx. apply elem_of_filter in Hx as [_ Hx]. apply elem_of_dom in Hx. split; [by apply (g_ptr _ Hg)|].
      rewrite Eh, lookup_fmap. destruct Hx as [i ->]. eauto.
    + rewrite Eh. apply (due_events {| g with iolooper := iol |}); [done|]. intros x i Hi.
      by apply (ready_in_events g iol (sel_os h1) x i Hg Hi).
  - assert (ret = 0) as -> by lia. exists (pendingIos g), (gioheap g), ∅. split; [by destruct g|]. rewrite (g_idle _ Hg).
    split; [by left|]. split; [by rewrite size_empty|]. split; [set_solver|].
    assert (Hnone : forall x i, gioheap g !! x = Some i -> events_at (sel_os h1) i = 0).
    { intros x i Hi. destruct (decide (watched (iolooper g) = ∅)) as [He|Hne].
      - rewrite <- (ready_in_events g (mkIoLooper ∅ ∅ ∅ ∅ 0 true) _ x i Hg Hi); [done|..]; unfold watched in He; cbn; set_solver.
      - destruct (Hready Hret Hne) as (ER & EW & Hn & _).
        assert (reads_result iol = ∅) as E1 by (apply leibniz_equiv, size_empty_inv; lia).
        assert (writes_result iol = ∅) as E2 by (apply leibniz_equiv, size_empty_inv; lia).
        rewrite <- (ready_in_events g iol _ x i Hg Hi) by done. unfold ready_in. by rewrite E1, E2. }
    rewrite elements_empty. cbn. replace (omap _ (map_to_list (gioheap g))) with (@nil event); [done|]. symmetry.
    assert (Hin : forall kv, kv ∈ map_to_list (gioheap g) -> events_at (sel_os h1) kv.2 = 0).
    { intros [x i] Hx%elem_of_map_to_list. by apply (Hnone x). }
    revert Hin. generalize (map_to_list (gioheap g)). induction l as [|kv l IH]; intros Hin; [done|]. cbn.
    unfold io_due at 1. rewrite (Hin kv) by set_solver. cbn. apply IH. set_solver.
Qed.

(** From the active timers to the fired ones. *)
Lemma timers_step now s l :
  glist (gtheap (a_g s)) (activeTimers (a_g s)) l ->
  exists l1 l2 pending g1 h, l = l1 ++ l2 /\
    (forall x, x ∈ l1 -> gkey (gtheap (a_g s)) x <= now) /\ (forall x, x ∈ l2 -> now < gkey (gtheap (a_g s)) x) /\
    take_expired (walk_fuel (gtheap (a_g s))) now 0 LHead (a_g s) ⇓ (pending, g1) /\
    fire_timers a_g set_g on_timer (walk_fuel (gtheap g1)) pending (set_g g1 s)
      ⇓ mkApp {| (a_g s) with gtheap := h; activeTimers := default 0 (head l2) |} (a_host s)
              (a_log s ++ (TimerFired <$> opaques (gtheap (a_g s)) l1)) /\
    glist h (default 0 (head l2)) l2.
Proof.
  intros [Hc Hs He]. destruct (key_sorted_split _ l now Hs) as (l1 & l2 & El & H1 & H2). subst l.
  pose proof (chain_NoDup _ _ _ Hc) as Hnd.
  destruct (take_expired_spec now l2 l1 (walk_fuel (gtheap (a_g s))) [] 0 (a_g s)) as (pending & h1 & E1 & Hc1 & Hc2 & Hst); try done.
  { intros x Hx. apply H2. by apply head_Some_elem_of in Hx. }
  { apply chain_length in Hc. rewrite length_app in Hc. lia. }
  change ([] ++ l1) with l1 in Hc1. exists l1, l2, pending. eexists.
  destruct (fire_timers_spec l1 (walk_fuel h1) pending
    (set_g {| (a_g s) with gtheap := h1; activeTimers := default 0 (head l2) |} s)) as (h & E & Ei & Hh).
  { done. } { by eapply chain_length. }
  exists h. split; [done|]. split; [done|]. split; [done|]. split; [exact E1|]. cbn [set_g a_g a_host a_log gtheap] in *.
  rewrite E. split; [f_equal; f_equal; f_equal; f_equal|].
  - apply opaques_ext. intros x Hx. specialize (Hst x). rewrite decide_True in Hst by done.
    destruct (h1 !! x), (gtheap (a_g s) !! x); try done. cbn in *. by injection Hst as _ ->.
  - assert (Hx12 : forall x, x ∈ l2 -> x ∉ l1) by (apply NoDup_app in Hnd; set_solver).
    assert (Hinfo : forall x, x ∉ l1 -> ginfo <$> h !! x = ginfo <$> gtheap (a_g s) !! x).
    { intros x Hx. rewrite Hh by done. specialize (Hst x). by rewrite decide_False in Hst by done. }
    split.
    + eapply chain_frame; [|exact Hc2]. intros x Hx. by rewrite Hh by auto.
    + apply key_sorted_app in Hs as (_ & Hs & _). eapply key_sorted_ext; [|exact Hs]. intros x Hx. symmetry.
      apply gkey_same. by apply Hinfo, Hx12.
    + intros x. destruct (decide (x ∈ l1)) as [Hx|Hx].
      * assert (Hn : x ∉ l2) by (intros ?; by eapply Hx12). split; [done|]. intros (t & Ht & Hd). exfalso. apply Hd.
        pose proof (fmap_eq_lookup _ _ _ x Ei) as Ex. specialize (Hst x). rewrite decide_True in Hst by done. rewrite Ht, Hst in Ex.
        destruct (gtheap (a_g s) !! x); [|done]. cbn in Ex. by injection Ex.
      * specialize (He x). rewrite elem_of_app in He. rewrite gactive_alt in *. specialize (Hinfo x Hx).
        replace (gt_deadline <$> h !! x) with (gt_deadline <$> gtheap (a_g s) !! x); [tauto|].
        destruct (h !! x), (gtheap (a_g s) !! x); try done. cbn in *. by injection Hinfo as ->.
Qed.


(** Without an active timer and without a wish, the loop ends at once. *)
Lemma glooper_run_idle s d n :
  activeTimers (a_g s) = 0 -> numActiveIos (a_g s) = 0 ->
  exists s', glooper_run a_g set_g a_host set_h on_timer on_io (S n) d s ⇓ (EWOULDBLOCK, s').
Proof.
  intros Ha Hn. unfold glooper_run. cbn [glooper_loop]. unfold run_turn. cbn. rewrite Ha, Hn. cbn. eauto.
Qed.

(** ** Defects *)

(** A pending watcher that has been freed. *)
Lemma fire_items_dangling l : forall s x,
  x ∈ l -> (forall y, y ∈ l -> y <> 0) -> gioheap (a_g s) !! x = None ->
  for_items (fire_io a_g on_io) l s = Fault BadPointer.
Proof.
  induction l as [|y l IH]; intros s x Hx H0 Hn; [set_solver|]. cbn [for_items].
  specialize (H0 y ltac:(set_solver)) as Hy. destruct (gioheap (a_g s) !! y) as [i|] eqn:Ey.
  - rewrite (fire_io_Ok y s i) by done. mon. apply (IH _ x); [|intros; apply H0; set_solver|done].
    apply elem_of_cons in Hx as [->|]; [congruence|done].
  - unfold fire_io, deref. rewrite (proj2 (Z.eqb_neq y 0)), Ey by done. done.
Qed.

(** C37.  Four defects of the generic loop.  The set of pending watchers is never
    emptied: the watchers called back in one turn are called back again in the
    next one, with the same events, whatever the wait reported.  A watcher that
    was pending once and is freed while it has no events stays in that set: the
    next turn uses it after its end.  Freeing a watcher leaves its descriptor
    and its count in place, so that the loop never sees that it has nothing to
    do.  When the callback of a timer frees another timer of the same turn, the
    loop goes on with the freed timer. *)
Theorem glooper_defects :
  (forall s P, items_ok (pendingIos (a_g s)) P -> (forall x, x ∈ P -> x <> 0 /\ is_Some (gioheap (a_g s) !! x)) ->
     exists s' s'' evs, fire_ios a_g set_g on_io s ⇓ s' /\ a_log s' = a_log s ++ evs /\
       fire_ios a_g set_g on_io s' ⇓ s'' /\ a_log s'' = a_log s' ++ evs /\
       Permutation evs (omap (io_event (gioheap (a_g s))) (elements P))) /\
  (forall s P io i g', items_ok (pendingIos (a_g s)) P -> io ∈ P -> (0 ∉ P) ->
     gioheap (a_g s) !! io = Some i -> gio_ready i = 0 -> gloopio_free io (a_g s) ⇓ g' ->
     fire_ios a_g set_g on_io (set_g g' s) = Fault BadPointer) /\
  (forall io g g', gloopio_free io g ⇓ g' -> numActiveIos g' = numActiveIos g /\ iolooper g' = iolooper g) /\
  (forall s x y tx ty g' fuel, x <> 0 -> y <> 0 -> x <> y -> gtheap (a_g s) !! x = Some tx -> gtheap (a_g s) !! y = Some ty ->
     gt_next tx = y -> gt_deadline ty = DURATION_INFINITE -> glooper_delTimer y (a_g s) ⇓ g' ->
     fire_timers a_g set_g (fun _ s => g ← glooptimer_free y (a_g s); Ok (set_g g s)) (S (S fuel)) x s = Fault BadPointer).
Proof.
  split; [|split; [|split]].
  - intros s P Hp HP. destruct (fire_ios_spec s P Hp HP) as [E1 Hperm]. set (s' := mkApp _ _ _) in E1.
    assert (Hp' : items_ok (pendingIos (a_g s')) P) by (destruct Hp as (? & ? & ? & ?); by split_and!).
    destruct (fire_ios_spec s' P Hp' HP) as [E2 _]. eexists s', _, _. split; [exact E1|]. split; [done|]. split; [exact E2|].
    split; [done|]. exact Hperm.
  - intros s P io i g' Hp Hio H0 Hi Hr Hf. unfold gloopio_free in Hf.
    assert (io <> 0) by (by intros ->). rewrite (deref_Some _ _ i) in Hf by done. mon. rewrite Hr in Hf. cbn [Z.eqb negb] in Hf. mon.
    unfold glooper_delIo in Hf. apply bind_Ok in Hf as (g1 & E1 & [= <-]). apply bind_Ok in E1 as (si & _ & [= <-]).
    rewrite (fire_ios_items _ P) by exact Hp. cbn [set_g a_g pendingIos]. destruct Hp as (Hp & _).
    rewrite (fire_items_dangling _ _ io); [done|..].
    + by rewrite Hp, elem_of_elements.
    + intros y Hy. rewrite Hp, elem_of_elements in Hy. by intros ->.
    + cbn. apply lookup_delete_eq.
  - intros io g g' Hf. unfold gloopio_free, glooper_delPendingIo, glooper_delIo in Hf. inv_res; done.
  - intros s x y tx ty g' fuel Hx Hy Hxy Htx Hty Hn Hd Hdel. cbn [fire_timers]. rewrite (proj2 (Z.eqb_neq x 0)) by done.
    rewrite (deref_Some _ _ tx) by done. mon. rewrite (mod_gtimer_Ok x _ _ tx) by done. mon. cbn [a_g set_g].
    unfold glooper_delTimer in Hdel. apply bind_Ok in Hdel as (st & Est & _).
    unfold glooptimer_free, glooper_delTimer. cbn [gtheap timers].
    rewrite (deref_Some _ _ ty) by (done || by rewrite lookup_insert_ne). mon. rewrite Hd, Z.eqb_refl. cbn [negb]. mon.
    cbn [timers]. rewrite Est. mon. cbn [gtheap]. rewrite (deref_Some _ _ ty) by (done || by rewrite lookup_insert_ne). mon.
    cbn [a_g set_g gtheap]. rewrite Hn, (proj2 (Z.eqb_neq y 0)) by done. unfold deref. rewrite (proj2 (Z.eqb_neq y 0)) by done.
    by rewrite lookup_delete_eq.
Qed.
End turn.

(** ** Setting up a looper *)

Section reach.
Context {P : Type} `{HP : Host P}.

(** What a client does with a looper before it runs it. *)
Inductive gop : Type :=
| GTimerInit (t opaque : Z) | GTimerStart (t deadline : Z) | GTimerStop (t : Z)
| GIoInit (io fd opaque : Z) | GWantRead (io : Z) | GWantWrite (io : Z) | GDontWantRead (io : Z) | GDontWantWrite (io : Z).

Definition gexec (o : gop) (gs : GLooper * sock P) : res (GLooper * sock P) :=
  let '(g, s) := gs in
  match o with
  | GTimerInit t op => g ← glooper_timer_init t op g; Ok (g, s)
  | GTimerStart t d => g ← glooptimer_startAbsolute t d g; Ok (g, s)
  | GTimerStop t => g ← glooptimer_stop t g; Ok (g, s)
  | GIoInit io fd op => glooper_io_init io fd op g s
  | GWantRead io => g ← gloopio_wantRead io g; Ok (g, s)
  | GWantWrite io => g ← gloopio_wantWrite io g; Ok (g, s)
  | GDontWantRead io => g ← gloopio_dontWantRead io g; Ok (g, s)
  | GDontWantWrite io => g ← gloopio_dontWantWrite io g; Ok (g, s)
  end.

(** The allocator returns a pointer to no object; a client names the objects it
    has, and owns its descriptors. *)
Definition genabled (o : gop) (g : GLooper) : Prop :=
  match o with
  | GTimerInit t _ => gtheap g !! t = None /\ pointer t /\ Z.of_nat (size (gtheap g)) < 2 ^ 30
  | GTimerStart t _ | GTimerStop t => is_Some (gtheap g !! t)
  | GIoInit io fd _ => gioheap g !! io = None /\ pointer io /\ Z.of_nat (size (gioheap g)) < 2 ^ 30 /\
      in_fd_set fd = true /\ forall q j, gioheap g !! q = Some j -> gio_fd j <> fd
  | GWantRead io | GWantWrite io | GDontWantRead io | GDontWantWrite io => is_Some (gioheap g !! io)
  end.

Inductive greach (junk : IoLooper) (s0 : sock P) : GLooper * sock P -> Prop :=
| greach_new : greach junk s0 (looper_newGeneric junk, s0)
| greach_step g s o gs' :
    greach junk s0 (g, s) -> genabled o g -> gexec o (g, s) ⇓ gs' -> greach junk s0 gs'.

Lemma gwf_new junk : gwf (looper_newGeneric junk).
Proof.
  assert (Ht : forall x t, gtheap (looper_newGeneric junk) !! x <> Some t) by (intros x t; apply lookup_empty_Some).
  assert (Hi : forall x i, gioheap (looper_newGeneric junk) !! x <> Some i) by (intros x i; apply lookup_empty_Some).
  assert (Hw : forall flag fd, ~ wants (gioheap (looper_newGeneric junk)) flag fd) by (intros flag fd (x & i & Hx & _); by eapply Hi).
  split.
  - split; [|intros x [t Hx]; by destruct (Ht x t)]. exists []. split; [done|constructor|].
    intros x. split; [set_solver|]. intros (t & Hx & _). by destruct (Ht x t).
  - left. split; [done|]. apply dom_empty_L.
  - left. split; [done|]. apply dom_empty_L.
  - intros x [i Hx]. by destruct (Hi x i).
  - done.
  - intros x i Hx. by destruct (Hi x i).
  - intros x y i j Hx. by destruct (Hi x i).
  - apply new_wf.
  - intros fd. split; [intros Hx; by apply elem_of_empty in Hx|]. intros Hx. by destruct (Hw LOOP_IO_READ fd).
  - intros fd. split; [intros Hx; by apply elem_of_empty in Hx|]. intros Hx. by destruct (Hw LOOP_IO_WRITE fd).
  - done.
Qed.

Lemma gexec_want g io i f :
  gwf g -> gioheap g !! io = Some i -> in_range 2 (f (gio_wanted i)) ->
  exists g', (i ← deref (gioheap g) io; gloopio_modify io (f (gio_wanted i)) g) ⇓ g' /\ gwf g'.
Proof.
  intros Hg Hi Hr. rewrite (deref_Some _ _ i) by (done || apply (g_ptr _ Hg); eauto). mon.
  destruct (modify_spec g io i (f (gio_wanted i)) Hg Hi Hr) as (g' & E & Hg' & _). eauto.
Qed.

Lemma gexec_wf o g s : gwf g -> genabled o g -> exists g' s', gexec o (g, s) ⇓ (g', s') /\ gwf g'.
Proof.
  intros Hg He. destruct o as [tm op|tm d|tm|io fd op|io|io|io|io]; cbn in *.
  - destruct He as (Hn & Hp & Hs). destruct (timer_init_spec g tm op Hg Hn Hp Hs) as (g' & -> & Hg' & _). mon. eauto.
  - destruct He as [t Ht]. destruct (startAbsolute_spec g tm t d (g_timers _ Hg) Ht) as (g' & -> & Hw & Hs & Et & Ei). mon.
    eexists _, _. split; [done|]. eapply gwf_timers; try done. by eapply info_dom_insert.
  - destruct He as [t Ht]. destruct (stop_spec g tm t (g_timers _ Hg) Ht) as (g' & -> & Hw & Hs & Et & Ei). mon.
    eexists _, _. split; [done|]. eapply gwf_timers; try done. by eapply info_dom_insert.
  - destruct He as (Hn & Hp & Hs & Hfd & Hf). destruct (io_init_spec g s io fd op Hg Hn Hp Hs Hfd Hf) as (g' & s' & -> & Hg' & _). eauto.
  - destruct He as [i Hi]. destruct (gexec_want g io i (fun w => Z.lor w LOOP_IO_READ) Hg Hi) as (g' & E & Hg').
    { apply range2_lor; [|done]. apply (g_io _ Hg io i Hi). } unfold gloopio_wantRead. rewrite E. mon. eauto.
  - destruct He as [i Hi]. destruct (gexec_want g io i (fun w => Z.lor w LOOP_IO_WRITE) Hg Hi) as (g' & E & Hg').
    { apply range2_lor; [|done]. apply (g_io _ Hg io i Hi). } unfold gloopio_wantWrite. rewrite E. mon. eauto.
  - destruct He as [i Hi]. destruct (gexec_want g io i (fun w => Z.ldiff w LOOP_IO_READ) Hg Hi) as (g' & E & Hg').
    { apply range2_ldiff; [|done]. apply (g_io _ Hg io i Hi). } unfold gloopio_dontWantRead. rewrite E. mon. eauto.
  - destruct He as [i Hi]. destruct (gexec_want g io i (fun w => Z.ldiff w LOOP_IO_WRITE) Hg Hi) as (g' & E & Hg').
    { apply range2_ldiff; [|done]. apply (g_io _ Hg io i Hi). } unfold gloopio_dontWantWrite. rewrite E. mon. eauto.
Qed.

Lemma greach_wf junk s0 gs : greach junk s0 gs -> gwf gs.1.
Proof.
  induction 1 as [|g s o gs' Hr IH He E]; [apply gwf_new|].
  destruct (gexec_wf o g s IH He) as (g' & s' & E' & Hg'). rewrite E in E'. by injection E' as ->.
Qed.

(** However a client sets up a generic looper, with timers that are
    created, started and stopped and with watchers that are created and change
    their wishes, every operation returns and the looper is consistent: the
    active timers are chained in the order of their deadlines, the sets hold
    exactly the timers and the watchers, [select] will be asked about exactly
    the descriptors and events that are wanted, and the count of active
    watchers is right. *)
Theorem glooper_setup_safe junk s0 g s o :
  greach junk s0 (g, s) -> genabled o g -> gwf g /\ exists g' s', gexec o (g, s) ⇓ (g', s') /\ gwf g'.
Proof.
  intros Hr He. pose proof (greach_wf _ _ _ Hr) as Hg. split; [done|]. by apply gexec_wf.
Qed.
End reach.
