(* ===== verification/LooperGenericWitnesses.v ===== *)
(** * Concrete runs of the generic event loop

    A timer and a watcher of descriptor 4 on the hosts of [Toy] and [SelectToy]:
    the descriptor is readable and the time of the timer has come. *)

From S2P Require Import Prelude IntrusiveList LooperQemu SockAddr SocketCalls SocketCallsProofs Refset RefsetProofs RefsetTheorems IoLooper IoLooperProofs LooperGeneric LooperGenericProofs LooperGenericTheorems.

Definition gstate : Type := (GLooper * sock Toy.host)%type.
Definition gs0 : gstate := (looper_newGeneric SelectToy.junk, mkSock 0 Toy.fresh_host).
Definition gafter (o : gop) (gs : gstate) : gstate := match gexec o gs with Ok gs' => gs' | Fault _ => gs end.
Definition gok (o : gop) (gs : gstate) : bool := match gexec o gs with Ok _ => true | Fault _ => false end.

Lemma greach_after gs o :
  greach SelectToy.junk (mkSock 0 Toy.fresh_host) gs -> genabled o gs.1 -> gok o gs = true ->
  greach SelectToy.junk (mkSock 0 Toy.fresh_host) (gafter o gs).
Proof.
  destruct gs as [g s]. unfold gok, gafter. intros Hr He Ho. destruct (gexec o (g, s)) as [gs'|] eqn:E; [|done].
  by eapply greach_step.
Qed.

Definition gs1 : gstate := gafter (GTimerInit 1000 7) gs0.
Definition gs2 : gstate := gafter (GTimerStart 1000 50) gs1.
Definition gs3 : gstate := gafter (GIoInit 2000 4 9) gs2.
Definition gs4 : gstate := gafter (GWantRead 2000) gs3.

Lemma gs3_reach : greach SelectToy.junk (mkSock 0 Toy.fresh_host) gs3.
Proof.
  apply greach_after; [apply greach_after; [apply greach_after; [constructor|..]|..]|..]; try (vm_compute; reflexivity).
  - split; [vm_compute; reflexivity|]. split; [split; discriminate|]. vm_compute. reflexivity.
  - exists (mkGTimer DURATION_INFINITE 7 0). vm_compute. reflexivity.
  - split; [vm_compute; reflexivity|]. split; [split; discriminate|]. split; [vm_compute; reflexivity|].
    split; [reflexivity|]. intros q j Hq. change (gioheap gs2.1) with (∅ : gmap Z GLoopIo) in Hq. by rewrite lookup_empty in Hq.
Qed.

Lemma glooper_setup_safe_witness :
  gwf gs3.1 /\ exists g' s', gexec (GWantRead 2000) (gs3.1, gs3.2) ⇓ (g', s') /\ gwf g'.
Proof.
  apply (glooper_setup_safe SelectToy.junk (mkSock 0 Toy.fresh_host) gs3.1 gs3.2).
  - rewrite <- surjective_pairing. exact gs3_reach.
  - exists (mkGIo 4 9 0 0). vm_compute. reflexivity.
Defined.

(** The looper once it runs, on a host where nothing interrupts [select]. *)
Definition running_app : app nat := mkApp {| (gs4.1) with running := true |} (mkSelState 0 0%nat) [].

Lemma running_gwf : gwf (a_g running_app).
Proof.
  assert (Hr : greach SelectToy.junk (mkSock 0 Toy.fresh_host) gs4).
  { apply greach_after; [apply gs3_reach| |vm_compute; reflexivity]. exists (mkGIo 4 9 0 0). vm_compute. reflexivity. }
  pose proof (greach_wf _ _ _ Hr) as Hg. clear Hr. unfold running_app. revert Hg. generalize (gs4.1). intros g Hg.
  destruct Hg as [H1 H2 H3 H4 H5 H6 H7 H8 H9 H10 H11]. by split.
Qed.


(** What the turn does: the timer, then the watcher with its event. *)
Example turn_log :
  match run_turn a_g set_g a_host set_h on_timer on_io 200000 running_app with
  | Ok (r, s') => (r, a_log s') | Fault _ => (None, [])
  end = (None, [TimerFired 7; IoReady 9 4 LOOP_IO_READ]).
Proof. vm_compute. reflexivity. Qed.

(** A watcher that was called back once and has no events now; two timers of
    one turn. *)
Definition stale : GLooper :=
  mkGLooper (mkRefSet [1000; 1016; 0; 0] 2 4 0) 0 (mkRefSet [2000; 0; 0; 0] 1 4 0) (mkRefSet [2000; 0; 0; 0] 0 4 0) 1
    SelectToy.junk true {[1000 := mkGTimer DURATION_INFINITE 7 1016; 1016 := mkGTimer DURATION_INFINITE 8 0]}
    {[2000 := mkGIo 4 9 LOOP_IO_READ 0]}.
Definition stale_app : app nat := mkApp stale (mkSelState 0 0%nat) [].

Lemma stale_items : items_ok (pendingIos (a_g stale_app)) {[2000]}.
Proof. split_and!; [|reflexivity..]. rewrite elements_singleton. reflexivity. Qed.

Lemma glooper_defects_witness :
  (exists s' s'' evs, fire_ios a_g set_g on_io stale_app ⇓ s' /\ a_log s' = a_log stale_app ++ evs /\
     fire_ios a_g set_g on_io s' ⇓ s'' /\ a_log s'' = a_log s' ++ evs) /\
  (exists g', gloopio_free 2000 stale ⇓ g' /\ numActiveIos g' = 1 /\
     fire_ios a_g set_g on_io (set_g g' stale_app) = Fault BadPointer) /\
  fire_timers a_g set_g (fun _ s => g ← glooptimer_free 1016 (a_g s); Ok (set_g g s)) 3 1000 stale_app = Fault BadPointer.
Proof.
  destruct (glooper_defects (O := nat)) as (H1 & H2 & H3 & H4). split; [|split].
  - destruct (H1 stale_app {[2000]} stale_items) as (s' & s'' & evs & E1 & E2 & E3 & E4 & _).
    + intros x ->%elem_of_singleton. split; [discriminate|]. eexists. vm_compute. reflexivity.
    + exists s', s'', evs. split; [exact E1|]. split; [exact E2|]. split; [exact E3|exact E4].
  - assert (Hf : exists g', gloopio_free 2000 stale ⇓ g').
    { destruct (gloopio_free 2000 stale) as [g'|f] eqn:E; [by exists g'|]. vm_compute in E. discriminate. }
    destruct Hf as (g' & Hf). exists g'. split; [exact Hf|]. split; [exact (proj1 (H3 _ _ _ Hf))|].
    apply (H2 stale_app {[2000]} 2000 (mkGIo 4 9 LOOP_IO_READ 0) g' stale_items); [set_solver|set_solver|vm_compute; reflexivity|reflexivity|exact Hf].
  - destruct (glooper_delTimer 1016 stale) as [g'|f] eqn:E; [|vm_compute in E; discriminate].
    apply (H4 stale_app 1000 1016 (mkGTimer DURATION_INFINITE 7 1016) (mkGTimer DURATION_INFINITE 8 0) g' 1%nat);
      [discriminate|discriminate|discriminate|vm_compute; reflexivity|vm_compute; reflexivity|reflexivity|reflexivity|exact E].
Defined.
