(* ===== verification/Opengles.v ===== *)
(** * The renderer's side of the emulator ([android/opengles.c])

    Starting and stopping the OpenGL ES renderer, a library that is loaded at run
    time, and copying the strings that describe it.  The functions of that
    library are a parameter (class [Renderer]). *)

From S2P Require Import Prelude.

(** ** The library *)

(** What the library exports, as functions of its state; a string may be
    missing. *)
Class Renderer (R : Type) : Type := {
  initLibrary : R -> Z * R;
  setStreamMode : Z -> R -> Z * R;
  initOpenGLRenderer : Z -> Z -> nat -> R -> Z * list Z * R;
  getHardwareStrings : R -> option (list Z) * option (list Z) * option (list Z) * R;
  setPostCallback : Z -> Z -> R -> R;
  createOpenGLSubwindow : Z -> Z -> Z -> Z -> Z -> Z -> R -> Z * R;
  destroyOpenGLSubwindow : R -> Z * R;
  repaintOpenGLDisplay : R -> R;
  stopOpenGLRenderer : R -> Z * R
}.

Definition STREAM_MODE_TCP := 1.
Definition STREAM_MODE_UNIX := 2.

(** ** Strings *)

(** [strncpy_safe(dst, src, n)]: [n] bytes of [src], padded with zeros, the last
    one replaced by zero *)
Definition strncpy_safe (dst src : list Z) (n : Z) : res (list Z) :=
  if (n <=? 0) || (n >? Z.of_nat (length dst)) then Fault OutOfBounds
  else
    let k := Z.to_nat n in
    Ok (take (k - 1) (src ++ replicate k 0) ++ [0] ++ drop k dst).

(** [strchr(src, c)] and [strrchr(src, c)] as indexes *)
Definition strchr (c : Z) (src : list Z) : option nat := memchr c src.
Fixpoint strrchr (c : Z) (src : list Z) : option nat :=
  match src with
  | [] => None
  | x :: src' =>
      match strrchr c src' with
      | Some i => Some (S i)
      | None => if x =? c then Some 0%nat else None
      end
  end.

(** [void extractBaseString(dst, src, dstSize)]; [end - begin + 1] is compared
    with a [size_t] *)
Definition extractBaseString (dst src : list Z) (dstSize : Z) : res (list Z) :=
  match strchr 40 src, strrchr 41 src with
  | Some b, Some e =>
      let begin_ := Z.of_nat b + 1 in
      let end_ := Z.of_nat e in
      let end_ := if u64 (end_ - begin_ + 1) >? dstSize then begin_ + dstSize - 1 else end_ in
      strncpy_safe dst (drop (Z.to_nat begin_) src) (u64 (end_ - begin_ + 1))
  | _, _ => strncpy_safe dst src dstSize
  end.

(** ** The state of [opengles.c] *)

Section gles.
Context {R : Type} `{Renderer R}.

(** [lib_loaded] is whether [rendererLib] is set, [funcs_set] whether the
    pointers to the library's functions are. *)
Record gles : Type := mkGles {
  lib_loaded : bool;
  funcs_set : bool;
  rendererStarted : bool;
  rendererBuf : list Z;
  fast_pipes : bool;
  pipes_enabled : bool;
  renderer : R
}.

(** A call through a function pointer that [initOpenglesEmulationFuncs] sets. *)
Definition call_lib {A} (f : R -> A * R) (g : gles) : res (A * gles) :=
  if funcs_set g then let '(a, r) := f (renderer g) in Ok (a, {| g with renderer := r |}) else Fault NullDeref.

(** [adynamicLibrary_open] and [adynamicLibrary_findSymbol]: the bodies that
    call [dlopen] and [dlsym] are commented out, both answer [NULL] *)
Definition adynamicLibrary_open : bool := false.
Definition adynamicLibrary_findSymbol : bool := false.

(** [int initOpenglesEmulationFuncs(rendererLib)] *)
Definition initOpenglesEmulationFuncs (g : gles) : Z * gles :=
  if adynamicLibrary_findSymbol then (0, {| g with funcs_set := true |}) else (-1, g).

(** [int android_initOpenglesEmulation(void)] *)
Definition android_initOpenglesEmulation (g : gles) : res (Z * gles) :=
  if lib_loaded g then Ok (0, g)
  else
    let g := {| g with lib_loaded := adynamicLibrary_open |} in
    if negb (lib_loaded g) then Ok (-1, g)
    else
      let g := {| g with pipes_enabled := true |} in
      let bad g := Ok (-1, {| g with lib_loaded := false |}) in
      let '(r, g) := initOpenglesEmulationFuncs g in
      if r <? 0 then bad g
      else
        '(r, g) ← call_lib initLibrary g;
        if r =? 0 then bad g
        else
          '(_, g) ← call_lib (setStreamMode (if fast_pipes g then STREAM_MODE_UNIX else STREAM_MODE_TCP)) g;
          Ok (0, g).

(** [int android_startOpenglesRenderer(width, height)]; the library stores the
    address of its server in the buffer it is given *)
Definition android_startOpenglesRenderer (width height : Z) (g : gles) : res (Z * gles) :=
  if negb (lib_loaded g) then Ok (-1, g)
  else if rendererStarted g then Ok (0, g)
  else
    '(ra, g) ← call_lib (fun r => let '(x, a, r) := initOpenGLRenderer width height (length (rendererBuf g)) r in ((x, a), r)) g;
    let '(r, a) := ra in
    let g := {| g with rendererBuf := a |} in
    if r =? 0 then Ok (-1, g) else Ok (0, {| g with rendererStarted := true |}).

(** [void android_setPostCallback(onPost, onPostContext)] *)
Definition android_setPostCallback (onPost onPostContext : Z) (g : gles) : res gles :=
  if lib_loaded g then '(_, g) ← call_lib (fun r => (tt, setPostCallback onPost onPostContext r)) g; Ok g else Ok g.

(** [void android_stopOpenglesRenderer(void)] *)
Definition android_stopOpenglesRenderer (g : gles) : res gles :=
  if rendererStarted g then
    '(_, g) ← call_lib stopOpenGLRenderer g; Ok {| g with rendererStarted := false |}
  else Ok g.

(** [int android_showOpenglesWindow(...)], [android_hideOpenglesWindow],
    [android_redrawOpenglesWindow] *)
Definition android_showOpenglesWindow (window x y width height rotation : Z) (g : gles) : res (Z * gles) :=
  if rendererStarted g then
    '(success, g) ← call_lib (createOpenGLSubwindow window x y width height rotation) g;
    Ok (if success =? 0 then -1 else 0, g)
  else Ok (-1, g).
Definition android_hideOpenglesWindow (g : gles) : res (Z * gles) :=
  if rendererStarted g then
    '(success, g) ← call_lib destroyOpenGLSubwindow g; Ok (if success =? 0 then -1 else 0, g)
  else Ok (-1, g).
Definition android_redrawOpenglesWindow (g : gles) : res gles :=
  if rendererStarted g then '(_, g) ← call_lib (fun r => (tt, repaintOpenGLDisplay r)) g; Ok g else Ok g.

(** The two strings by which the translator is recognised: ["Google"] and
    ["Android Emulator OpenGL ES Translator"] *)
Definition google : list Z := [71; 111; 111; 103; 108; 101].
Definition translator : list Z :=
  [65; 110; 100; 114; 111; 105; 100; 32; 69; 109; 117; 108; 97; 116; 111; 114; 32; 79; 112; 101; 110; 71; 76; 32;
   69; 83; 32; 84; 114; 97; 110; 115; 108; 97; 116; 111; 114].
(** [strncmp(s, prefix, n) == 0] with [n] the length of [prefix] *)
Definition has_prefix (prefix s : list Z) : bool := list_eqb (take (length prefix) s) prefix.

(** [void android_getOpenglesHardwareStrings(vendor, vendorBufSize, ...)]: the
    three buffers, whose sizes are those of the lists *)
Definition android_getOpenglesHardwareStrings (vendor renderer_ version : list Z) (g : gles)
    : res (list Z * list Z * list Z * gles) :=
  let size (b : list Z) := Z.of_nat (length b) in
  if (size vendor =? 0) || (size renderer_ =? 0) || (size version =? 0) then Fault AssertFailed
  else if negb (rendererStarted g) then
    let clear (b : list Z) := <[0%nat := 0]> b in Ok (clear vendor, clear renderer_, clear version, g)
  else
    '(srcs, g) ← call_lib (fun r => let '(v, n, s, r) := getHardwareStrings r in ((v, n, s), r)) g;
    let '(v, n, s) := srcs in
    let v := default [] v in
    let n := default [] n in
    let s := default [] s in
    let copy := if has_prefix google v && has_prefix translator n then extractBaseString else strncpy_safe in
    vendor ← copy vendor v (size vendor);
    renderer_ ← copy renderer_ n (size renderer_);
    version ← copy version s (size version);
    Ok (vendor, renderer_, version, g).
End gles.
Arguments gles : clear implicits.
