(* ===== verification/OpenglesProofs.v ===== *)
(** * The renderer's strings stay in their buffers *)

From S2P Require Import Prelude Opengles.

(** ** Searching a string *)

Lemma strchr_at c src : forall i, strchr c src = Some i -> src !! i = Some c.
Proof.
  unfold strchr. induction src as [|x src IH]; intros i; cbn; [done|]. destruct (Z.eqb_spec x c) as [->|].
  - by intros [= <-].
  - destruct (memchr c src); [|done]. intros [= <-]. cbn. auto.
Qed.

Lemma strrchr_at c src : forall i, strrchr c src = Some i -> src !! i = Some c.
Proof.
  induction src as [|x src IH]; intros i; cbn; [done|]. destruct (strrchr c src) as [j|].
  - intros [= <-]. cbn. auto.
  - destruct (Z.eqb_spec x c) as [->|]; [|done]. by intros [= <-].
Qed.

(** ** Copies *)

(** [dst'] is the buffer [dst] after it received the C string [str], cut. *)
Definition holds (dst dst' str : list Z) : Prop :=
  length dst' = length dst /\ c_string dst' = take (length dst - 1) str.

Lemma strncpy_safe_spec dst src n :
  0 ∉ src -> 0 < n <= Z.of_nat (length dst) ->
  exists dst', strncpy_safe dst src n ⇓ dst' /\ length dst' = length dst /\ c_string dst' = take (Z.to_nat n - 1) src.
Proof.
  intros Hs Hn. unfold strncpy_safe. replace ((n <=? 0) || (n >? Z.of_nat (length dst))) with false by lia.
  set (k := Z.to_nat n). assert (Hk : (0 < k <= length dst)%nat) by (unfold k; lia). eexists. split; [done|]. split.
  - rewrite !length_app, length_take, length_app, length_replicate, length_drop. cbn. lia.
  - rewrite take_app. destruct (decide (k - 1 <= length src)%nat) as [Hle|Hgt].
    + replace (k - 1 - length src)%nat with 0%nat by lia. rewrite take_0, app_nil_r. cbn [app].
      apply c_string_app. intros Hin. apply Hs. rewrite <- (take_drop (k - 1) src). apply elem_of_app. by left.
    + rewrite (take_ge src) by lia. rewrite <- app_assoc. replace (take _ (replicate k 0)) with (0 :: replicate (k - 2 - length src) 0).
      * cbn [app]. by apply c_string_app.
      * rewrite take_replicate. replace (k - 1 - length src)%nat with (S (k - 2 - length src)) by lia.
        by rewrite Nat.min_l by lia.
Qed.

(** What [extractBaseString] extracts: the text between the first opening and
    the last closing parenthesis; all that follows the first one when no closing
    one comes after it; all of it without parentheses. *)
Definition base_string (src : list Z) : list Z :=
  match strchr 40 src, strrchr 41 src with
  | Some b, Some e => if (b <? e)%nat then take (e - b - 1) (drop (b + 1) src) else drop (b + 1) src
  | _, _ => src
  end.

Lemma extractBaseString_spec dst src :
  0 ∉ src -> (0 < length dst)%nat -> Z.of_nat (length dst) < 2 ^ 62 -> Z.of_nat (length src) < 2 ^ 62 ->
  exists dst', extractBaseString dst src (Z.of_nat (length dst)) ⇓ dst' /\ holds dst dst' (base_string src).
Proof.
  intros Hs Hn Hsz Hsrc. unfold extractBaseString, base_string, holds.
  assert (Hplain : exists dst', strncpy_safe dst src (Z.of_nat (length dst)) ⇓ dst' /\
    length dst' = length dst /\ c_string dst' = take (length dst - 1) src).
  { destruct (strncpy_safe_spec dst src (Z.of_nat (length dst)) Hs ltac:(lia)) as (d & E & Hl & Hc).
    exists d. rewrite Nat2Z.id in Hc. done. }
  destruct (strchr 40 src) as [b|] eqn:Eb; [|done]. destruct (strrchr 41 src) as [e|] eqn:Ee; [|done].
  apply strchr_at in Eb. apply strrchr_at in Ee. assert (b <> e) by (intros ->; congruence).
  apply lookup_lt_Some in Eb, Ee. replace (Z.to_nat (Z.of_nat b + 1)) with (b + 1)%nat by lia.
  assert (Hd : 0 ∉ drop (b + 1) src).
  { intros Hin. apply Hs. rewrite <- (take_drop (b + 1) src). apply elem_of_app. by right. }
  assert (Hcopy : forall n, 0 < n <= Z.of_nat (length dst) -> exists dst', strncpy_safe dst (drop (b + 1) src) n ⇓ dst' /\
    length dst' = length dst /\ c_string dst' = take (Z.to_nat n - 1) (drop (b + 1) src)) by (intros; by apply strncpy_safe_spec).
  assert (Hfull : u64 (Z.of_nat b + 1 + Z.of_nat (length dst) - 1 - (Z.of_nat b + 1) + 1) = Z.of_nat (length dst)).
  { unfold wrap. rewrite Z.mod_small; lia. }
  destruct (Nat.ltb_spec b e) as [Hlt|Hge].
  - assert (Hu : u64 (Z.of_nat e - (Z.of_nat b + 1) + 1) = Z.of_nat (e - b)) by (unfold wrap; rewrite Z.mod_small; lia).
    rewrite Hu. destruct (Z.gtb_spec (Z.of_nat (e - b)) (Z.of_nat (length dst))) as [Hgt|Hle].
    + rewrite Hfull. destruct (Hcopy (Z.of_nat (length dst)) ltac:(lia)) as (d & E & Hl & Hc). exists d. split; [done|].
      split; [done|]. rewrite Hc, Nat2Z.id, take_take. f_equal. lia.
    + rewrite Hu. destruct (Hcopy (Z.of_nat (e - b)) ltac:(lia)) as (d & E & Hl & Hc). exists d. split; [done|].
      split; [done|]. rewrite Hc, Nat2Z.id, take_take. f_equal. lia.
  - assert (Hu : u64 (Z.of_nat e - (Z.of_nat b + 1) + 1) = 2 ^ 64 - Z.of_nat (b - e)).
    { unfold wrap. rewrite <- (Z.mod_add _ 1) by lia. rewrite Z.mod_small; lia. }
    rewrite Hu. rewrite (proj2 (Z.gtb_lt (2 ^ 64 - Z.of_nat (b - e)) (Z.of_nat (length dst)))) by lia. rewrite Hfull.
    destruct (Hcopy (Z.of_nat (length dst)) ltac:(lia)) as (d & E & Hl & Hc). exists d. split; [done|].
    split; [done|]. by rewrite Hc, Nat2Z.id.
Qed.

(** ** The strings of the renderer *)

Section gles.
Context {R : Type} `{HR : Renderer R}.
Implicit Type g : gles R.

(** A string of the library: no zero byte, of a size that fits in memory. *)
Definition lib_string (s : option (list Z)) : Prop := (0 ∉ default [] s) /\ Z.of_nat (length (default [] s)) < 2 ^ 62.
Definition buffer_ok (b : list Z) : Prop := (0 < length b)%nat /\ Z.of_nat (length b) < 2 ^ 62.

(** What a buffer is to receive. *)
Definition shown (v n s : option (list Z)) : list Z :=
  if has_prefix google (default [] v) && has_prefix translator (default [] n)
  then base_string (default [] s) else default [] s.

Lemma copy_spec (b : bool) dst s :
  buffer_ok dst -> lib_string s ->
  exists dst', (if b then extractBaseString else strncpy_safe) dst (default [] s) (Z.of_nat (length dst)) ⇓ dst' /\
    holds dst dst' (if b then base_string (default [] s) else default [] s).
Proof.
  intros [Hd Hd'] [Hs Hs']. destruct b; [by apply extractBaseString_spec|].
  destruct (strncpy_safe_spec dst (default [] s) (Z.of_nat (length dst)) Hs ltac:(lia)) as (d & E & Hl & Hc).
  exists d. rewrite Nat2Z.id in Hc. split; [done|]. by split.
Qed.

(** The strings that describe the renderer, whatever the library answers and
    also when it answers nothing, are copied within the three buffers: each of
    them keeps its size and ends up with a C string, the library's string (of
    the Android translator, the part between its parentheses) cut at the size of
    the buffer; without a renderer the strings are empty. *)
Theorem hardware_strings_fit vendor rend version g v n s r' :
  buffer_ok vendor -> buffer_ok rend -> buffer_ok version ->
  (rendererStarted g = true -> funcs_set g = true) ->
  getHardwareStrings (renderer g) = (v, n, s, r') -> lib_string v -> lib_string n -> lib_string s ->
  exists vendor' rend' version' g', android_getOpenglesHardwareStrings vendor rend version g ⇓ (vendor', rend', version', g') /\
    if rendererStarted g
    then holds vendor vendor' (shown v n v) /\ holds rend rend' (shown v n n) /\ holds version version' (shown v n s)
    else holds vendor vendor' [] /\ holds rend rend' [] /\ holds version version' [].
Proof.
  intros Hv Hn Hs Hf Eg Hlv Hln Hls. unfold android_getOpenglesHardwareStrings.
  replace ((Z.of_nat (length vendor) =? 0) || (Z.of_nat (length rend) =? 0) || (Z.of_nat (length version) =? 0)) with false
    by (unfold buffer_ok in *; lia).
  destruct (rendererStarted g) eqn:Est; cbn [negb].
  - unfold call_lib. rewrite (Hf eq_refl), Eg. mon. unfold shown.
    set (b := has_prefix google _ && has_prefix translator _).
    destruct (copy_spec b vendor v Hv Hlv) as (d1 & E1 & H1). destruct (copy_spec b rend n Hn Hln) as (d2 & E2 & H2).
    destruct (copy_spec b version s Hs Hls) as (d3 & E3 & H3).
    rewrite E1. mon. rewrite E2. mon. rewrite E3. mon. eexists _, _, _, _. split; [done|]. done.
  - eexists _, _, _, _. split; [done|].
    assert (Hc : forall d, buffer_ok d -> holds d (<[0%nat := 0]> d) []).
    { intros d [Hd _]. split; [apply length_insert|]. destruct d as [|x d]; [cbn in Hd; lia|]. cbn [insert list_insert].
      rewrite take_nil. apply (c_string_app [] d). set_solver. }
    auto.
Qed.

(** ** No renderer in this build

    The functions that load the library answer that there is none: whatever is
    called, and in whatever order, no pointer to a function of the library is
    used and the renderer does not start. *)
Inductive gles_call : Type :=
| InitEmulation | StartRenderer (w h : Z) | SetPost (f c : Z) | StopRenderer | ShowWindow (w x y a b r : Z) | HideWindow | Redraw.

Definition gles_run (c : gles_call) g : res (gles R) :=
  match c with
  | InitEmulation => '(_, g) ← android_initOpenglesEmulation g; Ok g
  | StartRenderer w h => '(_, g) ← android_startOpenglesRenderer w h g; Ok g
  | SetPost f c => android_setPostCallback f c g
  | StopRenderer => android_stopOpenglesRenderer g
  | ShowWindow w x y a b r => '(_, g) ← android_showOpenglesWindow w x y a b r g; Ok g
  | HideWindow => '(_, g) ← android_hideOpenglesWindow g; Ok g
  | Redraw => android_redrawOpenglesWindow g
  end.

Definition no_renderer g : Prop := lib_loaded g = false /\ rendererStarted g = false.

Lemma renderer_never_starts c g : no_renderer g -> exists g', gles_run c g ⇓ g' /\ no_renderer g' /\ renderer g' = renderer g.
Proof.
  intros [Hl Hs]. destruct g as [l f st b fp pe r]. cbn in *. subst l st. destruct c; cbn; eexists; (split; [done|]); done.
Qed.
End gles.

(** ** A concrete library *)

Module ToyRenderer.
(** ["Google (ARM)"], the translator with ["(Mali)"], and no version *)
Definition vendor_string : list Z := google ++ [32; 40; 65; 82; 77; 41].
Definition renderer_string : list Z := translator ++ [32; 40; 77; 97; 108; 105; 41].
#[global] Instance toy : Renderer unit := {|
  initLibrary r := (1, r);
  setStreamMode _ r := (0, r);
  initOpenGLRenderer _ _ _ r := (1, [], r);
  getHardwareStrings r := (Some vendor_string, Some renderer_string, None, r);
  setPostCallback _ _ r := r;
  createOpenGLSubwindow _ _ _ _ _ _ r := (1, r);
  destroyOpenGLSubwindow r := (1, r);
  repaintOpenGLDisplay r := r;
  stopOpenGLRenderer r := (1, r)
|}.
Definition started : gles unit := mkGles true true true (replicate 256 0) true true tt.
End ToyRenderer.

(** Buffers of 4, 3 and 1 bytes receive ["ARM"], ["Ma"] and the empty string. *)
Lemma hardware_strings_fit_witness :
  exists v r s g', android_getOpenglesHardwareStrings (replicate 4 7) (replicate 3 7) (replicate 1 7) ToyRenderer.started ⇓ (v, r, s, g') /\
    c_string v = [65; 82; 77] /\ c_string r = [77; 97].
Proof.
  destruct (hardware_strings_fit (replicate 4 7) (replicate 3 7) (replicate 1 7) ToyRenderer.started
    (Some ToyRenderer.vendor_string) (Some ToyRenderer.renderer_string) None tt) as (v & r & s & g' & E & [_ Hv] & [_ Hr] & _).
  - split; vm_compute; [lia|reflexivity].
  - split; vm_compute; [lia|reflexivity].
  - split; vm_compute; [lia|reflexivity].
  - reflexivity.
  - reflexivity.
  - split; [apply (bool_decide_unpack _); vm_compute; exact I|vm_compute; reflexivity].
  - split; [apply (bool_decide_unpack _); vm_compute; exact I|vm_compute; reflexivity].
  - split; [apply (bool_decide_unpack _); vm_compute; exact I|vm_compute; reflexivity].
  - exists v, r, s, g'. split; [exact E|]. split; [rewrite Hv; vm_compute; reflexivity|rewrite Hr; vm_compute; reflexivity].
Defined.
