(* ===== verification/CArray.v ===== *)
(** * Arrays of C, bit positions and counting loops

    What the model of the interrupt controller uses of the language: arrays
    whose accesses fault outside of the bounds, [for] loops over an interval,
    and the functions of [src/host-qemu/include/qemu/bitops.h] and
    [host-utils.h] on bit fields. *)

From S2P Require Import Prelude.

(** ** Definitions *)

(** [a[i]] *)
Definition aget {A} (a : list A) (i : Z) : res A :=
  if (0 <=? i) && (i <? Z.of_nat (length a)) then of_opt OutOfBounds (a !! Z.to_nat i)
  else Fault OutOfBounds.

(** [a[i] = x] *)
Definition aset {A} (a : list A) (i : Z) (x : A) : res (list A) :=
  if (0 <=? i) && (i <? Z.of_nat (length a)) then Ok (<[Z.to_nat i := x]> a)
  else Fault OutOfBounds.

(** [a[i][j]] *)
Definition aget2 {A} (a : list (list A)) (i j : Z) : res A :=
  row ← aget a i; aget row j.

(** [a[i][j] = x] *)
Definition aset2 {A} (a : list (list A)) (i j : Z) (x : A) : res (list (list A)) :=
  row ← aget a i; row' ← aset row j x; aset a i row'.

(** [for (i = lo; i < lo + n; i++) body] *)
Fixpoint for_up {S} (n : nat) (lo : Z) (body : Z -> S -> res S) (s : S) : res S :=
  match n with
  | O => Ok s
  | Datatypes.S k => s' ← body lo s; for_up k (lo + 1) body s'
  end.

(** [for (i = lo; i < hi; i++) body] *)
Definition cfor {S} (lo hi : Z) (body : Z -> S -> res S) (s : S) : res S :=
  for_up (Z.to_nat (hi - lo)) lo body s.

(** [1 << i] *)
Definition bit (i : Z) : Z := Z.shiftl 1 i.

(** [extract32(value, start, length)] *)
Definition extract32 (value start len : Z) : Z :=
  Z.land (Z.shiftr value start) (Z.ones len).

(** [deposit32(value, start, length, fieldval)] *)
Definition deposit32 (value start len fieldval : Z) : Z :=
  let mask := Z.shiftl (Z.ones len) start in
  Z.lor (Z.land value (u32 (Z.lnot mask))) (Z.land (u32 (Z.shiftl fieldval start)) mask).

(** [ctz32(val)]: the number of zero bits below the lowest one, 32 if there is
    none. *)
Fixpoint ctz_from (n : nat) (i val : Z) : Z :=
  match n with
  | O => i
  | Datatypes.S k => if Z.testbit val i then i else ctz_from k (i + 1) val
  end.
Definition ctz32 (val : Z) : Z := ctz_from 32 0 val.

(** ** Reading and writing within the bounds *)

(** The element at an index within the bounds. *)
Definition at_ {A} `{Inhabited A} (a : list A) (i : Z) : A := a !!! Z.to_nat i.
Notation "a .[ i ]" := (at_ a i) (at level 1, i at level 200, left associativity, format "a .[ i ]") : emu_scope.

Definition upd {A} (a : list A) (i : Z) (x : A) : list A := <[Z.to_nat i := x]> a.
Definition upd2 {A} (a : list (list A)) (i j : Z) (x : A) : list (list A) :=
  upd a i (upd a.[i] j x).

(** An array of [n] elements that satisfy [P]. *)
Definition arr {A} (n : Z) (P : A -> Prop) (a : list A) : Prop :=
  Z.of_nat (length a) = n /\ Forall P a.

Section arrays.
Context {A : Type} `{Inhabited A}.
Implicit Types (a : list A) (P : A -> Prop).

Lemma aget_in n P a i : arr n P a -> 0 <= i < n -> aget a i = Ok a.[i].
Proof.
  intros [Hn _] Hi. unfold aget, at_.
  replace ((0 <=? i) && (i <? Z.of_nat (length a))) with true by (symmetry; lia).
  rewrite list_lookup_lookup_total_lt by lia. done.
Qed.

Lemma aset_in n P a i x : arr n P a -> 0 <= i < n -> aset a i x = Ok (upd a i x).
Proof.
  intros [Hn _] Hi. unfold aset, upd.
  by replace ((0 <=? i) && (i <? Z.of_nat (length a))) with true by (symmetry; lia).
Qed.

Lemma aget_out a i : i < 0 \/ Z.of_nat (length a) <= i -> aget a i = Fault OutOfBounds.
Proof.
  intros Hi. unfold aget.
  by replace ((0 <=? i) && (i <? Z.of_nat (length a))) with false by (symmetry; lia).
Qed.

Lemma arr_at n P a i : arr n P a -> 0 <= i < n -> P a.[i].
Proof.
  intros [Hn HP] Hi. eapply Forall_lookup_1; [exact HP|].
  apply list_lookup_lookup_total_lt. lia.
Qed.

Lemma arr_upd n P a i x : arr n P a -> P x -> arr n P (upd a i x).
Proof.
  intros [Hn HP] Hx. split; [by unfold upd; rewrite length_insert|].
  by apply Forall_insert.
Qed.

Lemma at_upd_eq n P a i x : arr n P a -> 0 <= i < n -> (upd a i x).[i] = x.
Proof. intros [Hn _] Hi. apply list_lookup_total_insert_eq. lia. Qed.

Lemma at_upd_ne a i j x : 0 <= i -> 0 <= j -> i <> j -> (upd a i x).[j] = a.[j].
Proof. intros. apply list_lookup_total_insert_ne. lia. Qed.

Lemma at_upd n P a i j x :
  arr n P a -> 0 <= i < n -> 0 <= j -> (upd a i x).[j] = if i =? j then x else a.[j].
Proof.
  intros Ha Hi Hj. destruct (i =? j) eqn:E; zb.
  - subst. by eapply at_upd_eq.
  - apply at_upd_ne; lia.
Qed.

Lemma arr_repeat n P x : 0 <= n -> P x -> arr n P (replicate (Z.to_nat n) x).
Proof. intros Hn Hx. split; [rewrite length_replicate; lia|by apply Forall_replicate]. Qed.

Lemma at_repeat n i (x : A) : 0 <= i < n -> (replicate (Z.to_nat n) x).[i] = x.
Proof. intros. apply lookup_total_replicate_2. lia. Qed.
End arrays.

Section matrices.
Context {A : Type} `{Inhabited A}.
Implicit Types (a : list (list A)) (P : A -> Prop).

Lemma aget2_in n k P a i j :
  arr n (arr k P) a -> 0 <= i < n -> 0 <= j < k -> aget2 a i j = Ok a.[i].[j].
Proof.
  intros Ha Hi Hj. unfold aget2. rewrite (aget_in _ _ _ _ Ha) by done. cbn.
  by rewrite (aget_in _ _ _ _ (arr_at _ _ _ _ Ha Hi)).
Qed.

Lemma aset2_in n k P a i j x :
  arr n (arr k P) a -> 0 <= i < n -> 0 <= j < k -> aset2 a i j x = Ok (upd2 a i j x).
Proof.
  intros Ha Hi Hj. unfold aset2, upd2. rewrite (aget_in _ _ _ _ Ha) by done. cbn.
  rewrite (aset_in _ _ _ _ _ (arr_at _ _ _ _ Ha Hi)) by done. cbn.
  by rewrite (aset_in _ _ _ _ _ Ha).
Qed.

Lemma arr_upd2 n k P a i j x :
  arr n (arr k P) a -> 0 <= i < n -> P x -> arr n (arr k P) (upd2 a i j x).
Proof. intros Ha Hi Hx. apply arr_upd; [done|]. apply arr_upd; [by eapply arr_at|done]. Qed.

Lemma at_upd2 n k P a i j i' j' x :
  arr n (arr k P) a -> 0 <= i < n -> 0 <= j < k -> 0 <= i' -> 0 <= j' ->
  (upd2 a i j x).[i'].[j'] = if (i =? i') && (j =? j') then x else a.[i'].[j'].
Proof.
  intros Ha Hi Hj Hi' Hj'. unfold upd2. rewrite (at_upd _ _ _ _ _ _ Ha) by lia.
  destruct (i =? i') eqn:E; [|done]. zb. subst. cbn.
  by rewrite (at_upd _ _ _ _ _ _ (arr_at _ _ _ _ Ha Hi)) by lia.
Qed.
End matrices.

(** ** Loops *)

(** The rule of the [for] loop: what the body keeps, the loop keeps; [Q i] is
    what holds before round [i]. *)
Lemma cfor_rule {S} (Q : Z -> S -> Prop) lo hi body s :
  lo <= hi ->
  (forall i s, lo <= i < hi -> Q i s -> exists s', body i s = Ok s' /\ Q (i + 1) s') ->
  Q lo s -> exists s', cfor lo hi body s = Ok s' /\ Q hi s'.
Proof.
  intros Hle Hbody HQ. unfold cfor.
  remember (Z.to_nat (hi - lo)) as n eqn:En.
  revert lo s Hle Hbody HQ En. induction n as [|n IH]; intros lo s Hle Hbody HQ En; cbn.
  - exists s. split; [done|]. by replace hi with lo by lia.
  - destruct (Hbody lo s) as (s1 & -> & HQ1); [lia|done|]. cbn.
    apply IH; [lia| |done|lia]. intros. apply Hbody; [lia|done].
Qed.

Lemma cfor_inv {S} (P : S -> Prop) lo hi body s :
  lo <= hi ->
  (forall i s, lo <= i < hi -> P s -> exists s', body i s = Ok s' /\ P s') ->
  P s -> exists s', cfor lo hi body s = Ok s' /\ P s'.
Proof. intros Hle Hb. by apply (cfor_rule (fun _ => P)). Qed.

Lemma cfor_ext {S} lo hi (b b' : Z -> S -> res S) s :
  (forall i s, lo <= i < hi -> b i s = b' i s) -> cfor lo hi b s = cfor lo hi b' s.
Proof.
  unfold cfor. remember (Z.to_nat (hi - lo)) as n eqn:En. revert lo s En.
  induction n as [|n IH]; intros lo s En Hb; cbn; [done|].
  rewrite Hb by lia. destruct (b' lo s); cbn; [|done].
  apply IH; [lia|]. intros. apply Hb. lia.
Qed.

Lemma cfor_empty {S} lo hi (b : Z -> S -> res S) s : hi <= lo -> cfor lo hi b s = Ok s.
Proof. intros. unfold cfor. by replace (Z.to_nat (hi - lo)) with 0%nat by lia. Qed.

(** ** Bits *)

Lemma bit_pow i : 0 <= i -> bit i = 2 ^ i.
Proof. intros. unfold bit. rewrite Z.shiftl_mul_pow2 by done. lia. Qed.

Lemma testbit_bit i j : 0 <= i -> 0 <= j -> Z.testbit (bit i) j = (i =? j).
Proof. intros. rewrite bit_pow by done. by rewrite Z.pow2_bits_eqb by done. Qed.

Lemma bit_range w i : 0 <= i < w -> in_range w (bit i).
Proof.
  intros. rewrite bit_pow by lia. split; [apply Z.pow_nonneg; lia|].
  apply Z.pow_lt_mono_r; lia.
Qed.

Lemma flag_bit x i : 0 <= i -> flag_set x (bit i) = Z.testbit x i.
Proof.
  intros Hi. rewrite bit_pow by done. unfold flag_set.
  destruct (Z.testbit x i) eqn:E.
  - apply negb_true_iff, Z.eqb_neq. intros H0.
    apply (f_equal (fun z => Z.testbit z i)) in H0.
    rewrite Z.land_spec, Z.pow2_bits_true, E, Z.bits_0 in H0 by done. done.
  - apply negb_false_iff, Z.eqb_eq. apply Z.bits_inj'. intros j Hj.
    rewrite Z.land_spec, Z.bits_0, Z.pow2_bits_eqb by done.
    destruct (i =? j) eqn:Ej; [zb; subst; by rewrite E|apply andb_false_r].
Qed.

Lemma u8_small x : in_range 8 x -> u8 x = x.
Proof. apply wrap_small. Qed.

Lemma testbit_u8 x i : 0 <= i < 8 -> Z.testbit (u8 x) i = Z.testbit x i.
Proof. intros. unfold wrap. apply Z.mod_pow2_bits_low. lia. Qed.

Lemma ctz_from_spec n i val :
  i <= ctz_from n i val <= i + Z.of_nat n /\
  (forall j, i <= j < ctz_from n i val -> Z.testbit val j = false) /\
  (ctz_from n i val < i + Z.of_nat n -> Z.testbit val (ctz_from n i val) = true).
Proof.
  revert i; induction n as [|n IH]; intros i; cbn [ctz_from].
  - repeat split; intros; lia.
  - destruct (Z.testbit val i) eqn:E; [repeat split; intros; (lia || done)|].
    destruct (IH (i + 1)) as (H1 & H2 & H3). repeat split; [lia|lia| |].
    + intros j Hj. destruct (decide (j = i)) as [->|]; [done|]. apply H2. lia.
    + intros. apply H3. lia.
Qed.

(** The lowest bit of a byte that is not zero. *)
Lemma ctz32_byte val : in_range 8 val -> val <> 0 -> 0 <= ctz32 val < 8 /\ Z.testbit val (ctz32 val) = true.
Proof.
  intros Hr Hne. destruct (ctz_from_spec 32 0 val) as (H1 & H2 & H3). fold (ctz32 val) in *.
  assert (Hlt : ctz32 val < 8).
  { destruct (decide (ctz32 val < 8)) as [|Hge]; [done|]. exfalso. apply Hne.
    apply Z.bits_inj'. intros j Hj. rewrite Z.bits_0.
    destruct (decide (j < 8)); [apply H2; lia|].
    apply in_range_bits in Hr; [|lia]. apply Hr. lia. }
  split; [lia|]. apply H3. lia.
Qed.

Lemma extract32_bit v i : 0 <= i -> negb (extract32 v i 1 =? 0) = Z.testbit v i.
Proof.
  intros Hi. unfold extract32.
  rewrite Z.land_ones by lia. change (2 ^ 1) with 2.
  rewrite <- Z.bit0_mod, Z.shiftr_spec by lia. rewrite Z.add_0_l.
  by destruct (Z.testbit v i).
Qed.

Lemma upd_upd {A} (a : list A) i x y : upd (upd a i x) i y = upd a i y.
Proof. apply list_insert_insert_eq. Qed.
