(* ===== verification/Gic.v ===== *)
(** * The interrupt controller

    Model of the ARM generic interrupt controller of the board,
    [src/host-qemu/hw/intc/arm_gic.c] with its state and macros
    ([gic_internal.h], [include/hw/intc/arm_gic_common.h], reset and realize of
    [arm_gic_common.c]) and the way [src/host-qemu/hw/arm/virt.c] configures and
    wires it.  The arrays of the state are lists of their C lengths, and an access
    outside of them is the fault [OutOfBounds].  The lines to the processors,
    [parent_irq] and [parent_fiq], are represented by their levels. *)

From S2P Require Import Prelude CArray.

(** ** Constants *)

Definition GIC_MAXIRQ : Z := 1020.
Definition GIC_INTERNAL : Z := 32.
Definition GIC_NR_SGIS : Z := 16.
Definition GIC_NCPU : Z := 8.
Definition GIC_NR_APRS : Z := 4.
Definition GIC_MIN_BPR : Z := 0.
Definition GIC_MIN_ABPR : Z := 1.
Definition ALL_CPU_MASK : Z := 255.

Definition GICD_CTLR_EN_GRP0 : Z := 1.
Definition GICD_CTLR_EN_GRP1 : Z := 2.
Definition GICC_CTLR_EN_GRP0 : Z := 1.
Definition GICC_CTLR_EN_GRP1 : Z := 2.
Definition GICC_CTLR_ACK_CTL : Z := 4.
Definition GICC_CTLR_FIQ_EN : Z := 8.
Definition GICC_CTLR_EOIMODE_NS : Z := 1024.
Definition GICC_CTLR_V1_MASK : Z := 0x1.
Definition GICC_CTLR_V1_S_MASK : Z := 0x1f.
Definition GICC_CTLR_V2_MASK : Z := 0x21f.
Definition GICC_CTLR_V2_S_MASK : Z := 0x61f.

Definition REV_11MPCORE : Z := 0.
Definition REV_NVIC : Z := 0xffffffff.

Definition gic_id : list Z := [0x90; 0x13; 0x04; 0x00; 0x0d; 0xf0; 0x05; 0xb1].

(** ** State *)

Record gic_irq_state : Type := mkIrqState {
  enabled : Z;
  pending : Z;
  active : Z;
  level : Z;
  model : bool;
  edge_trigger : bool;
  group : Z
}.

#[global] Instance gic_irq_state_inhabited : Inhabited gic_irq_state :=
  populate (mkIrqState 0 0 0 0 false false 0).

Record GICState : Type := mkGIC {
  parent_irq : list bool;
  parent_fiq : list bool;
  ctlr : Z;
  cpu_ctlr : list Z;
  irq_state : list gic_irq_state;
  irq_target : list Z;
  priority1 : list (list Z);
  priority2 : list Z;
  last_active : list (list Z);
  sgi_pending : list (list Z);
  priority_mask : list Z;
  running_irq : list Z;
  running_priority : list Z;
  current_pending : list Z;
  bpr : list Z;
  abpr : list Z;
  apr : list (list Z);
  num_cpu : Z;
  num_irq : Z;
  revision : Z;
  security_extn : bool
}.

(** [MemTxAttrs], of which the controller reads [secure], and [MemTxResult]. *)
Record MemTxAttrs : Type := mkAttrs { secure : bool }.
Inductive MemTxResult : Type := MEMTX_OK | MEMTX_ERROR.

(** ** The macros of [gic_internal.h] *)

Section macros.
Variable s : GICState.

Definition GIC_BASE_IRQ : Z := if revision s =? REV_NVIC then 32 else 0.

(** [s->irq_state[irq].f = ...] *)
Definition mod_irq (irq : Z) (f : gic_irq_state -> gic_irq_state) : res GICState :=
  st ← aget (irq_state s) irq;
  a ← aset (irq_state s) irq (f st);
  Ok {| s with irq_state := a |}.

Definition GIC_SET_ENABLED (irq cm : Z) : res GICState :=
  mod_irq irq (fun st => {| st with enabled := u8 (Z.lor (enabled st) cm) |}).
Definition GIC_CLEAR_ENABLED (irq cm : Z) : res GICState :=
  mod_irq irq (fun st => {| st with enabled := u8 (Z.land (enabled st) (Z.lnot cm)) |}).
Definition GIC_TEST_ENABLED (irq cm : Z) : res bool :=
  st ← aget (irq_state s) irq; Ok (flag_set (enabled st) cm).
Definition GIC_SET_PENDING (irq cm : Z) : res GICState :=
  mod_irq irq (fun st => {| st with pending := u8 (Z.lor (pending st) cm) |}).
Definition GIC_CLEAR_PENDING (irq cm : Z) : res GICState :=
  mod_irq irq (fun st => {| st with pending := u8 (Z.land (pending st) (Z.lnot cm)) |}).
Definition GIC_TEST_ACTIVE (irq cm : Z) : res bool :=
  st ← aget (irq_state s) irq; Ok (flag_set (active st) cm).
Definition GIC_SET_MODEL (irq : Z) : res GICState :=
  mod_irq irq (fun st => {| st with model := true |}).
Definition GIC_CLEAR_MODEL (irq : Z) : res GICState :=
  mod_irq irq (fun st => {| st with model := false |}).
Definition GIC_TEST_MODEL (irq : Z) : res bool :=
  st ← aget (irq_state s) irq; Ok (model st).
Definition GIC_SET_LEVEL (irq cm : Z) : res GICState :=
  mod_irq irq (fun st => {| st with level := u8 (Z.lor (level st) cm) |}).
Definition GIC_CLEAR_LEVEL (irq cm : Z) : res GICState :=
  mod_irq irq (fun st => {| st with level := u8 (Z.land (level st) (Z.lnot cm)) |}).
Definition GIC_TEST_LEVEL (irq cm : Z) : res bool :=
  st ← aget (irq_state s) irq; Ok (flag_set (level st) cm).
Definition GIC_SET_EDGE_TRIGGER (irq : Z) : res GICState :=
  mod_irq irq (fun st => {| st with edge_trigger := true |}).
Definition GIC_CLEAR_EDGE_TRIGGER (irq : Z) : res GICState :=
  mod_irq irq (fun st => {| st with edge_trigger := false |}).
Definition GIC_TEST_EDGE_TRIGGER (irq : Z) : res bool :=
  st ← aget (irq_state s) irq; Ok (edge_trigger st).
Definition GIC_GET_PRIORITY (irq cpu : Z) : res Z :=
  if irq <? GIC_INTERNAL then aget2 (priority1 s) irq cpu
  else aget (priority2 s) (irq - GIC_INTERNAL).
Definition GIC_TARGET (irq : Z) : res Z := aget (irq_target s) irq.
Definition GIC_CLEAR_GROUP (irq cm : Z) : res GICState :=
  mod_irq irq (fun st => {| st with group := u8 (Z.land (group st) (Z.lnot cm)) |}).
Definition GIC_SET_GROUP (irq cm : Z) : res GICState :=
  mod_irq irq (fun st => {| st with group := u8 (Z.lor (group st) cm) |}).
Definition GIC_TEST_GROUP (irq cm : Z) : res bool :=
  st ← aget (irq_state s) irq; Ok (flag_set (group st) cm).

(** [revision == REV_11MPCORE || revision == REV_NVIC] *)
Definition is_11mpcore : bool := (revision s =? REV_11MPCORE) || (revision s =? REV_NVIC).

(** [gic_test_pending(s, irq, cm)] *)
Definition gic_test_pending (irq cm : Z) : res bool :=
  if is_11mpcore then
    st ← aget (irq_state s) irq; Ok (flag_set (pending st) cm)
  else
    st ← aget (irq_state s) irq;
    edge ← GIC_TEST_EDGE_TRIGGER irq;
    lvl ← GIC_TEST_LEVEL irq cm;
    Ok (flag_set (pending st) cm || (negb edge && lvl)).

(** [gic_has_groups(s)] *)
Definition gic_has_groups : bool := (revision s =? 2) || security_extn s.

(** A non-secure access to a controller with the security extensions. *)
Definition ns_access (attrs : MemTxAttrs) : bool := security_extn s && negb (secure attrs).

(** [gic_get_current_cpu(s)]; [current_cpu] is the index of the processor that
    makes the access. *)
Definition gic_get_current_cpu (current_cpu : Z) : Z :=
  if num_cpu s >? 1 then current_cpu else 0.
End macros.

(** ** The choice of the interrupt to signal *)

(** One round of the inner loop of [gic_update] over the interrupts; the
    accumulator is [(best_irq, best_prio)]. *)
Definition best_round (s : GICState) (cpu irq : Z) (best : Z * Z) : res (Z * Z) :=
  let cm := bit cpu in
  en ← GIC_TEST_ENABLED s irq cm;
  if negb en then Ok best else
  pd ← gic_test_pending s irq cm;
  if negb pd then Ok best else
  tg ← (if irq <? GIC_INTERNAL then Ok true
        else t ← GIC_TARGET s irq; Ok (flag_set t cm));
  if negb tg then Ok best else
  prio ← GIC_GET_PRIORITY s irq cpu;
  Ok (if prio <? best.2 then (irq, prio) else best).

(** [qemu_set_irq] on the two lines of a processor. *)
Definition set_lines (s : GICState) (cpu : Z) (irq_level fiq_level : bool) : res GICState :=
  i ← aset (parent_irq s) cpu irq_level;
  f ← aset (parent_fiq s) cpu fiq_level;
  Ok {| {| s with parent_irq := i |} with parent_fiq := f |}.

Definition set_current_pending (s : GICState) (cpu irq : Z) : res GICState :=
  a ← aset (current_pending s) cpu irq;
  Ok {| s with current_pending := a |}.

(** The body of the loop of [gic_update] over the processors. *)
Definition gic_update_cpu (cpu : Z) (s : GICState) : res GICState :=
  let cm := bit cpu in
  s ← set_current_pending s cpu 1023;
  cc ← aget (cpu_ctlr s) cpu;
  if negb (flag_set (ctlr s) (Z.lor GICD_CTLR_EN_GRP0 GICD_CTLR_EN_GRP1))
     || negb (flag_set cc (Z.lor GICC_CTLR_EN_GRP0 GICC_CTLR_EN_GRP1))
  then set_lines s cpu false false
  else
    best ← cfor 0 (num_irq s) (best_round s cpu) (1023, 0x100);
    let '(best_irq, best_prio) := best in
    pm ← aget (priority_mask s) cpu;
    if best_prio <? pm then
      s ← set_current_pending s cpu best_irq;
      rp ← aget (running_priority s) cpu;
      if best_prio <? rp then
        grp ← GIC_TEST_GROUP s best_irq cm;
        let g := if grp : bool then 1 else 0 in
        if negb (extract32 (ctlr s) g 1 =? 0) && negb (extract32 cc g 1 =? 0) then
          if (g =? 0) && flag_set cc GICC_CTLR_FIQ_EN then set_lines s cpu false true
          else set_lines s cpu true false
        else set_lines s cpu false false
      else set_lines s cpu false false
    else set_lines s cpu false false.

(** [void gic_update(s)] *)
Definition gic_update (s : GICState) : res GICState :=
  cfor 0 (num_cpu s) gic_update_cpu s.

(** [void gic_set_pending_private(s, cpu, irq)] *)
Definition gic_set_pending_private (s : GICState) (cpu irq : Z) : res GICState :=
  let cm := bit cpu in
  p ← gic_test_pending s irq cm;
  if (p : bool) then Ok s else
  s ← GIC_SET_PENDING s irq cm;
  gic_update s.

(** ** Input lines *)

Definition gic_set_irq_11mpcore (s : GICState) (irq lvl cm target : Z) : res GICState :=
  if negb (lvl =? 0) then
    s ← GIC_SET_LEVEL s irq cm;
    edge ← GIC_TEST_EDGE_TRIGGER s irq;
    en ← GIC_TEST_ENABLED s irq cm;
    if edge || en then GIC_SET_PENDING s irq target else Ok s
  else GIC_CLEAR_LEVEL s irq cm.

Definition gic_set_irq_generic (s : GICState) (irq lvl cm target : Z) : res GICState :=
  if negb (lvl =? 0) then
    s ← GIC_SET_LEVEL s irq cm;
    edge ← GIC_TEST_EDGE_TRIGGER s irq;
    if (edge : bool) then GIC_SET_PENDING s irq target else Ok s
  else GIC_CLEAR_LEVEL s irq cm.

(** The interrupt, the processors and the targets an input line stands for:
    the first part of [gic_set_irq]. *)
Definition decode_line (s : GICState) (irq : Z) : res (Z * Z * Z) :=
  if irq <? num_irq s - GIC_INTERNAL then
    let irq := irq + GIC_INTERNAL in
    target ← GIC_TARGET s irq;
    Ok (irq, ALL_CPU_MASK, target)
  else
    let irq := irq - (num_irq s - GIC_INTERNAL) in
    let cpu := Z.quot irq GIC_INTERNAL in
    let irq := Z.rem irq GIC_INTERNAL in
    Ok (irq, bit cpu, bit cpu).

(** [static void gic_set_irq(opaque, irq, level)] *)
Definition gic_set_irq (s : GICState) (irq lvl : Z) : res GICState :=
  d ← decode_line s irq;
  let '(irq, cm, target) := d in
  if irq <? GIC_NR_SGIS then Fault AssertFailed else
  old ← GIC_TEST_LEVEL s irq cm;
  if lvl =? (if old : bool then 1 else 0) then Ok s else
  s ← (if is_11mpcore s then gic_set_irq_11mpcore s irq lvl cm target
       else gic_set_irq_generic s irq lvl cm target);
  gic_update s.

(** ** The interface of a processor *)

(** [gic_get_current_pending_irq(s, cpu, attrs)] *)
Definition gic_get_current_pending_irq (s : GICState) (cpu : Z) (attrs : MemTxAttrs) : res Z :=
  pending_irq ← aget (current_pending s) cpu;
  if (pending_irq <? GIC_MAXIRQ) && gic_has_groups s then
    grp ← GIC_TEST_GROUP s pending_irq (bit cpu);
    let sec := negb (security_extn s) || secure attrs in
    if negb grp && negb sec then Ok 1023 else
    cc ← aget (cpu_ctlr s) cpu;
    if grp && sec && negb (flag_set cc GICC_CTLR_ACK_CTL) then Ok 1022
    else Ok pending_irq
  else Ok pending_irq.

(** [gic_set_running_irq(s, cpu, irq)] *)
Definition gic_set_running_irq (s : GICState) (cpu irq : Z) : res GICState :=
  ri ← aset (running_irq s) cpu irq;
  let s := {| s with running_irq := ri |} in
  prio ← (if irq =? 1023 then Ok 0x100 else GIC_GET_PRIORITY s irq cpu);
  rp ← aset (running_priority s) cpu prio;
  gic_update {| s with running_priority := rp |}.

(** [GIC_CLEAR_PENDING(irq, GIC_TEST_MODEL(irq) ? ALL_CPU_MASK : cm)] *)
Definition clear_pending_model (s : GICState) (irq cm : Z) : res GICState :=
  m ← GIC_TEST_MODEL s irq;
  GIC_CLEAR_PENDING s irq (if m : bool then ALL_CPU_MASK else cm).

(** [uint32_t gic_acknowledge_irq(s, cpu, attrs)] *)
Definition gic_acknowledge_irq (s : GICState) (cpu : Z) (attrs : MemTxAttrs) : res (Z * GICState) :=
  let cm := bit cpu in
  irq ← gic_get_current_pending_irq s cpu attrs;
  if irq >=? GIC_MAXIRQ then Ok (irq, s) else
  prio ← GIC_GET_PRIORITY s irq cpu;
  rp ← aget (running_priority s) cpu;
  if prio >=? rp then Ok (1023, s) else
  ri ← aget (running_irq s) cpu;
  la ← aset2 (last_active s) irq cpu ri;
  let s := {| s with last_active := la |} in
  r ← (if is_11mpcore s then
         s ← clear_pending_model s irq cm; Ok (irq, s)
       else if irq <? GIC_NR_SGIS then
         sp ← aget2 (sgi_pending s) irq cpu;
         if sp =? 0 then Fault AssertFailed else
         let src := ctz32 sp in
         let sp := u8 (Z.land sp (Z.lnot (bit src))) in
         a ← aset2 (sgi_pending s) irq cpu sp;
         let s := {| s with sgi_pending := a |} in
         s ← (if sp =? 0 then clear_pending_model s irq cm else Ok s);
         Ok (Z.lor irq (Z.shiftl (Z.land src 0x7) 10), s)
       else
         s ← clear_pending_model s irq cm; Ok (irq, s));
  let '(ret, s) := r in
  s ← gic_set_running_irq s cpu irq;
  Ok (ret, s).

(** [void gic_set_priority(s, cpu, irq, val, attrs)] *)
Definition gic_set_priority (s : GICState) (cpu irq val : Z) (attrs : MemTxAttrs) : res GICState :=
  grp ← (if ns_access s attrs then GIC_TEST_GROUP s irq (bit cpu) else Ok true);
  if negb grp then Ok s else
  let val := if ns_access s attrs then Z.lor 0x80 (Z.shiftr val 1) else val in
  if irq <? GIC_INTERNAL then
    a ← aset2 (priority1 s) irq cpu val; Ok {| s with priority1 := a |}
  else
    a ← aset (priority2 s) (irq - GIC_INTERNAL) val; Ok {| s with priority2 := a |}.

(** [gic_get_priority(s, cpu, irq, attrs)] *)
Definition gic_get_priority (s : GICState) (cpu irq : Z) (attrs : MemTxAttrs) : res Z :=
  prio ← GIC_GET_PRIORITY s irq cpu;
  if ns_access s attrs then
    grp ← GIC_TEST_GROUP s irq (bit cpu);
    if negb grp then Ok 0 else Ok (Z.land (Z.shiftl prio 1) 0xff)
  else Ok prio.

(** [gic_set_priority_mask(s, cpu, pmask, attrs)] *)
Definition gic_set_priority_mask (s : GICState) (cpu pmask : Z) (attrs : MemTxAttrs) : res GICState :=
  old ← aget (priority_mask s) cpu;
  if ns_access s attrs && negb (flag_set old 0x80) then Ok s else
  let pmask := if ns_access s attrs then Z.lor 0x80 (Z.shiftr pmask 1) else pmask in
  a ← aset (priority_mask s) cpu pmask;
  Ok {| s with priority_mask := a |}.

(** [gic_get_priority_mask(s, cpu, attrs)] *)
Definition gic_get_priority_mask (s : GICState) (cpu : Z) (attrs : MemTxAttrs) : res Z :=
  pmask ← aget (priority_mask s) cpu;
  Ok (if ns_access s attrs then
        if flag_set pmask 0x80 then Z.land (Z.shiftl pmask 1) 0xff else 0
      else pmask).

(** [gic_get_cpu_control(s, cpu, attrs)] *)
Definition gic_get_cpu_control (s : GICState) (cpu : Z) (attrs : MemTxAttrs) : res Z :=
  ret ← aget (cpu_ctlr s) cpu;
  Ok (if ns_access s attrs then
        Z.shiftr (Z.land ret (Z.lor GICC_CTLR_EN_GRP1 GICC_CTLR_EOIMODE_NS)) 1
      else ret).

(** [gic_set_cpu_control(s, cpu, value, attrs)] *)
Definition gic_set_cpu_control (s : GICState) (cpu value : Z) (attrs : MemTxAttrs) : res GICState :=
  old ← aget (cpu_ctlr s) cpu;
  let new :=
    if ns_access s attrs then
      let mask := if revision s =? 2 then Z.lor GICC_CTLR_EN_GRP1 GICC_CTLR_EOIMODE_NS
                  else GICC_CTLR_EN_GRP1 in
      Z.lor (Z.land old (u32 (Z.lnot mask))) (Z.land (u32 (Z.shiftl value 1)) mask)
    else
      let mask := if revision s =? 2
                  then if security_extn s then GICC_CTLR_V2_S_MASK else GICC_CTLR_V2_MASK
                  else if security_extn s then GICC_CTLR_V1_S_MASK else GICC_CTLR_V1_MASK in
      Z.land value mask in
  a ← aset (cpu_ctlr s) cpu new;
  Ok {| s with cpu_ctlr := a |}.

(** [uint8_t gic_get_running_priority(s, cpu, attrs)] *)
Definition gic_get_running_priority (s : GICState) (cpu : Z) (attrs : MemTxAttrs) : res Z :=
  rp ← aget (running_priority s) cpu;
  Ok (if ns_access s attrs then
        if flag_set rp 0x80 then u8 (Z.shiftl rp 1) else 0
      else u8 rp).

(** The loop of [gic_complete_irq] that takes an interrupt which is not the
    running one out of the chain of active interrupts. *)
Fixpoint complete_loop (fuel : nat) (s : GICState) (cpu irq tmp : Z) : res GICState :=
  match fuel with
  | O => Fault OutOfFuel
  | S fuel =>
      next ← aget2 (last_active s) tmp cpu;
      if next =? 1023 then Ok s
      else if next =? irq then
        after ← aget2 (last_active s) irq cpu;
        la ← aset2 (last_active s) tmp cpu after;
        Ok {| s with last_active := la |}
      else complete_loop fuel s cpu irq next
  end.

(** The chain visits an interrupt once, so it has at most [GIC_MAXIRQ] links. *)
Definition chain_fuel : nat := Z.to_nat GIC_MAXIRQ.

(** [void gic_complete_irq(s, cpu, irq, attrs)] *)
Definition gic_complete_irq (s : GICState) (cpu irq : Z) (attrs : MemTxAttrs) : res GICState :=
  let cm := bit cpu in
  if irq >=? num_irq s then Ok s else
  running ← aget (running_irq s) cpu;
  if running =? 1023 then Ok s else
  r ← (if is_11mpcore s then
         edge ← GIC_TEST_EDGE_TRIGGER s irq;
         en ← GIC_TEST_ENABLED s irq cm;
         lvl ← GIC_TEST_LEVEL s irq cm;
         t ← GIC_TARGET s irq;
         if negb edge && en && lvl && flag_set t cm then
           s ← GIC_SET_PENDING s irq cm; Ok (s, true)
         else Ok (s, false)
       else Ok (s, false));
  let '(s, update) := r in
  grp ← GIC_TEST_GROUP s irq cm;
  if ns_access s attrs && negb grp then Ok s else
  if negb (irq =? running) then
    s ← complete_loop chain_fuel s cpu irq running;
    if update : bool then gic_update s else Ok s
  else
    next ← aget2 (last_active s) running cpu;
    gic_set_running_irq s cpu next.

(** ** The registers of the distributor *)

(** The loops that read one bit per interrupt: bit [i] of the result is
    [test i]. *)
Definition read_bits (test : Z -> res bool) : res Z :=
  cfor 0 8 (fun i r => b ← test i; Ok (if b : bool then Z.lor r (bit i) else r)) 0.

(** [static uint32_t gic_dist_readb(opaque, offset, attrs)]; at [bad_reg] the
    function logs the access and returns 0. *)
Definition gic_dist_readb (s : GICState) (current_cpu offset : Z) (attrs : MemTxAttrs) : res Z :=
  let cpu := gic_get_current_cpu s current_cpu in
  let cm := bit cpu in
  let bad_reg := Ok 0 in
  if offset <? 0x100 then
    if offset =? 0 then
      Ok (if ns_access s attrs then extract32 (ctlr s) 1 1 else ctlr s)
    else if offset =? 4 then
      Ok (Z.lor (Z.lor (u32 (num_irq s / 32 - 1)) (u32 (Z.shiftl (u32 (num_cpu s - 1)) 5)))
                (Z.shiftl (if security_extn s then 1 else 0) 10))
    else if offset <? 0x08 then Ok 0
    else if offset >=? 0x80 then
      if negb (ns_access s attrs) && gic_has_groups s then
        let irq := (offset - 0x80) * 8 + GIC_BASE_IRQ s in
        if irq >=? num_irq s then bad_reg
        else read_bits (fun i => GIC_TEST_GROUP s (irq + i) cm)
      else Ok 0
    else bad_reg
  else if offset <? 0x200 then
    let irq := (if offset <? 0x180 then offset - 0x100 else offset - 0x180) * 8 + GIC_BASE_IRQ s in
    if irq >=? num_irq s then bad_reg
    else read_bits (fun i => GIC_TEST_ENABLED s (irq + i) cm)
  else if offset <? 0x300 then
    let irq := (if offset <? 0x280 then offset - 0x200 else offset - 0x280) * 8 + GIC_BASE_IRQ s in
    if irq >=? num_irq s then bad_reg
    else
      let mask := if irq <? GIC_INTERNAL then cm else ALL_CPU_MASK in
      read_bits (fun i => gic_test_pending s (irq + i) mask)
  else if offset <? 0x400 then
    let irq := (offset - 0x300) * 8 + GIC_BASE_IRQ s in
    if irq >=? num_irq s then bad_reg
    else
      let mask := if irq <? GIC_INTERNAL then cm else ALL_CPU_MASK in
      read_bits (fun i => GIC_TEST_ACTIVE s (irq + i) mask)
  else if offset <? 0x800 then
    let irq := (offset - 0x400) + GIC_BASE_IRQ s in
    if irq >=? num_irq s then bad_reg else gic_get_priority s cpu irq attrs
  else if offset <? 0xc00 then
    if (num_cpu s =? 1) && negb (revision s =? REV_11MPCORE) then Ok 0
    else
      let irq := (offset - 0x800) + GIC_BASE_IRQ s in
      if irq >=? num_irq s then bad_reg
      else if (irq >=? 29) && (irq <=? 31) then Ok cm
      else GIC_TARGET s irq
  else if offset <? 0xf00 then
    let irq := (offset - 0xc00) * 4 + GIC_BASE_IRQ s in
    if irq >=? num_irq s then bad_reg
    else
      cfor 0 4 (fun i r =>
        m ← GIC_TEST_MODEL s (irq + i);
        let r := if m : bool then Z.lor r (Z.shiftl 1 (i * 2)) else r in
        e ← GIC_TEST_EDGE_TRIGGER s (irq + i);
        Ok (if e : bool then Z.lor r (Z.shiftl 2 (i * 2)) else r)) 0
  else if offset <? 0xf10 then bad_reg
  else if offset <? 0xf30 then
    if is_11mpcore s then bad_reg
    else
      let irq := if offset <? 0xf20 then offset - 0xf10 else offset - 0xf20 in
      aget2 (sgi_pending s) irq cpu
  else if offset <? 0xfe0 then bad_reg
  else if flag_set offset 3 then Ok 0
  else aget gic_id (Z.shiftr (offset - 0xfe0) 2).

(** [gic_dist_read(opaque, offset, &data, size, attrs)]; [None] where [data] is
    not assigned. *)
Definition gic_dist_read (s : GICState) (current_cpu offset size : Z) (attrs : MemTxAttrs)
  : res (option Z * MemTxResult) :=
  let rd o := gic_dist_readb s current_cpu o attrs in
  if size =? 1 then d ← rd offset; Ok (Some d, MEMTX_OK)
  else if size =? 2 then
    d0 ← rd offset; d1 ← rd (offset + 1);
    Ok (Some (Z.lor d0 (u32 (Z.shiftl d1 8))), MEMTX_OK)
  else if size =? 4 then
    d0 ← rd offset; d1 ← rd (offset + 1); d2 ← rd (offset + 2); d3 ← rd (offset + 3);
    Ok (Some (Z.lor (Z.lor (Z.lor d0 (u32 (Z.shiftl d1 8))) (u32 (Z.shiftl d2 16)))
                    (u32 (Z.shiftl d3 24))), MEMTX_OK)
  else Ok (None, MEMTX_ERROR).

(** The loops of [gic_dist_writeb], one round each; [irq] is the first
    interrupt of the register, [value] the byte written. *)
Definition group_round (cpu irq value i : Z) (s : GICState) : res GICState :=
  let cm := if irq <? GIC_INTERNAL then bit cpu else ALL_CPU_MASK in
  if flag_set value (bit i) then GIC_SET_GROUP s (irq + i) cm
  else GIC_CLEAR_GROUP s (irq + i) cm.

Definition enable_round (cpu irq value i : Z) (s : GICState) : res GICState :=
  if flag_set value (bit i) then
    mask ← (if irq <? GIC_INTERNAL then Ok (bit cpu) else GIC_TARGET s (irq + i));
    let cm := if irq <? GIC_INTERNAL then bit cpu else ALL_CPU_MASK in
    s ← GIC_SET_ENABLED s (irq + i) cm;
    lvl ← GIC_TEST_LEVEL s (irq + i) mask;
    edge ← GIC_TEST_EDGE_TRIGGER s (irq + i);
    if lvl && negb edge then GIC_SET_PENDING s (irq + i) mask else Ok s
  else Ok s.

Definition disable_round (cpu irq value i : Z) (s : GICState) : res GICState :=
  if flag_set value (bit i) then
    let cm := if irq <? GIC_INTERNAL then bit cpu else ALL_CPU_MASK in
    GIC_CLEAR_ENABLED s (irq + i) cm
  else Ok s.

Definition set_pending_round (irq value i : Z) (s : GICState) : res GICState :=
  if flag_set value (bit i) then
    t ← GIC_TARGET s (irq + i);
    GIC_SET_PENDING s (irq + i) t
  else Ok s.

Definition clear_pending_round (irq value i : Z) (s : GICState) : res GICState :=
  if flag_set value (bit i) then GIC_CLEAR_PENDING s (irq + i) ALL_CPU_MASK else Ok s.

Definition config_round (irq value i : Z) (s : GICState) : res GICState :=
  s ← (if is_11mpcore s then
         if flag_set value (Z.shiftl 1 (i * 2)) then GIC_SET_MODEL s (irq + i)
         else GIC_CLEAR_MODEL s (irq + i)
       else Ok s);
  if flag_set value (Z.shiftl 2 (i * 2)) then GIC_SET_EDGE_TRIGGER s (irq + i)
  else GIC_CLEAR_EDGE_TRIGGER s (irq + i).

(** What [gic_dist_writeb] does before the final [gic_update]; [None] is the
    jump to [bad_reg], where the access is logged and nothing happens. *)
Definition dist_writeb_body (s : GICState) (cpu offset value : Z) (attrs : MemTxAttrs)
  : res (option GICState) :=
  let bad_reg := Ok None in
  if offset <? 0x100 then
    if offset =? 0 then
      Ok (Some (if ns_access s attrs then {| s with ctlr := deposit32 (ctlr s) 1 1 value |}
                else if gic_has_groups s then
                  {| s with ctlr := Z.land value (Z.lor GICD_CTLR_EN_GRP0 GICD_CTLR_EN_GRP1) |}
                else {| s with ctlr := Z.land value GICD_CTLR_EN_GRP0 |}))
    else if offset <? 4 then Ok (Some s)
    else if offset >=? 0x80 then
      if negb (ns_access s attrs) && gic_has_groups s then
        let irq := (offset - 0x80) * 8 + GIC_BASE_IRQ s in
        if irq >=? num_irq s then bad_reg
        else Some <$> cfor 0 8 (group_round cpu irq value) s
      else Ok (Some s)
    else bad_reg
  else if offset <? 0x180 then
    let irq := (offset - 0x100) * 8 + GIC_BASE_IRQ s in
    if irq >=? num_irq s then bad_reg
    else
      let value := if irq <? GIC_NR_SGIS then 0xff else value in
      Some <$> cfor 0 8 (enable_round cpu irq value) s
  else if offset <? 0x200 then
    let irq := (offset - 0x180) * 8 + GIC_BASE_IRQ s in
    if irq >=? num_irq s then bad_reg
    else
      let value := if irq <? GIC_NR_SGIS then 0 else value in
      Some <$> cfor 0 8 (disable_round cpu irq value) s
  else if offset <? 0x280 then
    let irq := (offset - 0x200) * 8 + GIC_BASE_IRQ s in
    if irq >=? num_irq s then bad_reg
    else
      let value := if irq <? GIC_NR_SGIS then 0 else value in
      Some <$> cfor 0 8 (set_pending_round irq value) s
  else if offset <? 0x300 then
    let irq := (offset - 0x280) * 8 + GIC_BASE_IRQ s in
    if irq >=? num_irq s then bad_reg
    else
      let value := if irq <? GIC_NR_SGIS then 0 else value in
      Some <$> cfor 0 8 (clear_pending_round irq value) s
  else if offset <? 0x400 then bad_reg
  else if offset <? 0x800 then
    let irq := (offset - 0x400) + GIC_BASE_IRQ s in
    if irq >=? num_irq s then bad_reg
    else Some <$> gic_set_priority s cpu irq (u8 value) attrs
  else if offset <? 0xc00 then
    if negb (num_cpu s =? 1) || (revision s =? REV_11MPCORE) then
      let irq := (offset - 0x800) + GIC_BASE_IRQ s in
      if irq >=? num_irq s then bad_reg
      else
        let value := if irq <? 29 then 0 else if irq <? GIC_INTERNAL then ALL_CPU_MASK else value in
        a ← aset (irq_target s) irq (Z.land value ALL_CPU_MASK);
        Ok (Some {| s with irq_target := a |})
    else Ok (Some s)
  else if offset <? 0xf00 then
    let irq := (offset - 0xc00) * 4 + GIC_BASE_IRQ s in
    if irq >=? num_irq s then bad_reg
    else
      let value := if irq <? GIC_NR_SGIS then Z.lor value 0xaa else value in
      Some <$> cfor 0 4 (config_round irq value) s
  else if offset <? 0xf10 then bad_reg
  else if offset <? 0xf20 then
    if is_11mpcore s then bad_reg
    else
      let irq := offset - 0xf10 in
      sp ← aget2 (sgi_pending s) irq cpu;
      let sp := u8 (Z.land sp (Z.lnot value)) in
      a ← aset2 (sgi_pending s) irq cpu sp;
      let s := {| s with sgi_pending := a |} in
      if sp =? 0 then Some <$> GIC_CLEAR_PENDING s irq (bit cpu) else Ok (Some s)
  else if offset <? 0xf30 then
    if is_11mpcore s then bad_reg
    else
      let irq := offset - 0xf20 in
      s ← GIC_SET_PENDING s irq (bit cpu);
      sp ← aget2 (sgi_pending s) irq cpu;
      a ← aset2 (sgi_pending s) irq cpu (u8 (Z.lor sp value));
      Ok (Some {| s with sgi_pending := a |})
  else bad_reg.

(** [static void gic_dist_writeb(opaque, offset, value, attrs)] *)
Definition gic_dist_writeb (s : GICState) (current_cpu offset value : Z) (attrs : MemTxAttrs)
  : res GICState :=
  let cpu := gic_get_current_cpu s current_cpu in
  r ← dist_writeb_body s cpu offset value attrs;
  match r with
  | Some s' => gic_update s'
  | None => Ok s
  end.

(** [static void gic_dist_writew(opaque, offset, value, attrs)] *)
Definition gic_dist_writew (s : GICState) (current_cpu offset value : Z) (attrs : MemTxAttrs)
  : res GICState :=
  s ← gic_dist_writeb s current_cpu offset (Z.land value 0xff) attrs;
  gic_dist_writeb s current_cpu (offset + 1) (Z.shiftr value 8) attrs.

(** The processors a write to the software interrupt register names. *)
Definition sgi_mask (cpu value : Z) : Z :=
  let f := Z.land (Z.shiftr value 24) 3 in
  if f =? 0 then Z.land (Z.shiftr value 16) ALL_CPU_MASK
  else if f =? 1 then Z.lxor ALL_CPU_MASK (bit cpu)
  else if f =? 2 then bit cpu
  else ALL_CPU_MASK.

(** The loop that records the sender with each target: [target_cpu] runs
    through the bits of [mask]; every round clears one of its eight bits. *)
Fixpoint sgi_loop (fuel : nat) (s : GICState) (cpu irq mask : Z) : res GICState :=
  match fuel with
  | O => Fault OutOfFuel
  | S fuel =>
      let target_cpu := ctz32 mask in
      if target_cpu <? GIC_NCPU then
        sp ← aget2 (sgi_pending s) irq target_cpu;
        a ← aset2 (sgi_pending s) irq target_cpu (u8 (Z.lor sp (bit cpu)));
        sgi_loop fuel {| s with sgi_pending := a |} cpu irq (Z.land mask (Z.lnot (bit target_cpu)))
      else Ok s
  end.

(** [static void gic_dist_writel(opaque, offset, value, attrs)] *)
Definition gic_dist_writel (s : GICState) (current_cpu offset value : Z) (attrs : MemTxAttrs)
  : res GICState :=
  if offset =? 0xf00 then
    let cpu := gic_get_current_cpu s current_cpu in
    let irq := Z.land value 0x3ff in
    let mask := sgi_mask cpu value in
    s ← GIC_SET_PENDING s irq mask;
    s ← sgi_loop 9 s cpu irq mask;
    gic_update s
  else
    s ← gic_dist_writew s current_cpu offset (Z.land value 0xffff) attrs;
    gic_dist_writew s current_cpu (offset + 2) (Z.shiftr value 16) attrs.

(** [gic_dist_write(opaque, offset, data, size, attrs)] *)
Definition gic_dist_write (s : GICState) (current_cpu offset data size : Z) (attrs : MemTxAttrs)
  : res (GICState * MemTxResult) :=
  let value := u32 data in
  if size =? 1 then s ← gic_dist_writeb s current_cpu offset value attrs; Ok (s, MEMTX_OK)
  else if size =? 2 then s ← gic_dist_writew s current_cpu offset value attrs; Ok (s, MEMTX_OK)
  else if size =? 4 then s ← gic_dist_writel s current_cpu offset value attrs; Ok (s, MEMTX_OK)
  else Ok (s, MEMTX_ERROR).

(** ** The registers of the interface of a processor *)

(** [gic_cpu_read(s, cpu, offset, &data, attrs)]: the value ([None] where
    [data] is not assigned), the result and the state, which an acknowledge
    changes. *)
Definition gic_cpu_read (s : GICState) (cpu offset : Z) (attrs : MemTxAttrs)
  : res (option Z * MemTxResult * GICState) :=
  let value (m : res Z) := v ← m; Ok (Some v, MEMTX_OK, s) in
  if offset =? 0x00 then value (gic_get_cpu_control s cpu attrs)
  else if offset =? 0x04 then value (gic_get_priority_mask s cpu attrs)
  else if offset =? 0x08 then
    value (if ns_access s attrs then aget (abpr s) cpu else aget (bpr s) cpu)
  else if offset =? 0x0c then
    r ← gic_acknowledge_irq s cpu attrs; Ok (Some r.1, MEMTX_OK, r.2)
  else if offset =? 0x14 then value (gic_get_running_priority s cpu attrs)
  else if offset =? 0x18 then value (gic_get_current_pending_irq s cpu attrs)
  else if offset =? 0x1c then
    value (if negb (gic_has_groups s) || ns_access s attrs then Ok 0 else aget (abpr s) cpu)
  else if (offset =? 0xd0) || (offset =? 0xd4) || (offset =? 0xd8) || (offset =? 0xdc) then
    value (aget2 (apr s) ((offset - 0xd0) / 4) cpu)
  else Ok (None, MEMTX_ERROR, s).

(** [gic_cpu_write(s, cpu, offset, value, attrs)] *)
Definition gic_cpu_write (s : GICState) (cpu offset value : Z) (attrs : MemTxAttrs)
  : res (MemTxResult * GICState) :=
  let upd s := s' ← gic_update s; Ok (MEMTX_OK, s') in
  if offset =? 0x00 then s ← gic_set_cpu_control s cpu value attrs; upd s
  else if offset =? 0x04 then s ← gic_set_priority_mask s cpu (u8 value) attrs; upd s
  else if offset =? 0x08 then
    if ns_access s attrs then
      a ← aset (abpr s) cpu (Z.max (Z.land value 0x7) GIC_MIN_ABPR); upd {| s with abpr := a |}
    else
      a ← aset (bpr s) cpu (Z.max (Z.land value 0x7) GIC_MIN_BPR); upd {| s with bpr := a |}
  else if offset =? 0x10 then
    s ← gic_complete_irq s cpu (Z.land value 0x3ff) attrs; Ok (MEMTX_OK, s)
  else if offset =? 0x1c then
    if negb (gic_has_groups s) || ns_access s attrs then Ok (MEMTX_OK, s)
    else a ← aset (abpr s) cpu (Z.max (Z.land value 0x7) GIC_MIN_ABPR); upd {| s with abpr := a |}
  else if (offset =? 0xd0) || (offset =? 0xd4) || (offset =? 0xd8) || (offset =? 0xdc) then upd s
  else Ok (MEMTX_ERROR, s).

(** [gic_thiscpu_read], [gic_thiscpu_write]: the interface of the processor that
    makes the access. *)
Definition gic_thiscpu_read (s : GICState) (current_cpu addr : Z) (attrs : MemTxAttrs)
  : res (option Z * MemTxResult * GICState) :=
  gic_cpu_read s (gic_get_current_cpu s current_cpu) addr attrs.

Definition gic_thiscpu_write (s : GICState) (current_cpu addr value : Z) (attrs : MemTxAttrs)
  : res (MemTxResult * GICState) :=
  gic_cpu_write s (gic_get_current_cpu s current_cpu) addr (u32 value) attrs.

(** [gic_do_cpu_read], [gic_do_cpu_write]: the interface of processor [id]; the
    code finds [id] as the position of the pointer it is given in the array
    [backref]. *)
Definition gic_do_cpu_read (s : GICState) (id addr : Z) (attrs : MemTxAttrs)
  : res (option Z * MemTxResult * GICState) := gic_cpu_read s id addr attrs.

Definition gic_do_cpu_write (s : GICState) (id addr value : Z) (attrs : MemTxAttrs)
  : res (MemTxResult * GICState) := gic_cpu_write s id addr (u32 value) attrs.

(** ** Creation and reset *)

(** A device object before it is realized: its memory is zero but for the
    properties. *)
Definition zeros (n : Z) : list Z := replicate (Z.to_nat n) 0.
Definition zeros2 (n k : Z) : list (list Z) := replicate (Z.to_nat n) (zeros k).

Definition gic_new (ncpu nirq rev : Z) (sec : bool) : GICState :=
  mkGIC (replicate (Z.to_nat GIC_NCPU) false) (replicate (Z.to_nat GIC_NCPU) false) 0
    (zeros GIC_NCPU) (replicate (Z.to_nat GIC_MAXIRQ) (mkIrqState 0 0 0 0 false false 0))
    (zeros GIC_MAXIRQ) (zeros2 GIC_INTERNAL GIC_NCPU) (zeros (GIC_MAXIRQ - GIC_INTERNAL))
    (zeros2 GIC_MAXIRQ GIC_NCPU) (zeros2 GIC_NR_SGIS GIC_NCPU) (zeros GIC_NCPU) (zeros GIC_NCPU)
    (zeros GIC_NCPU) (zeros GIC_NCPU) (zeros GIC_NCPU) (zeros GIC_NCPU)
    (zeros2 GIC_NR_APRS GIC_NCPU) ncpu nirq rev sec.

(** The errors of [arm_gic_common_realize]. *)
Inductive realize_error : Type := TooManyCpus | TooManyIrqs | BadIrqCount | NoSecurity.

Definition arm_gic_common_realize (s : GICState) : realize_error + GICState :=
  if num_cpu s >? GIC_NCPU then inl TooManyCpus else
  let s := {| s with num_irq := u32 (num_irq s + GIC_BASE_IRQ s) |} in
  if num_irq s >? GIC_MAXIRQ then inl TooManyIrqs else
  if (num_irq s <? 32) || negb (num_irq s mod 32 =? 0) then inl BadIrqCount else
  if security_extn s && is_11mpcore s then inl NoSecurity else
  inr s.

(** The number of input lines that [gic_init_irqs_and_distributor] creates. *)
Definition gic_num_lines (s : GICState) : Z :=
  let i := num_irq s - GIC_INTERNAL in
  if revision s =? REV_NVIC then i else i + GIC_INTERNAL * num_cpu s.

(** The rounds of the loops of [arm_gic_common_reset]. *)
Definition reset_cpu (i : Z) (s : GICState) : res GICState :=
  pm ← aset (priority_mask s) i (if revision s =? REV_11MPCORE then 0xf0 else 0);
  cp ← aset (current_pending s) i 1023;
  ri ← aset (running_irq s) i 1023;
  rp ← aset (running_priority s) i 0x100;
  cc ← aset (cpu_ctlr s) i 0;
  b ← aset (bpr s) i GIC_MIN_BPR;
  ab ← aset (abpr s) i GIC_MIN_ABPR;
  p1 ← cfor 0 GIC_INTERNAL (fun j p => aset2 p j i 0) (priority1 s);
  sp ← cfor 0 GIC_NR_SGIS (fun j p => aset2 p j i 0) (sgi_pending s);
  Ok {| s with priority_mask := pm; current_pending := cp; running_irq := ri;
       running_priority := rp; cpu_ctlr := cc; bpr := b; abpr := ab;
       priority1 := p1; sgi_pending := sp |}.

Definition reset_sgi (i : Z) (s : GICState) : res GICState :=
  s ← GIC_SET_ENABLED s i ALL_CPU_MASK;
  GIC_SET_EDGE_TRIGGER s i.

(** [static void arm_gic_common_reset(dev)] *)
Definition arm_gic_common_reset (s : GICState) : res GICState :=
  let s := {| s with irq_state := replicate (Z.to_nat GIC_MAXIRQ) (mkIrqState 0 0 0 0 false false 0) |} in
  s ← cfor 0 (num_cpu s) reset_cpu s;
  s ← cfor 0 GIC_NR_SGIS reset_sgi s;
  p2 ← cfor 0 (GIC_MAXIRQ - GIC_INTERNAL) (fun i p => aset p i 0) (priority2 s);
  it ← cfor 0 GIC_MAXIRQ (fun i t => aset t i (if num_cpu s =? 1 then 1 else 0)) (irq_target s);
  Ok {| s with priority2 := p2; irq_target := it; ctlr := 0 |}.

(** ** The board *)

(** [NUM_IRQS] and the line of the pipe device ([irqmap[VIRT_QEMU_PIPE]]) of
    [virt.c]. *)
Definition NUM_IRQS : Z := 256.
Definition VIRT_QEMU_PIPE_irq : Z := 15.

(** [create_gic]: a GICv2 with [NUM_IRQS] lines, realized and reset. *)
Definition create_gic (smp_cpus : Z) : realize_error + res GICState :=
  match arm_gic_common_realize (gic_new smp_cpus (NUM_IRQS + 32) 2 false) with
  | inl e => inl e
  | inr s => inr (arm_gic_common_reset s)
  end.
