(* ===== verification/GicProofs.v ===== *)
(** * The interrupt controller: types, selection, invariant

    [typed] gives every register its width and every array its length;
    [signals] says declaratively which interrupt a processor is shown and how its
    lines stand; [gic_update] establishes it ([gic_update_spec]).  The chain of
    active interrupts of a processor is a stack sorted by priority ([stack_ok]);
    [gic_wf] is the invariant of the controller, which every operation keeps. *)

From S2P Require Import Prelude CArray Gic.

(** ** Types *)

Definition irq_typed (st : gic_irq_state) : Prop :=
  in_range 8 (enabled st) /\ in_range 8 (pending st) /\ in_range 8 (active st) /\
  in_range 8 (level st) /\ in_range 8 (group st).

Record typed (s : GICState) : Prop := mkTyped {
  t_ncpu : 1 <= num_cpu s <= 8;
  t_nirq : 32 <= num_irq s <= 1020;
  t_mod : num_irq s mod 32 = 0;
  t_sec : security_extn s = true -> is_11mpcore s = false;
  t_irq : arr 8 (fun _ => True) (parent_irq s);
  t_fiq : arr 8 (fun _ => True) (parent_fiq s);
  t_ctlr : in_range 32 (ctlr s);
  t_cc : arr 8 (in_range 32) (cpu_ctlr s);
  t_st : arr 1020 irq_typed (irq_state s);
  t_tgt : arr 1020 (in_range 8) (irq_target s);
  t_p1 : arr 32 (arr 8 (in_range 8)) (priority1 s);
  t_p2 : arr 988 (in_range 8) (priority2 s);
  t_la : arr 1020 (arr 8 (in_range 16)) (last_active s);
  t_sgi : arr 16 (arr 8 (in_range 8)) (sgi_pending s);
  t_pm : arr 8 (in_range 8) (priority_mask s);
  t_ri : arr 8 (in_range 16) (running_irq s);
  t_rp : arr 8 (in_range 16) (running_priority s);
  t_cp : arr 8 (in_range 16) (current_pending s);
  t_bpr : arr 8 (in_range 8) (bpr s);
  t_abpr : arr 8 (in_range 8) (abpr s);
  t_apr : arr 4 (arr 8 (in_range 32)) (apr s)
}.

(** Proves [typed] of a state some fields of which were assigned. *)
Ltac typ := lazymatch goal with |- typed _ => idtac end;
  match goal with H : typed ?s |- _ => destruct H; constructor; cbn; try assumption end.

(** ** Registers as total functions *)

Definition st_of (s : GICState) (irq : Z) : gic_irq_state := (irq_state s).[irq].

Definition prio (s : GICState) (irq cpu : Z) : Z :=
  if irq <? 32 then (priority1 s).[irq].[cpu] else (priority2 s).[irq - 32].

Definition is_pending (s : GICState) (irq cm : Z) : bool :=
  flag_set (pending (st_of s irq)) cm ||
  (negb (is_11mpcore s) && negb (edge_trigger (st_of s irq)) && flag_set (level (st_of s irq)) cm).

(** Interrupt [irq] may be signalled to processor [cpu]. *)
Definition candidate (s : GICState) (cpu irq : Z) : bool :=
  flag_set (enabled (st_of s irq)) (bit cpu) && is_pending s irq (bit cpu) &&
  ((irq <? 32) || flag_set (irq_target s).[irq] (bit cpu)).

(** The state after [mod_irq]. *)
Definition with_irq (s : GICState) (irq : Z) (f : gic_irq_state -> gic_irq_state) : GICState :=
  {| s with irq_state := upd (irq_state s) irq (f (st_of s irq)) |}.

Section total.
Context (s : GICState) (Ht : typed s).

Lemma irq_state_get irq : 0 <= irq < 1020 -> aget (irq_state s) irq = Ok (st_of s irq).
Proof. intros. by rewrite (aget_in _ _ _ _ (t_st _ Ht)). Qed.

Lemma st_typed irq : 0 <= irq < 1020 -> irq_typed (st_of s irq).
Proof. intros. by apply (arr_at _ _ _ _ (t_st _ Ht)). Qed.

Lemma mod_irq_ok irq f : 0 <= irq < 1020 -> mod_irq s irq f = Ok (with_irq s irq f).
Proof.
  intros Hi. unfold mod_irq. rewrite irq_state_get by done. cbn.
  by rewrite (aset_in _ _ _ _ _ (t_st _ Ht)).
Qed.

Lemma with_irq_typed irq f :
  0 <= irq < 1020 -> (irq_typed (st_of s irq) -> irq_typed (f (st_of s irq))) -> typed (with_irq s irq f).
Proof.
  intros Hi Hf. pose proof (st_typed irq Hi). unfold with_irq. typ.
  apply arr_upd; auto.
Qed.

Lemma prio_ok irq cpu :
  0 <= irq < 1020 -> 0 <= cpu < 8 -> GIC_GET_PRIORITY s irq cpu = Ok (prio s irq cpu).
Proof.
  intros Hi Hc. unfold GIC_GET_PRIORITY, prio, GIC_INTERNAL. destruct (irq <? 32) eqn:E; zb.
  - by rewrite (aget2_in _ _ _ _ _ _ (t_p1 _ Ht)) by lia.
  - by rewrite (aget_in _ _ _ _ (t_p2 _ Ht)) by lia.
Qed.

Lemma prio_range irq cpu : 0 <= irq < 1020 -> 0 <= cpu < 8 -> in_range 8 (prio s irq cpu).
Proof.
  intros Hi Hc. unfold prio. destruct (irq <? 32) eqn:E; zb.
  - eapply (arr_at 8 _ _ cpu); [|lia]. by eapply (arr_at _ _ _ _ (t_p1 _ Ht)); lia.
  - eapply (arr_at _ _ _ _ (t_p2 _ Ht)). lia.
Qed.

Lemma test_pending_ok irq cm : 0 <= irq < 1020 -> gic_test_pending s irq cm = Ok (is_pending s irq cm).
Proof.
  intros Hi. unfold gic_test_pending, GIC_TEST_EDGE_TRIGGER, GIC_TEST_LEVEL, is_pending.
  rewrite irq_state_get by done. cbn.
  destruct (is_11mpcore s); cbn; [by rewrite orb_false_r|done].
Qed.

Lemma target_ok irq : 0 <= irq < 1020 -> GIC_TARGET s irq = Ok (irq_target s).[irq].
Proof. intros. unfold GIC_TARGET. by rewrite (aget_in _ _ _ _ (t_tgt _ Ht)). Qed.

Lemma target_range irq : 0 <= irq < 1020 -> in_range 8 (irq_target s).[irq].
Proof. intros. by apply (arr_at _ _ _ _ (t_tgt _ Ht)). Qed.

Lemma best_round_ok cpu irq best :
  0 <= irq < 1020 -> 0 <= cpu < 8 ->
  best_round s cpu irq best =
    Ok (if candidate s cpu irq && (prio s irq cpu <? best.2) then (irq, prio s irq cpu) else best).
Proof.
  intros Hi Hc. unfold best_round, GIC_TEST_ENABLED, candidate, GIC_INTERNAL.
  rewrite irq_state_get, test_pending_ok, target_ok, prio_ok by done. cbn.
  destruct (flag_set (enabled (st_of s irq)) (bit cpu)); cbn; [|done].
  destruct (is_pending s irq (bit cpu)); cbn; [|done].
  destruct (irq <? 32); cbn; [done|].
  by destruct (flag_set (irq_target s).[irq] (bit cpu)).
Qed.
End total.

(** ** What [gic_update] chooses *)

(** [irq] is the candidate of the best priority, the first one among equals. *)
Definition is_best_below (n : Z) (s : GICState) (cpu irq : Z) : Prop :=
  0 <= irq < n /\ candidate s cpu irq = true /\
  forall j, 0 <= j < n -> candidate s cpu j = true ->
    prio s irq cpu < prio s j cpu \/ (prio s irq cpu = prio s j cpu /\ irq <= j).

Definition is_best (s : GICState) (cpu irq : Z) : Prop := is_best_below (num_irq s) s cpu irq.

Definition no_candidate_below (n : Z) (s : GICState) (cpu : Z) : Prop :=
  forall j, 0 <= j < n -> candidate s cpu j = false.

Definition no_candidate (s : GICState) (cpu : Z) : Prop := no_candidate_below (num_irq s) s cpu.

(** Distributor and interface of the processor are on. *)
Definition forwarding (s : GICState) (cpu : Z) : bool :=
  flag_set (ctlr s) 3 && flag_set (cpu_ctlr s).[cpu] 3.

(** [irq] preempts what the processor runs and its group is on. *)
Definition group_of (s : GICState) (cpu irq : Z) : Z :=
  if flag_set (group (st_of s irq)) (bit cpu) then 1 else 0.
Definition raises (s : GICState) (cpu irq : Z) : bool :=
  (prio s irq cpu <? (running_priority s).[cpu]) &&
  Z.testbit (ctlr s) (group_of s cpu irq) && Z.testbit (cpu_ctlr s).[cpu] (group_of s cpu irq).
Definition as_fiq (s : GICState) (cpu irq : Z) : bool :=
  (group_of s cpu irq =? 0) && flag_set (cpu_ctlr s).[cpu] GICC_CTLR_FIQ_EN.

(** [signals s cpu p i f]: processor [cpu] must be shown the pending interrupt
    [p], its IRQ line must be at [i] and its FIQ line at [f]. *)
Inductive signals (s : GICState) (cpu : Z) : Z -> bool -> bool -> Prop :=
| signals_off : forwarding s cpu = false -> signals s cpu 1023 false false
| signals_none : forwarding s cpu = true -> no_candidate s cpu -> signals s cpu 1023 false false
| signals_masked irq :
    forwarding s cpu = true -> is_best s cpu irq -> (priority_mask s).[cpu] <= prio s irq cpu ->
    signals s cpu 1023 false false
| signals_best irq :
    forwarding s cpu = true -> is_best s cpu irq -> prio s irq cpu < (priority_mask s).[cpu] ->
    signals s cpu irq (raises s cpu irq && negb (as_fiq s cpu irq))
                      (raises s cpu irq && as_fiq s cpu irq).

(** The lines and the pending interrupt of every processor are as they must be. *)
Definition synced (s : GICState) : Prop :=
  forall cpu, 0 <= cpu < num_cpu s ->
    signals s cpu (current_pending s).[cpu] (parent_irq s).[cpu] (parent_fiq s).[cpu].

(** The state with the outputs of the selection assigned. *)
Definition with_out (s : GICState) (cp : list Z) (i f : list bool) : GICState :=
  {| s with current_pending := cp; parent_irq := i; parent_fiq := f |}.

Lemma best_loop s cpu :
  typed s -> 0 <= cpu < 8 ->
  exists b, cfor 0 (num_irq s) (best_round s cpu) (1023, 0x100) = Ok b /\
    ((b = (1023, 256) /\ no_candidate s cpu) \/
     (exists irq, b = (irq, prio s irq cpu) /\ is_best s cpu irq)).
Proof.
  intros Ht Hc. pose proof (t_nirq _ Ht) as Hn.
  apply (cfor_rule (fun n b =>
    (b = (1023, 256) /\ no_candidate_below n s cpu) \/
    (exists irq, b = (irq, prio s irq cpu) /\ is_best_below n s cpu irq))); [lia| |].
  - intros i b Hi HQ. rewrite best_round_ok by (done || lia). eexists; split; [done|].
    pose proof (prio_range s Ht i cpu ltac:(lia) Hc) as [Hp1 Hp2].
    destruct (candidate s cpu i) eqn:Ec; cbn [andb].
    + destruct HQ as [[-> Hno]|(k & -> & Hk & Hcand & Hbest)]; cbn [fst snd].
      * rewrite (proj2 (Z.ltb_lt _ _)) by lia. right. exists i. split; [done|].
        split; [lia|]. split; [done|]. intros j Hj Hcj.
        destruct (decide (j = i)) as [->|]; [lia|]. rewrite Hno in Hcj by lia. done.
      * destruct (prio s i cpu <? prio s k cpu) eqn:El; zb; right.
        -- exists i. split; [done|]. split; [lia|]. split; [done|]. intros j Hj Hcj.
           destruct (decide (j = i)) as [->|]; [lia|]. specialize (Hbest j). lia || (destruct Hbest; [lia|done|..]; lia).
        -- exists k. split; [done|]. split; [lia|]. split; [done|]. intros j Hj Hcj.
           destruct (decide (j = i)) as [->|]; [lia|]. apply Hbest; [lia|done].
    + destruct HQ as [[-> Hno]|(k & -> & Hk & Hcand & Hbest)]; [left|right].
      * split; [done|]. intros j Hj. destruct (decide (j = i)) as [->|]; [done|]. apply Hno. lia.
      * exists k. split; [done|]. split; [lia|]. split; [done|]. intros j Hj Hcj.
        destruct (decide (j = i)) as [->|]; [congruence|]. apply Hbest; [lia|done].
  - left. split; [done|]. intros j Hj. lia.
Qed.

Lemma set_current_pending_ok s cpu x :
  typed s -> 0 <= cpu < 8 ->
  set_current_pending s cpu x =
    Ok (with_out s (upd (current_pending s) cpu x) (parent_irq s) (parent_fiq s)).
Proof.
  intros Ht Hc. unfold set_current_pending. by rewrite (aset_in _ _ _ _ _ (t_cp _ Ht)).
Qed.

Lemma set_lines_ok s cpu i f :
  typed s -> 0 <= cpu < 8 ->
  set_lines s cpu i f =
    Ok (with_out s (current_pending s) (upd (parent_irq s) cpu i) (upd (parent_fiq s) cpu f)).
Proof.
  intros Ht Hc. unfold set_lines. rewrite (aset_in _ _ _ _ _ (t_irq _ Ht)) by done. cbn.
  by rewrite (aset_in _ _ _ _ _ (t_fiq _ Ht)).
Qed.

Lemma with_out_typed s cp i f :
  typed s -> arr 8 (in_range 16) cp -> arr 8 (fun _ => True) i -> arr 8 (fun _ => True) f ->
  typed (with_out s cp i f).
Proof. intros Ht Hcp Hi Hf. unfold with_out. typ. Qed.

(** One processor of [gic_update]. *)
Lemma gic_update_cpu_spec s cpu :
  typed s -> 0 <= cpu < 8 ->
  exists p i f, signals s cpu p i f /\ in_range 16 p /\
    gic_update_cpu cpu s =
      Ok (with_out s (upd (current_pending s) cpu p) (upd (parent_irq s) cpu i) (upd (parent_fiq s) cpu f)).
Proof.
  intros Ht Hc. unfold gic_update_cpu. rewrite set_current_pending_ok by done. mon.
  set (s1 := with_out s _ _ _).
  assert (Ht1 : typed s1).
  { apply with_out_typed; [done| |apply Ht..]. apply arr_upd; [apply Ht|done]. }
  assert (E1 : forall i f, set_lines s1 cpu i f =
    Ok (with_out s (upd (current_pending s) cpu 1023) (upd (parent_irq s) cpu i) (upd (parent_fiq s) cpu f))).
  { intros. by rewrite set_lines_ok. }
  change (cpu_ctlr s1) with (cpu_ctlr s). rewrite (aget_in _ _ _ _ (t_cc _ Ht)) by done. mon.
  change (ctlr s1) with (ctlr s). change (priority_mask s1) with (priority_mask s).
  change (num_irq s1) with (num_irq s).
  change (Z.lor GICD_CTLR_EN_GRP0 GICD_CTLR_EN_GRP1) with 3.
  change (Z.lor GICC_CTLR_EN_GRP0 GICC_CTLR_EN_GRP1) with 3.
  destruct (forwarding s cpu) eqn:Ef.
  2: { exists 1023, false, false. split; [by constructor|]. split; [done|].
       unfold forwarding in Ef. apply andb_false_iff in Ef.
       destruct Ef as [E|E]; rewrite E; cbn [negb orb]; [done|].
       by rewrite orb_true_r. }
  pose proof Ef as Ef'. unfold forwarding in Ef'. apply andb_true_iff in Ef' as [Ea Eb].
  rewrite Ea, Eb. cbn [negb orb].
  destruct (best_loop s1 cpu Ht1 Hc) as (b & Eb' & Hb).
  change (num_irq s1) with (num_irq s) in Eb'. rewrite Eb'. mon.
  rewrite (aget_in _ _ _ _ (t_pm _ Ht)) by done.
  pose proof (arr_at _ _ _ _ (t_pm _ Ht) Hc) as [Hpm1 Hpm2].
  destruct Hb as [[-> Hno]|(irq & -> & Hbest)].
  { mon. rewrite (proj2 (Z.ltb_ge _ _)) by lia. exists 1023, false, false.
    split; [by apply signals_none|done]. }
  mon. change (prio s1 irq cpu) with (prio s irq cpu). change (is_best s cpu irq) in Hbest.
  assert (Hir : 0 <= irq < 1020) by (destruct Hbest as [? _]; pose proof (t_nirq _ Ht); lia).
  destruct (prio s irq cpu <? (priority_mask s).[cpu]) eqn:El; zb.
  2: { exists 1023, false, false. split; [by eapply signals_masked|done]. }
  eexists irq, _, _. split; [by apply signals_best|]. split; [split; lia|].
  rewrite set_current_pending_ok by done. mon.
  set (s2 := with_out s1 _ _ _).
  assert (Ht2 : typed s2).
  { apply with_out_typed; [done| |apply Ht1..]. apply arr_upd; [apply Ht1|split; lia]. }
  assert (E2 : forall i f, set_lines s2 cpu i f =
    Ok (with_out s (upd (current_pending s) cpu irq) (upd (parent_irq s) cpu i) (upd (parent_fiq s) cpu f))).
  { intros. rewrite set_lines_ok by done. unfold s2, s1, with_out. cbn. by rewrite upd_upd. }
  change (running_priority s2) with (running_priority s).
  rewrite (aget_in _ _ _ _ (t_rp _ Ht)) by done. mon. change (ctlr s2) with (ctlr s).
  unfold raises, as_fiq. unfold GIC_TEST_GROUP. rewrite (irq_state_get _ Ht2) by done. mon.
  change (st_of s2 irq) with (st_of s irq). fold (group_of s cpu irq).
  assert (Hg : 0 <= group_of s cpu irq) by (unfold group_of; case_match; lia).
  rewrite !extract32_bit by done.
  destruct (prio s irq cpu <? _); cbn; [|done].
  destruct (Z.testbit (ctlr s) _); cbn; [|done].
  destruct (Z.testbit _ (group_of s cpu irq)); cbn; [|done].
  destruct (group_of s cpu irq =? 0), (flag_set (cpu_ctlr s).[cpu] GICC_CTLR_FIQ_EN); cbn [andb negb]; apply E2.
Qed.

(** The signals of a processor depend on these registers only. *)
Definition signal_regs (s : GICState) :=
  (ctlr s, cpu_ctlr s, irq_state s, irq_target s, (priority1 s, priority2 s), priority_mask s,
   running_priority s, num_irq s, revision s).

Lemma signals_ext s s' cpu p i f :
  signal_regs s' = signal_regs s -> signals s cpu p i f -> signals s' cpu p i f.
Proof.
  intros E H. destruct s, s'. unfold signal_regs in E. cbn in E. injection E as -> -> -> -> -> -> -> -> -> ->.
  inversion H; subst;
    [by apply signals_off|by apply signals_none|by eapply signals_masked|].
  match goal with |- signals ?s' _ _ _ _ => by apply (signals_best s') end.
Qed.

Lemma signals_with_out s cp i f cpu p a b : signals s cpu p a b -> signals (with_out s cp i f) cpu p a b.
Proof. by apply signals_ext. Qed.

(** [gic_update] gives each processor the signals of the registers and changes
    nothing else. *)
Lemma gic_update_spec s :
  typed s ->
  exists cp i f, gic_update s = Ok (with_out s cp i f) /\
    typed (with_out s cp i f) /\ synced (with_out s cp i f).
Proof.
  intros Ht. pose proof (t_ncpu _ Ht) as Hn.
  destruct (cfor_rule (fun n s' => exists cp i f, s' = with_out s cp i f /\ typed s' /\
    forall c, 0 <= c < n -> signals s' c (current_pending s').[c] (parent_irq s').[c] (parent_fiq s').[c])
    0 (num_cpu s) gic_update_cpu s) as (s' & E & cp & i & f & -> & Ht' & Hs); [lia| | |].
  - intros c s1 Hc (cp & i & f & -> & Ht1 & Hs1).
    destruct (gic_update_cpu_spec (with_out s cp i f) c) as (p & a & b & Hsig & Hp & E); [done|lia|].
    rewrite E. eexists; split; [done|]. eexists _, _, _. split; [reflexivity|]. split.
    { apply with_out_typed; [done|apply arr_upd; [apply Ht1|done]|apply arr_upd; [apply Ht1|done]..]. }
    intros c' Hc'. apply signals_with_out. cbn.
    rewrite (at_upd _ _ _ _ _ _ (t_cp _ Ht1)), (at_upd _ _ _ _ _ _ (t_irq _ Ht1)),
      (at_upd _ _ _ _ _ _ (t_fiq _ Ht1)) by lia.
    destruct (c =? c') eqn:Ec; zb; [by subst|]. apply Hs1. lia.
  - exists (current_pending s), (parent_irq s), (parent_fiq s).
    split; [by destruct s|]. split; [done|]. intros; lia.
  - exists cp, i, f. done.
Qed.

(** ** The invariant *)

(** [chain la cpu x l]: following [last_active] from [x] gives the interrupts
    [l], the running one first. *)
Fixpoint chain (la : list (list Z)) (cpu x : Z) (l : list Z) : Prop :=
  match l with
  | [] => x = 1023
  | y :: l' => x = y /\ 0 <= y < 1020 /\ chain la cpu la.[y].[cpu] l'
  end.

Definition stack (s : GICState) (cpu : Z) (l : list Z) : Prop :=
  chain (last_active s) cpu (running_irq s).[cpu] l.

(** [irq] was acknowledged by [cpu] and not completed yet. *)
Definition is_active (s : GICState) (cpu irq : Z) : Prop := exists l, stack s cpu l /\ irq ∈ l.

Definition better (s : GICState) (cpu a b : Z) : Prop := prio s a cpu < prio s b cpu.

(** The active interrupts of a processor are nested by priority; the running
    priority is the one of the top. *)
Definition stack_ok (s : GICState) (cpu : Z) : Prop :=
  exists l, stack s cpu l /\ Forall (fun x => x < num_irq s) l /\
    StronglySorted (better s cpu) l /\
    (running_priority s).[cpu] = match l with [] => 256 | x :: _ => prio s x cpu end.

(** A software interrupt is edge triggered, and pending only from someone. *)
Definition sgi_ok (s : GICState) : Prop :=
  is_11mpcore s = false ->
  forall irq, 0 <= irq < 16 ->
    edge_trigger (st_of s irq) = true /\
    forall cpu, 0 <= cpu < num_cpu s ->
      Z.testbit (pending (st_of s irq)) cpu = true -> (sgi_pending s).[irq].[cpu] <> 0.

(** The invariant of the registers, and the one of the whole controller. *)
Record regs_wf (s : GICState) : Prop := mkRegsWf {
  r_typed : typed s;
  r_stack : forall cpu, 0 <= cpu < num_cpu s -> stack_ok s cpu;
  r_sgi : sgi_ok s
}.

Record gic_wf (s : GICState) : Prop := mkGicWf {
  g_regs : regs_wf s;
  g_synced : synced s
}.

(** What the operations of the distributor leave alone. *)
Definition frame (s s' : GICState) : Prop :=
  last_active s' = last_active s /\ running_irq s' = running_irq s /\
  num_cpu s' = num_cpu s /\ num_irq s' = num_irq s /\ revision s' = revision s /\
  security_extn s' = security_extn s.

Lemma frame_refl s : frame s s.
Proof. by repeat split. Qed.

Lemma frame_trans s1 s2 s3 : frame s1 s2 -> frame s2 s3 -> frame s1 s3.
Proof. unfold frame. intros. dest. repeat split; congruence. Qed.

#[global] Instance frame_preorder : PreOrder frame.
Proof. split; [exact frame_refl|exact frame_trans]. Qed.

Lemma frame_active s s' cpu irq : frame s s' -> is_active s' cpu irq -> is_active s cpu irq.
Proof. intros (E1 & E2 & _) (l & H & Hl). exists l. unfold stack in *. rewrite E1, E2 in H. done. Qed.

Lemma active_chain_det la cpu x l l' : chain la cpu x l -> chain la cpu x l' -> l = l'.
Proof.
  revert x l'; induction l as [|y l IH]; intros x [|y' l']; cbn; intros H H'; dest; subst;
    try done; try lia. f_equal. eauto.
Qed.

(** The stack is within the chain's fuel. *)
Lemma sorted_NoDup s cpu l : StronglySorted (better s cpu) l -> NoDup l.
Proof.
  induction 1 as [|x l Hs IH Hx]; constructor; [|done].
  intros Hin. rewrite Forall_forall in Hx. specialize (Hx x Hin). unfold better in Hx. lia.
Qed.

Lemma bounded_length (l : list Z) n :
  NoDup l -> (forall x, x ∈ l -> 0 <= x < n) -> Z.of_nat (length l) <= Z.max 0 n.
Proof.
  intros Hnd Hb. pose proof (length_seqZ 0 n) as Hlen.
  assert (Hsub : l ⊆ seqZ 0 n).
  { intros x Hx. apply elem_of_seqZ. specialize (Hb x Hx). lia. }
  pose proof (NoDup_submseteq l (seqZ 0 n) Hnd Hsub) as Hm.
  apply submseteq_length in Hm. lia.
Qed.

(** [gic_update] restores the whole invariant. *)
Lemma update_wf s :
  regs_wf s -> exists s', gic_update s = Ok s' /\ gic_wf s' /\ frame s s'.
Proof.
  intros [Ht Hst Hsg]. destruct (gic_update_spec s Ht) as (cp & i & f & E & Ht' & Hs).
  exists (with_out s cp i f). split; [done|]. split; [|by repeat split].
  split; [|done]. split; [done|exact Hst|exact Hsg].
Qed.

(** ** One interrupt's registers *)

(** What an assignment to the registers of [irq] must respect. *)
Definition irq_step (s : GICState) (irq : Z) (f : gic_irq_state -> gic_irq_state) : Prop :=
  (irq_typed (st_of s irq) -> irq_typed (f (st_of s irq))) /\
  (irq < 16 -> is_11mpcore s = false -> edge_trigger (st_of s irq) = true ->
     edge_trigger (f (st_of s irq)) = true /\
     forall cpu, 0 <= cpu < num_cpu s -> Z.testbit (pending (f (st_of s irq))) cpu = true ->
       Z.testbit (pending (st_of s irq)) cpu = true \/ (sgi_pending s).[irq].[cpu] <> 0).

Lemma with_irq_st s irq f j :
  typed s -> 0 <= irq < 1020 -> 0 <= j ->
  st_of (with_irq s irq f) j = if irq =? j then f (st_of s irq) else st_of s j.
Proof. intros Ht Hi Hj. unfold st_of at 1. cbn. by rewrite (at_upd _ _ _ _ _ _ (t_st _ Ht)). Qed.

Lemma mod_irq_wf s irq f :
  regs_wf s -> 0 <= irq < 1020 -> irq_step s irq f ->
  exists s', mod_irq s irq f = Ok s' /\ s' = with_irq s irq f /\ regs_wf s' /\ frame s s'.
Proof.
  intros [Ht Hst Hsg] Hi [Hf1 Hf2]. rewrite mod_irq_ok by done. eexists. split; [done|].
  split; [done|]. split; [|by repeat split]. split.
  - by apply with_irq_typed.
  - exact Hst.
  - intros H11 j Hj. destruct (Hsg H11 j Hj) as [He Hp].
    rewrite with_irq_st by (done || lia). destruct (irq =? j) eqn:E; [|done].
    zb. subst j. destruct (Hf2 ltac:(lia) H11 He) as [He' Hp']. split; [done|].
    intros cpu Hc Hb. destruct (Hp' cpu Hc Hb); [|done]. by apply Hp.
Qed.
