(* ===== verification/GicOps.v ===== *)
(** * The interrupt controller: its operations keep the invariant

    One lemma per operation of [Gic]: on a state that satisfies the invariant it
    returns and the invariant holds again. *)

From S2P Require Import Prelude CArray Gic GicProofs.

(** ** Assignments to the registers of one interrupt *)

Lemma testbit_u8_true x i : 0 <= i -> Z.testbit (u8 x) i = true -> Z.testbit x i = true.
Proof.
  intros Hi H. destruct (decide (i < 8)).
  - by rewrite testbit_u8 in H.
  - unfold wrap in H. rewrite Z.mod_pow2_bits_high in H by lia. done.
Qed.

Lemma testbit_land_l x y i : 0 <= i -> Z.testbit (u8 (Z.land x y)) i = true -> Z.testbit x i = true.
Proof. intros Hi H%testbit_u8_true; [|done]. rewrite Z.land_spec in H. by apply andb_true_iff in H as [? _]. Qed.

(** Discharges the typing condition of an assignment. *)
Ltac irq_typ :=
  intros (? & ? & ? & ? & ?);
  refine (conj _ (conj _ (conj _ (conj _ _)))); cbn [enabled pending active level group];
  solve [assumption | apply wrap_range; lia].

Section steps.
Context (s : GICState) (irq : Z).

(** Assignments that touch neither [pending] nor [edge_trigger]. *)
Lemma step_other f :
  (forall st, pending (f st) = pending st /\ edge_trigger (f st) = edge_trigger st) ->
  (irq_typed (st_of s irq) -> irq_typed (f (st_of s irq))) -> irq_step s irq f.
Proof.
  intros H Ht. destruct (H (st_of s irq)) as [Hp He]. split; [done|]. intros _ _ E.
  rewrite Hp, He. split; [done|]. by left.
Qed.

(** Any assignment to an interrupt that is not a software interrupt. *)
Lemma step_hw f :
  16 <= irq -> (irq_typed (st_of s irq) -> irq_typed (f (st_of s irq))) -> irq_step s irq f.
Proof. intros Hi Ht. split; [done|]. intros; lia. Qed.

Lemma step_clear_pending cm :
  irq_step s irq (fun st => {| st with pending := u8 (Z.land (pending st) (Z.lnot cm)) |}).
Proof.
  split.
  - irq_typ.
  - intros _ _ E. split; [done|]. cbn. intros cpu Hc Hb. left. eapply testbit_land_l; [lia|done].
Qed.

Lemma step_set_edge : irq_step s irq (fun st => {| st with edge_trigger := true |}).
Proof. split; [done|]. intros. split; [done|]. by left. Qed.
End steps.

(** ** Input lines *)

(** The lines a board may drive: not the ones of the software interrupts. *)
Definition line_ok (s : GICState) (irq : Z) : Prop :=
  0 <= irq < num_irq s - 32 \/
  (num_irq s - 32 <= irq < num_irq s - 32 + 32 * num_cpu s /\ 16 <= (irq - (num_irq s - 32)) mod 32).

Lemma decode_line_ok s irq :
  typed s -> line_ok s irq ->
  exists i cm t, decode_line s irq = Ok (i, cm, t) /\ 16 <= i < num_irq s /\
    (irq < num_irq s - 32 -> i = irq + 32 /\ cm = 255 /\ t = (irq_target s).[i]).
Proof.
  intros Ht Hl. unfold decode_line, GIC_INTERNAL. pose proof (t_nirq _ Ht).
  destruct Hl as [Hl|[Hl1 Hl2]].
  - rewrite (proj2 (Z.ltb_lt _ _)) by lia. rewrite target_ok by (done || lia). mon.
    eexists _, _, _. split; [done|]. split; [lia|done].
  - rewrite (proj2 (Z.ltb_ge _ _)) by lia. eexists _, _, _. split; [done|].
    rewrite Z.rem_mod_nonneg by lia. split; [|lia].
    pose proof (Z.mod_pos_bound (irq - (num_irq s - 32)) 32). lia.
Qed.

Lemma set_irq_core_wf s irq lvl cm t :
  regs_wf s -> 16 <= irq < num_irq s ->
  exists s', (if is_11mpcore s then gic_set_irq_11mpcore s irq lvl cm t
              else gic_set_irq_generic s irq lvl cm t) = Ok s' /\ regs_wf s' /\ frame s s'.
Proof.
  intros Hw Hi. pose proof (t_nirq _ (r_typed _ Hw)).
  unfold gic_set_irq_11mpcore, gic_set_irq_generic, GIC_SET_LEVEL, GIC_CLEAR_LEVEL, GIC_SET_PENDING,
    GIC_TEST_EDGE_TRIGGER, GIC_TEST_ENABLED.
  assert (Hc : exists s', mod_irq s irq (fun st => {| st with level := u8 (Z.land (level st) (Z.lnot cm)) |}) = Ok s'
    /\ regs_wf s' /\ frame s s').
  { edestruct (mod_irq_wf s irq) as (s' & E & _ & Hw' & Hf); [done|lia| |eauto].
    apply step_other; [done|irq_typ]. }
  destruct (mod_irq_wf s irq (fun st => {| st with level := u8 (Z.lor (level st) cm) |}))
    as (s1 & E1 & _ & Hw1 & Hf1); [done|lia|apply step_other; [done|irq_typ]|].
  destruct (mod_irq_wf s1 irq (fun st => {| st with pending := u8 (Z.lor (pending st) t) |}))
    as (s2 & E2 & _ & Hw2 & Hf2); [done|lia|apply step_hw; [lia|irq_typ]|].
  destruct (negb (lvl =? 0)); [|by destruct (is_11mpcore s)].
  rewrite E1. mon. rewrite (irq_state_get _ (r_typed _ Hw1)) by lia. mon. rewrite E2.
  pose proof (frame_trans _ _ _ Hf1 Hf2).
  destruct (is_11mpcore s); destruct (edge_trigger _); cbn; eauto.
  destruct (flag_set (enabled (st_of s1 irq)) cm); eauto.
Qed.

Lemma gic_set_irq_wf s irq lvl :
  gic_wf s -> line_ok s irq -> exists s', gic_set_irq s irq lvl = Ok s' /\ gic_wf s' /\ frame s s'.
Proof.
  intros Hg Hl. pose proof (g_regs _ Hg) as Hw. pose proof (r_typed _ Hw) as Ht.
  pose proof (t_nirq _ Ht).
  destruct (decode_line_ok s irq Ht Hl) as (i & cm & t & E & Hi & _).
  unfold gic_set_irq, GIC_TEST_LEVEL, GIC_NR_SGIS. rewrite E. mon.
  rewrite (proj2 (Z.ltb_ge _ _)) by lia. rewrite irq_state_get by (done || lia). mon.
  destruct (lvl =? _); [eexists; split; [done|split; [done|reflexivity]]|].
  destruct (set_irq_core_wf s i lvl cm t Hw Hi) as (s1 & -> & Hw1 & Hf1). mon.
  destruct (update_wf s1 Hw1) as (s2 & E2 & Hg2 & Hf2). exists s2. rewrite E2.
  split; [done|]. split; [done|]. by transitivity s1.
Qed.

(** ** Priorities *)

Lemma chain_bound la cpu x l j : chain la cpu x l -> j ∈ l -> 0 <= j < 1020.
Proof.
  revert x; induction l as [|y l IH]; intros x; cbn; [set_solver|].
  intros (-> & Hy & Hl) [->|Hj]%elem_of_cons; eauto.
Qed.

Lemma sorted_ext s s' cpu l :
  (forall x, x ∈ l -> prio s' x cpu = prio s x cpu) ->
  StronglySorted (better s cpu) l -> StronglySorted (better s' cpu) l.
Proof.
  intros Hp Hs. induction Hs as [|x l Hs IH Hx]; constructor.
  - apply IH. intros; apply Hp; set_solver.
  - rewrite Forall_forall in Hx |- *. intros y Hy. unfold better.
    rewrite !Hp by set_solver. by apply Hx.
Qed.

Lemma stack_ok_ext s s' cpu :
  last_active s' = last_active s -> running_irq s' = running_irq s -> num_irq s' = num_irq s ->
  running_priority s' = running_priority s ->
  (forall irq, is_active s cpu irq -> prio s' irq cpu = prio s irq cpu) ->
  stack_ok s cpu -> stack_ok s' cpu.
Proof.
  intros E1 E2 E3 E4 Hp (l & Hl & Hb & Hs & Hr). exists l. unfold stack. rewrite E1, E2, E3, E4.
  assert (Hp' : forall x, x ∈ l -> prio s' x cpu = prio s x cpu).
  { intros x Hx. apply Hp. by exists l. }
  repeat split; [done..| |].
  - by eapply sorted_ext.
  - rewrite Hr. destruct l as [|x l]; [done|]. symmetry. apply Hp'. set_solver.
Qed.

Lemma gic_set_priority_wf s cpu irq val attrs :
  regs_wf s -> 0 <= cpu < num_cpu s -> 0 <= irq < num_irq s -> in_range 8 val ->
  (forall c, 0 <= c < num_cpu s -> ~ is_active s c irq) ->
  exists s', gic_set_priority s cpu irq val attrs = Ok s' /\ regs_wf s' /\ frame s s'.
Proof.
  intros Hw Hc Hi Hv Ha. destruct Hw as [Ht Hst Hsg].
  pose proof (t_nirq _ Ht). pose proof (t_ncpu _ Ht).
  unfold gic_set_priority, GIC_TEST_GROUP, GIC_INTERNAL. rewrite irq_state_get by (done || lia).
  set (grp := if ns_access s attrs then _ else Ok true).
  assert (Hgrp : exists b, grp = Ok b) by (unfold grp; mon; case_match; eauto).
  destruct Hgrp as [b ->]. mon.
  destruct b; cbn [negb]; [|exists s; split; [done|split; [by constructor|reflexivity]]].
  set (v := if ns_access s attrs then _ else _).
  assert (Hv' : in_range 8 v).
  { unfold v. case_match; [|done]. apply lor_range; [lia|done|].
    split; [apply Z.shiftr_nonneg; apply Hv|]. rewrite Z.shiftr_div_pow2 by lia.
    destruct Hv. apply Z.div_lt_upper_bound; lia. }
  clearbody v. destruct (irq <? 32) eqn:E; zb.
  - rewrite (aset2_in _ _ _ _ _ _ _ (t_p1 _ Ht)) by lia. mon.
    eexists; split; [done|]. split; [|by repeat split]. constructor; [|intros c Hc'|exact Hsg].
    + typ. apply arr_upd2; [done|lia|done].
    + apply (stack_ok_ext s); [done..| |by apply Hst].
      intros j Hj. unfold prio. cbn. destruct (j <? 32) eqn:Ej; zb; [|done].
      destruct Hj as (l & Hl & Hjl).
      assert (j <> irq) by (intros ->; eapply Ha; [exact Hc'|by exists l]).
      rewrite (at_upd2 _ _ _ _ _ _ _ _ _ (t_p1 _ Ht)); [|lia..| |lia].
      * by rewrite (proj2 (Z.eqb_neq irq j)) by lia.
      * by eapply chain_bound.
  - rewrite (aset_in _ _ _ _ _ (t_p2 _ Ht)) by lia. mon.
    eexists; split; [done|]. split; [|by repeat split]. constructor; [|intros c Hc'|exact Hsg].
    + typ. by apply arr_upd.
    + apply (stack_ok_ext s); [done..| |by apply Hst].
      intros j Hj. unfold prio. cbn. destruct (j <? 32) eqn:Ej; zb; [done|].
      assert (j <> irq) by (intros ->; by eapply Ha).
      by rewrite at_upd_ne by lia.
Qed.

(** ** The stack of active interrupts *)

Section chains.
Context (la : list (list Z)) (Hla : arr 1020 (arr 8 (in_range 16)) la).

(** An assignment outside of the chain, or for another processor. *)
Lemma chain_upd cpu c x l irq v :
  0 <= cpu < 8 -> 0 <= c < 8 -> 0 <= irq < 1020 -> (cpu = c -> irq ∉ l) ->
  chain la c x l -> chain (upd2 la irq cpu v) c x l.
Proof.
  intros Hcpu Hc Hi. revert x; induction l as [|y l IH]; intros x Hn; cbn; [done|].
  intros (-> & Hy & Hl). split; [done|]. split; [done|].
  rewrite (at_upd2 _ _ _ _ _ _ _ _ _ Hla) by lia.
  replace ((irq =? y) && (cpu =? c)) with false; [apply IH; set_solver|].
  symmetry. apply not_true_iff_false. intros H. zb. subst. set_solver.
Qed.
End chains.

(** The registers the stack of active interrupts and its order depend on. *)
Definition same_prio (s s' : GICState) : Prop :=
  frame s s' /\ priority1 s' = priority1 s /\ priority2 s' = priority2 s /\
  running_priority s' = running_priority s.

Lemma same_prio_prio s s' irq cpu : same_prio s s' -> prio s' irq cpu = prio s irq cpu.
Proof. intros (_ & E1 & E2 & _). unfold prio. by rewrite E1, E2. Qed.

Lemma same_prio_stack s s' cpu : same_prio s s' -> stack_ok s cpu -> stack_ok s' cpu.
Proof.
  intros H. pose proof H as [(? & ? & ? & ? & _) (? & ? & ?)].
  apply stack_ok_ext; [done..|]. intros. by apply same_prio_prio.
Qed.

(** [gic_set_running_irq] installs a new stack. *)
Lemma set_running_wf s cpu irq l :
  typed s -> sgi_ok s -> 0 <= cpu < num_cpu s ->
  (forall c, 0 <= c < num_cpu s -> c <> cpu -> stack_ok s c) ->
  chain (last_active s) cpu irq l -> Forall (fun x => x < num_irq s) l ->
  StronglySorted (better s cpu) l ->
  exists s', gic_set_running_irq s cpu irq = Ok s' /\ gic_wf s' /\ stack s' cpu l /\
    exists cp i f, s' = with_out {| s with
      running_irq := upd (running_irq s) cpu irq;
      running_priority := upd (running_priority s) cpu
        (match l with [] => 256 | x :: _ => prio s x cpu end) |} cp i f.
Proof.
  intros Ht Hsg Hc Hst Hch Hb Hs. pose proof (t_ncpu _ Ht) as Hn.
  set (pr := match l with [] => 256 | x :: _ => prio s x cpu end).
  assert (Hirq : in_range 16 irq /\ in_range 16 pr /\
    (if irq =? 1023 then Ok 0x100 else GIC_GET_PRIORITY s irq cpu) = Ok pr).
  { unfold pr. destruct l as [|y l']; cbn in Hch; [by subst|]. destruct Hch as (-> & Hy & _).
    rewrite (proj2 (Z.eqb_neq y 1023)) by lia. rewrite prio_ok by (done || lia).
    pose proof (prio_range s Ht y cpu Hy ltac:(lia)) as [? ?]. repeat split; lia. }
  destruct Hirq as (Hr1 & Hr2 & Ep).
  unfold gic_set_running_irq. rewrite (aset_in _ _ _ _ _ (t_ri _ Ht)) by lia. mon.
  change (GIC_GET_PRIORITY {| s with running_irq := _ |} irq cpu) with (GIC_GET_PRIORITY s irq cpu).
  rewrite Ep. mon. rewrite (aset_in _ _ _ _ _ (t_rp _ Ht)) by lia. mon.
  match goal with |- context [gic_update ?x] => set (s1 := x) end.
  assert (Hw1 : regs_wf s1).
  { constructor; [typ; by apply arr_upd| |exact Hsg].
    intros c Hc'. change (0 <= c < num_cpu s) in Hc'. destruct (decide (c = cpu)) as [->|Hne].
    - exists l. split; [|split; [exact Hb|split; [exact Hs|]]].
      + unfold stack. cbn. by rewrite (at_upd_eq _ _ _ _ _ (t_ri _ Ht)) by lia.
      + apply (at_upd_eq 8 (in_range 16)); [apply (t_rp _ Ht)|lia].
    - destruct (Hst c Hc' Hne) as (l' & Hl' & Hb' & Hs' & Hp').
      exists l'. split; [|split; [exact Hb'|split; [exact Hs'|]]].
      + unfold stack. cbn. by rewrite at_upd_ne by lia.
      + transitivity (running_priority s).[c]; [apply at_upd_ne; lia|exact Hp']. }
  destruct (gic_update_spec s1 (r_typed _ Hw1)) as (cp & i & f & E & Ht' & Hsy).
  exists (with_out s1 cp i f). split; [done|]. split.
  { constructor; [|done]. constructor; [done|exact (r_stack _ Hw1)|exact Hsg]. }
  split; [|by exists cp, i, f]. unfold stack. cbn.
  by rewrite (at_upd_eq _ _ _ _ _ (t_ri _ Ht)) by lia.
Qed.

(** ** Acknowledge *)

Lemma current_pending_cases s cpu :
  gic_wf s -> 0 <= cpu < num_cpu s ->
  (current_pending s).[cpu] = 1023 \/ is_best s cpu (current_pending s).[cpu].
Proof.
  intros Hg Hc. pose proof (g_synced _ Hg cpu Hc) as Hs. inversion Hs; auto.
Qed.

Lemma get_current_pending_ok s cpu attrs :
  gic_wf s -> 0 <= cpu < num_cpu s ->
  exists irq, gic_get_current_pending_irq s cpu attrs = Ok irq /\
    (irq = 1022 \/ irq = 1023 \/ (irq = (current_pending s).[cpu] /\ is_best s cpu irq)).
Proof.
  intros Hg Hc. pose proof (r_typed _ (g_regs _ Hg)) as Ht.
  pose proof (t_ncpu _ Ht). pose proof (t_nirq _ Ht).
  unfold gic_get_current_pending_irq, GIC_TEST_GROUP, GIC_MAXIRQ.
  rewrite (aget_in _ _ _ _ (t_cp _ Ht)) by lia. mon.
  destruct (current_pending_cases s cpu Hg Hc) as [->|Hb]; [cbn; eauto|].
  pose proof Hb as [Hr _]. destruct (_ && gic_has_groups s); [|eauto 6].
  rewrite irq_state_get by (done || lia). mon. case_match; [eauto|].
  rewrite (aget_in _ _ _ _ (t_cc _ Ht)) by lia. mon. case_match; eauto 6.
Qed.

(** A pending software interrupt has a sender. *)
Lemma sgi_sender s cpu irq :
  gic_wf s -> 0 <= cpu < num_cpu s -> is_11mpcore s = false -> 0 <= irq < 16 ->
  candidate s cpu irq = true -> (sgi_pending s).[irq].[cpu] <> 0.
Proof.
  intros Hg Hc H11 Hi Hcand. destruct (r_sgi _ (g_regs _ Hg) H11 irq Hi) as [He Hp].
  unfold candidate, is_pending in Hcand. rewrite He, H11 in Hcand. cbn in Hcand.
  rewrite orb_false_r in Hcand. zb. apply (Hp cpu Hc). by rewrite <- flag_bit by lia.
Qed.

Lemma clear_pending_ok s irq cm :
  typed s -> 0 <= irq < 1020 ->
  exists cm', clear_pending_model s irq cm =
      Ok (with_irq s irq (fun st => {| st with pending := u8 (Z.land (pending st) (Z.lnot cm')) |})) /\
    (cm' = cm \/ cm' = 255).
Proof.
  intros Ht Hi. unfold clear_pending_model, GIC_TEST_MODEL, GIC_CLEAR_PENDING.
  rewrite irq_state_get by done. mon. rewrite mod_irq_ok by done.
  destruct (model (st_of s irq)); eauto.
Qed.

Lemma clear_pending_wf s irq cm :
  regs_wf s -> 0 <= irq < 1020 ->
  exists s', clear_pending_model s irq cm = Ok s' /\ regs_wf s' /\ same_prio s s'.
Proof.
  intros Hw Hi. destruct (clear_pending_ok s irq cm (r_typed _ Hw) Hi) as (cm' & E & _).
  rewrite E. eexists; split; [done|].
  edestruct (mod_irq_wf s irq) as (s' & E' & -> & Hw' & Hf);
    [done|done|apply (step_clear_pending _ _ cm')|].
  split; [exact Hw'|]. split; [exact Hf|by repeat split].
Qed.

(** The part of [gic_acknowledge_irq] that takes the pending state away. *)
Lemma ack_pending_wf s cpu irq :
  regs_wf s -> 0 <= cpu < num_cpu s -> 0 <= irq < 1020 ->
  (is_11mpcore s = false -> irq < 16 -> (sgi_pending s).[irq].[cpu] <> 0) ->
  exists ret s',
    (if is_11mpcore s then
       s ← clear_pending_model s irq (bit cpu); Ok (irq, s)
     else if irq <? GIC_NR_SGIS then
       sp ← aget2 (sgi_pending s) irq cpu;
       if sp =? 0 then Fault AssertFailed else
       let src := ctz32 sp in
       let sp := u8 (Z.land sp (Z.lnot (bit src))) in
       a ← aset2 (sgi_pending s) irq cpu sp;
       let s := {| s with sgi_pending := a |} in
       s ← (if sp =? 0 then clear_pending_model s irq (bit cpu) else Ok s);
       Ok (Z.lor irq (Z.shiftl (Z.land src 0x7) 10), s)
     else
       s ← clear_pending_model s irq (bit cpu); Ok (irq, s)) = Ok (ret, s') /\
    regs_wf s' /\ same_prio s s' /\ (16 <= irq -> ret = irq).
Proof.
  intros Hw Hc Hi Hne. pose proof (r_typed _ Hw) as Ht. pose proof (t_ncpu _ Ht).
  destruct (clear_pending_wf s irq (bit cpu) Hw Hi) as (s1 & E1 & Hw1 & Hp1).
  destruct (is_11mpcore s) eqn:H11; [rewrite E1; mon; eauto 8|].
  unfold GIC_NR_SGIS. destruct (irq <? 16) eqn:El; zb; [|rewrite E1; mon; eauto 8].
  specialize (Hne eq_refl El). rewrite (aget2_in _ _ _ _ _ _ (t_sgi _ Ht)) by lia. mon.
  rewrite (proj2 (Z.eqb_neq _ _)) by done. cbv zeta.
  set (sp := u8 (Z.land _ _)). assert (Hsp : in_range 8 sp) by (apply wrap_range; lia).
  rewrite (aset2_in _ _ _ _ _ _ _ (t_sgi _ Ht)) by lia. mon.
  set (s2 := {| s with sgi_pending := _ |}).
  assert (Ht2 : typed s2) by (unfold s2; typ; apply arr_upd2; [done|lia|done]).
  assert (Hsg2 : forall j c, 0 <= j < 16 -> 0 <= c < num_cpu s ->
    (sgi_pending s2).[j].[c] = if (irq =? j) && (cpu =? c) then sp else (sgi_pending s).[j].[c]).
  { intros j c Hj Hc'. by apply (at_upd2 _ _ _ _ _ _ _ _ _ (t_sgi _ Ht)); lia. }
  clearbody sp. destruct (sp =? 0) eqn:E0; zb.
  - subst sp. destruct (clear_pending_ok s2 irq (bit cpu) Ht2 Hi) as (cm & -> & Hcm). mon.
    eexists _, _. split; [done|]. split; [|split; [by repeat split|lia]]. constructor.
    + apply with_irq_typed; [done..|irq_typ].
    + exact (r_stack _ Hw).
    + intros _ j Hj. destruct (r_sgi _ Hw H11 j Hj) as [He Hp].
      rewrite with_irq_st by (done || lia). change (st_of s2 j) with (st_of s j).
      change (st_of s2 irq) with (st_of s irq). split.
      { destruct (irq =? j) eqn:E; zb; [by subst|done]. }
      intros c Hc' Hb. change (sgi_pending (with_irq s2 irq _)) with (sgi_pending s2).
      change (num_cpu (with_irq s2 irq _)) with (num_cpu s) in Hc'.
      rewrite Hsg2 by done. destruct (irq =? j) eqn:E; zb; cbn [andb]; [|by apply Hp].
      subst j. destruct (cpu =? c) eqn:E'; zb.
      * subst c. exfalso. cbn [pending] in Hb. rewrite testbit_u8 in Hb by lia.
        rewrite Z.land_spec, Z.lnot_spec in Hb by lia. zb.
        destruct Hcm as [->| ->].
        -- rewrite testbit_bit in H1 by lia. zb. lia.
        -- change 255 with (Z.ones 8) in H1. rewrite Z.ones_spec_low in H1 by lia. done.
      * apply Hp; [done|]. cbn [pending] in Hb. by eapply testbit_land_l; [lia|].
  - mon. eexists _, _. split; [done|]. split; [|split; [by repeat split|lia]].
    constructor; [done|exact (r_stack _ Hw)|].
    intros _ j Hj. destruct (r_sgi _ Hw H11 j Hj) as [He Hp]. split; [exact He|].
    intros c Hc' Hb. rewrite Hsg2 by done.
    destruct ((irq =? j) && (cpu =? c)); [done|by apply Hp].
Qed.

(** Pushing an interrupt on the stack of a processor. *)
Lemma push_wf s cpu irq v :
  regs_wf s -> 0 <= cpu < num_cpu s -> 0 <= irq < 1020 -> ~ is_active s cpu irq -> in_range 16 v ->
  regs_wf {| s with last_active := upd2 (last_active s) irq cpu v |}.
Proof.
  intros [Ht Hst Hsg] Hc Hi Hna Hv. pose proof (t_ncpu _ Ht).
  constructor; [|intros c Hc'|exact Hsg].
  - typ. apply arr_upd2; [done|lia|done].
  - destruct (Hst c Hc') as (l & Hl & Hrest). exists l. split; [|exact Hrest].
    apply chain_upd; [apply Ht|lia|change (0 <= c < num_cpu s) in Hc'; lia|lia| |exact Hl].
    intros -> Hin. apply Hna. by exists l.
Qed.

Lemma gic_acknowledge_wf s cpu attrs :
  gic_wf s -> 0 <= cpu < num_cpu s ->
  exists ret s', gic_acknowledge_irq s cpu attrs = Ok (ret, s') /\ gic_wf s' /\
    ((s' = s /\ forall irq, gic_get_current_pending_irq s cpu attrs = Ok irq -> irq < 1020 ->
        (running_priority s).[cpu] <= prio s irq cpu) \/
     exists irq l, gic_get_current_pending_irq s cpu attrs = Ok irq /\
       is_best s cpu irq /\ prio s irq cpu < (running_priority s).[cpu] /\
       (16 <= irq -> ret = irq) /\ stack s cpu l /\ stack s' cpu (irq :: l)).
Proof.
  intros Hg Hc. pose proof (g_regs _ Hg) as Hw. pose proof (r_typed _ Hw) as Ht.
  pose proof (t_ncpu _ Ht). pose proof (t_nirq _ Ht).
  destruct (get_current_pending_ok s cpu attrs Hg Hc) as (irq & E & Hirq).
  unfold gic_acknowledge_irq. rewrite E. mon. unfold GIC_MAXIRQ.
  destruct (irq >=? 1020) eqn:Ei; zb.
  { eexists _, _. split; [done|]. split; [done|]. left. split; [done|]. intros j [= <-]. lia. }
  destruct Hirq as [?|[?|[Ecp Hb]]]; [lia..|]. pose proof Hb as (Hr & Hcand & _).
  rewrite prio_ok by (done || lia). mon. rewrite (aget_in _ _ _ _ (t_rp _ Ht)) by lia. mon.
  destruct (prio s irq cpu >=? _) eqn:Ep; zb.
  { eexists _, _. split; [done|]. split; [done|]. left. split; [done|]. by intros j [= <-]. }
  rewrite (aget_in _ _ _ _ (t_ri _ Ht)) by lia. mon.
  rewrite (aset2_in _ _ _ _ _ _ _ (t_la _ Ht)) by lia. mon.
  set (s1 := {| s with last_active := _ |}).
  destruct (r_stack _ Hw cpu Hc) as (l & Hl & Hbl & Hsl & Hrp).
  assert (Hbetter : Forall (better s cpu irq) l).
  { destruct l as [|x l']; [done|]. rewrite Hrp in Ep. inversion Hsl; subst.
    constructor; [done|]. eapply Forall_impl; [done|]. unfold better. cbn. intros. lia. }
  assert (Hna : ~ is_active s cpu irq).
  { intros (l' & Hl' & Hin). rewrite <- (active_chain_det _ _ _ _ _ Hl Hl') in Hin.
    rewrite Forall_forall in Hbetter. specialize (Hbetter irq Hin). unfold better in Hbetter. lia. }
  assert (Hw1 : regs_wf s1).
  { apply push_wf; [done..|lia|done|]. apply (arr_at _ _ _ _ (t_ri _ Ht)). lia. }
  destruct (ack_pending_wf s1 cpu irq Hw1 Hc ltac:(lia)) as (ret & s2 & E2 & Hw2 & Hp2 & Hret).
  { intros H11 Hlt. apply (sgi_sender s cpu irq); [done..|lia|done]. }
  cbv zeta in E2 |- *. rewrite E2. mon.
  destruct (set_running_wf s2 cpu irq (irq :: l)) as (s3 & E3 & Hg3 & Hst3 & _).
  - apply Hw2.
  - apply Hw2.
  - destruct Hp2 as [(_ & _ & -> & _) _]. done.
  - intros c Hc' _. by apply (r_stack _ Hw2).
  - destruct Hp2 as [(-> & _) _]. cbn. split; [done|]. split; [lia|].
    rewrite (at_upd2 _ _ _ _ _ _ _ _ _ (t_la _ Ht)) by lia.
    rewrite !Z.eqb_refl. cbn [andb]. apply chain_upd; [apply Ht|lia..| |exact Hl].
    intros _ Hin. apply Hna. by exists l.
  - pose proof Hp2 as [(_ & _ & _ & -> & _) _]. constructor; [exact (proj2 Hr)|exact Hbl].
  - apply (sorted_ext s); [intros; by apply (same_prio_prio s1)|by constructor].
  - rewrite E3. mon. eexists ret, s3. split; [done|]. split; [done|]. right.
    exists irq, l. done.
Qed.

(** ** End of interrupt *)

Lemma forall_filter {A} (Q P : A -> Prop) `{forall x, Decision (P x)} l :
  Forall Q l -> Forall Q (filter P l).
Proof.
  rewrite !Forall_forall. intros HQ x Hx. apply HQ. by apply list_elem_of_filter in Hx as [_ ?].
Qed.

Lemma sorted_filter {A} (R : A -> A -> Prop) (P : A -> Prop) `{forall x, Decision (P x)} l :
  StronglySorted R l -> StronglySorted R (filter P l).
Proof.
  induction 1 as [|x l Hs IH Hx]; [constructor|]. rewrite filter_cons. case_decide; [|done].
  constructor; [done|]. by apply forall_filter.
Qed.

(** The loop takes [irq] out of the part of the chain below [tmp]. *)
Lemma complete_loop_ok cpu irq l : forall fuel s tmp,
  typed s -> 0 <= cpu < 8 -> chain (last_active s) cpu tmp (tmp :: l) -> NoDup (tmp :: l) ->
  (length l < fuel)%nat ->
  exists la, complete_loop fuel s cpu irq tmp = Ok {| s with last_active := la |} /\
    arr 1020 (arr 8 (in_range 16)) la /\
    chain la cpu tmp (tmp :: filter (fun x => x <> irq) l) /\
    (forall z, 0 <= z < 1020 -> z ∉ tmp :: l -> la.[z].[cpu] = (last_active s).[z].[cpu]) /\
    (forall c x k, 0 <= c < 8 -> c <> cpu -> chain (last_active s) c x k -> chain la c x k).
Proof.
  induction l as [|y l IH]; intros fuel s tmp Ht Hc Hch Hnd Hf;
    (destruct fuel as [|fuel]; [cbn in Hf; lia|]); cbn [complete_loop];
    destruct Hch as (_ & Htmp & Hch).
  - rewrite (aget2_in _ _ _ _ tmp _ (t_la _ Ht)) by done. mon. cbn in Hch. rewrite Hch. cbn.
    exists (last_active s). split; [by destruct s|]. split; [apply Ht|]. split; [by cbn|]. split; [done|auto].
  - rewrite (aget2_in _ _ _ _ tmp _ (t_la _ Ht)) by done. mon.
    pose proof Hch as (Ey & Hy & Hch'). rewrite Ey.
    rewrite (proj2 (Z.eqb_neq y 1023)) by lia.
    apply NoDup_cons in Hnd as [Hntmp Hnd]. pose proof Hnd as [Hny Hndl]%NoDup_cons.
    destruct (y =? irq) eqn:Eirq; zb.
    + subst irq. rewrite (aget2_in _ _ _ _ _ _ (t_la _ Ht)) by done. mon.
      rewrite (aset2_in _ _ _ _ _ _ _ (t_la _ Ht)) by done. mon.
      set (v := (last_active s).[y].[cpu]) in *.
      exists (upd2 (last_active s) tmp cpu v). split; [done|].
      assert (Hv : in_range 16 v).
      { apply (arr_at 8 _ _ cpu); [|done]. by apply (arr_at _ _ _ _ (t_la _ Ht)). }
      split; [apply arr_upd2; [apply Ht|done..]|]. split; [|split].
      * split; [done|]. split; [done|]. rewrite (at_upd2 _ _ _ _ _ _ _ _ _ (t_la _ Ht)) by lia.
        rewrite !Z.eqb_refl. cbn [andb]. rewrite filter_cons_False by naive_solver.
        rewrite filter_id by (intros x Hx ->; done).
        apply chain_upd; [apply Ht|done..| |done]. intros _. set_solver.
      * intros z Hz Hnz. rewrite (at_upd2 _ _ _ _ _ _ _ _ _ (t_la _ Ht)) by lia.
        rewrite (proj2 (Z.eqb_neq tmp z)) by set_solver. done.
      * intros c x k Hc' Hne Hk. apply chain_upd; [apply Ht|done..| |done]. naive_solver.
    + destruct (IH fuel s y Ht Hc) as (la & E & Hla & Hch2 & Hout & Hoth);
        [by rewrite Ey in Hch|done|cbn in Hf; lia|].
      exists la. split; [done|]. split; [done|]. split; [|split; [|done]].
      * split; [done|]. split; [done|]. rewrite Hout by done. rewrite Ey.
        by rewrite filter_cons_True by done.
      * intros z Hz Hnz. apply Hout; [done|set_solver].
Qed.

Lemma stack_length s cpu l :
  stack s cpu l -> StronglySorted (better s cpu) l -> (length l <= 1020)%nat.
Proof.
  intros Hl Hs. pose proof (bounded_length l 1020 (sorted_NoDup _ _ _ Hs)) as H.
  specialize (H (fun x Hx => chain_bound _ _ _ _ _ Hl Hx)). lia.
Qed.

(** What [gic_complete_irq] does with the chain once the pending state is dealt
    with: [irq] leaves the stack. *)
Lemma complete_chain_wf s cpu irq running (update : bool) l :
  regs_wf s -> 0 <= cpu < num_cpu s -> running <> 1023 -> stack s cpu l ->
  (running_irq s).[cpu] = running -> (update = false -> synced s) ->
  exists s',
    (if negb (irq =? running) then
       s ← complete_loop chain_fuel s cpu irq running;
       if update then gic_update s else Ok s
     else
       next ← aget2 (last_active s) running cpu;
       gic_set_running_irq s cpu next) = Ok s' /\ gic_wf s' /\
    stack s' cpu (filter (fun x => x <> irq) l).
Proof.
  intros Hw Hc Hrun Hl Eri Hsy. pose proof (r_typed _ Hw) as Ht. pose proof (t_ncpu _ Ht).
  destruct (r_stack _ Hw cpu Hc) as (l' & Hl' & Hbl & Hsl & Hrp).
  rewrite (active_chain_det _ _ _ _ _ Hl' Hl) in *. clear l' Hl'.
  unfold stack in Hl. rewrite Eri in Hl.
  destruct l as [|x l]; [done|]. pose proof Hl as (<- & Hx & Hl2).
  pose proof (sorted_NoDup _ _ _ Hsl) as Hnd.
  destruct (irq =? running) eqn:E; zb; cbn [negb].
  - subst irq. rewrite (aget2_in _ _ _ _ _ _ (t_la _ Ht)) by lia. mon.
    rewrite filter_cons_False by naive_solver.
    rewrite filter_id by (intros z Hz ->; by apply NoDup_cons in Hnd as [? _]).
    inversion Hsl; inversion Hbl; subst.
    destruct (set_running_wf s cpu (last_active s).[(running_irq s).[cpu]].[cpu] l)
      as (s' & E' & Hg' & Hst' & _); [done|apply Hw|done| |done..|by exists s'].
    intros; by apply (r_stack _ Hw).
  - rewrite filter_cons_True by (intros ->; done).
    destruct (complete_loop_ok cpu irq l chain_fuel s running) as (la & E' & Hla & Hch & Hout & Hoth);
      [done|lia|done|done| |].
    { pose proof (stack_length s cpu (running :: l)) as HL. unfold stack in HL. rewrite Eri in HL.
      specialize (HL Hl Hsl). unfold chain_fuel, GIC_MAXIRQ. cbn [length] in HL. lia. }
    rewrite E'. mon. set (s1 := {| s with last_active := la |}).
    assert (Hst1 : stack s1 cpu (running :: filter (fun x => x <> irq) l)).
    { unfold stack, s1. cbn -[chain]. by rewrite Eri. }
    assert (Hw1 : regs_wf s1).
    { constructor; [unfold s1; typ| |exact (r_sgi _ Hw)].
      intros c Hc'. change (0 <= c < num_cpu s) in Hc'.
      destruct (decide (c = cpu)) as [->|Hne].
      - exists (running :: filter (fun x => x <> irq) l). split; [done|].
        inversion Hsl; inversion Hbl; subst. split; [|split].
        + constructor; [done|]. by apply forall_filter.
        + constructor; [by apply sorted_filter|by apply forall_filter].
        + exact Hrp.
      - destruct (r_stack _ Hw c Hc') as (k & Hk & Hrest). exists k. split; [|exact Hrest].
        apply Hoth; [lia|done|exact Hk]. }
    destruct update.
    + destruct (update_wf s1 Hw1) as (s2 & -> & Hg2 & Hf2). exists s2. split; [done|].
      split; [done|]. destruct Hf2 as (E1 & E2 & _). unfold stack. by rewrite E1, E2.
    + exists s1. split; [done|]. split; [|done]. split; [done|].
      intros c Hc'. apply (signals_ext s); [done|]. exact (Hsy eq_refl c Hc').
Qed.

Lemma gic_complete_wf s cpu irq attrs :
  gic_wf s -> 0 <= cpu < num_cpu s -> 0 <= irq ->
  exists s', gic_complete_irq s cpu irq attrs = Ok s' /\ gic_wf s' /\
    (irq < num_irq s -> ns_access s attrs = false ->
     forall l, stack s cpu l -> stack s' cpu (filter (fun x => x <> irq) l)).
Proof.
  intros Hg Hc Hi. pose proof (g_regs _ Hg) as Hw. pose proof (r_typed _ Hw) as Ht.
  pose proof (t_ncpu _ Ht). pose proof (t_nirq _ Ht).
  unfold gic_complete_irq, GIC_TEST_EDGE_TRIGGER, GIC_TEST_ENABLED, GIC_TEST_LEVEL, GIC_TEST_GROUP,
    GIC_SET_PENDING.
  destruct (irq >=? num_irq s) eqn:Ei; zb; [exists s; split; [done|]; split; [done|]; lia|].
  rewrite (aget_in _ _ _ _ (t_ri _ Ht)) by lia. mon.
  destruct ((running_irq s).[cpu] =? 1023) eqn:Er; zb.
  { exists s. split; [done|]. split; [done|]. intros _ _ l Hl.
    pose proof Hl as Hl'. unfold stack in Hl'. destruct l as [|x l]; [done|].
    rewrite Er in Hl'. cbn in Hl'. lia. }
  rewrite irq_state_get by (done || lia). rewrite target_ok by (done || lia). mon.
  destruct (r_stack _ Hw cpu Hc) as (l & Hl & _).
  set (r := if is_11mpcore s then _ else Ok (s, false)).
  assert (Hr : exists s1 (u : bool), r = Ok (s1, u) /\ regs_wf s1 /\ frame s s1 /\
    (u = false -> s1 = s) /\ (u = true -> is_11mpcore s = true)).
  { unfold r. destruct (is_11mpcore s) eqn:H11; [|exists s, false; split; [done|]; split; [done|]; split; [reflexivity|done]].
    case_match; [|exists s, false; split; [done|]; split; [done|]; split; [reflexivity|done]].
    edestruct (mod_irq_wf s irq) as (s1 & E1 & _ & Hw1 & Hf1); [done|lia| |rewrite E1; mon; by exists s1, true].
    split; [irq_typ|]. congruence. }
  destruct Hr as (s1 & u & -> & Hw1 & Hf1 & Hu & Hu11). mon.
  rewrite (irq_state_get s1 (r_typed _ Hw1)) by lia. mon.
  assert (Ens : ns_access s1 attrs = ns_access s attrs).
  { unfold ns_access. destruct Hf1 as (_ & _ & _ & _ & _ & ->). done. }
  rewrite Ens. destruct (ns_access s attrs && _) eqn:Egrp; zb.
  - destruct u; [|rewrite (Hu eq_refl); exists s; split; [done|]; split; [done|congruence]].
    unfold ns_access in H1. zb. pose proof (t_sec _ Ht H1). specialize (Hu11 eq_refl). congruence.
  - pose proof Hf1 as (Ela & Eri & Enc & _).
    destruct (complete_chain_wf s1 cpu irq (running_irq s).[cpu] u l) as (s' & -> & Hg' & Hst');
      [done|by rewrite Enc|done|unfold stack; by rewrite Ela, Eri|by rewrite Eri| |].
    { intros Hf. rewrite (Hu Hf). apply Hg. }
    exists s'. split; [done|]. split; [done|]. intros _ _ l' Hl'.
    by rewrite (active_chain_det _ _ _ _ _ Hl' Hl).
Qed.
