(* ===== verification/GicRegs.v ===== *)
(** * The interrupt controller: its registers keep the invariant

    Reads and writes of the distributor and of the interfaces of the processors
    return on every state that satisfies the invariant and keep it, for the
    accesses a well-behaved guest makes; [GicTheorems] shows what the others
    do. *)

From S2P Require Import Prelude CArray Gic GicProofs GicOps.

Lemma typed_irq8 s k i :
  typed s -> 0 <= k -> k * 8 + GIC_BASE_IRQ s < num_irq s -> 0 <= i < 8 ->
  0 <= k * 8 + GIC_BASE_IRQ s + i < num_irq s.
Proof.
  intros Ht Hk Hlt Hi. pose proof (t_mod _ Ht) as Hm. apply Z.mod_divide in Hm; [|lia].
  destruct Hm as [q Hq]. unfold GIC_BASE_IRQ in *. case_match; lia.
Qed.

Lemma typed_irq4 s k i :
  typed s -> 0 <= k -> k * 4 + GIC_BASE_IRQ s < num_irq s -> 0 <= i < 4 ->
  0 <= k * 4 + GIC_BASE_IRQ s + i < num_irq s.
Proof.
  intros Ht Hk Hlt Hi. pose proof (t_mod _ Ht) as Hm. apply Z.mod_divide in Hm; [|lia].
  destruct Hm as [q Hq]. unfold GIC_BASE_IRQ in *. case_match; lia.
Qed.

(** ** The loops of a register write *)

(** A computation that yields a state with the invariant of the registers. *)
Definition keeps (s : GICState) (r : res GICState) : Prop :=
  exists s', r = Ok s' /\ regs_wf s' /\ frame s s'.

Lemma keeps_refl s : regs_wf s -> keeps s (Ok s).
Proof. intros. exists s. split; [done|]. split; [done|reflexivity]. Qed.

Lemma keeps_mod s irq f :
  regs_wf s -> 0 <= irq < 1020 -> irq_step s irq f -> keeps s (mod_irq s irq f).
Proof.
  intros Hw Hi Hf. destruct (mod_irq_wf s irq f Hw Hi Hf) as (s' & E & _ & Hw' & Hfr).
  by exists s'.
Qed.

Lemma keeps_bind s r k :
  keeps s r -> (forall s', regs_wf s' -> frame s s' -> keeps s' (k s')) -> keeps s (r ≫= k).
Proof.
  intros (s1 & -> & Hw1 & Hf1) Hk. destruct (Hk s1 Hw1 Hf1) as (s2 & E & Hw2 & Hf2).
  exists s2. split; [done|]. split; [done|]. by transitivity s1.
Qed.

Lemma keeps_cfor s n round :
  0 <= n -> regs_wf s ->
  (forall i s', 0 <= i < n -> regs_wf s' -> frame s s' -> keeps s' (round i s')) ->
  keeps s (cfor 0 n round s).
Proof.
  intros Hn Hw Hr.
  apply (cfor_inv (fun s' => regs_wf s' /\ frame s s')); [done| |by split].
  intros i s1 Hi [Hw1 Hf1]. destruct (Hr i s1 Hi Hw1 Hf1) as (s2 & E & Hw2 & Hf2).
  exists s2. split; [done|]. split; [done|]. by transitivity s1.
Qed.

Section rounds.
Context (s : GICState) (Hw : regs_wf s) (cpu irq value i : Z).
Context (Hi : 0 <= irq + i < 1020).

Lemma group_round_wf : keeps s (group_round cpu irq value i s).
Proof.
  unfold group_round, GIC_SET_GROUP, GIC_CLEAR_GROUP. cbv zeta.
  case_match; (apply keeps_mod; [done..|apply step_other; [done|irq_typ]]).
Qed.

Lemma disable_round_wf : keeps s (disable_round cpu irq value i s).
Proof.
  unfold disable_round, GIC_CLEAR_ENABLED. cbv zeta. case_match; [|by apply keeps_refl].
  apply keeps_mod; [done..|apply step_other; [done|irq_typ]].
Qed.

Lemma clear_pending_round_wf : keeps s (clear_pending_round irq value i s).
Proof.
  unfold clear_pending_round, GIC_CLEAR_PENDING. case_match; [|by apply keeps_refl].
  apply keeps_mod; [done..|apply step_clear_pending].
Qed.

Lemma set_pending_round_wf :
  (irq + i < 16 -> value = 0) -> keeps s (set_pending_round irq value i s).
Proof.
  intros Hv. unfold set_pending_round, GIC_SET_PENDING.
  destruct (flag_set value (bit i)) eqn:E; [|by apply keeps_refl].
  assert (16 <= irq + i).
  { destruct (decide (irq + i < 16)) as [H|]; [|lia]. rewrite (Hv H) in E. done. }
  rewrite (target_ok s (r_typed _ Hw)) by done. mon.
  apply keeps_mod; [done..|apply step_hw; [done|irq_typ]].
Qed.

Lemma enable_round_wf : keeps s (enable_round cpu irq value i s).
Proof.
  unfold enable_round, GIC_SET_ENABLED, GIC_SET_PENDING, GIC_TEST_LEVEL, GIC_TEST_EDGE_TRIGGER.
  case_match; [|by apply keeps_refl]. rewrite (target_ok s (r_typed _ Hw)) by done.
  set (m := if irq <? GIC_INTERNAL then Ok _ else _).
  assert (Hm : exists x, m = Ok x) by (unfold m; case_match; eauto). destruct Hm as [x ->]. mon.
  apply keeps_bind.
  { apply keeps_mod; [done..|apply step_other; [done|irq_typ]]. }
  intros s1 Hw1 Hf1. rewrite (irq_state_get s1 (r_typed _ Hw1)) by done. mon.
  destruct (_ && _) eqn:E; [|by apply keeps_refl]. zb.
  apply keeps_mod; [done..|]. split; [irq_typ|].
  intros Hlt H11 He. congruence.
Qed.

Lemma config_round_wf :
  (irq + i < 16 -> flag_set value (Z.shiftl 2 (i * 2)) = true) ->
  keeps s (config_round irq value i s).
Proof.
  intros Hv. unfold config_round, GIC_SET_MODEL, GIC_CLEAR_MODEL, GIC_SET_EDGE_TRIGGER,
    GIC_CLEAR_EDGE_TRIGGER.
  apply keeps_bind.
  { case_match; [|by apply keeps_refl].
    case_match; (apply keeps_mod; [done..|apply step_other; [done|irq_typ]]). }
  intros s1 Hw1 Hf1. destruct (flag_set value (Z.shiftl 2 (i * 2))) eqn:E.
  - apply keeps_mod; [done..|apply step_set_edge].
  - apply keeps_mod; [done..|]. apply step_hw; [|irq_typ].
    destruct (decide (irq + i < 16)) as [H|]; [|lia]. specialize (Hv H). congruence.
Qed.
End rounds.

Lemma sgi_config_edge value i : 0 <= i < 4 -> flag_set (Z.lor value 0xaa) (Z.shiftl 2 (i * 2)) = true.
Proof.
  intros Hi. replace (Z.shiftl 2 (i * 2)) with (bit (i * 2 + 1)).
  - rewrite flag_bit by lia. rewrite Z.lor_spec.
    assert (i = 0 \/ i = 1 \/ i = 2 \/ i = 3) as [-> | [-> | [-> | ->]]] by lia; apply orb_true_r.
  - unfold bit. rewrite Z.add_comm, <- Z.shiftl_shiftl by lia. done.
Qed.

(** ** A byte written to the distributor *)

(** What a guest must respect: the priority of an active interrupt stays, and
    the registers that make software interrupts pending name a sender. *)
Definition byte_ok (s : GICState) (offset value : Z) : Prop :=
  (0x400 <= offset < 0x800 ->
     forall c, 0 <= c < num_cpu s -> ~ is_active s c (offset - 0x400 + GIC_BASE_IRQ s)) /\
  (0xf20 <= offset < 0xf30 -> is_11mpcore s = false -> u8 value <> 0).

(** An outcome of [dist_writeb_body]. *)
Definition body_ok (s : GICState) (r : res (option GICState)) : Prop :=
  r = Ok None \/ exists s', r = Ok (Some s') /\ regs_wf s' /\ frame s s'.

Lemma body_some s r : keeps s r -> body_ok s (Some <$> r).
Proof. intros (s' & -> & Hw & Hf). right. by exists s'. Qed.

Lemma body_same s : regs_wf s -> body_ok s (Ok (Some s)).
Proof. intros Hw. apply (body_some s (Ok s)), keeps_refl, Hw. Qed.

(** The stores of the software interrupts' senders. *)
Lemma set_sgi_wf s irq cpu v :
  regs_wf s -> 0 <= irq < 16 -> 0 <= cpu < 8 -> in_range 8 v ->
  (is_11mpcore s = false -> v <> 0) ->
  regs_wf {| s with sgi_pending := upd2 (sgi_pending s) irq cpu v |}.
Proof.
  intros [Ht Hst Hsg] Hi Hc Hv Hne. constructor; [|exact Hst|].
  - typ. apply arr_upd2; [done|lia|done].
  - intros H11 j Hj. destruct (Hsg H11 j Hj) as [He Hp]. split; [exact He|].
    intros c Hc' Hb. cbn [sgi_pending].
    rewrite (at_upd2 _ _ _ _ _ _ _ _ _ (t_sgi _ Ht)) by (cbn in *; lia).
    case_match; [by apply Hne|by apply Hp].
Qed.

Lemma with_ctlr_wf s v : regs_wf s -> in_range 32 v -> regs_wf {| s with ctlr := v |}.
Proof. intros [Ht Hst Hsg] Hv. constructor; [typ|exact Hst|exact Hsg]. Qed.

Lemma deposit32_range v i n x : in_range 32 v -> 0 <= i -> 0 <= n -> in_range 32 (deposit32 v i n x).
Proof.
  intros Hv Hi Hn. unfold deposit32.
  apply lor_range; [lia|apply land_range; [lia|done|apply wrap_range; lia]|].
  apply land_range; [lia|apply wrap_range; lia|]. apply Z.shiftl_nonneg. rewrite Z.ones_equiv.
  pose proof (Z.pow_pos_nonneg 2 n). lia.
Qed.

Lemma ctlr_write_wf s value attrs :
  regs_wf s -> in_range 32 value ->
  body_ok s (Ok (Some (if ns_access s attrs then {| s with ctlr := deposit32 (ctlr s) 1 1 value |}
    else if gic_has_groups s then
      {| s with ctlr := Z.land value (Z.lor GICD_CTLR_EN_GRP0 GICD_CTLR_EN_GRP1) |}
    else {| s with ctlr := Z.land value GICD_CTLR_EN_GRP0 |}))).
Proof.
  intros Hw Hv. right. eexists; split; [done|]. repeat case_match; (split; [|by repeat split]);
    apply with_ctlr_wf; try done.
  - apply deposit32_range; [apply Hw|lia..].
  - by apply land_range.
  - by apply land_range.
Qed.

Lemma land_mask_range v : in_range 8 (Z.land v ALL_CPU_MASK).
Proof. change ALL_CPU_MASK with (Z.ones 8). rewrite (Z.land_ones v 8) by lia. apply wrap_range. lia. Qed.

Lemma target_write_wf s irq v :
  regs_wf s -> 0 <= irq < 1020 ->
  body_ok s (a ← aset (irq_target s) irq (Z.land v ALL_CPU_MASK); Ok (Some {| s with irq_target := a |})).
Proof.
  intros Hw Hi. pose proof (r_typed _ Hw) as Ht.
  rewrite (aset_in _ _ _ _ _ (t_tgt _ Ht)) by done. mon. right. eexists; split; [done|].
  split; [|by repeat split]. destruct Hw as [_ Hst Hsg]. constructor; [|exact Hst|exact Hsg].
  typ. apply arr_upd; [done|apply land_mask_range].
Qed.

(** Clearing the senders of a software interrupt. *)
Lemma cpendsgi_wf s irq cpu value :
  regs_wf s -> 0 <= irq < 16 -> 0 <= cpu < num_cpu s -> is_11mpcore s = false ->
  body_ok s (
    sp ← aget2 (sgi_pending s) irq cpu;
    let sp := u8 (Z.land sp (Z.lnot value)) in
    a ← aset2 (sgi_pending s) irq cpu sp;
    let s := {| s with sgi_pending := a |} in
    if sp =? 0 then Some <$> GIC_CLEAR_PENDING s irq (bit cpu) else Ok (Some s)).
Proof.
  intros Hw Hi Hc H11. pose proof (r_typed _ Hw) as Ht. pose proof (t_ncpu _ Ht).
  rewrite (aget2_in _ _ _ _ _ _ (t_sgi _ Ht)) by lia. mon. cbv zeta.
  set (sp := u8 _). assert (Hsp : in_range 8 sp) by (apply wrap_range; lia). clearbody sp.
  rewrite (aset2_in _ _ _ _ _ _ _ (t_sgi _ Ht)) by lia. mon.
  set (s1 := {| s with sgi_pending := _ |}).
  assert (Ht1 : typed s1) by (unfold s1; typ; apply arr_upd2; [done|lia|done]).
  destruct (sp =? 0) eqn:E0; zb.
  - unfold GIC_CLEAR_PENDING. rewrite (mod_irq_ok s1 Ht1) by lia. right. eexists; split; [done|].
    split; [|by repeat split]. constructor; [apply with_irq_typed; [done|lia|irq_typ]|exact (r_stack _ Hw)|].
    intros _ j Hj. destruct (r_sgi _ Hw H11 j Hj) as [He Hp].
    rewrite with_irq_st by (done || lia). change (st_of s1 ?x) with (st_of s x).
    split; [destruct (irq =? j) eqn:E; zb; [by subst|done]|].
    intros c Hc' Hb. change (num_cpu (with_irq s1 irq _)) with (num_cpu s) in Hc'.
    change (sgi_pending (with_irq s1 irq _)) with (sgi_pending s1). unfold s1; cbn [sgi_pending].
    rewrite (at_upd2 _ _ _ _ _ _ _ _ _ (t_sgi _ Ht)) by lia.
    destruct (irq =? j) eqn:E; zb; cbn [andb]; [|by apply Hp]. subst j.
    cbn [pending] in Hb. destruct (cpu =? c) eqn:E'; zb.
    + subst c. rewrite testbit_u8, Z.land_spec, Z.lnot_spec, testbit_bit, Z.eqb_refl in Hb by lia.
      by rewrite andb_false_r in Hb.
    + apply Hp; [done|]. by eapply testbit_land_l; [lia|].
  - right. exists s1. split; [done|]. split; [|by repeat split].
    by apply set_sgi_wf; [|lia..| | ].
Qed.

(** Setting them. *)
Lemma spendsgi_wf s irq cpu value :
  regs_wf s -> 0 <= irq < 16 -> 0 <= cpu < num_cpu s -> is_11mpcore s = false -> u8 value <> 0 ->
  body_ok s (
    s ← GIC_SET_PENDING s irq (bit cpu);
    sp ← aget2 (sgi_pending s) irq cpu;
    a ← aset2 (sgi_pending s) irq cpu (u8 (Z.lor sp value));
    Ok (Some {| s with sgi_pending := a |})).
Proof.
  intros Hw Hi Hc H11 Hv. pose proof (r_typed _ Hw) as Ht. pose proof (t_ncpu _ Ht).
  unfold GIC_SET_PENDING. rewrite mod_irq_ok by (done || lia). mon.
  set (s1 := with_irq s irq _).
  assert (Ht1 : typed s1) by (apply with_irq_typed; [done|lia|irq_typ]).
  rewrite (aget2_in _ _ _ _ _ _ (t_sgi _ Ht1)) by lia. mon.
  rewrite (aset2_in _ _ _ _ _ _ _ (t_sgi _ Ht1)) by lia. mon.
  set (sp := u8 (Z.lor _ value)).
  assert (Hsp : in_range 8 sp) by (apply wrap_range; lia).
  assert (Hne : sp <> 0).
  { intros E. apply Hv. unfold sp, wrap in E. apply Z.bits_inj'. intros k Hk. rewrite Z.bits_0.
    destruct (decide (k < 8)).
    - apply (f_equal (fun z => Z.testbit z k)) in E. rewrite Z.bits_0 in E.
      rewrite Z.mod_pow2_bits_low, Z.lor_spec in E by lia. rewrite testbit_u8 by lia.
      by apply orb_false_iff in E as [_ ?].
    - unfold wrap. by rewrite Z.mod_pow2_bits_high by lia. }
  clearbody sp. right. eexists; split; [done|]. split; [|by repeat split].
  constructor; [typ; apply arr_upd2; [done|lia|done]|exact (r_stack _ Hw)|].
  intros _ j Hj. destruct (r_sgi _ Hw H11 j Hj) as [He Hp].
  change (st_of {| s1 with sgi_pending := _ |} j) with (st_of s1 j).
  pose proof (with_irq_st s irq (fun st => {| st with pending := u8 (Z.lor (pending st) (bit cpu)) |}) j
    Ht ltac:(lia) ltac:(lia)) as Est. fold s1 in Est. rewrite Est. split; [destruct (irq =? j) eqn:E; zb; [by subst|done]|].
  intros c Hc' Hb. change (0 <= c < num_cpu s) in Hc'. cbn [sgi_pending].
  rewrite (at_upd2 _ _ _ _ _ _ _ _ _ (t_sgi _ Ht1)) by lia.
  change (sgi_pending s1) with (sgi_pending s).
  revert Hb. destruct (irq =? j) eqn:E; zb; cbn [andb]; [|by apply Hp]. subst j. intros Hb.
  destruct (cpu =? c) eqn:E'; zb; [done|]. apply Hp; [done|].
  cbn [pending] in Hb. rewrite testbit_u8, Z.lor_spec, testbit_bit in Hb by lia.
  rewrite (proj2 (Z.eqb_neq cpu c)) in Hb by done. by rewrite orb_false_r in Hb.
Qed.

Lemma base_nonneg s : 0 <= GIC_BASE_IRQ s <= 32.
Proof. unfold GIC_BASE_IRQ. case_match; lia. Qed.

(** The frame keeps what the loops of a register write compute with. *)
Lemma keeps_loop s n round :
  regs_wf s -> 0 <= n -> (forall i s', 0 <= i < n -> regs_wf s' -> keeps s' (round i s')) ->
  body_ok s (Some <$> cfor 0 n round s).
Proof. intros Hw Hn Hr. apply body_some, keeps_cfor; auto. Qed.

Lemma base_small s k w :
  0 <= k -> (w = 4 \/ w = 8) -> k * w + GIC_BASE_IRQ s < 16 -> forall i, 0 <= i < w -> k * w + GIC_BASE_IRQ s + i < 16.
Proof. intros Hk Hw Hlt i Hi. unfold GIC_BASE_IRQ in *. case_match; lia. Qed.

Lemma dist_writeb_body_wf s cpu offset value attrs :
  regs_wf s -> 0 <= cpu < num_cpu s -> 0 <= offset -> in_range 32 value -> byte_ok s offset value ->
  body_ok s (dist_writeb_body s cpu offset value attrs).
Proof.
  intros Hw Hc Ho Hv [Hb1 Hb2]. pose proof (r_typed _ Hw) as Ht. pose proof (t_nirq _ Ht) as Hn.
  pose proof (base_nonneg s) as Hbase.
  assert (H8 : forall k i, 0 <= k -> (k * 8 + GIC_BASE_IRQ s >=? num_irq s) = false -> 0 <= i < 8 ->
    0 <= k * 8 + GIC_BASE_IRQ s + i < 1020).
  { intros k i Hk Hlt Hi. zb. pose proof (typed_irq8 s k i Ht Hk ltac:(lia) Hi). lia. }
  assert (H4 : forall k i, 0 <= k -> (k * 4 + GIC_BASE_IRQ s >=? num_irq s) = false -> 0 <= i < 4 ->
    0 <= k * 4 + GIC_BASE_IRQ s + i < 1020).
  { intros k i Hk Hlt Hi. zb. pose proof (typed_irq4 s k i Ht Hk ltac:(lia) Hi). lia. }
  unfold dist_writeb_body, GIC_NR_SGIS. cbv zeta.
  destruct (offset <? 0x100) eqn:E1.
  { destruct (offset =? 0); [by apply ctlr_write_wf|].
    destruct (offset <? 4); [by apply body_same|].
    destruct (offset >=? 0x80) eqn:E2; [|by left].
    destruct (_ && gic_has_groups s); [|by apply body_same].
    destruct (_ >=? num_irq s) eqn:E; [by left|]. apply keeps_loop; [done|lia|].
    intros i s' Hi Hw'. apply group_round_wf; [done|]. apply H8; [zb; lia|done..]. }
  destruct (offset <? 0x180) eqn:E2.
  { destruct (_ >=? num_irq s) eqn:E; [by left|]. apply keeps_loop; [done|lia|].
    intros i s' Hi Hw'. apply enable_round_wf; [done|]. apply H8; [zb; lia|done..]. }
  destruct (offset <? 0x200) eqn:E3.
  { destruct (_ >=? num_irq s) eqn:E; [by left|]. apply keeps_loop; [done|lia|].
    intros i s' Hi Hw'. apply disable_round_wf; [done|]. apply H8; [zb; lia|done..]. }
  destruct (offset <? 0x280) eqn:E4.
  { destruct (_ >=? num_irq s) eqn:E; [by left|]. apply keeps_loop; [done|lia|].
    intros i s' Hi Hw'. apply set_pending_round_wf; [done|apply H8; [zb; lia|done..]|].
    intros Hlt. rewrite (proj2 (Z.ltb_lt _ _)); [done|lia]. }
  destruct (offset <? 0x300) eqn:E5.
  { destruct (_ >=? num_irq s) eqn:E; [by left|]. apply keeps_loop; [done|lia|].
    intros i s' Hi Hw'. apply clear_pending_round_wf; [done|]. apply H8; [zb; lia|done..]. }
  destruct (offset <? 0x400) eqn:E6; [by left|].
  destruct (offset <? 0x800) eqn:E7.
  { destruct (_ >=? num_irq s) eqn:E; [by left|]. zb. apply body_some.
    apply gic_set_priority_wf; [done|done|lia|apply wrap_range; lia|]. apply Hb1. lia. }
  destruct (offset <? 0xc00) eqn:E8.
  { destruct (_ || _); [|by apply body_same]. destruct (_ >=? num_irq s) eqn:E; [by left|].
    zb. apply target_write_wf; [done|lia]. }
  destruct (offset <? 0xf00) eqn:E9.
  { destruct (_ >=? num_irq s) eqn:E; [by left|]. apply keeps_loop; [done|lia|].
    intros i s' Hi Hw'. apply config_round_wf; [done|apply H4; [zb; lia|done..]|].
    intros Hlt. rewrite (proj2 (Z.ltb_lt _ _)) by lia. by apply sgi_config_edge. }
  destruct (offset <? 0xf10) eqn:E10; [by left|].
  destruct (offset <? 0xf20) eqn:E11.
  { destruct (is_11mpcore s) eqn:H11; [by left|]. zb. by apply cpendsgi_wf; [|lia|..]. }
  destruct (offset <? 0xf30) eqn:E12; [|by left].
  destruct (is_11mpcore s) eqn:H11; [by left|]. zb.
  apply spendsgi_wf; [done|lia|done|done|]. apply Hb2; [lia|done].
Qed.

(** ** Writes of the distributor *)

(** A computation that yields a state with the whole invariant. *)
Definition keeps_wf (s : GICState) (r : res GICState) : Prop :=
  exists s', r = Ok s' /\ gic_wf s' /\ frame s s'.

Lemma keeps_wf_bind s r k :
  keeps_wf s r -> (forall s', gic_wf s' -> frame s s' -> keeps_wf s' (k s')) -> keeps_wf s (r ≫= k).
Proof.
  intros (s1 & -> & Hw1 & Hf1) Hk. destruct (Hk s1 Hw1 Hf1) as (s2 & E & Hw2 & Hf2).
  exists s2. split; [done|]. split; [done|]. by transitivity s1.
Qed.

Lemma current_cpu_ok s c : typed s -> 0 <= c < num_cpu s -> 0 <= gic_get_current_cpu s c < num_cpu s.
Proof. intros Ht Hc. pose proof (t_ncpu _ Ht). unfold gic_get_current_cpu. case_match; lia. Qed.

Lemma gic_dist_writeb_wf s c offset value attrs :
  gic_wf s -> 0 <= c < num_cpu s -> 0 <= offset -> in_range 32 value -> byte_ok s offset value ->
  keeps_wf s (gic_dist_writeb s c offset value attrs).
Proof.
  intros Hg Hc Ho Hv Hb. pose proof (g_regs _ Hg) as Hw. unfold gic_dist_writeb. cbv zeta.
  destruct (dist_writeb_body_wf s (gic_get_current_cpu s c) offset value attrs) as [->|(s1 & -> & Hw1 & Hf1)];
    [done|by apply current_cpu_ok; [apply Hw|]|done..| |]; mon.
  - exists s. split; [done|]. split; [done|reflexivity].
  - destruct (update_wf s1 Hw1) as (s2 & E & Hg2 & Hf2). exists s2. split; [done|]. split; [done|].
    by transitivity s1.
Qed.

Lemma byte_ok_frame s s' offset value : frame s s' -> byte_ok s offset value -> byte_ok s' offset value.
Proof.
  intros Hf [H1 H2]. pose proof Hf as (_ & _ & En & _ & Er & _). unfold byte_ok, GIC_BASE_IRQ, is_11mpcore in *.
  rewrite En, Er. split; [|done]. intros Ho c Hc Ha. by eapply H1, frame_active.
Qed.

(** The bytes of an access of [n] bytes, least significant first. *)
Definition bytes_ok (s : GICState) (offset value : Z) (n : nat) : Prop :=
  forall i, (i < n)%nat -> byte_ok s (offset + Z.of_nat i) (Z.shiftr value (8 * Z.of_nat i)).

Lemma byte_ok_u8 s offset v w : u8 v = u8 w -> byte_ok s offset v -> byte_ok s offset w.
Proof. unfold byte_ok. intros ->. done. Qed.

Lemma shiftr_range w v k : 0 <= w -> 0 <= k -> in_range w v -> in_range w (Z.shiftr v k).
Proof.
  intros Hw Hk [H1 H2]. split; [by apply Z.shiftr_nonneg|]. rewrite Z.shiftr_div_pow2 by done.
  apply Z.le_lt_trans with v; [|done]. apply Z.div_le_upper_bound; [lia|].
  pose proof (Z.pow_pos_nonneg 2 k). nia.
Qed.

Lemma gic_dist_writew_wf s c offset value attrs :
  gic_wf s -> 0 <= c < num_cpu s -> 0 <= offset -> in_range 32 value -> bytes_ok s offset value 2 ->
  keeps_wf s (gic_dist_writew s c offset value attrs).
Proof.
  intros Hg Hc Ho Hv Hb. unfold gic_dist_writew. apply keeps_wf_bind.
  - apply gic_dist_writeb_wf; [done..|by apply land_range|].
    eapply byte_ok_u8; [|pose proof (Hb 0%nat ltac:(lia)) as H; by rewrite Z.add_0_r in H].
    rewrite Z.shiftr_0_r. change 0xff with (Z.ones 8). rewrite Z.land_ones by lia.
    symmetry. apply Z.mod_mod. lia.
  - intros s' Hg' Hf. pose proof Hf as (_ & _ & En & _).
    apply gic_dist_writeb_wf; [done|by rewrite En|lia|apply shiftr_range; [lia..|done]|].
    apply (byte_ok_frame s); [done|]. apply (Hb 1%nat). lia.
Qed.

(** ** Software interrupts *)

Lemma lor_bit_nonzero x c : 0 <= c < 8 -> u8 (Z.lor x (bit c)) <> 0.
Proof.
  intros Hc E. apply (f_equal (fun z => Z.testbit z c)) in E.
  rewrite testbit_u8, Z.lor_spec, testbit_bit, Z.eqb_refl, orb_true_r, Z.bits_0 in E by lia. done.
Qed.

(** The loop over the targets; the bits of [mask] below [k] are done. *)
Lemma sgi_loop_ok cpu irq : 0 <= cpu < 8 -> 0 <= irq < 16 ->
  forall fuel s mask k, typed s -> in_range 8 mask -> 0 <= k <= 8 ->
  (forall i, 0 <= i < k -> Z.testbit mask i = false) -> 8 - k < Z.of_nat fuel ->
  exists sp, sgi_loop fuel s cpu irq mask = Ok {| s with sgi_pending := sp |} /\
    arr 16 (arr 8 (in_range 8)) sp /\
    forall j c, 0 <= j < 16 -> 0 <= c < 8 ->
      sp.[j].[c] = if (irq =? j) && Z.testbit mask c then u8 (Z.lor (sgi_pending s).[j].[c] (bit cpu))
                   else (sgi_pending s).[j].[c].
Proof.
  intros Hcpu Hirq. induction fuel as [|fuel IH]; intros s mask k Ht Hm Hk Hlow Hf; [lia|].
  cbn [sgi_loop]. unfold GIC_NCPU.
  destruct (decide (mask = 0)) as [->|Hne].
  { change (ctz32 0) with 32. cbn [Z.ltb Z.compare Pos.compare Pos.compare_cont].
    exists (sgi_pending s). split; [by destruct s|]. split; [apply Ht|].
    intros j c Hj Hc. rewrite Z.bits_0, andb_false_r. done. }
  destruct (ctz32_byte mask Hm Hne) as [Ht8 Htb]. set (t := ctz32 mask) in *.
  rewrite (proj2 (Z.ltb_lt t 8)) by lia.
  rewrite (aget2_in _ _ _ _ _ _ (t_sgi _ Ht)) by lia. mon.
  rewrite (aset2_in _ _ _ _ _ _ _ (t_sgi _ Ht)) by lia. mon.
  set (v := u8 (Z.lor (sgi_pending s).[irq].[t] (bit cpu))).
  assert (Hv : in_range 8 v) by (apply wrap_range; lia).
  set (s1 := {| s with sgi_pending := _ |}).
  assert (Ht1 : typed s1) by (unfold s1; typ; apply arr_upd2; [done|lia|done]).
  assert (Hbits : forall i, 0 <= i ->
    Z.testbit (Z.land mask (Z.lnot (bit t))) i = Z.testbit mask i && negb (t =? i)).
  { intros i Hi. by rewrite Z.land_spec, Z.lnot_spec, testbit_bit by lia. }
  assert (Hkt : k <= t).
  { destruct (decide (k <= t)); [done|]. rewrite Hlow in Htb by lia. done. }
  destruct (ctz_from_spec 32 0 mask) as (_ & Hz & _). fold (ctz32 mask) in Hz. fold t in Hz.
  destruct (IH s1 (Z.land mask (Z.lnot (bit t))) (t + 1)) as (sp & E & Hsp & Hval).
  - done.
  - apply in_range_bits in Hm as [Hm1 Hm2]; [|lia]. apply in_range_bits; [lia|].
    split; [apply Z.land_nonneg; by left|]. intros i Hi. rewrite Hbits by lia. by rewrite Hm2.
  - lia.
  - intros i Hi. rewrite Hbits by lia. destruct (t =? i) eqn:E; zb; [apply andb_false_r|].
    rewrite Hz by lia. done.
  - lia.
  - exists sp. split; [exact E|]. split; [done|]. intros j c Hj Hc. rewrite Hval by done.
    rewrite Hbits by lia. unfold s1; cbn [sgi_pending].
    rewrite (at_upd2 _ _ _ _ _ _ _ _ _ (t_sgi _ Ht)) by lia.
    destruct (irq =? j) eqn:Ej; zb; cbn [andb]; [|done]. subst j.
    destruct (t =? c) eqn:Ec; zb; cbn [negb]; [|by rewrite andb_true_r].
    rewrite <- Ec, andb_false_r, Htb. done.
Qed.

Lemma sgi_mask_range cpu value : 0 <= cpu < 8 -> in_range 8 (sgi_mask cpu value).
Proof.
  intros Hc. unfold sgi_mask. repeat case_match.
  - apply land_mask_range.
  - unfold ALL_CPU_MASK. apply in_range_bits; [lia|]. split.
    { apply Z.lxor_nonneg. split; intros _; [|done]. apply (bit_range 8); lia. }
    intros i Hi. rewrite Z.lxor_spec, testbit_bit by lia.
    change 255 with (Z.ones 8). rewrite Z.ones_spec_high by lia.
    rewrite (proj2 (Z.eqb_neq cpu i)) by lia. done.
  - by apply bit_range.
  - done.
Qed.

Lemma sgi_send_wf s cpu irq mask n :
  gic_wf s -> 0 <= cpu < 8 -> 0 <= irq < 16 -> in_range 8 mask -> (8 < n)%nat ->
  keeps_wf s (s ← GIC_SET_PENDING s irq mask; s ← sgi_loop n s cpu irq mask; gic_update s).
Proof.
  intros Hg Hcpu Hirq Hmask Hfuel. pose proof (g_regs _ Hg) as Hw. pose proof (r_typed _ Hw) as Ht.
  pose proof (t_ncpu _ Ht).
  unfold GIC_SET_PENDING. rewrite mod_irq_ok by (done || lia). mon.
  set (s1 := with_irq s irq _).
  assert (Ht1 : typed s1) by (apply with_irq_typed; [done|lia|irq_typ]).
  destruct (sgi_loop_ok cpu irq Hcpu Hirq n s1 mask 0) as (sp & -> & Hsp & Hval);
    [done|done|lia|intros; lia|lia|]. mon.
  set (s2 := {| s1 with sgi_pending := sp |}).
  assert (Hw2 : regs_wf s2).
  { constructor; [unfold s2; typ|exact (r_stack _ Hw)|].
    intros H11 j Hj. destruct (r_sgi _ Hw H11 j Hj) as [He Hp].
    pose proof (with_irq_st s irq (fun st => {| st with pending := u8 (Z.lor (pending st) mask) |}) j
      Ht ltac:(lia) ltac:(lia)) as Est. fold s1 in Est. change (st_of s2 j) with (st_of s1 j).
    rewrite Est. split; [destruct (irq =? j) eqn:E; zb; [by subst|done]|].
    intros k Hk. change (0 <= k < num_cpu s) in Hk. unfold s2; cbn [sgi_pending].
    rewrite Hval by lia. change (sgi_pending s1) with (sgi_pending s).
    destruct (irq =? j) eqn:E; zb; cbn [andb]; [|by apply Hp]. subst j.
    cbn [pending]. rewrite testbit_u8, Z.lor_spec by lia.
    destruct (Z.testbit mask k); [intros _; apply lor_bit_nonzero; lia|].
    rewrite orb_false_r. by apply Hp. }
  destruct (update_wf s2 Hw2) as (s3 & E & Hg3 & Hf3). exists s3. split; [done|]. split; [done|].
  transitivity s2; [by repeat split|done].
Qed.

Lemma land_3ff value : 0 <= Z.land value 0x3ff < 1024.
Proof. change 0x3ff with (Z.ones 10). rewrite Z.land_ones by lia. apply Z.mod_pos_bound. lia. Qed.

Lemma gic_dist_writel_wf s c offset value attrs :
  gic_wf s -> 0 <= c < num_cpu s -> 0 <= offset -> in_range 32 value ->
  (offset = 0xf00 -> Z.land value 0x3ff < 16) -> bytes_ok s offset value 4 ->
  keeps_wf s (gic_dist_writel s c offset value attrs).
Proof.
  intros Hg Hc Ho Hv Hsgi Hb. unfold gic_dist_writel. destruct (offset =? 0xf00) eqn:E; zb.
  { pose proof (r_typed _ (g_regs _ Hg)) as Ht. pose proof (t_ncpu _ Ht).
    pose proof (current_cpu_ok s c Ht Hc). pose proof (land_3ff value). specialize (Hsgi E).
    apply sgi_send_wf; [done|lia|lia|apply sgi_mask_range; lia|lia]. }
  apply keeps_wf_bind.
  - apply gic_dist_writew_wf; [done..|by apply land_range|]. intros i Hi.
    eapply byte_ok_u8; [|apply (Hb i); lia]. apply Z.bits_inj'. intros k Hk. unfold wrap.
    destruct (decide (k < 8)).
    + rewrite !Z.mod_pow2_bits_low, !Z.shiftr_spec by lia. change 0xffff with (Z.ones 16).
      rewrite Z.land_spec, Z.ones_spec_low by lia. by rewrite andb_true_r.
    + by rewrite !Z.mod_pow2_bits_high by lia.
  - intros s' Hg' Hf. pose proof Hf as (_ & _ & En & _).
    apply gic_dist_writew_wf; [done|by rewrite En|lia|apply shiftr_range; [lia..|done]|].
    intros i Hi. apply (byte_ok_frame s); [done|].
    rewrite Z.shiftr_shiftr by lia. specialize (Hb (2 + i)%nat ltac:(lia)).
    replace (offset + 2 + Z.of_nat i) with (offset + Z.of_nat (2 + i)) by lia.
    replace (16 + 8 * Z.of_nat i) with (8 * Z.of_nat (2 + i)) by lia. done.
Qed.

Lemma gic_dist_write_wf s c offset data size attrs :
  gic_wf s -> 0 <= c < num_cpu s -> 0 <= offset ->
  (offset = 0xf00 -> size = 4 -> Z.land (u32 data) 0x3ff < 16) ->
  bytes_ok s offset (u32 data) (Z.to_nat size) ->
  exists s' r, gic_dist_write s c offset data size attrs = Ok (s', r) /\ gic_wf s' /\ frame s s'.
Proof.
  intros Hg Hc Ho Hsgi Hb. assert (Hv : in_range 32 (u32 data)) by (apply wrap_range; lia).
  unfold gic_dist_write. cbv zeta. set (v := u32 data) in *. clearbody v.
  destruct (size =? 1) eqn:E1; [|destruct (size =? 2) eqn:E2; [|destruct (size =? 4) eqn:E4]]; zb.
  - subst. destruct (gic_dist_writeb_wf s c offset v attrs) as (s' & -> & Hg' & Hf'); [done..| |].
    { specialize (Hb 0%nat ltac:(lia)). by rewrite Z.add_0_r, Z.shiftr_0_r in Hb. }
    mon. eauto.
  - subst. destruct (gic_dist_writew_wf s c offset v attrs) as (s' & -> & Hg' & Hf'); [done..|].
    mon. eauto.
  - subst. destruct (gic_dist_writel_wf s c offset v attrs) as (s' & -> & Hg' & Hf'); [done..|by auto|done|].
    mon. eauto.
  - exists s, MEMTX_ERROR. split; [done|]. split; [done|reflexivity].
Qed.

(** ** Reads of the distributor *)

Lemma read_bits_ok test :
  (forall i, 0 <= i < 8 -> exists b, test i = Ok b) -> is_ok (read_bits test).
Proof.
  intros H. unfold read_bits, is_ok.
  destruct (cfor_inv (fun _ : Z => True) 0 8 (fun i r => b ← test i; Ok (if b : bool then Z.lor r (bit i) else r)) 0)
    as (r & -> & _); [lia| |done|eauto].
  intros i r Hi _. destruct (H i Hi) as [b ->]. mon. eauto.
Qed.

Lemma gic_get_priority_ok s cpu irq attrs :
  typed s -> 0 <= cpu < 8 -> 0 <= irq < 1020 -> is_ok (gic_get_priority s cpu irq attrs).
Proof.
  intros Ht Hc Hi. unfold gic_get_priority, GIC_TEST_GROUP, is_ok.
  rewrite prio_ok, irq_state_get by done. mon. repeat case_match; eauto.
Qed.

Lemma gic_dist_readb_ok s c offset attrs :
  typed s -> 0 <= c < num_cpu s -> 0 <= offset < 0x1000 -> is_ok (gic_dist_readb s c offset attrs).
Proof.
  intros Ht Hc Ho. pose proof (t_nirq _ Ht) as Hn. pose proof (t_ncpu _ Ht).
  pose proof (current_cpu_ok s c Ht Hc) as Hcpu. pose proof (base_nonneg s) as Hbase.
  unfold gic_dist_readb. cbv zeta. set (cpu := gic_get_current_cpu s c) in *.
  assert (H8 : forall k test, 0 <= k ->
    (forall irq, 0 <= irq < 1020 -> exists b, test irq = Ok b) ->
    is_ok (if k * 8 + GIC_BASE_IRQ s >=? num_irq s then Ok 0
           else read_bits (fun i => test (k * 8 + GIC_BASE_IRQ s + i)))).
  { intros k test Hk Htest. destruct (_ >=? _) eqn:E; [by eexists|]. zb.
    apply read_bits_ok. intros i Hi. apply Htest.
    pose proof (typed_irq8 s k i Ht Hk ltac:(lia) Hi). lia. }
  assert (Hst : forall (f : gic_irq_state -> bool) irq, 0 <= irq < 1020 ->
    exists b, (st ← aget (irq_state s) irq; Ok (f st)) = Ok b).
  { intros f irq Hi. rewrite irq_state_get by done. mon. eauto. }
  assert (Hpd : forall irq cm, 0 <= irq < 1020 -> exists b, gic_test_pending s irq cm = Ok b).
  { intros irq cm Hi. rewrite test_pending_ok by done. eauto. }
  destruct (offset <? 0x100) eqn:E1; zb.
  { destruct (offset =? 0); [by eexists|]. destruct (offset =? 4); [by eexists|].
    destruct (offset <? 8); [by eexists|]. destruct (offset >=? 0x80) eqn:E2; [|by eexists].
    destruct (_ && gic_has_groups s); [|by eexists].
    apply (H8 (offset - 0x80) (fun irq => GIC_TEST_GROUP s irq (bit cpu))); [zb; lia|].
    intros. by apply Hst. }
  destruct (offset <? 0x200) eqn:E2; zb.
  { apply (H8 (if offset <? 0x180 then offset - 0x100 else offset - 0x180)
      (fun irq => GIC_TEST_ENABLED s irq (bit cpu))); [case_match; zb; lia|].
    intros. by apply Hst. }
  destruct (offset <? 0x300) eqn:E3; zb.
  { set (k := if offset <? 0x280 then offset - 0x200 else offset - 0x280).
    apply (H8 k (fun irq => gic_test_pending s irq (if k * 8 + GIC_BASE_IRQ s <? GIC_INTERNAL then bit cpu else ALL_CPU_MASK)));
      [unfold k; case_match; zb; lia|]. intros. by apply Hpd. }
  destruct (offset <? 0x400) eqn:E4; zb.
  { apply (H8 (offset - 0x300)
      (fun irq => GIC_TEST_ACTIVE s irq (if (offset - 0x300) * 8 + GIC_BASE_IRQ s <? GIC_INTERNAL then bit cpu else ALL_CPU_MASK)));
      [lia|]. intros. by apply Hst. }
  destruct (offset <? 0x800) eqn:E5; zb.
  { destruct (_ >=? num_irq s) eqn:E; [by eexists|]. zb. apply gic_get_priority_ok; [done|lia..]. }
  destruct (offset <? 0xc00) eqn:E6; zb.
  { destruct (_ && _); [by eexists|]. destruct (_ >=? num_irq s) eqn:E; [by eexists|]. zb.
    case_match; [by eexists|]. rewrite target_ok by (done || lia). by eexists. }
  destruct (offset <? 0xf00) eqn:E7; zb.
  { destruct (_ >=? num_irq s) eqn:E; [by eexists|]. zb.
    edestruct (cfor_inv (fun _ : Z => True)) as (r & E' & _); [| | |rewrite E'; by eexists]; [lia| |done].
    intros i r Hi _. pose proof (typed_irq4 s (offset - 0xc00) i Ht ltac:(lia) ltac:(lia) Hi).
    unfold GIC_TEST_MODEL, GIC_TEST_EDGE_TRIGGER. rewrite irq_state_get by (done || lia). mon. eauto. }
  destruct (offset <? 0xf10) eqn:E8; zb; [by eexists|].
  destruct (offset <? 0xf30) eqn:E9; zb.
  { case_match; [by eexists|]. eexists.
    apply (aget2_in _ _ _ _ _ _ (t_sgi _ Ht)); [case_match; zb; lia|lia]. }
  destruct (offset <? 0xfe0) eqn:E10; zb; [by eexists|].
  case_match; [by eexists|]. eexists. apply (aget_in 8 (fun _ => True)).
  - split; [done|]. by repeat constructor.
  - rewrite Z.shiftr_div_pow2 by lia. split; [apply Z.div_pos; lia|apply Z.div_lt_upper_bound; lia].
Qed.

Lemma gic_dist_read_ok s c offset size attrs :
  typed s -> 0 <= c < num_cpu s -> 0 <= offset -> offset + size <= 0x1000 ->
  is_ok (gic_dist_read s c offset size attrs).
Proof.
  intros Ht Hc Ho Hs. unfold gic_dist_read. cbv zeta.
  assert (Hrd : forall i, 0 <= i < size -> is_ok (gic_dist_readb s c (offset + i) attrs)).
  { intros i Hi. apply gic_dist_readb_ok; [done..|lia]. }
  destruct (size =? 1) eqn:E1; [|destruct (size =? 2) eqn:E2; [|destruct (size =? 4) eqn:E4; [|by eexists]]]; zb.
  - destruct (Hrd 0) as [d Hd]; [lia|]. rewrite Z.add_0_r in Hd. rewrite Hd. by eexists.
  - destruct (Hrd 0) as [d Hd]; [lia|]. rewrite Z.add_0_r in Hd. rewrite Hd.
    destruct (Hrd 1) as [d1 ->]; [lia|]. by eexists.
  - destruct (Hrd 0) as [d Hd]; [lia|]. rewrite Z.add_0_r in Hd. rewrite Hd.
    destruct (Hrd 1) as [d1 ->]; [lia|]. destruct (Hrd 2) as [d2 ->]; [lia|].
    destruct (Hrd 3) as [d3 ->]; [lia|]. by eexists.
Qed.

(** ** The interface of a processor *)

(** What an access of a processor leaves alone. *)
Definition static (s s' : GICState) : Prop :=
  num_cpu s' = num_cpu s /\ num_irq s' = num_irq s /\ revision s' = revision s /\
  security_extn s' = security_extn s.

#[global] Instance static_preorder : PreOrder static.
Proof.
  split; [by repeat split|]. unfold static. intros s1 s2 s3 ? ?. dest. repeat split; congruence.
Qed.

Lemma frame_static s s' : frame s s' -> static s s'.
Proof. intros (_ & _ & ? & ? & ? & ?). done. Qed.

Lemma gic_cpu_read_wf s cpu offset attrs :
  gic_wf s -> 0 <= cpu < num_cpu s ->
  exists v r s', gic_cpu_read s cpu offset attrs = Ok (v, r, s') /\ gic_wf s'.
Proof.
  intros Hg Hc. pose proof (r_typed _ (g_regs _ Hg)) as Ht. pose proof (t_ncpu _ Ht).
  unfold gic_cpu_read, gic_get_cpu_control, gic_get_priority_mask, gic_get_running_priority. cbv zeta.
  rewrite (aget_in _ _ _ _ (t_cc _ Ht)), (aget_in _ _ _ _ (t_pm _ Ht)), (aget_in _ _ _ _ (t_rp _ Ht)),
    (aget_in _ _ _ _ (t_abpr _ Ht)), (aget_in _ _ _ _ (t_bpr _ Ht)) by lia. mon.
  destruct (offset =? 0); [eauto 6|]. destruct (offset =? 4); [eauto 6|].
  destruct (offset =? 8); [destruct (ns_access s attrs); mon; eauto 6|].
  destruct (offset =? 0xc).
  { destruct (gic_acknowledge_wf s cpu attrs Hg Hc) as (ret & s' & -> & Hg' & _). mon. eauto 6. }
  destruct (offset =? 0x14); [eauto 6|].
  destruct (offset =? 0x18).
  { destruct (get_current_pending_ok s cpu attrs Hg Hc) as (irq & -> & _). mon. eauto 6. }
  destruct (offset =? 0x1c); [destruct (_ || _); mon; eauto 6|].
  destruct (_ || (offset =? 0xdc)) eqn:E; [|eauto 6].
  rewrite (aget2_in _ _ _ _ _ _ (t_apr _ Ht)); [mon; eauto 6| |lia].
  repeat (apply orb_true_iff in E as [E|E]); zb; subst; by vm_compute.
Qed.

Lemma cpu_field_wf s s' :
  regs_wf s -> typed s' -> frame s s' -> irq_state s' = irq_state s -> sgi_pending s' = sgi_pending s ->
  priority1 s' = priority1 s -> priority2 s' = priority2 s -> running_priority s' = running_priority s ->
  exists s2, gic_update s' = Ok s2 /\ gic_wf s2.
Proof.
  intros [Ht Hst Hsg] Ht' Hf E1 E2 E3 E4 E5.
  assert (Hw : regs_wf s').
  { pose proof Hf as (_ & _ & En & _ & Er & _). constructor; [done| |].
    - intros cpu Hc. apply (same_prio_stack s); [by repeat split; try apply Hf|]. apply Hst. by rewrite <- En.
    - intros H11 irq Hi. unfold st_of. rewrite E1, E2, En. apply Hsg; [|done].
      unfold is_11mpcore in *. by rewrite <- Er. }
  destruct (update_wf s' Hw) as (s2 & E & Hg2 & _). eauto.
Qed.

Lemma gic_cpu_write_wf s cpu offset value attrs :
  gic_wf s -> 0 <= cpu < num_cpu s -> in_range 32 value ->
  exists r s', gic_cpu_write s cpu offset value attrs = Ok (r, s') /\ gic_wf s'.
Proof.
  intros Hg Hc Hv. pose proof (g_regs _ Hg) as Hw. pose proof (r_typed _ Hw) as Ht.
  pose proof (t_ncpu _ Ht).
  assert (Hfin : forall s', typed s' -> frame s s' -> irq_state s' = irq_state s ->
    sgi_pending s' = sgi_pending s -> priority1 s' = priority1 s -> priority2 s' = priority2 s ->
    running_priority s' = running_priority s ->
    exists r s2, (s2 ← gic_update s'; Ok (MEMTX_OK, s2)) = Ok (r, s2) /\ gic_wf s2).
  { intros s' Ht' Hf ? ? ? ? ?. destruct (cpu_field_wf s s') as (s2 & -> & Hg2); [done..|]. mon. eauto. }
  assert (Hb : forall m, 0 <= m < 2 -> in_range 8 (Z.max (Z.land value 7) m)).
  { intros m Hm. change 7 with (Z.ones 3). rewrite Z.land_ones by lia.
    pose proof (Z.mod_pos_bound value (2 ^ 3)). split; lia. }
  unfold gic_cpu_write, gic_set_cpu_control, gic_set_priority_mask, GIC_MIN_BPR, GIC_MIN_ABPR. cbv zeta.
  rewrite (aget_in _ _ _ _ (t_cc _ Ht)), (aget_in _ _ _ _ (t_pm _ Ht)),
    !(aset_in _ _ _ _ _ (t_abpr _ Ht)), (aset_in _ _ _ _ _ (t_bpr _ Ht)) by lia. mon.
  assert (Hcc : in_range 32 (cpu_ctlr s).[cpu]) by (apply (arr_at 8); [apply Ht|lia]).
  destruct (offset =? 0).
  { rewrite (aset_in _ _ _ _ _ (t_cc _ Ht)) by lia. mon. apply Hfin; [|by repeat split|done..].
    typ. apply arr_upd; [done|].
    repeat case_match; try (by apply land_range);
      (apply lor_range; [lia|apply land_range; [lia|exact Hcc|apply wrap_range; lia]|];
       apply land_range; [lia|apply wrap_range; lia|done]). }
  destruct (offset =? 4).
  { destruct (_ && _); [mon; apply Hfin; [done|by repeat split|done..]|].
    rewrite (aset_in _ _ _ _ _ (t_pm _ Ht)) by lia. mon. apply Hfin; [|by repeat split|done..].
    typ. apply arr_upd; [done|]. case_match; [|apply wrap_range; lia].
    apply lor_range; [lia|done|]. apply shiftr_range; [lia..|apply wrap_range; lia]. }
  destruct (offset =? 8).
  { destruct (ns_access s attrs); (apply Hfin; [|by repeat split|done..]); typ; (apply arr_upd; [done|apply Hb; lia]). }
  destruct (offset =? 0x10).
  { pose proof (land_3ff value).
    destruct (gic_complete_wf s cpu (Z.land value 0x3ff) attrs) as (s' & -> & Hg' & _); [done..|lia|].
    mon. eauto. }
  destruct (offset =? 0x1c).
  { destruct (_ || _); [eauto|]. apply Hfin; [|by repeat split|done..]. typ. apply arr_upd; [done|apply Hb; lia]. }
  destruct (_ || (offset =? 0xdc)); [apply Hfin; [done|by repeat split|done..]|]. eauto.
Qed.

(** ** Reset and creation *)

Lemma zeros_arr n : 0 <= n -> arr n (in_range 8) (zeros n).
Proof. intros. by apply arr_repeat. Qed.

Lemma arr_weaken {A} n (P Q : A -> Prop) a : (forall x, P x -> Q x) -> arr n P a -> arr n Q a.
Proof. intros H [Hn HP]. split; [done|]. by eapply Forall_impl. Qed.

Lemma fill_ok {A} `{Inhabited A} n (P : A -> Prop) (a : list A) x :
  0 <= n -> arr n P a -> P x ->
  exists a', cfor 0 n (fun i p => aset p i x) a = Ok a' /\ arr n P a'.
Proof.
  intros Hn Ha Hx. apply (cfor_inv (arr n P)); [done| |done].
  intros i b Hi Hb. rewrite (aset_in _ _ _ _ _ Hb) by done. eexists; split; [done|]. by apply arr_upd.
Qed.

Lemma fill_column_ok n k (P : Z -> Prop) (a : list (list Z)) c x :
  0 <= n -> 0 <= c < k -> arr n (arr k P) a -> P x ->
  exists a', cfor 0 n (fun j p => aset2 p j c x) a = Ok a' /\ arr n (arr k P) a'.
Proof.
  intros Hn Hc Ha Hx. apply (cfor_inv (arr n (arr k P))); [done| |done].
  intros i b Hi Hb. rewrite (aset2_in _ _ _ _ _ _ _ Hb) by done. eexists; split; [done|].
  by apply arr_upd2.
Qed.

(** Processor [c] is idle. *)
Definition idle (s : GICState) (c : Z) : Prop :=
  (current_pending s).[c] = 1023 /\ (running_irq s).[c] = 1023 /\ (running_priority s).[c] = 256.

(** What the loops of the reset leave alone. *)
Definition reset_frame (s s' : GICState) : Prop :=
  static s s' /\ irq_state s' = irq_state s /\ parent_irq s' = parent_irq s /\ parent_fiq s' = parent_fiq s.

Lemma reset_cpu_ok s i :
  typed s -> 0 <= i < 8 ->
  exists s', reset_cpu i s = Ok s' /\ typed s' /\ reset_frame s s' /\ idle s' i /\
    forall c, 0 <= c -> c <> i -> idle s c -> idle s' c.
Proof.
  intros Ht Hi. unfold reset_cpu, GIC_MIN_BPR, GIC_MIN_ABPR, GIC_INTERNAL, GIC_NR_SGIS.
  rewrite (aset_in _ _ _ _ _ (t_pm _ Ht)), (aset_in _ _ _ _ _ (t_cp _ Ht)), (aset_in _ _ _ _ _ (t_ri _ Ht)),
    (aset_in _ _ _ _ _ (t_rp _ Ht)), (aset_in _ _ _ _ _ (t_cc _ Ht)), (aset_in _ _ _ _ _ (t_bpr _ Ht)),
    (aset_in _ _ _ _ _ (t_abpr _ Ht)) by done. mon.
  destruct (fill_column_ok 32 8 (in_range 8) (priority1 s) i 0) as (p1 & -> & Hp1); [lia|done|apply Ht|done|].
  mon.
  destruct (fill_column_ok 16 8 (in_range 8) (sgi_pending s) i 0) as (sp & -> & Hsp); [lia|done|apply Ht|done|].
  mon. eexists; split; [done|]. split; [|split; [by repeat split|split]].
  - typ; by (apply arr_upd; [done|]; try case_match).
  - unfold idle; cbn. by rewrite (at_upd_eq _ _ _ _ _ (t_cp _ Ht)), (at_upd_eq _ _ _ _ _ (t_ri _ Ht)),
      (at_upd_eq _ _ _ _ _ (t_rp _ Ht)).
  - intros c Hc Hne (H1 & H2 & H3). unfold idle; cbn. by rewrite !at_upd_ne by lia.
Qed.

Lemma reset_cpus_ok s :
  typed s ->
  exists s', cfor 0 (num_cpu s) reset_cpu s = Ok s' /\ typed s' /\ reset_frame s s' /\
    forall c, 0 <= c < num_cpu s -> idle s' c.
Proof.
  intros Ht. pose proof (t_ncpu _ Ht).
  apply (cfor_rule (fun n s' => typed s' /\ reset_frame s s' /\ forall c, 0 <= c < n -> idle s' c));
    [lia| |split; [done|split; [by repeat split|intros; lia]]].
  intros i s1 Hi (Ht1 & Hf1 & Hid). destruct (reset_cpu_ok s1 i Ht1 ltac:(lia)) as (s2 & -> & Ht2 & Hf2 & Hi2 & Ho2).
  eexists; split; [done|]. split; [done|]. split.
  - unfold reset_frame, static in *. dest. repeat split; congruence.
  - intros c Hc. destruct (decide (c = i)) as [->|]; [done|]. apply Ho2; [lia|done|]. apply Hid. lia.
Qed.

Definition reset_state : gic_irq_state := mkIrqState 0 0 0 0 false false 0.

Lemma reset_sgis_ok s :
  typed s -> (forall j, 0 <= j < 1020 -> pending (st_of s j) = 0) ->
  exists s', cfor 0 GIC_NR_SGIS reset_sgi s = Ok s' /\ typed s' /\
    (exists a, s' = {| s with irq_state := a |}) /\
    forall j, 0 <= j < 16 -> edge_trigger (st_of s' j) = true /\ pending (st_of s' j) = 0.
Proof.
  intros Ht Hp.
  destruct (cfor_rule (fun n s' => typed s' /\ (exists a, s' = {| s with irq_state := a |}) /\
    (forall j, 0 <= j < 1020 -> pending (st_of s' j) = 0) /\
    forall j, 0 <= j < n -> edge_trigger (st_of s' j) = true) 0 GIC_NR_SGIS reset_sgi s)
    as (s' & E & Ht' & Ha & Hp' & He); [done| | |].
  - intros i s1 Hi (Ht1 & (a & Ea) & Hp1 & He1). unfold GIC_NR_SGIS in Hi.
    unfold reset_sgi, GIC_SET_ENABLED, GIC_SET_EDGE_TRIGGER.
    rewrite mod_irq_ok by (done || lia). mon. set (s2 := with_irq s1 i _).
    assert (Ht2 : typed s2) by (apply with_irq_typed; [done|lia|irq_typ]).
    rewrite mod_irq_ok by (done || lia). eexists; split; [done|].
    split; [apply with_irq_typed; [done|lia|irq_typ]|].
    split; [eexists; unfold with_irq, s2; by rewrite Ea|].
    assert (E2 : forall j, 0 <= j -> pending (st_of s2 j) = pending (st_of s1 j) /\
      edge_trigger (st_of s2 j) = edge_trigger (st_of s1 j)).
    { intros j Hj. unfold s2. rewrite with_irq_st by (done || lia).
      destruct (i =? j) eqn:E; zb; [by subst|done]. }
    split; intros j Hj; rewrite with_irq_st by (done || lia); destruct (i =? j) eqn:E; zb; subst; cbn.
    + rewrite (proj1 (E2 j ltac:(lia))). by apply Hp1.
    + rewrite (proj1 (E2 j ltac:(lia))). by apply Hp1.
    + done.
    + rewrite (proj2 (E2 j ltac:(lia))). apply He1. lia.
  - split; [done|]. split; [exists (irq_state s); by destruct s|]. split; [done|intros; lia].
  - exists s'. split; [done|]. split; [done|]. split; [done|]. intros j Hj. split; [by apply He|apply Hp'; lia].
Qed.

(** A reset returns; with the lines low before, the controller is in its
    invariant after it. *)
Lemma arm_gic_common_reset_wf s :
  typed s -> (forall c, 0 <= c < num_cpu s -> (parent_irq s).[c] = false /\ (parent_fiq s).[c] = false) ->
  exists s', arm_gic_common_reset s = Ok s' /\ gic_wf s' /\ static s s' /\
    (forall c, 0 <= c < num_cpu s -> stack s' c []).
Proof.
  intros Ht Hlow. unfold arm_gic_common_reset. cbv zeta. fold reset_state.
  set (s0 := {| s with irq_state := _ |}).
  assert (Ht0 : typed s0) by (unfold s0; typ; by apply arr_repeat).
  change (num_cpu s0) with (num_cpu s).
  destruct (reset_cpus_ok s0 Ht0) as (s1 & E1 & Ht1 & (Hst1 & Eirq & El & Ef) & Hidle).
  change (num_cpu s0) with (num_cpu s) in *. rewrite E1. mon.
  assert (Hp1 : forall j, 0 <= j < 1020 -> pending (st_of s1 j) = 0).
  { intros j Hj. unfold st_of. rewrite Eirq. unfold s0; cbn [irq_state]. by rewrite at_repeat. }
  destruct (reset_sgis_ok s1 Ht1 Hp1) as (s2 & -> & Ht2 & (a & Ea) & Hsgi). mon.
  destruct (fill_ok (GIC_MAXIRQ - GIC_INTERNAL) (in_range 8) (priority2 s2) 0) as (p2 & -> & Hp2);
    [done|apply Ht2|done|]. mon.
  destruct (fill_ok GIC_MAXIRQ (in_range 8) (irq_target s2) (if num_cpu s2 =? 1 then 1 else 0)) as (it & -> & Hit);
    [done|apply Ht2|by case_match|]. mon.
  destruct Hst1 as (En & Ei & Er & Es). change (num_cpu s1 = num_cpu s) in En.
  eexists; split; [done|]. assert (En2 : num_cpu s2 = num_cpu s) by (subst s2; done).
  assert (Hid2 : forall c, 0 <= c < num_cpu s -> idle s2 c) by (intros c Hc; subst s2; by apply Hidle).
  split; [|split; [subst s2; by repeat split|]].
  2: { intros c Hc. unfold stack. cbn. by apply (Hid2 c). }
  constructor; [constructor|].
  - by typ.
  - intros c Hc. change (0 <= c < num_cpu s2) in Hc. rewrite En2 in Hc. exists []. unfold stack. cbn.
    destruct (Hid2 c Hc) as (_ & H1 & H2). split; [done|]. split; [done|]. split; [constructor|done].
  - intros _ j Hj. change (st_of _ j) with (st_of s2 j). destruct (Hsgi j Hj) as [He Hp].
    split; [done|]. intros c _. rewrite Hp, Z.bits_0. done.
  - intros c Hc. change (0 <= c < num_cpu s2) in Hc. rewrite En2 in Hc. cbn.
    destruct (Hid2 c Hc) as (-> & _ & _).
    replace (parent_irq s2) with (parent_irq s) by (subst s2; exact (eq_sym El)).
    replace (parent_fiq s2) with (parent_fiq s) by (subst s2; exact (eq_sym Ef)).
    destruct (Hlow c Hc) as [-> ->]. by apply signals_off.
Qed.

Lemma gic_new_typed n k rev sec :
  1 <= n <= 8 -> 32 <= k <= 1020 -> k mod 32 = 0 ->
  (sec = true -> is_11mpcore (gic_new n k rev sec) = false) -> typed (gic_new n k rev sec).
Proof.
  intros Hn Hk Hm Hs.
  assert (Hz : forall m w, 0 <= m -> 0 <= w -> arr m (in_range w) (zeros m)).
  { intros m w Hm' Hw. apply arr_repeat; [done|]. split; [lia|]. apply Z.pow_pos_nonneg; lia. }
  assert (Hz2 : forall m k w, 0 <= m -> 0 <= k -> 0 <= w -> arr m (arr k (in_range w)) (zeros2 m k)).
  { intros. apply arr_repeat; [done|]. by apply Hz. }
  constructor; cbn; try done; try (by apply Hz); try (by apply Hz2); by apply arr_repeat.
Qed.

(** Realizing and resetting a controller whose properties pass the checks. *)
Lemma realize_reset_wf n k rev sec s :
  1 <= n -> in_range 32 k -> arm_gic_common_realize (gic_new n k rev sec) = inr s ->
  exists s', arm_gic_common_reset s = Ok s' /\ gic_wf s' /\ static s s' /\
    (forall c, 0 <= c < num_cpu s -> stack s' c []).
Proof.
  intros Hn Hk E. unfold arm_gic_common_realize in E. cbv zeta in E.
  set (s0 := gic_new n k rev sec) in *. cbn [num_irq security_extn] in E.
  destruct (num_cpu s0 >? GIC_NCPU) eqn:E1; [done|]. destruct (_ >? GIC_MAXIRQ) eqn:E2; [done|].
  destruct (_ || _) eqn:E3; [done|]. destruct (_ && _) eqn:E4; [done|]. injection E as <-.
  apply arm_gic_common_reset_wf.
  - apply orb_false_iff in E3 as [E3 E5]. cbn in E1. zb. unfold GIC_NCPU, GIC_MAXIRQ in *.
    change {| s0 with num_irq := u32 (num_irq s0 + GIC_BASE_IRQ s0) |}
      with (gic_new n (u32 (num_irq s0 + GIC_BASE_IRQ s0)) rev sec).
    apply gic_new_typed; [lia|exact (conj E3 E2)|exact E5|]. intros ->. by cbn in E4.
  - intros c Hc. cbn in Hc, E1. zb. unfold GIC_NCPU in *. cbn -[Z.to_nat replicate].
    by rewrite (at_repeat 8 c false) by lia.
Qed.
