(* ===== verification/GicDelivery.v ===== *)
(** * The interrupt controller: the life of a level-triggered interrupt

    What the operations do to the configuration of the interrupts
    ([config_le]), and from it the cycle of an interrupt: a raised line raises
    the IRQ of the processor, the acknowledge names the interrupt and lowers the
    IRQ, the end of interrupt restores what ran before, and raises the IRQ again
    exactly if the line is still up. *)

From S2P Require Import Prelude CArray Gic GicProofs GicOps GicRegs.

(** ** What a computation that returned has changed *)

Lemma aset_inv {A} (a a' : list A) i x :
  aset a i x = Ok a' -> a' = upd a i x /\ 0 <= i < Z.of_nat (length a).
Proof. unfold aset. intros H. case_match eqn:E; [|done]. zb. by injection H as <-. Qed.

Lemma mod_irq_inv s irq f s' :
  mod_irq s irq f = Ok s' -> s' = with_irq s irq f /\ 0 <= irq < Z.of_nat (length (irq_state s)).
Proof.
  unfold mod_irq. intros H. inv_res. apply aset_inv in H1 as [-> Hi]. split; [|done].
  unfold with_irq, st_of. do 3 f_equal. rewrite (aget_in (Z.of_nat (length (irq_state s))) (fun _ => True)) in H0; [congruence| |exact Hi].
  split; [done|]. by apply Forall_true.
Qed.

Lemma with_irq_st' s irq f j :
  0 <= irq < Z.of_nat (length (irq_state s)) -> 0 <= j ->
  st_of (with_irq s irq f) j = if irq =? j then f (st_of s irq) else st_of s j.
Proof.
  intros Hi Hj. unfold st_of at 1. cbn.
  rewrite (at_upd (Z.of_nat (length (irq_state s))) (fun _ => True)); [done| |done|done].
  split; [done|]. by apply Forall_true.
Qed.

Lemma cfor_partial {S} (P : S -> Prop) lo hi body s s' :
  (forall i s s', P s -> body i s = Ok s' -> P s') -> P s -> cfor lo hi body s = Ok s' -> P s'.
Proof.
  intros Hb. unfold cfor. generalize (Z.to_nat (hi - lo)). intros n. revert lo s.
  induction n as [|n IH]; intros lo s HP; cbn; intros H; inv_res; [done|].
  eapply IH; [|done]. by eapply Hb.
Qed.

(** The configuration is the same and nothing new is pending. *)
Record config_le (s s' : GICState) : Prop := mkConfigLe {
  c_regs : (ctlr s', cpu_ctlr s', irq_target s', priority1 s', priority2 s', priority_mask s') =
           (ctlr s, cpu_ctlr s, irq_target s, priority1 s, priority2 s, priority_mask s);
  c_static : static s s';
  c_irq : forall j, 0 <= j -> let st := st_of s j in let st' := st_of s' j in
    enabled st' = enabled st /\ level st' = level st /\ edge_trigger st' = edge_trigger st /\
    group st' = group st /\
    forall c, 0 <= c -> Z.testbit (pending st') c = true -> Z.testbit (pending st) c = true
}.

#[global] Instance config_le_preorder : PreOrder config_le.
Proof.
  split.
  - intros s. by constructor.
  - intros s1 s2 s3 [H1 G1 K1] [H2 G2 K2]. constructor; [congruence| |].
    + by transitivity s2.
    + intros j Hj. destruct (K1 j Hj) as (? & ? & ? & ? & Hp1). destruct (K2 j Hj) as (? & ? & ? & ? & Hp2).
      cbv zeta. repeat split; [congruence..|]. intros c Hc H'. by apply Hp1, Hp2.
Qed.

Lemma gic_update_cpu_out cpu s s' :
  gic_update_cpu cpu s = Ok s' -> exists cp i f, s' = with_out s cp i f.
Proof.
  assert (Hl : forall s a b c d e s', set_lines (with_out s a b c) cpu d e = Ok s' ->
    exists cp i f, s' = with_out s cp i f).
  { intros s0 a b c d e s1 H. unfold set_lines in H. inv_res. by eexists _, _, _. }
  assert (Hp : forall s x s', set_current_pending s cpu x = Ok s' ->
    exists cp, s' = with_out s cp (parent_irq s) (parent_fiq s)).
  { intros s0 x s1 H. unfold set_current_pending in H. inv_res. by eexists. }
  unfold gic_update_cpu. intros H. cbv zeta in H. inv_res;
    repeat match goal with H : set_current_pending _ _ _ = Ok _ |- _ => apply Hp in H as [? ->] end;
    apply Hl in H as (cp & i & f & ->); by exists cp, i, f.
Qed.

Lemma gic_update_out s s' : gic_update s = Ok s' -> exists cp i f, s' = with_out s cp i f.
Proof.
  apply (cfor_partial (fun s' => exists cp i f, s' = with_out s cp i f)).
  - intros i s1 s2 (cp & a & b & ->) (cp' & a' & b' & ->)%gic_update_cpu_out. by eexists _, _, _.
  - exists (current_pending s), (parent_irq s), (parent_fiq s). by destruct s.
Qed.

Lemma config_out s cp i f : config_le s (with_out s cp i f).
Proof. by constructor. Qed.

Lemma update_config s s' : gic_update s = Ok s' -> config_le s s'.
Proof. intros (cp & i & f & ->)%gic_update_out. apply config_out. Qed.

Lemma set_running_config s cpu irq s' : gic_set_running_irq s cpu irq = Ok s' -> config_le s s'.
Proof.
  unfold gic_set_running_irq. intros H. cbv zeta in H. inv_res.
  all: etransitivity; [|by eapply update_config]; by constructor.
Qed.

Lemma clear_pending_config s irq cm s' : clear_pending_model s irq cm = Ok s' -> config_le s s'.
Proof.
  unfold clear_pending_model, GIC_CLEAR_PENDING. intros H. apply bind_Ok in H as (m & _ & H).
  apply mod_irq_inv in H as [-> Hi]. constructor; [done..|]. intros j Hj.
  rewrite with_irq_st' by done. destruct (irq =? j) eqn:E; zb; [|done]. subst j. cbn.
  repeat split. intros c Hc. by apply testbit_land_l.
Qed.

Lemma ack_config s cpu attrs r s' : gic_acknowledge_irq s cpu attrs = Ok (r, s') -> config_le s s'.
Proof.
  unfold gic_acknowledge_irq. intros H. cbv zeta in H.
  inv_res; try done; (etransitivity; [|by eapply set_running_config]).
  all: match goal with
  | H : clear_pending_model ?x _ _ = Ok _ |- _ =>
      apply clear_pending_config in H; transitivity x; [by constructor|exact H]
  | _ => by constructor
  end.
Qed.

Lemma complete_loop_la fuel cpu irq : forall s tmp s',
  complete_loop fuel s cpu irq tmp = Ok s' -> exists la, s' = {| s with last_active := la |}.
Proof.
  induction fuel as [|fuel IH]; intros s tmp s' H; cbn in H; [done|]. inv_res; [|by eexists|by eapply IH].
  exists (last_active s'). by destruct s'.
Qed.

Lemma complete_config s cpu irq attrs s' :
  is_11mpcore s = false -> gic_complete_irq s cpu irq attrs = Ok s' -> config_le s s'.
Proof.
  intros H11. unfold gic_complete_irq. cbv zeta. rewrite H11. intros H. mon.
  inv_res; try done.
  - match goal with H : complete_loop _ _ _ _ _ = Ok _ |- _ => apply complete_loop_la in H as [la ->] end.
    by constructor.
  - by eapply set_running_config.
Qed.

(** ** From the configuration to the signals *)

Lemma is_best_unique s cpu i j : is_best s cpu i -> is_best s cpu j -> i = j.
Proof.
  intros (Hi & Ci & Bi) (Hj & Cj & Bj). specialize (Bi j Hj Cj). specialize (Bj i Hi Ci). lia.
Qed.

(** The lines of a processor whose best interrupt is known. *)
Lemma synced_best s cpu irq :
  synced s -> 0 <= cpu < num_cpu s -> forwarding s cpu = true -> is_best s cpu irq ->
  prio s irq cpu < (priority_mask s).[cpu] ->
  (current_pending s).[cpu] = irq /\
  (parent_irq s).[cpu] = raises s cpu irq && negb (as_fiq s cpu irq) /\
  (parent_fiq s).[cpu] = raises s cpu irq && as_fiq s cpu irq.
Proof.
  intros Hs Hc Hf Hb Hp. pose proof (Hs cpu Hc) as H. inversion H as [|? Hno|j ? Hj Hm|j ? Hj Hm]; [congruence| | |].
  - exfalso. destruct Hb as (Hr & Hcand & _). rewrite Hno in Hcand by done. done.
  - exfalso. rewrite (is_best_unique s cpu j irq Hj Hb) in Hm. lia.
  - by rewrite (is_best_unique s cpu _ irq Hj Hb) in *.
Qed.

Section config.
Context (s s' : GICState) (Hle : config_le s s').

Lemma config_fields :
  ctlr s' = ctlr s /\ cpu_ctlr s' = cpu_ctlr s /\ irq_target s' = irq_target s /\
  priority1 s' = priority1 s /\ priority2 s' = priority2 s /\ priority_mask s' = priority_mask s.
Proof. pose proof (c_regs _ _ Hle) as E. by injection E. Qed.

Lemma config_prio irq cpu : prio s' irq cpu = prio s irq cpu.
Proof. destruct config_fields as (_ & _ & _ & E1 & E2 & _). unfold prio. by rewrite E1, E2. Qed.

Lemma config_11 : is_11mpcore s' = is_11mpcore s.
Proof. destruct (c_static _ _ Hle) as (_ & _ & E & _). unfold is_11mpcore. by rewrite E. Qed.

Lemma config_forwarding cpu : forwarding s' cpu = forwarding s cpu.
Proof. destruct config_fields as (E1 & E2 & _). unfold forwarding. by rewrite E1, E2. Qed.

Lemma config_group cpu irq : 0 <= irq -> group_of s' cpu irq = group_of s cpu irq.
Proof. intros Hi. destruct (c_irq _ _ Hle irq Hi) as (_ & _ & _ & E & _). unfold group_of. by rewrite E. Qed.

Lemma config_as_fiq cpu irq : 0 <= irq -> as_fiq s' cpu irq = as_fiq s cpu irq.
Proof.
  intros Hi. destruct config_fields as (_ & E & _). unfold as_fiq. by rewrite config_group, E.
Qed.

(** Nothing becomes a candidate. *)
Lemma config_candidate cpu irq :
  0 <= cpu -> 0 <= irq -> candidate s' cpu irq = true -> candidate s cpu irq = true.
Proof.
  intros Hc Hi. destruct config_fields as (_ & _ & E & _). destruct (c_irq _ _ Hle irq Hi) as (E1 & E2 & E3 & _ & Hp).
  unfold candidate, is_pending. rewrite config_11, E, E1, E2, E3.
  rewrite !flag_bit by done. intros H. zb. apply andb_true_iff. split; [|done]. apply andb_true_iff.
  split; [done|]. rewrite orb_true_iff in *. destruct H1; [left; auto|by right].
Qed.

(** A level-triggered interrupt whose line is up stays a candidate. *)
Lemma config_candidate_level cpu irq :
  0 <= irq -> is_11mpcore s = false -> edge_trigger (st_of s irq) = false ->
  flag_set (level (st_of s irq)) (bit cpu) = true -> candidate s cpu irq = true ->
  candidate s' cpu irq = true.
Proof.
  intros Hi H11 He Hl. destruct config_fields as (_ & _ & E & _).
  destruct (c_irq _ _ Hle irq Hi) as (E1 & E2 & E3 & _ & _).
  unfold candidate, is_pending. rewrite config_11, E, E1, E2, E3, H11, He, Hl. by rewrite !orb_true_r.
Qed.

Lemma config_best cpu irq :
  0 <= cpu -> is_best s cpu irq -> candidate s' cpu irq = true -> is_best s' cpu irq.
Proof.
  intros Hc (Hr & Hcand & Hb) Hc'. destruct (c_static _ _ Hle) as (_ & En & _).
  unfold is_best. rewrite En. split; [done|]. split; [done|]. intros j Hj Hcj. rewrite !config_prio.
  apply Hb; [done|]. apply config_candidate; [done|lia|done].
Qed.
End config.

(** ** An interrupt that a processor is set up to take *)

(** Interrupt [irq] is on, routed to [cpu] in group 0 and signalled as IRQ; it is
    urgent enough for the mask, and no other candidate comes before it. *)
Record ready (s : GICState) (cpu irq : Z) : Prop := mkReady {
  rd_cpu : 0 <= cpu < num_cpu s;
  rd_irq : 32 <= irq < num_irq s;
  rd_rev : is_11mpcore s = false;
  rd_sec : security_extn s = false;
  rd_en : flag_set (enabled (st_of s irq)) (bit cpu) = true;
  rd_tgt : flag_set (irq_target s).[irq] (bit cpu) = true;
  rd_grp : flag_set (group (st_of s irq)) (bit cpu) = false;
  rd_ctl : Z.testbit (ctlr s) 0 = true;
  rd_cc : Z.testbit (cpu_ctlr s).[cpu] 0 = true;
  rd_fiq : flag_set (cpu_ctlr s).[cpu] GICC_CTLR_FIQ_EN = false;
  rd_pm : prio s irq cpu < (priority_mask s).[cpu];
  rd_other : forall j, 0 <= j < num_irq s -> j <> irq -> candidate s cpu j = true ->
    prio s irq cpu < prio s j cpu \/ (prio s irq cpu = prio s j cpu /\ irq < j)
}.

(** [irq] preempts the active interrupts [l]. *)
Definition preempts (s : GICState) (cpu irq : Z) (l : list Z) : Prop :=
  prio s irq cpu < match l with [] => 256 | x :: _ => prio s x cpu end.

Lemma forwarding_grp0 s cpu :
  Z.testbit (ctlr s) 0 = true -> Z.testbit (cpu_ctlr s).[cpu] 0 = true -> forwarding s cpu = true.
Proof.
  intros H1 H2. unfold forwarding. change 3 with (Z.lor (bit 0) (bit 1)).
  assert (H3 : forall x, Z.testbit x 0 = true -> flag_set x (Z.lor (bit 0) (bit 1)) = true).
  { intros x Hx. unfold flag_set. apply negb_true_iff, Z.eqb_neq. intros E.
    apply (f_equal (fun z => Z.testbit z 0)) in E. rewrite Z.land_spec, Hx, Z.bits_0 in E. done. }
  by rewrite !H3.
Qed.

Lemma stack_running s cpu l :
  gic_wf s -> 0 <= cpu < num_cpu s -> stack s cpu l ->
  (running_priority s).[cpu] = match l with [] => 256 | x :: _ => prio s x cpu end.
Proof.
  intros Hg Hc Hl. destruct (r_stack _ (g_regs _ Hg) cpu Hc) as (k & Hk & _ & _ & ->).
  by rewrite (active_chain_det _ _ _ _ _ Hk Hl).
Qed.

Section ready.
Context (s : GICState) (cpu irq : Z) (Hg : gic_wf s) (Hr : ready s cpu irq).

Let Ht : typed s := r_typed _ (g_regs _ Hg).

Lemma ready_best : candidate s cpu irq = true -> is_best s cpu irq.
Proof.
  intros Hcand. pose proof (rd_irq _ _ _ Hr). split; [lia|]. split; [done|]. intros j Hj Hcj.
  destruct (decide (j = irq)) as [->|Hne]; [lia|].
  destruct (rd_other _ _ _ Hr j Hj Hne Hcj) as [?|[? ?]]; [by left|right; lia].
Qed.

Lemma ready_group : group_of s cpu irq = 0.
Proof. unfold group_of. by rewrite (rd_grp _ _ _ Hr). Qed.

(** The processor is shown the interrupt; its IRQ line is up if the interrupt
    preempts what runs. *)
Lemma ready_signal :
  candidate s cpu irq = true ->
  (current_pending s).[cpu] = irq /\
  (parent_irq s).[cpu] = (prio s irq cpu <? (running_priority s).[cpu]).
Proof.
  intros Hcand. destruct (synced_best s cpu irq) as (Ecp & Ei & _).
  - apply Hg.
  - apply Hr.
  - apply forwarding_grp0; apply Hr.
  - by apply ready_best.
  - apply Hr.
  - split; [done|]. rewrite Ei. unfold raises, as_fiq.
    rewrite ready_group, (rd_ctl _ _ _ Hr), (rd_cc _ _ _ Hr), (rd_fiq _ _ _ Hr).
    cbn [Z.eqb andb negb]. by rewrite !andb_true_r.
Qed.

Lemma ready_visible attrs :
  candidate s cpu irq = true -> gic_get_current_pending_irq s cpu attrs = Ok irq.
Proof.
  intros Hcand. pose proof (t_ncpu _ Ht). pose proof (t_nirq _ Ht). pose proof (rd_irq _ _ _ Hr).
  pose proof (rd_cpu _ _ _ Hr). unfold gic_get_current_pending_irq, GIC_TEST_GROUP.
  rewrite (aget_in _ _ _ _ (t_cp _ Ht)) by lia. mon. rewrite (proj1 (ready_signal Hcand)).
  destruct (_ && _); [|done]. rewrite irq_state_get by (done || lia). mon.
  rewrite (rd_grp _ _ _ Hr), (rd_sec _ _ _ Hr). cbn [negb orb andb].
  by rewrite (aget_in _ _ _ _ (t_cc _ Ht)) by lia.
Qed.

(** While something at least as urgent runs, the IRQ line is down. *)
Lemma ready_quiet : (running_priority s).[cpu] <= prio s irq cpu -> (parent_irq s).[cpu] = false.
Proof.
  intros Hle. pose proof (g_synced _ Hg cpu (rd_cpu _ _ _ Hr)) as H. inversion H as [| | |j ? Hj Hm]; [done..|].
  apply andb_false_iff. left. unfold raises. apply andb_false_iff. left. apply andb_false_iff. left.
  apply Z.ltb_ge. pose proof Hj as (Hrj & Hcj & _).
  destruct (decide ((current_pending s).[cpu] = irq)) as [->|Hne]; [done|].
  pose proof (rd_other _ _ _ Hr _ Hrj Hne Hcj). lia.
Qed.
End ready.

(** [s'] differs from [s] in the state of [irq] and in what is pending no more. *)
Definition config_but (cpu irq : Z) (s s' : GICState) : Prop :=
  (ctlr s', cpu_ctlr s', irq_target s', priority1 s', priority2 s', priority_mask s') =
  (ctlr s, cpu_ctlr s, irq_target s, priority1 s, priority2 s, priority_mask s) /\
  static s s' /\
  (enabled (st_of s' irq) = enabled (st_of s irq) /\ group (st_of s' irq) = group (st_of s irq) /\
   edge_trigger (st_of s' irq) = edge_trigger (st_of s irq)) /\
  (forall j, 0 <= j -> j <> irq -> candidate s' cpu j = true -> candidate s cpu j = true).

Lemma config_le_but cpu irq s s' : config_le s s' -> 0 <= cpu -> 0 <= irq -> config_but cpu irq s s'.
Proof.
  intros Hle Hc Hi. destruct (c_irq _ _ Hle irq Hi) as (? & ? & ? & ? & _).
  split; [apply Hle|]. split; [apply Hle|]. split; [done|]. intros j Hj _. by apply config_candidate.
Qed.

#[global] Instance config_but_preorder cpu irq : PreOrder (config_but cpu irq).
Proof.
  split; [by repeat split|]. intros s1 s2 s3 (A1 & B1 & (C1 & D1 & F1) & G1) (A2 & B2 & (C2 & D2 & F2) & G2).
  split; [congruence|]. split; [by transitivity s2|]. split; [split; [congruence|split; congruence]|]. auto.
Qed.

Lemma but_prio cpu irq s s' j c : config_but cpu irq s s' -> prio s' j c = prio s j c.
Proof. intros [E _]. injection E as _ _ _ E1 E2 _. unfold prio. by rewrite E1, E2. Qed.

Lemma ready_but cpu irq s s' : config_but cpu irq s s' -> ready s cpu irq -> ready s' cpu irq.
Proof.
  intros Hb Hr. pose proof Hb as (E & (En & Ei & Er & Es) & (E1 & E2 & _) & Hc).
  injection E as Ea Eb Ec _ _ Ed. destruct Hr.
  constructor; rewrite ?En, ?Ei, ?Es, ?E1, ?E2, ?Ea, ?Eb, ?Ec, ?Ed, ?(but_prio _ _ _ _ _ _ Hb); try done.
  - unfold is_11mpcore in *. by rewrite Er.
  - intros j Hj Hne Hcj. rewrite !(but_prio _ _ _ _ _ _ Hb). apply rd_other0; [done..|]. apply Hc; [lia|done..].
Qed.

Lemma preempts_but cpu irq s s' l : config_but cpu irq s s' -> preempts s cpu irq l -> preempts s' cpu irq l.
Proof. intros Hb. unfold preempts. rewrite (but_prio _ _ _ _ _ _ Hb). destruct l; [done|]. by rewrite (but_prio _ _ _ _ _ _ Hb). Qed.

(** ** The steps of its life *)

(** The line of [irq] goes from low to high. *)
Definition raise_irq (s : GICState) (irq : Z) : GICState :=
  with_irq s irq (fun st => {| st with
    level := 255;
    pending := if edge_trigger st then u8 (Z.lor (pending st) (irq_target s).[irq]) else pending st |}).

Lemma others_but s cpu irq f :
  typed s -> 0 <= irq < 1020 ->
  (forall st, enabled (f st) = enabled st /\ group (f st) = group st /\ edge_trigger (f st) = edge_trigger st) ->
  config_but cpu irq s (with_irq s irq f).
Proof.
  intros Ht Hi Hf. split; [done|]. split; [done|]. split.
  - rewrite with_irq_st, Z.eqb_refl by (done || lia). apply Hf.
  - intros j Hj Hne. unfold candidate, is_pending. rewrite with_irq_st, (proj2 (Z.eqb_neq irq j)) by (done || lia).
    done.
Qed.

Lemma set_irq_spi s irq lvl :
  gic_wf s -> is_11mpcore s = false -> 32 <= irq < num_irq s ->
  gic_set_irq s (irq - 32) lvl =
    if lvl =? (if flag_set (level (st_of s irq)) 255 then 1 else 0) then Ok s
    else s1 ← gic_set_irq_generic s irq lvl 255 (irq_target s).[irq]; gic_update s1.
Proof.
  intros Hg H11 Hi. pose proof (r_typed _ (g_regs _ Hg)) as Ht. pose proof (t_nirq _ Ht).
  destruct (decode_line_ok s (irq - 32) Ht) as (i & cm & t & Ed & Hir & Hd); [left; lia|].
  destruct Hd as (-> & -> & ->); [lia|]. replace (irq - 32 + 32) with irq in * by lia.
  unfold gic_set_irq, GIC_TEST_LEVEL, GIC_NR_SGIS. rewrite Ed. mon.
  rewrite (proj2 (Z.ltb_ge irq 16)) by lia. rewrite irq_state_get by (done || lia). mon.
  by rewrite H11.
Qed.

Lemma op_raise s cpu irq :
  gic_wf s -> ready s cpu irq -> level (st_of s irq) = 0 ->
  exists s1, gic_set_irq s (irq - 32) 1 = Ok s1 /\ gic_wf s1 /\ config_but cpu irq s s1 /\
    frame s s1 /\ candidate s1 cpu irq = true /\ level (st_of s1 irq) = 255.
Proof.
  intros Hg Hr Hlow. pose proof (r_typed _ (g_regs _ Hg)) as Ht. pose proof (t_nirq _ Ht). pose proof (t_ncpu _ Ht).
  pose proof (rd_irq _ _ _ Hr) as Hi. pose proof (rd_cpu _ _ _ Hr) as Hc.
  destruct (gic_set_irq_wf s (irq - 32) 1 Hg) as (s1 & E & Hg1 & Hf1); [left; lia|].
  exists s1. split; [done|]. split; [done|].
  rewrite set_irq_spi in E by (done || apply Hr). rewrite Hlow in E.
  change (flag_set 0 255) with false in E. cbn [Z.eqb] in E.
  assert (Er : gic_set_irq_generic s irq 1 255 (irq_target s).[irq] = Ok (raise_irq s irq)).
  { unfold gic_set_irq_generic, GIC_SET_LEVEL, GIC_TEST_EDGE_TRIGGER, GIC_SET_PENDING. cbn [negb Z.eqb].
    rewrite mod_irq_ok by (done || lia). mon. set (s0 := with_irq s irq _).
    assert (Ht0 : typed s0) by (apply with_irq_typed; [done|lia|irq_typ]).
    rewrite irq_state_get by (done || lia). mon.
    assert (E0 : st_of s0 irq = let st := st_of s irq in {| st with level := 255 |}).
    { unfold s0. rewrite with_irq_st, Z.eqb_refl by (done || lia). by rewrite Hlow. }
    rewrite E0. cbn [edge_trigger]. unfold raise_irq.
    destruct (edge_trigger (st_of s irq)) eqn:Ee.
    - rewrite mod_irq_ok by (done || lia). unfold with_irq. rewrite E0, Ee. unfold s0, with_irq. cbn.
      by rewrite upd_upd, Ee.
    - unfold s0, with_irq. by rewrite Ee, Hlow. }
  rewrite Er in E. mon. pose proof E as (cp & a & b & ->)%gic_update_out.
  assert (Hst : st_of (raise_irq s irq) irq = let st := st_of s irq in {| st with level := 255;
    pending := if edge_trigger st then u8 (Z.lor (pending st) (irq_target s).[irq]) else pending st |}).
  { unfold raise_irq. by rewrite with_irq_st, Z.eqb_refl by (done || lia). }
  split; [|split; [done|split]].
  - destruct (others_but s cpu irq (fun st => {| st with level := 255;
      pending := if edge_trigger st then u8 (Z.lor (pending st) (irq_target s).[irq]) else pending st |}))
      as (H1 & H2 & H3 & H4); [done|lia|done|]. by split.
  - change (candidate (raise_irq s irq) cpu irq = true). unfold candidate, is_pending.
    rewrite Hst. cbn [enabled level edge_trigger pending].
    change (irq_target (raise_irq s irq)) with (irq_target s).
    change (is_11mpcore (raise_irq s irq)) with (is_11mpcore s).
    rewrite (rd_en _ _ _ Hr), (rd_tgt _ _ _ Hr), (rd_rev _ _ _ Hr), orb_true_r, andb_true_r. cbn [negb andb].
    pose proof (rd_tgt _ _ _ Hr) as Htg. rewrite flag_bit in Htg by lia. rewrite !flag_bit by lia.
    destruct (edge_trigger (st_of s irq)); cbn [negb andb].
    + by rewrite testbit_u8, Z.lor_spec, Htg, orb_true_r by lia.
    + change 255 with (Z.ones 8). rewrite Z.ones_spec_low by lia. apply orb_true_r.
  - change (level (st_of (raise_irq s irq) irq) = 255). by rewrite Hst.
Qed.

Lemma op_lower s cpu irq :
  gic_wf s -> ready s cpu irq -> level (st_of s irq) = 255 -> Z.testbit (pending (st_of s irq)) cpu = false ->
  exists s1, gic_set_irq s (irq - 32) 0 = Ok s1 /\ gic_wf s1 /\ config_but cpu irq s s1 /\
    frame s s1 /\ candidate s1 cpu irq = false /\ level (st_of s1 irq) = 0.
Proof.
  intros Hg Hr Hup Hnp. pose proof (r_typed _ (g_regs _ Hg)) as Ht. pose proof (t_nirq _ Ht). pose proof (t_ncpu _ Ht).
  pose proof (rd_irq _ _ _ Hr) as Hi. pose proof (rd_cpu _ _ _ Hr) as Hc.
  destruct (gic_set_irq_wf s (irq - 32) 0 Hg) as (s1 & E & Hg1 & Hf1); [left; lia|].
  exists s1. split; [done|]. split; [done|].
  rewrite set_irq_spi in E by (done || apply Hr). rewrite Hup in E.
  change (flag_set 255 255) with true in E. cbn [Z.eqb] in E.
  unfold gic_set_irq_generic, GIC_CLEAR_LEVEL in E. cbn [negb Z.eqb] in E.
  rewrite mod_irq_ok in E by (done || lia). mon.
  set (f := fun st : gic_irq_state => _) in E. apply gic_update_out in E as (cp & a & b & ->).
  assert (Hst : st_of (with_irq s irq f) irq = let st := st_of s irq in {| st with level := 0 |}).
  { rewrite with_irq_st, Z.eqb_refl by (done || lia). unfold f. by rewrite Hup. }
  split; [|split; [done|split]].
  - destruct (others_but s cpu irq f) as (H1 & H2 & H3 & H4); [done|lia|done|]. by split.
  - change (candidate (with_irq s irq f) cpu irq = false). unfold candidate, is_pending.
    rewrite Hst. cbn [enabled level edge_trigger pending]. rewrite !flag_bit by lia.
    by rewrite Hnp, Z.bits_0, !andb_false_r.
  - change (level (st_of (with_irq s irq f) irq) = 0). by rewrite Hst.
Qed.

(** An acknowledged interrupt is not pending any more. *)
Lemma clear_pending_clears s irq cpu s' :
  clear_pending_model s irq (bit cpu) = Ok s' -> 0 <= cpu < 8 ->
  Z.testbit (pending (st_of s' irq)) cpu = false.
Proof.
  unfold clear_pending_model, GIC_CLEAR_PENDING. intros H Hc. apply bind_Ok in H as (m & _ & H).
  apply mod_irq_inv in H as [-> Hi]. rewrite with_irq_st', Z.eqb_refl by lia. cbn [pending].
  rewrite testbit_u8, Z.land_spec, Z.lnot_spec by lia. apply andb_false_iff. right. apply negb_false_iff.
  destruct m; [|by rewrite testbit_bit, Z.eqb_refl by lia].
  change ALL_CPU_MASK with (Z.ones 8). apply Z.ones_spec_low. lia.
Qed.

Lemma ack_clears s cpu attrs irq r s' :
  gic_get_current_pending_irq s cpu attrs = Ok irq -> 16 <= irq -> 0 <= cpu < 8 ->
  gic_acknowledge_irq s cpu attrs = Ok (r, s') ->
  s' = s \/ Z.testbit (pending (st_of s' irq)) cpu = false.
Proof.
  intros Hget Hi Hc. unfold gic_acknowledge_irq. rewrite Hget. cbv zeta. intros H. mon.
  inv_res; try (by left); right.
  all: match goal with
  | H : (_ <? GIC_NR_SGIS) = true |- _ => unfold GIC_NR_SGIS in H; zb; lia
  | H : clear_pending_model _ _ _ = Ok ?g, H' : gic_set_running_irq ?g ?i _ = Ok _ |- Z.testbit (pending (st_of _ ?j)) _ = _ =>
      apply clear_pending_clears in H; [|done]; apply set_running_config in H';
      destruct (c_irq _ _ H' j ltac:(lia)) as (_ & _ & _ & _ & Hp);
      apply not_true_iff_false; intros Hb; apply Hp in Hb; [congruence|lia]
  end.
Qed.

Lemma op_ack s cpu irq l attrs :
  gic_wf s -> ready s cpu irq -> candidate s cpu irq = true -> stack s cpu l -> preempts s cpu irq l ->
  exists s1, gic_acknowledge_irq s cpu attrs = Ok (irq, s1) /\ gic_wf s1 /\ config_but cpu irq s s1 /\
    stack s1 cpu (irq :: l) /\ (parent_irq s1).[cpu] = false /\
    level (st_of s1 irq) = level (st_of s irq) /\ Z.testbit (pending (st_of s1 irq)) cpu = false.
Proof.
  intros Hg Hr Hcand Hl Hpre. pose proof (r_typed _ (g_regs _ Hg)) as Ht.
  pose proof (t_nirq _ Ht). pose proof (t_ncpu _ Ht).
  pose proof (rd_irq _ _ _ Hr) as Hi. pose proof (rd_cpu _ _ _ Hr) as Hc.
  pose proof (ready_visible s cpu irq Hg Hr attrs Hcand) as Ev.
  destruct (gic_acknowledge_wf s cpu attrs Hg Hc) as (ret & s1 & E & Hg1 & Hcase).
  destruct Hcase as [[_ Hno]|(i & k & Ei & _ & _ & Hret & Hk & Hk1)].
  { exfalso. specialize (Hno irq Ev ltac:(lia)). rewrite (stack_running s cpu l Hg Hc Hl) in Hno.
    unfold preempts in Hpre. lia. }
  rewrite Ev in Ei. injection Ei as <-. rewrite (active_chain_det _ _ _ _ _ Hk Hl) in Hk1.
  exists s1. rewrite E, Hret by lia. split; [done|]. split; [done|].
  pose proof (ack_config _ _ _ _ _ E) as Hle.
  assert (Hbut : config_but cpu irq s s1) by (apply config_le_but; [done|lia..]).
  split; [done|]. split; [done|]. split.
  { pose proof (ready_but _ _ _ _ Hbut Hr) as Hr1. apply (ready_quiet s1 cpu irq Hg1 Hr1).
    rewrite (stack_running s1 cpu _ Hg1 (rd_cpu _ _ _ Hr1) Hk1). lia. }
  destruct (c_irq _ _ Hle irq ltac:(lia)) as (_ & Elv & _). split; [done|].
  destruct (ack_clears s cpu attrs irq ret s1) as [->|]; [done|lia|lia|done| |done].
  exfalso. pose proof (active_chain_det _ _ _ _ _ Hl Hk1) as Hll. apply (f_equal length) in Hll. cbn in Hll. lia.
Qed.

(** The end of an interrupt touches no interrupt's state. *)
Lemma complete_irq_state s cpu irq attrs s' :
  is_11mpcore s = false -> gic_complete_irq s cpu irq attrs = Ok s' -> irq_state s' = irq_state s.
Proof.
  intros H11. unfold gic_complete_irq. cbv zeta. rewrite H11. intros H. mon. inv_res; try done.
  - match goal with H : complete_loop _ _ _ _ _ = Ok _ |- _ => by apply complete_loop_la in H as [la ->] end.
  - unfold gic_set_running_irq in H. cbv zeta in H. inv_res; by apply gic_update_out in H as (cp & a & b & ->).
Qed.

Lemma candidate_irq_state s s' cpu irq :
  irq_state s' = irq_state s -> config_le s s' -> candidate s' cpu irq = candidate s cpu irq.
Proof.
  intros E Hle. destruct (config_fields _ _ Hle) as (_ & _ & Et & _).
  unfold candidate, is_pending, st_of. by rewrite E, Et, (config_11 _ _ Hle).
Qed.

Lemma op_eoi s cpu irq l attrs :
  gic_wf s -> ready s cpu irq -> stack s cpu (irq :: l) ->
  exists s1, gic_complete_irq s cpu irq attrs = Ok s1 /\ gic_wf s1 /\ config_but cpu irq s s1 /\
    stack s1 cpu l /\ candidate s1 cpu irq = candidate s cpu irq /\
    level (st_of s1 irq) = level (st_of s irq).
Proof.
  intros Hg Hr Hl. pose proof (rd_irq _ _ _ Hr) as Hi. pose proof (rd_cpu _ _ _ Hr) as Hc.
  destruct (gic_complete_wf s cpu irq attrs Hg) as (s1 & E & Hg1 & Hst1); [done|lia|].
  exists s1. split; [done|]. split; [done|].
  pose proof (complete_config _ _ _ _ _ (rd_rev _ _ _ Hr) E) as Hle.
  pose proof (complete_irq_state _ _ _ _ _ (rd_rev _ _ _ Hr) E) as Ei.
  split; [apply config_le_but; [done|lia..]|]. split; [|split; [by apply candidate_irq_state|unfold st_of; by rewrite Ei]].
  specialize (Hst1 ltac:(lia) ltac:(unfold ns_access; by rewrite (rd_sec _ _ _ Hr)) _ Hl).
  destruct (r_stack _ (g_regs _ Hg) cpu Hc) as (k & Hk & _ & Hs & _).
  rewrite (active_chain_det _ _ _ _ _ Hk Hl) in Hs. apply sorted_NoDup, NoDup_cons in Hs as [Hnot _].
  rewrite filter_cons_False, filter_id in Hst1; [done| |by naive_solver].
  intros x Hx ->. done.
Qed.

(** ** The cycles *)

(** Raised and acknowledged: the IRQ of the processor goes up, and down with the
    acknowledge, which names the interrupt. *)
Lemma taken s cpu irq l attrs :
  gic_wf s -> ready s cpu irq -> level (st_of s irq) = 0 -> stack s cpu l -> preempts s cpu irq l ->
  exists s1 s2, gic_set_irq s (irq - 32) 1 = Ok s1 /\ (parent_irq s1).[cpu] = true /\
    gic_acknowledge_irq s1 cpu attrs = Ok (irq, s2) /\ (parent_irq s2).[cpu] = false /\
    gic_wf s2 /\ config_but cpu irq s s2 /\ stack s2 cpu (irq :: l) /\
    level (st_of s2 irq) = 255 /\ Z.testbit (pending (st_of s2 irq)) cpu = false.
Proof.
  intros Hg Hr Hlow Hl Hpre.
  destruct (op_raise s cpu irq Hg Hr Hlow) as (s1 & E1 & Hg1 & Hb1 & (Ela & Eri & _) & Hc1 & Hl1).
  pose proof (ready_but _ _ _ _ Hb1 Hr) as Hr1.
  assert (Hst1 : stack s1 cpu l) by (unfold stack in *; by rewrite Ela, Eri).
  pose proof (preempts_but _ _ _ _ _ Hb1 Hpre) as Hpre1.
  destruct (op_ack s1 cpu irq l attrs Hg1 Hr1 Hc1 Hst1 Hpre1) as (s2 & E2 & Hg2 & Hb2 & Hst2 & Hq2 & Hl2 & Hp2).
  exists s1, s2. split; [done|]. split.
  { rewrite (proj2 (ready_signal s1 cpu irq Hg1 Hr1 Hc1)).
    rewrite (stack_running s1 cpu l Hg1 (rd_cpu _ _ _ Hr1) Hst1). by apply Z.ltb_lt. }
  split; [done|]. split; [done|]. split; [done|]. split; [|split; [done|split; [congruence|done]]].
  by transitivity s1.
Qed.

(** Then the device is served and lowers its line: after the end of interrupt
    what was interrupted runs again and the interrupt is gone. *)
Lemma served s cpu irq l attrs :
  gic_wf s -> ready s cpu irq -> stack s cpu (irq :: l) -> level (st_of s irq) = 255 ->
  Z.testbit (pending (st_of s irq)) cpu = false ->
  exists s1 s2, gic_set_irq s (irq - 32) 0 = Ok s1 /\ gic_complete_irq s1 cpu irq attrs = Ok s2 /\
    gic_wf s2 /\ config_but cpu irq s s2 /\ stack s2 cpu l /\ candidate s2 cpu irq = false /\
    level (st_of s2 irq) = 0.
Proof.
  intros Hg Hr Hl Hup Hnp.
  destruct (op_lower s cpu irq Hg Hr Hup Hnp) as (s1 & E1 & Hg1 & Hb1 & (Ela & Eri & _) & Hc1 & Hl1).
  pose proof (ready_but _ _ _ _ Hb1 Hr) as Hr1.
  assert (Hst1 : stack s1 cpu (irq :: l)) by (unfold stack in *; by rewrite Ela, Eri).
  destruct (op_eoi s1 cpu irq l attrs Hg1 Hr1 Hst1) as (s2 & E2 & Hg2 & Hb2 & Hst2 & Hc2 & Hl2).
  exists s1, s2. split; [done|]. split; [done|]. split; [done|]. split; [by transitivity s1|].
  split; [done|]. split; congruence.
Qed.

(** If it is a candidate at the end of interrupt, it is signalled again. *)
Lemma again s cpu irq l attrs :
  gic_wf s -> ready s cpu irq -> stack s cpu (irq :: l) -> preempts s cpu irq l ->
  candidate s cpu irq = true ->
  exists s1, gic_complete_irq s cpu irq attrs = Ok s1 /\ gic_wf s1 /\ stack s1 cpu l /\
    (current_pending s1).[cpu] = irq /\ (parent_irq s1).[cpu] = true.
Proof.
  intros Hg Hr Hl Hpre Hc.
  destruct (op_eoi s cpu irq l attrs Hg Hr Hl) as (s1 & E1 & Hg1 & Hb1 & Hst1 & Hc1 & _).
  pose proof (ready_but _ _ _ _ Hb1 Hr) as Hr1. rewrite Hc in Hc1.
  destruct (ready_signal s1 cpu irq Hg1 Hr1 Hc1) as [Ecp Ei].
  exists s1. split; [done|]. split; [done|]. split; [done|]. split; [done|].
  rewrite Ei, (stack_running s1 cpu l Hg1 (rd_cpu _ _ _ Hr1) Hst1). apply Z.ltb_lt.
  exact (preempts_but _ _ _ _ _ Hb1 Hpre).
Qed.

(** The life of an interrupt that a device raises, and lowers once it is served:
    the controller is ready for the next one; and if the device raises it again
    before the end of the interrupt, that end signals it. *)
Lemma irq_cycle s cpu irq l attrs :
  gic_wf s -> ready s cpu irq -> level (st_of s irq) = 0 -> stack s cpu l -> preempts s cpu irq l ->
  exists s1 s2 s3, gic_set_irq s (irq - 32) 1 = Ok s1 /\ (parent_irq s1).[cpu] = true /\
    gic_acknowledge_irq s1 cpu attrs = Ok (irq, s2) /\ (parent_irq s2).[cpu] = false /\
    gic_wf s2 /\ ready s2 cpu irq /\ level (st_of s2 irq) = 255 /\
    gic_set_irq s2 (irq - 32) 0 = Ok s3 /\
    (exists s4, gic_complete_irq s3 cpu irq attrs = Ok s4 /\ gic_wf s4 /\ ready s4 cpu irq /\
       level (st_of s4 irq) = 0 /\ stack s4 cpu l /\ preempts s4 cpu irq l /\ candidate s4 cpu irq = false) /\
    (exists s4 s5, gic_set_irq s3 (irq - 32) 1 = Ok s4 /\ gic_complete_irq s4 cpu irq attrs = Ok s5 /\
       (parent_irq s5).[cpu] = true).
Proof.
  intros Hg Hr Hlow Hst Hpre.
  destruct (taken s cpu irq l attrs Hg Hr Hlow Hst Hpre)
    as (s1 & s2 & E1 & Hup & E2 & Hdown & Hg2 & Hb2 & Hst2 & Hlv2 & Hp2).
  pose proof (ready_but _ _ _ _ Hb2 Hr) as Hr2.
  destruct (op_lower s2 cpu irq Hg2 Hr2 Hlv2 Hp2) as (s3 & E3 & Hg3 & Hb3 & (Ela & Eri & _) & Hc3 & Hlv3).
  pose proof (ready_but _ _ _ _ Hb3 Hr2) as Hr3.
  assert (Hst3 : stack s3 cpu (irq :: l)) by (unfold stack in *; by rewrite Ela, Eri).
  assert (Hpre3 : preempts s3 cpu irq l) by (eapply preempts_but; [exact Hb3|]; by eapply preempts_but).
  exists s1, s2, s3. do 8 (split; [done|]). split.
  - destruct (op_eoi s3 cpu irq l attrs Hg3 Hr3 Hst3) as (s4 & E4 & Hg4 & Hb4 & Hst4 & Hc4 & Hlv4).
    exists s4. do 2 (split; [done|]). split; [by eapply ready_but|]. split; [congruence|]. split; [done|].
    split; [by eapply preempts_but|congruence].
  - destruct (op_raise s3 cpu irq Hg3 Hr3 Hlv3) as (s4 & E4 & Hg4 & Hb4 & (Ela4 & Eri4 & _) & Hc4 & _).
    destruct (again s4 cpu irq l attrs) as (s5 & E5 & _ & _ & _ & Hup5);
      [done|by eapply ready_but|unfold stack in *; by rewrite Ela4, Eri4|by eapply preempts_but|done|].
    by exists s4, s5.
Qed.
