(* ===== verification/GicTheorems.v ===== *)
(** * The interrupt controller: its theorems

    Every state a guest and the devices can bring the controller to satisfies
    the invariant (C39), the selection of the interrupt to signal (C30), and what
    the accesses outside of the guest's obligations do (C40). *)

From S2P Require Import Prelude CArray Gic GicProofs GicOps GicRegs GicDelivery.

(** ** The controller as a state machine *)

(** What happens to a controller: a device drives a line, a processor accesses
    the distributor or its interface. *)
Inductive gic_op : Type :=
| SetIrq (line lvl : Z)
| DistRead (current_cpu offset size : Z) (attrs : MemTxAttrs)
| DistWrite (current_cpu offset data size : Z) (attrs : MemTxAttrs)
| CpuRead (current_cpu offset : Z) (attrs : MemTxAttrs)
| CpuWrite (current_cpu offset value : Z) (attrs : MemTxAttrs)
| DoCpuRead (id offset : Z) (attrs : MemTxAttrs)
| DoCpuWrite (id offset value : Z) (attrs : MemTxAttrs).

Definition gic_step (s : GICState) (op : gic_op) : res GICState :=
  match op with
  | SetIrq line lvl => gic_set_irq s line lvl
  | DistRead c offset size attrs => _ ← gic_dist_read s c offset size attrs; Ok s
  | DistWrite c offset data size attrs => fst <$> gic_dist_write s c offset data size attrs
  | CpuRead c offset attrs => snd <$> gic_thiscpu_read s c offset attrs
  | CpuWrite c offset value attrs => snd <$> gic_thiscpu_write s c offset value attrs
  | DoCpuRead id offset attrs => snd <$> gic_do_cpu_read s id offset attrs
  | DoCpuWrite id offset value attrs => snd <$> gic_do_cpu_write s id offset value attrs
  end.

Fixpoint gic_run (s : GICState) (ops : list gic_op) : res GICState :=
  match ops with
  | [] => Ok s
  | op :: ops => s' ← gic_step s op; gic_run s' ops
  end.

(** The obligations of the board and of the guest: lines of devices, accesses by
    existing processors within the region, a software interrupt number in the
    register for software interrupts, no change of the priority of an active
    interrupt, no software interrupt without sender. *)
Definition op_ok (s : GICState) (op : gic_op) : Prop :=
  match op with
  | SetIrq line _ => line_ok s line
  | DistRead c offset size _ => 0 <= c < num_cpu s /\ 0 <= offset /\ offset + size <= 0x1000
  | DistWrite c offset data size _ =>
      0 <= c < num_cpu s /\ 0 <= offset /\
      (offset = 0xf00 -> size = 4 -> Z.land (u32 data) 0x3ff < 16) /\
      bytes_ok s offset (u32 data) (Z.to_nat size)
  | CpuRead c _ _ | CpuWrite c _ _ _ | DoCpuRead c _ _ | DoCpuWrite c _ _ _ => 0 <= c < num_cpu s
  end.

Lemma gic_step_wf s op : gic_wf s -> op_ok s op -> exists s', gic_step s op = Ok s' /\ gic_wf s'.
Proof.
  intros Hg Ho. pose proof (r_typed _ (g_regs _ Hg)) as Ht.
  destruct op as [line lvl|c off size attrs|c off data size attrs|c off attrs|c off v attrs|c off attrs|c off v attrs]; cbn in Ho |- *.
  - destruct (gic_set_irq_wf s line lvl Hg Ho) as (s' & -> & Hg' & _). eauto.
  - destruct Ho as (Hc & H0 & H1). destruct (gic_dist_read_ok s c off size attrs Ht Hc H0 H1) as [r ->]. mon. eauto.
  - destruct Ho as (Hc & H0 & H1 & H2).
    destruct (gic_dist_write_wf s c off data size attrs Hg Hc H0 H1 H2) as (s' & r & -> & Hg' & _). cbn. eauto.
  - destruct (gic_cpu_read_wf s (gic_get_current_cpu s c) off attrs Hg) as (v & r & s' & E & Hg');
      [by apply current_cpu_ok|]. unfold gic_thiscpu_read. rewrite E. cbn. eauto.
  - destruct (gic_cpu_write_wf s (gic_get_current_cpu s c) off (u32 v) attrs Hg) as (r & s' & E & Hg');
      [by apply current_cpu_ok|apply wrap_range; lia|]. unfold gic_thiscpu_write. rewrite E. cbn. eauto.
  - destruct (gic_cpu_read_wf s c off attrs Hg Ho) as (v & r & s' & E & Hg').
    unfold gic_do_cpu_read. rewrite E. cbn. eauto.
  - destruct (gic_cpu_write_wf s c off (u32 v) attrs Hg Ho) as (r & s' & E & Hg'); [apply wrap_range; lia|].
    unfold gic_do_cpu_write. rewrite E. cbn. eauto.
Qed.

(** The states reachable from a controller that was realized and reset. *)
Inductive gic_reach : GICState -> Prop :=
| reach_reset n k rev sec s s' :
    1 <= n -> in_range 32 k -> arm_gic_common_realize (gic_new n k rev sec) = inr s ->
    arm_gic_common_reset s = Ok s' -> gic_reach s'
| reach_step s op s' : gic_reach s -> op_ok s op -> gic_step s op = Ok s' -> gic_reach s'.

Lemma gic_reach_wf s : gic_reach s -> gic_wf s.
Proof.
  induction 1 as [n k rev sec s s' Hn Hk E1 E2|s op s' _ IH Ho E].
  - destruct (realize_reset_wf n k rev sec s Hn Hk E1) as (s'' & E & Hg & _). congruence.
  - destruct (gic_step_wf s op IH Ho) as (s'' & E' & Hg). congruence.
Qed.


(** ** Selection *)

Lemma signals_det s cpu p i f p' i' f' :
  signals s cpu p i f -> signals s cpu p' i' f' -> (p, i, f) = (p', i', f').
Proof.
  intros H H'.
  inversion H as [Hf|Hf Hno|j Hf Hj Hm|j Hf Hj Hm]; inversion H' as [Hf'|Hf' Hno'|j' Hf' Hj' Hm'|j' Hf' Hj' Hm'];
    subst; try done; try congruence.
  all: try match goal with
  | Hno : no_candidate ?x ?c, Hj : is_best ?x ?c _ |- _ =>
      exfalso; destruct Hj as (Hr & Hc & _); rewrite Hno in Hc by done; done
  end.
  all: try (rewrite (is_best_unique _ _ _ _ Hj Hj') in *; try lia; done).
Qed.

(** C30.  [gic_update] shows each processor the enabled, pending interrupt that
    is routed to it and has the best priority, the lowest number among equals, if
    its priority is better than the mask, and raises the IRQ or the FIQ line
    exactly when that interrupt preempts what runs and its group is on; it
    changes nothing else. *)
Theorem gic_update_selects s :
  typed s ->
  exists s', gic_update s = Ok s' /\ s' = with_out s (current_pending s') (parent_irq s') (parent_fiq s') /\
    forall cpu, 0 <= cpu < num_cpu s -> forall p i f,
      signals s cpu p i f <->
      (p, i, f) = ((current_pending s').[cpu], (parent_irq s').[cpu], (parent_fiq s').[cpu]).
Proof.
  intros Ht. destruct (gic_update_spec s Ht) as (cp & i & f & E & Ht' & Hs).
  eexists. split; [exact E|]. split; [done|]. intros cpu Hc p a b.
  assert (H : signals s cpu cp.[cpu] i.[cpu] f.[cpu]) by (by apply (signals_ext (with_out s cp i f)), Hs).
  split; [intros H'; by apply (signals_det s cpu)|]. intros [= -> -> ->]. done.
Qed.

(** ** Outside of the obligations *)

Lemma complete_loop_stuck s cpu irq x :
  aget2 (last_active s) x cpu = Ok x -> x <> 1023 -> x <> irq ->
  forall fuel, complete_loop fuel s cpu irq x = Fault OutOfFuel.
Proof.
  intros E Hx Hirq. induction fuel as [|fuel IH]; [done|]. cbn [complete_loop]. rewrite E. mon.
  rewrite (proj2 (Z.eqb_neq x 1023)), (proj2 (Z.eqb_neq x irq)) by done. done.
Qed.

Lemma sgi_loop_bad n s cpu irq mask :
  arr 16 (arr 8 (in_range 8)) (sgi_pending s) -> 16 <= irq -> in_range 8 mask -> mask <> 0 ->
  sgi_loop (S n) s cpu irq mask = Fault OutOfBounds.
Proof.
  intros [Hlen _] Hi Hmr Hm. cbn [sgi_loop]. destruct (ctz32_byte mask Hmr Hm) as [Hc8 _]. unfold GIC_NCPU.
  rewrite (proj2 (Z.ltb_lt (ctz32 mask) 8)) by lia. unfold aget2. by rewrite aget_out by lia.
Qed.

Lemma bad_send n s cpu irq mask :
  typed s -> 16 <= irq -> in_range 8 mask -> mask <> 0 ->
  (s ← GIC_SET_PENDING s irq mask; s ← sgi_loop (S n) s cpu irq mask; gic_update s) = Fault OutOfBounds.
Proof.
  intros Ht Hi Hmr Hm. unfold GIC_SET_PENDING. destruct (decide (irq < 1020)).
  - rewrite mod_irq_ok by (done || lia). mon. rewrite sgi_loop_bad; [done|apply Ht|done..].
  - unfold mod_irq. by rewrite aget_out by (destruct (t_st _ Ht) as [-> _]; lia).
Qed.

(** A write to the software interrupt register with an interrupt that is none. *)
Lemma bad_sgi s c value attrs :
  gic_wf s -> 0 <= c < num_cpu s -> 16 <= Z.land value 0x3ff ->
  sgi_mask (gic_get_current_cpu s c) value <> 0 ->
  gic_dist_writel s c 0xf00 value attrs = Fault OutOfBounds.
Proof.
  intros Hg Hc Hi Hm. pose proof (r_typed _ (g_regs _ Hg)) as Ht. pose proof (t_ncpu _ Ht).
  pose proof (current_cpu_ok s c Ht Hc) as Hcpu.
  unfold gic_dist_writel. rewrite Z.eqb_refl. apply bad_send; [done|done|apply sgi_mask_range; lia|done].
Qed.

(** Runs on the controller of a board with two processors. *)
Module Runs.
Definition board : GICState :=
  match create_gic 2 with inr (Ok s) => s | _ => gic_new 2 288 2 false end.

Definition ns : MemTxAttrs := mkAttrs false.

(** Processor 0 turns the distributor and its interface on. *)
Definition setup : list gic_op :=
  [DistWrite 0 0x000 1 4 ns; CpuWrite 0 0x00 1 ns; CpuWrite 0 0x04 0xf0 ns].

(** Interrupt 47 on with priority 0x80, routed to processor 0. *)
Definition setup47 : list gic_op :=
  setup ++ [DistWrite 0 (0x400 + 47) 0x80 1 ns; DistWrite 0 (0x800 + 47) 1 1 ns; DistWrite 0 0x105 0x80 1 ns].

(** Software interrupt 0 is made pending with one 32-bit write, taken and
    completed; then the next one is taken. *)
Definition no_sender : list gic_op :=
  setup ++ [DistWrite 0 0xf20 1 4 ns; CpuRead 0 0x0c ns; CpuWrite 0 0x10 0 ns].

(** The priority of the active interrupt 47 is raised; it is taken again. *)
Definition reprioritized : list gic_op :=
  setup47 ++ [SetIrq 15 1; CpuRead 0 0x0c ns; DistWrite 0 (0x400 + 47) 0x40 1 ns; CpuRead 0 0x0c ns].

(** The line of interrupt 47 is up when the interrupt is turned on, then it goes
    down. *)
Definition enabled_late : list gic_op :=
  SetIrq 15 1 :: setup47 ++ [SetIrq 15 0].

Definition outcome {A} (f : GICState -> A) (ops : list gic_op) : res A := f <$> gic_run board ops.
End Runs.

Import Runs.

Lemma outcome_run {A} (f : GICState -> A) ops a :
  outcome f ops = Ok a -> exists s, gic_run board ops = Ok s /\ f s = a.
Proof. unfold outcome. destruct (gic_run board ops); cbn; intros [= <-]. by eexists. Qed.

(** C40.  What a guest can do to the controller outside of its obligations.
    A write to the software interrupt register with a number above 15, which is
    masked with 0x3ff instead of 0xf, writes outside of the table of senders.  A
    32-bit write that makes one software interrupt pending makes three others
    pending without a sender, and taking one of them fails an assertion.  Raising
    the priority of an active interrupt lets the chain of active interrupts close
    to a ring, in which the end of another interrupt is searched for ever.  A
    level-triggered interrupt that is turned on while its line is up stays
    pending when the line goes down, though the comment at gic_test_pending says
    that only a write to the set-pending register does this. *)
Theorem gic_defects :
  (forall s c value attrs, gic_reach s -> 0 <= c < num_cpu s -> 16 <= Z.land value 0x3ff ->
     sgi_mask (gic_get_current_cpu s c) value <> 0 ->
     gic_dist_writel s c 0xf00 value attrs = Fault OutOfBounds) /\
  (exists s, gic_run board no_sender = Ok s /\ gic_acknowledge_irq s 0 ns = Fault AssertFailed) /\
  (exists s, gic_run board reprioritized = Ok s /\ (running_irq s).[0] = 47 /\
     forall irq fuel, irq <> 47 -> complete_loop fuel s 0 irq 47 = Fault OutOfFuel) /\
  (exists s, gic_run board enabled_late = Ok s /\ level (st_of s 47) = 0 /\
     (parent_irq s).[0] = true /\ (current_pending s).[0] = 47).
Proof.
  split; [|split; [|split]].
  - intros s c value attrs Hr. apply bad_sgi, gic_reach_wf, Hr.
  - destruct (outcome_run (fun s => fst <$> gic_acknowledge_irq s 0 ns) no_sender (Fault AssertFailed))
      as (s & E & H); [run_vm|].
    exists s. split; [done|]. destruct (gic_acknowledge_irq s 0 ns); [done|]. by injection H as ->.
  - destruct (outcome_run (fun s => ((running_irq s).[0], aget2 (last_active s) 47 0)) reprioritized (47, Ok 47))
      as (s & E & [= E1 E2]); [run_vm|].
    exists s. split; [done|]. split; [done|]. intros irq fuel Hne. by apply complete_loop_stuck.
  - destruct (outcome_run (fun s => (level (st_of s 47), (parent_irq s).[0], (current_pending s).[0])) enabled_late
      (0, true, 47)) as (s & E & [= E1 E2 E3]); [run_vm|].
    exists s. exact (conj E (conj E1 (conj E2 E3))).
Qed.

(** Applied to the controller of the board after its reset. *)
Lemma board_reach : gic_reach board.
Proof.
  apply (reach_reset 2 288 2 false (gic_new 2 288 2 false)); [lia|done|run_vm|].
  vm_compute. reflexivity.
Qed.

Lemma gic_defects_witness : gic_dist_writel board 1 0xf00 0x02000010 ns = Fault OutOfBounds.
Proof. apply (proj1 gic_defects); [apply board_reach|by vm_compute|by vm_compute|by vm_compute]. Defined.


Lemma gic_update_selects_witness :
  exists s', gic_update board = Ok s' /\ forall p i f, signals board 0 p i f <->
    (p, i, f) = ((current_pending s').[0], (parent_irq s').[0], (parent_fiq s').[0]).
Proof.
  destruct (gic_update_selects board) as (s' & E & _ & H); [apply gic_reach_wf, board_reach|].
  exists s'. split; [exact E|]. apply (H 0). clear E H. vm_compute. split; congruence.
Defined.
