(* ===== verification/GicSystem.v ===== *)
(** * From the pipe device through the interrupt controller to the driver

    The pipe device, the interrupt controller and the guest's driver put
    together as the board wires them: a wake of a service interrupts a processor,
    whose handler serves the device and ends the interrupt (C38); and a wake that
    is lost, because the device leaves its line up (C5). *)

From S2P Require Import Prelude IntrusiveList PipeDevice PipeDeviceProofs PipeDeviceTheorems GuestDriver GuestDriverProofs GuestDeviceLaws GuestSystem CArray Gic GicProofs GicOps GicRegs GicDelivery GicTheorems.

(** The interrupt of the pipe device: line 15 of the board, interrupt 47 of the
    controller. *)
Definition PIPE_INTID : Z := VIRT_QEMU_PIPE_irq + GIC_INTERNAL.

(** The wire [sysbus_create_simple("qemu_pipe", base, pic[irq])] makes: the level
    of the device's line is the level of the controller's input. *)
Definition pipe_line {W} (m : machine W) (g : GICState) : res GICState :=
  gic_set_irq g VIRT_QEMU_PIPE_irq (if dev_irq (dev m) then 1 else 0).

Section board.
Context {W : Type} (inv : W -> Prop) (live : W -> Z -> Prop) (phys : Z -> Z).
Local Abbreviation wf := (PipeDeviceProofs.wf inv live).
#[local] Hint Extern 0 (PipeMMIO (machine W)) => exact (machine_mmio phys) : typeclass_instances.
Implicit Types (m : machine W) (k : kernel (machine W)) (g : GICState).

(** The driver's side: the service wakes a pipe, the handler takes the event. *)
Lemma wake_and_handle k lp p n kp flags fuel :
  wf (kio k) -> lists (kio k) lp [] -> linked k (view (kio k)) -> pheap (kio k) !! p = Some n ->
  kpipes k !! pipe_channel n = Some kp -> (1 < fuel)%nat ->
  exists m1 k2, qemu_pipe_wake p flags (kio k) = Ok m1 /\ dev_irq (dev m1) = true /\
    qemu_pipe_interrupt fuel (set_io k m1) = Ok (IRQ_HANDLED, k2) /\
    wf (kio k2) /\ lists (kio k2) lp [] /\ dev_irq (dev (kio k2)) = false /\
    kpipes k2 !! pipe_channel n =
      Some {| kp with kp_flags := wake_flags (u8 (Z.lor (pipe_wanted n) flags)) (kp_flags kp) |}.
Proof.
  intros Hwf Hl Hk Hn Hkp Hf.
  destruct (qemu_pipe_wake_spec (kio k) lp [] p n flags Hl Hn) as (m1 & E1 & Hl1 & Hv1 & _ & _ & Hi1).
  destruct (wake_wf inv live (kio k) p n flags Hwf Hn) as (m1' & E1' & Hwf1).
  assert (m1' = m1) as -> by congruence. rewrite decide_False in Hl1 by apply not_elem_of_nil.
  assert (Hk1 : linked (set_io k m1) (view m1)).
  { intros q nq Hq. rewrite Hv1 in Hq.
    apply lookup_insert_Some in Hq as [[<- <-]|[_ Hq]]; [|by apply (Hk q)].
    apply (Hk p (info n)). by rewrite view_lookup, Hn. }
  destruct (interrupt_loop_spec inv live phys lp [p] (set_io k m1) fuel 0 Hwf1 Hl1 Hk1 Hf)
    as (k2 & E2 & Hwf2 & Hl2 & _ & Hkp2 & Hi2).
  exists m1, k2. split; [done|]. split; [done|].
  split; [unfold qemu_pipe_interrupt; by rewrite E2|]. split; [done|]. split; [done|]. split; [done|].
  pose proof (view_lookup m1 p) as Hx. rewrite Hv1, lookup_insert_eq in Hx. symmetry in Hx.
  apply fmap_Some in Hx as (n1 & Hn1 & Ei).
  assert (Ec1 : pipe_channel n1 = pipe_channel n) by (by apply (f_equal pipe_channel) in Ei).
  assert (Ew1 : pipe_wanted n1 = u8 (Z.lor (pipe_wanted n) flags)) by (by apply (f_equal pipe_wanted) in Ei).
  pose proof (woken_pipe_in inv live phys lp [p] m1 p n1 kp Hwf1 Hl1 ltac:(set_solver) Hn1) as Hwk.
  rewrite Hkp2. cbn [kpipes set_io kio]. rewrite Hkp. cbn. f_equal. rewrite <- Ec1, <- Ew1. exact Hwk.
Qed.

(** C38.  A service wakes a pipe while the device is quiet: the IRQ of the
    processor goes up; the acknowledge gives the number of the pipe's interrupt
    and lowers the IRQ; the driver's handler takes the event over into the flags
    of the pipe's sleepers; the device lowers its line, and with the end of the
    interrupt device and controller are where they were, ready for the next wake.
    A wake that comes between the handler and the end of the interrupt is not
    lost: the IRQ goes up again with the end of the interrupt. *)
Theorem pipe_interrupt_cycle k g lp p n kp flags fuel cpu l attrs :
  wf (kio k) -> lists (kio k) lp [] -> linked k (view (kio k)) -> pheap (kio k) !! p = Some n ->
  kpipes k !! pipe_channel n = Some kp -> (1 < fuel)%nat ->
  gic_wf g -> ready g cpu PIPE_INTID -> level (st_of g PIPE_INTID) = 0 ->
  stack g cpu l -> preempts g cpu PIPE_INTID l ->
  exists m1 g1 g2 k2 g3,
    qemu_pipe_wake p flags (kio k) = Ok m1 /\
    pipe_line m1 g = Ok g1 /\ (parent_irq g1).[cpu] = true /\
    gic_acknowledge_irq g1 cpu attrs = Ok (PIPE_INTID, g2) /\ (parent_irq g2).[cpu] = false /\
    qemu_pipe_interrupt fuel (set_io k m1) = Ok (IRQ_HANDLED, k2) /\
    kpipes k2 !! pipe_channel n =
      Some {| kp with kp_flags := wake_flags (u8 (Z.lor (pipe_wanted n) flags)) (kp_flags kp) |} /\
    pipe_line (kio k2) g2 = Ok g3 /\
    (exists g4, gic_complete_irq g3 cpu PIPE_INTID attrs = Ok g4 /\
       wf (kio k2) /\ lists (kio k2) lp [] /\ gic_wf g4 /\ ready g4 cpu PIPE_INTID /\
       level (st_of g4 PIPE_INTID) = 0 /\ stack g4 cpu l /\ preempts g4 cpu PIPE_INTID l /\
       candidate g4 cpu PIPE_INTID = false) /\
    (forall q nq fl, pheap (kio k2) !! q = Some nq ->
       exists m3 g4 g5, qemu_pipe_wake q fl (kio k2) = Ok m3 /\ pipe_line m3 g3 = Ok g4 /\
         gic_complete_irq g4 cpu PIPE_INTID attrs = Ok g5 /\ (parent_irq g5).[cpu] = true).
Proof.
  intros Hwf Hl Hk Hn Hkp Hf Hg Hr Hlow Hst Hpre.
  destruct (wake_and_handle k lp p n kp flags fuel Hwf Hl Hk Hn Hkp Hf)
    as (m1 & k2 & Ew & Hi1 & Eh & Hwf2 & Hl2 & Hi2 & Hkp2).
  destruct (irq_cycle g cpu PIPE_INTID l attrs Hg Hr Hlow Hst Hpre)
    as (g1 & g2 & g3 & E1 & Hup & E2 & Hdown & _ & _ & _ & E3 & (g4 & E4 & H4) & (g5 & g6 & E5 & E6 & Hup6)).
  exists m1, g1, g2, k2, g3. unfold pipe_line. rewrite Hi1, Hi2.
  do 8 (split; [done|]). split; [exists g4; by do 3 (split; [done|])|]. intros q nq fl Hq.
  destruct (qemu_pipe_wake_spec (kio k2) lp [] q nq fl Hl2 Hq) as (m3 & Ew3 & _ & _ & _ & _ & Hi3).
  exists m3, g5, g6. by rewrite Hi3.
Qed.

(** C5.  The device tree declares the pipe's interrupt as edge triggered, and the
    device does not lower its line when the last signaled pipe is closed: from
    then on the handler finds nothing to serve and the line stays up, and when
    the service of another pipe wakes it, the controller sees no edge: the pipe
    is on the signaled list, but no interrupt is pending. *)
Theorem stuck_line_loses_wakes k g lp p n cpu fuel :
  wf (kio k) -> lists (kio k) lp [p] -> pheap (kio k) !! p = Some n ->
  pipe_channel n = dev_channel (dev (kio k)) -> (0 < fuel)%nat ->
  gic_wf g -> ready g cpu PIPE_INTID -> edge_trigger (st_of g PIPE_INTID) = true ->
  level (st_of g PIPE_INTID) = 255 -> Z.testbit (pending (st_of g PIPE_INTID)) cpu = false ->
  exists m1, pipe_dev_write phys PIPE_REG_COMMAND PIPE_CMD_CLOSE (kio k) = Ok m1 /\
    pipe_line m1 g = Ok g /\
    qemu_pipe_interrupt fuel (set_io k m1) = Ok (IRQ_NONE, set_io k m1) /\
    forall q nq flags, pheap m1 !! q = Some nq ->
      exists m2, qemu_pipe_wake q flags m1 = Ok m2 /\ signaled_pipes (dev m2) = q /\
        pipe_line m2 g = Ok g /\ candidate g cpu PIPE_INTID = false.
Proof.
  intros Hwf Hl Hn Ec Hf Hg Hr He Hlv Hp.
  assert (Hsame : forall m, dev_irq (dev m) = true -> pipe_line m g = Ok g).
  { intros m Hi. unfold pipe_line. rewrite Hi.
    change VIRT_QEMU_PIPE_irq with (PIPE_INTID - 32).
    rewrite (set_irq_spi g PIPE_INTID 1 Hg (rd_rev _ _ _ Hr) (rd_irq _ _ _ Hr)). by rewrite Hlv. }
  destruct (close_signaled inv live phys (kio k) lp p n Hwf Hl Hn Ec) as (m1 & E1 & Hwf1 & Hz & Hl1 & Hi1).
  exists m1. split; [done|]. split; [by apply Hsame|]. split.
  { unfold qemu_pipe_interrupt. destruct fuel as [|fuel]; [lia|]. cbn [interrupt_loop].
    assert (E : readl PIPE_REG_CHANNEL (kio (set_io k m1)) = Ok (0, m1)).
    { cbn. unfold pipe_dev_read. cbn. by rewrite Hz. }
    rewrite E. mon. cbn. done. }
  intros q nq flags Hq.
  destruct (qemu_pipe_wake_spec m1 _ [] q nq flags Hl1 Hq) as (m2 & E2 & Hl2 & _ & _ & _ & Hi2).
  exists m2. split; [done|]. split; [|split; [by apply Hsame|]].
  - rewrite decide_False in Hl2 by apply not_elem_of_nil. destruct Hl2 as ((_ & Hs2) & _).
    by destruct Hs2 as (-> & _).
  - pose proof (rd_cpu _ _ _ Hr). unfold candidate, is_pending. rewrite He, !flag_bit by lia.
    by rewrite Hp, !andb_false_r.
Qed.
End board.
