(* ===== verification/GicWitnesses.v ===== *)
(** * Concrete runs of device, controller and driver

    The theorems on the board applied to the loopback service, the driver with
    one open pipe and the controller of a board with two processors. *)

From S2P Require Import Prelude IntrusiveList PipeDevice PipeDeviceProofs PipeDeviceTheorems PipeWitnesses GuestDriver GuestDriverProofs GuestDeviceLaws GuestSystem GuestWrite GuestWitnesses CArray Gic GicProofs GicOps GicRegs GicDelivery GicTheorems GicSystem.
Import Loopback Runs.

#[local] Hint Extern 0 (PipeMMIO (machine state)) => exact (machine_mmio Loopback.phys) : typeclass_instances.

(** ** Runs within the obligations *)

Definition idleb (s : GICState) : bool :=
  forallb (fun c => (running_irq s).[c] =? 1023) (seqZ 0 (num_cpu s)).

(** A check that implies [op_ok]: priorities are written while nothing is
    active. *)
Definition byte_okb (s : GICState) (offset value : Z) : bool :=
  (negb ((0x400 <=? offset) && (offset <? 0x800)) || idleb s) &&
  (negb ((0xf20 <=? offset) && (offset <? 0xf30)) || negb (u8 value =? 0)).

Definition op_okb (s : GICState) (op : gic_op) : bool :=
  match op with
  | SetIrq line _ => (0 <=? line) && (line <? num_irq s - 32)
  | DistRead c offset size _ =>
      (0 <=? c) && (c <? num_cpu s) && (0 <=? offset) && (offset + size <=? 0x1000)
  | DistWrite c offset data size _ =>
      (0 <=? c) && (c <? num_cpu s) && (0 <=? offset) && negb (offset =? 0xf00) &&
      forallb (fun i => byte_okb s (offset + i) (Z.shiftr (u32 data) (8 * i))) (seqZ 0 size)
  | CpuRead c _ _ | CpuWrite c _ _ _ | DoCpuRead c _ _ | DoCpuWrite c _ _ _ => (0 <=? c) && (c <? num_cpu s)
  end.

Lemma idleb_active s c irq : idleb s = true -> 0 <= c < num_cpu s -> ~ is_active s c irq.
Proof.
  intros H Hc (l & Hl & Hin). unfold idleb in H. rewrite forallb_forall in H.
  specialize (H c). rewrite <- list_elem_of_In, elem_of_seqZ in H. specialize (H ltac:(lia)). zb.
  unfold stack in Hl. rewrite H in Hl. destruct l as [|x l]; [set_solver|]. cbn in Hl. lia.
Qed.

Lemma op_okb_ok s op : op_okb s op = true -> op_ok s op.
Proof.
  destruct op; cbn; intros H; zb; try lia.
  - left. lia.
  - split; [lia|]. split; [lia|]. split; [lia|]. intros i Hi. rewrite forallb_forall in H0.
    specialize (H0 (Z.of_nat i)). rewrite <- list_elem_of_In, elem_of_seqZ in H0. specialize (H0 ltac:(lia)).
    unfold byte_okb in H0. apply andb_true_iff in H0 as [Ha Hb]. split.
    + intros Ho c Hc. apply orb_true_iff in Ha as [Ha|Ha]; [zb; lia|]. by apply idleb_active.
    + intros Ho _. apply orb_true_iff in Hb as [Hb|Hb]; [zb; lia|]. by zb.
Qed.

Fixpoint run_checked (s : GICState) (ops : list gic_op) : res GICState :=
  match ops with
  | [] => Ok s
  | op :: ops => if op_okb s op then s' ← gic_step s op; run_checked s' ops else Fault AssertFailed
  end.

Lemma run_checked_reach ops : forall s s', gic_reach s -> run_checked s ops = Ok s' -> gic_reach s'.
Proof.
  induction ops as [|op ops IH]; intros s s' Hr H; cbn in H; [by injection H as <-|].
  destruct (op_okb s op) eqn:E; [|done]. apply op_okb_ok in E. apply bind_Ok in H as (s1 & E1 & H).
  eapply IH; [|done]. by eapply reach_step.
Qed.

(** ** The controller with the pipe's interrupt set up *)

Definition ok_or (d : GICState) (r : res GICState) : GICState :=
  match r with Ok s => s | Fault _ => d end.

(** Interrupt 47 as the device tree declares it, edge triggered. *)
Definition pipe_setup : list gic_op := setup47 ++ [DistWrite 0 0xc0b 0x80 1 ns].

Definition gic_ready : GICState :=
  ok_or board (run_checked board pipe_setup).

(** The line went up, the interrupt was taken and completed, and the line is
    still up. *)
Definition gic_stuck : GICState :=
  ok_or board (run_checked gic_ready [SetIrq 15 1; CpuRead 0 0x0c ns; CpuWrite 0 0x10 47 ns]).

Lemma gic_ready_reach : gic_reach gic_ready.
Proof.
  apply (run_checked_reach pipe_setup board); [apply board_reach|].
  vm_compute. reflexivity.
Qed.

Lemma gic_stuck_reach : gic_reach gic_stuck.
Proof.
  apply (run_checked_reach [SetIrq 15 1; CpuRead 0 0x0c ns; CpuWrite 0 0x10 47 ns] gic_ready);
    [apply gic_ready_reach|]. vm_compute. reflexivity.
Qed.

(** The conditions of [ready], checked. *)
Definition readyb (s : GICState) (cpu irq : Z) : bool :=
  (0 <=? cpu) && (cpu <? num_cpu s) && (32 <=? irq) && (irq <? num_irq s) && negb (is_11mpcore s) &&
  negb (security_extn s) && flag_set (enabled (st_of s irq)) (bit cpu) &&
  flag_set (irq_target s).[irq] (bit cpu) && negb (flag_set (group (st_of s irq)) (bit cpu)) &&
  Z.testbit (ctlr s) 0 && Z.testbit (cpu_ctlr s).[cpu] 0 &&
  negb (flag_set (cpu_ctlr s).[cpu] GICC_CTLR_FIQ_EN) && (prio s irq cpu <? (priority_mask s).[cpu]) &&
  forallb (fun j => (j =? irq) || negb (candidate s cpu j)) (seqZ 0 (num_irq s)).

Lemma readyb_ready s cpu irq : readyb s cpu irq = true -> ready s cpu irq.
Proof.
  intros H. unfold readyb in H. apply andb_true_iff in H as [H Hall]. zb. constructor; try done; try lia.
  intros j Hj Hne Hc. rewrite forallb_forall in Hall. specialize (Hall j).
  rewrite <- list_elem_of_In, elem_of_seqZ in Hall. specialize (Hall ltac:(lia)).
  apply orb_true_iff in Hall as [Hj'|Hj']; zb; congruence.
Qed.

Lemma gic_ready_ready : ready gic_ready 0 PIPE_INTID.
Proof. apply readyb_ready. run_vm. Qed.

Lemma gic_stuck_ready : ready gic_stuck 0 PIPE_INTID.
Proof. apply readyb_ready. run_vm. Qed.

Lemma gic_ready_stack : stack gic_ready 0 [].
Proof. unfold stack, chain. run_vm. Qed.

Lemma opened_linked : linked kopened (view opened).
Proof.
  intros p n Hp. rewrite view_lookup, opened_heap, lookup_singleton in Hp.
  case_decide; [|done]. injection Hp as <-. cbn. by split_and!.
Qed.

Lemma pipe_interrupt_cycle_witness :
  exists m1 g1 g2 k2,
    qemu_pipe_wake 1 PIPE_WAKE_READ opened = Ok m1 /\
    pipe_line m1 gic_ready = Ok g1 /\ (parent_irq g1).[0] = true /\
    gic_acknowledge_irq g1 0 ns = Ok (47, g2) /\
    qemu_pipe_interrupt 2 (set_io kopened m1) = Ok (IRQ_HANDLED, k2).
Proof.
  destruct (pipe_interrupt_cycle inv live phys kopened gic_ready [1] 1 pipe5 (mkQPipe 0 0) PIPE_WAKE_READ 2 0 [] ns)
    as (m1 & g1 & g2 & k2 & g3 & H1 & H2 & H3 & H4 & _ & H5 & _).
  - apply opened_wf.
  - apply opened_lists.
  - apply opened_linked.
  - run_vm.
  - run_vm.
  - lia.
  - apply gic_reach_wf, gic_ready_reach.
  - apply gic_ready_ready.
  - run_vm.
  - apply gic_ready_stack.
  - run_vm.
  - exists m1, g1, g2, k2. exact (conj H1 (conj H2 (conj H3 (conj H4 H5)))).
Defined.

Lemma stuck_line_loses_wakes_witness :
  exists m1, pipe_dev_write phys PIPE_REG_COMMAND PIPE_CMD_CLOSE woken = Ok m1 /\
    pipe_line m1 gic_stuck = Ok gic_stuck.
Proof.
  destruct (stuck_line_loses_wakes inv live phys kwoken gic_stuck [1] 1
              {| pipe5 with pipe_wanted := PIPE_WAKE_READ |} 0 1) as (m1 & H1 & H2 & _).
  - apply woken_wf.
  - apply woken_lists.
  - run_vm.
  - run_vm.
  - lia.
  - apply gic_reach_wf, gic_stuck_reach.
  - apply gic_stuck_ready.
  - run_vm.
  - run_vm.
  - run_vm.
  - exists m1. exact (conj H1 H2).
Defined.
