(* ===== verification/Virtqueue.v ===== *)
(** * Virtqueues

    Model of the rings of [src/host-qemu/hw/virtio/virtio.c] through which a
    guest hands buffers to a virtio device: the layout of the rings in guest
    memory, [virtqueue_pop] that takes the next request, [virtqueue_push] that
    returns it, and the two notification schemes.  The guest's physical address
    space ([address_space_map] and the loads and stores of
    [src/host-qemu/exec.c]) is its RAM; every other address reads as zero and
    ignores writes, as unassigned memory does, and is mapped through the bounce
    buffer.  [exit(1)], which the code calls on a malformed ring, is the outcome
    [Exit]. *)

From S2P Require Import Prelude CArray.

(** ** Outcomes of code that may exit *)

(** A call either returns, ends the process with [exit(1)], or does something
    a C program must never do. *)
Inductive outcome (A : Type) : Type :=
| Done (a : A)
| Exit
| Crash (f : fault).
Arguments Done {A} _.
Arguments Exit {A}.
Arguments Crash {A} _.

#[global] Instance outcome_ret : MRet outcome := fun A a => Done a.
#[global] Instance outcome_bind : MBind outcome := fun A B f m =>
  match m with Done a => f a | Exit => Exit | Crash e => Crash e end.

Definition lift {A} (m : res A) : outcome A :=
  match m with Ok a => Done a | Fault f => Crash f end.

(** ** Constants *)

Definition VIRTQUEUE_MAX_SIZE : Z := 1024.
Definition VIRTIO_QUEUE_MAX : Z := 1024.
Definition VIRTIO_PCI_VRING_ALIGN : Z := 4096.
Definition VIRTIO_NO_VECTOR : Z := 0xffff.
Definition TARGET_PAGE_SIZE : Z := 1024.

Definition VRING_DESC_F_NEXT : Z := 1.
Definition VRING_DESC_F_WRITE : Z := 2.
Definition VRING_DESC_F_INDIRECT : Z := 4.
Definition VRING_USED_F_NO_NOTIFY : Z := 1.
Definition VRING_AVAIL_F_NO_INTERRUPT : Z := 1.

Definition VIRTIO_F_NOTIFY_ON_EMPTY : Z := 24.
Definition VIRTIO_RING_F_EVENT_IDX : Z := 29.
Definition VIRTIO_F_VERSION_1 : Z := 32.

Definition VIRTIO_CONFIG_S_DRIVER_OK : Z := 4.
Definition VIRTIO_CONFIG_S_FEATURES_OK : Z := 8.

(** [sizeof(VRingDesc)] *)
Definition SIZEOF_VRingDesc : Z := 16.

(** ** The physical address space of the guest *)

(** The bounce buffer, while it is in use. *)
Record BounceBuffer : Type := mkBounce {
  bounce_addr : Z;
  bounce_buffer : list Z
}.

Record AddressSpace : Type := mkAS {
  ram_base : Z;
  ram_size : Z;
  ram : gmap Z Z;
  bounce : option BounceBuffer
}.

(** A host pointer to memory of the guest: into the RAM, given by the guest
    address it stands for, or into the bounce buffer.  [Uninit] is a pointer
    that was never stored. *)
Inductive hptr : Type :=
| RamPtr (a : Z)
| BouncePtr
| Uninit.

#[global] Instance hptr_eq_dec : EqDecision hptr.
Proof. solve_decision. Defined.

Section address_space.
Variable mem : AddressSpace.

(** The [n] bytes from [a] on are RAM. *)
Definition in_ram (a n : Z) : bool :=
  (ram_base mem <=? a) && (a + n <=? ram_base mem + ram_size mem).

(** [address_space_ld*]: a load that is not entirely RAM reads zero. *)
Definition phys_load (a : Z) (n : nat) : list Z :=
  if in_ram a (Z.of_nat n) then read_mem (ram mem) a n else replicate n 0.

(** [address_space_st*] *)
Definition phys_store (a : Z) (bs : list Z) : AddressSpace :=
  if in_ram a (Z.of_nat (length bs)) then {| mem with ram := write_mem (ram mem) a bs |} else mem.

(** [address_space_read], byte by byte *)
Fixpoint phys_read (a : Z) (n : nat) : list Z :=
  match n with
  | O => []
  | S k => (if in_ram a 1 then default 0 (ram mem !! a) else 0) :: phys_read (a + 1) k
  end.
End address_space.

(** [address_space_write], byte by byte *)
Fixpoint phys_write (mem : AddressSpace) (a : Z) (bs : list Z) : AddressSpace :=
  match bs with
  | [] => mem
  | b :: bs' => phys_write (phys_store mem a [b]) (a + 1) bs'
  end.

(** [address_space_map]: the pointer and the length that was mapped. *)
Definition address_space_map (mem : AddressSpace) (addr len : Z) (is_write : bool)
    : option (hptr * Z) * AddressSpace :=
  if len =? 0 then (None, mem) else
  if in_ram mem addr 1 then
    (Some (RamPtr addr, Z.min len (ram_base mem + ram_size mem - addr)), mem)
  else match bounce mem with
  | Some _ => (None, mem)
  | None =>
      let l := Z.min len TARGET_PAGE_SIZE in
      let buf := if is_write then replicate (Z.to_nat l) 0 else phys_read mem addr (Z.to_nat l) in
      (Some (BouncePtr, l), {| mem with bounce := Some (mkBounce addr buf) |})
  end.

(** [address_space_unmap] *)
Definition address_space_unmap (mem : AddressSpace) (buffer : hptr) (is_write : bool) (access_len : Z)
    : res AddressSpace :=
  match buffer with
  | RamPtr _ => Ok mem
  | BouncePtr =>
      match bounce mem with
      | None => Fault AssertFailed
      | Some b =>
          let mem' := if is_write
            then phys_write mem (bounce_addr b) (take (Z.to_nat access_len) (bounce_buffer b))
            else mem in
          Ok {| mem' with bounce := None |}
      end
  | Uninit => Fault BadPointer
  end.

(** Reading and writing [n] bytes at offset [off] of a host pointer. *)
Definition host_read (mem : AddressSpace) (p : hptr) (off : Z) (n : nat) : res (list Z) :=
  match p with
  | RamPtr a =>
      if in_ram mem (a + off) (Z.of_nat n) then Ok (read_mem (ram mem) (a + off) n) else Fault OutOfBounds
  | BouncePtr =>
      match bounce mem with
      | None => Fault BadPointer
      | Some b =>
          if off + Z.of_nat n <=? Z.of_nat (length (bounce_buffer b))
          then Ok (take n (drop (Z.to_nat off) (bounce_buffer b))) else Fault OutOfBounds
      end
  | Uninit => Fault BadPointer
  end.

Definition host_write (mem : AddressSpace) (p : hptr) (off : Z) (bs : list Z) : res AddressSpace :=
  match p with
  | RamPtr a =>
      if in_ram mem (a + off) (Z.of_nat (length bs))
      then Ok {| mem with ram := write_mem (ram mem) (a + off) bs |} else Fault OutOfBounds
  | BouncePtr =>
      match bounce mem with
      | None => Fault BadPointer
      | Some b =>
          if off + Z.of_nat (length bs) <=? Z.of_nat (length (bounce_buffer b))
          then Ok {| mem with bounce :=
            Some (mkBounce (bounce_addr b) (blit (bounce_buffer b) (Z.to_nat off) bs)) |}
          else Fault OutOfBounds
      end
  | Uninit => Fault BadPointer
  end.

(** ** Data *)

Record VRing : Type := mkVRing {
  num : Z;
  align : Z;
  desc : Z;
  avail : Z;
  used : Z
}.

(** [EventNotifier]: whether it has a descriptor, whether the main loop
    watches it, and whether it is signaled. *)
Record EventNotifier : Type := mkNotifier {
  en_open : bool;
  en_handler : bool;
  en_set : bool
}.

(** [handle_output] says whether the function pointer is set; the function is
    the one of the device class. *)
Record VirtQueue : Type := mkQueue {
  vring : VRing;
  last_avail_idx : Z;
  signalled_used : Z;
  signalled_used_valid : bool;
  notification : bool;
  queue_index : Z;
  inuse : Z;
  vector : Z;
  handle_output : bool;
  host_notifier : EventNotifier;
  guest_notifier : EventNotifier
}.

#[global] Instance VirtQueue_inhabited : Inhabited VirtQueue :=
  populate (mkQueue (mkVRing 0 0 0 0 0) 0 0 false false 0 0 0 false (mkNotifier false false false)
    (mkNotifier false false false)).

Inductive virtio_device_endian : Type :=
  VIRTIO_DEVICE_ENDIAN_UNKNOWN | VIRTIO_DEVICE_ENDIAN_LITTLE | VIRTIO_DEVICE_ENDIAN_BIG.

#[global] Instance virtio_device_endian_eq_dec : EqDecision virtio_device_endian.
Proof. solve_decision. Defined.

(** [struct VirtIODevice]; [config_len] is the length of [config].  The MMIO
    transport has no interrupt vectors: [vector_queues] is null. *)
Record VirtIODevice : Type := mkVdev {
  status : Z;
  isr : Z;
  queue_sel : Z;
  guest_features : Z;
  host_features : Z;
  config : list Z;
  config_vector : Z;
  generation : Z;
  vq : list VirtQueue;
  device_id : Z;
  device_endian : virtio_device_endian
}.

(** [struct VirtIOMMIOProxy]; [ioeventfds] are the queues whose notification
    register has an event descriptor in the memory region, [irq] the level of
    the interrupt line. *)
Record VirtIOMMIOProxy : Type := mkProxy {
  host_features_sel : Z;
  guest_features_sel : Z;
  guest_page_shift : Z;
  ioeventfd_disabled : bool;
  ioeventfd_started : bool;
  ioeventfds : list Z;
  irq : bool
}.

(** A transport with its device: guest memory, the generic part of the device,
    the registers of the transport and the state [B] of the device class. *)
Record vstate (B : Type) : Type := mkVstate {
  mem : AddressSpace;
  vdev : VirtIODevice;
  proxy : VirtIOMMIOProxy;
  backend : B
}.
Arguments mkVstate {B}.
Arguments mem {B}.
Arguments vdev {B}.
Arguments proxy {B}.
Arguments backend {B}.

(** [struct iovec] and [VirtQueueElement]; the counts [in_num] and [out_num] are
    the lengths of the arrays, of which only the first entries are stored. *)
Record iovec : Type := mkIov { iov_base : hptr; iov_len : Z }.

Record VirtQueueElement : Type := mkElem {
  elem_index : Z;
  in_addr : list Z;
  out_addr : list Z;
  in_sg : list iovec;
  out_sg : list iovec
}.

Definition in_num (e : VirtQueueElement) : Z := Z.of_nat (length (in_sg e)).
Definition out_num (e : VirtQueueElement) : Z := Z.of_nat (length (out_sg e)).

(** ** Features and byte order *)

Definition virtio_has_feature (d : VirtIODevice) (fbit : Z) : bool :=
  flag_set (guest_features d) (bit fbit).

(** [virtio_access_is_big_endian], on a target that has both byte orders; the
    assertion of [virtio_is_big_endian] holds, as the byte order is known from
    [virtio_init] on. *)
Definition virtio_access_is_big_endian (d : VirtIODevice) : bool :=
  if virtio_has_feature d VIRTIO_F_VERSION_1 then false
  else bool_decide (device_endian d = VIRTIO_DEVICE_ENDIAN_BIG).

(** The value of bytes in a byte order, and back. *)
Definition of_bytes (be : bool) (bs : list Z) : Z := of_le (if be then reverse bs else bs).
Definition to_bytes (be : bool) (n : nat) (v : Z) : list Z :=
  if be then reverse (le_bytes n v) else le_bytes n v.

(** ** The rings in guest memory *)

Section ring_access.
Variables (m : AddressSpace) (be : bool).

Definition virtio_lduw_phys (pa : Z) : Z := of_bytes be (phys_load m (u64 pa) 2).
Definition virtio_ldl_phys (pa : Z) : Z := of_bytes be (phys_load m (u64 pa) 4).
Definition virtio_ldq_phys (pa : Z) : Z := of_bytes be (phys_load m (u64 pa) 8).
Definition virtio_stw_phys (pa v : Z) : AddressSpace := phys_store m (u64 pa) (to_bytes be 2 (u16 v)).
Definition virtio_stl_phys (pa v : Z) : AddressSpace := phys_store m (u64 pa) (to_bytes be 4 (u32 v)).

Definition vring_desc_addr (desc_pa i : Z) : Z := virtio_ldq_phys (desc_pa + SIZEOF_VRingDesc * i).
Definition vring_desc_len (desc_pa i : Z) : Z := virtio_ldl_phys (desc_pa + SIZEOF_VRingDesc * i + 8).
Definition vring_desc_flags (desc_pa i : Z) : Z := virtio_lduw_phys (desc_pa + SIZEOF_VRingDesc * i + 12).
Definition vring_desc_next (desc_pa i : Z) : Z := virtio_lduw_phys (desc_pa + SIZEOF_VRingDesc * i + 14).

Variable q : VirtQueue.

Definition vring_avail_flags : Z := virtio_lduw_phys (avail (vring q)).
Definition vring_avail_idx : Z := virtio_lduw_phys (avail (vring q) + 2).
Definition vring_avail_ring (i : Z) : Z := virtio_lduw_phys (avail (vring q) + 4 + 2 * i).
Definition vring_get_used_event : Z := vring_avail_ring (num (vring q)).
Definition vring_used_ring_id (i v : Z) : AddressSpace := virtio_stl_phys (used (vring q) + 4 + 8 * i) v.
Definition vring_used_ring_len (i v : Z) : AddressSpace := virtio_stl_phys (used (vring q) + 4 + 8 * i + 4) v.
Definition vring_used_idx : Z := virtio_lduw_phys (used (vring q) + 2).
Definition vring_used_idx_set (v : Z) : AddressSpace := virtio_stw_phys (used (vring q) + 2) v.

Definition vring_used_flags_set_bit (mask : Z) : AddressSpace :=
  virtio_stw_phys (used (vring q)) (Z.lor (virtio_lduw_phys (used (vring q))) mask).
Definition vring_used_flags_unset_bit (mask : Z) : AddressSpace :=
  virtio_stw_phys (used (vring q)) (Z.land (virtio_lduw_phys (used (vring q))) (Z.lnot mask)).

Definition vring_set_avail_event (v : Z) : AddressSpace :=
  if negb (notification q) then m
  else virtio_stw_phys (used (vring q) + 4 + 8 * num (vring q)) v.
End ring_access.

(** [vring_align] *)
Definition vring_align (addr al : Z) : Z := Z.land (u64 (addr + al - 1)) (Z.lnot (al - 1)).

(** [vring_need_event] of [virtio_ring.h] *)
Definition vring_need_event (event_idx new_idx old : Z) : bool :=
  u16 (new_idx - event_idx - 1) <? u16 (new_idx - old).

(** ** Operations on a queue

    A queue is named by its index in [vdev->vq]. *)

Section queue_ops.
Context {B : Type}.
Implicit Types s : vstate B.

Definition get_vq s (n : Z) : outcome VirtQueue := lift (aget (vq (vdev s)) n).

Definition set_vdev s (d : VirtIODevice) : vstate B := {| s with vdev := d |}.
Definition set_mem s (m : AddressSpace) : vstate B := {| s with mem := m |}.

(** [vdev->vq[n].f = ...] *)
Definition mod_vq s (n : Z) (f : VirtQueue -> VirtQueue) : outcome (vstate B) :=
  q ← get_vq s n;
  a ← lift (aset (vq (vdev s)) n (f q));
  let d := vdev s in Done (set_vdev s {| d with vq := a |}).

(** The byte order of the device's accesses. *)
Definition big s : bool := virtio_access_is_big_endian (vdev s).

(** [virtio_queue_update_rings] on a ring *)
Definition update_rings (r : VRing) : VRing :=
  if desc r =? 0 then r else
  let av := u64 (desc r + num r * SIZEOF_VRingDesc) in
  mkVRing (num r) (align r) (desc r) av (vring_align (u64 (av + 4 + 2 * num r)) (align r)).

Definition virtio_queue_update_rings s (n : Z) : outcome (vstate B) :=
  mod_vq s n (fun q => {| q with vring := update_rings (vring q) |}).

Definition virtio_queue_set_notification s (n : Z) (enable : bool) : outcome (vstate B) :=
  s ← mod_vq s n (fun q => {| q with notification := enable |});
  q ← get_vq s n;
  Done (set_mem s (
    if virtio_has_feature (vdev s) VIRTIO_RING_F_EVENT_IDX then
      vring_set_avail_event (mem s) (big s) q (vring_avail_idx (mem s) (big s) q)
    else if enable then vring_used_flags_unset_bit (mem s) (big s) q VRING_USED_F_NO_NOTIFY
    else vring_used_flags_set_bit (mem s) (big s) q VRING_USED_F_NO_NOTIFY)).

Definition virtio_queue_ready (q : VirtQueue) : bool := negb (avail (vring q) =? 0).

Definition virtio_queue_empty s (q : VirtQueue) : bool :=
  vring_avail_idx (mem s) (big s) q =? last_avail_idx q.

(** The first loop of [virtqueue_fill]: unmapping the buffers the device
    wrote. *)
Fixpoint unmap_in (m : AddressSpace) (sg : list iovec) (len offset : Z) : res AddressSpace :=
  match sg with
  | [] => Ok m
  | v :: sg' =>
      let size := Z.min (u32 (len - offset)) (iov_len v) in
      m ← address_space_unmap m (iov_base v) true size;
      unmap_in m sg' len (u32 (offset + size))
  end.

(** The second one, on the buffers the device read. *)
Fixpoint unmap_out (m : AddressSpace) (sg : list iovec) : res AddressSpace :=
  match sg with
  | [] => Ok m
  | v :: sg' =>
      m ← address_space_unmap m (iov_base v) false (iov_len v);
      unmap_out m sg'
  end.

Definition virtqueue_fill s (n : Z) (elem : VirtQueueElement) (len idx : Z) : outcome (vstate B) :=
  q ← get_vq s n;
  m ← lift (unmap_in (mem s) (in_sg elem) len 0);
  m ← lift (unmap_out m (out_sg elem));
  if num (vring q) =? 0 then Crash DivByZero else
  let idx := u32 (idx + vring_used_idx m (big s) q) mod num (vring q) in
  let m := vring_used_ring_id m (big s) q idx (elem_index elem) in
  Done (set_mem s (vring_used_ring_len m (big s) q idx len)).

Definition virtqueue_flush s (n count : Z) : outcome (vstate B) :=
  q ← get_vq s n;
  let old := vring_used_idx (mem s) (big s) q in
  let new := u16 (old + count) in
  let s := set_mem s (vring_used_idx_set (mem s) (big s) q new) in
  mod_vq s n (fun q =>
    let q := {| q with inuse := inuse q - count |} in
    if signed 16 (new - signalled_used q) <? u16 (new - old)
    then {| q with signalled_used_valid := false |} else q).

Definition virtqueue_push s (n : Z) (elem : VirtQueueElement) (len : Z) : outcome (vstate B) :=
  s ← virtqueue_fill s n elem (u32 len) 0;
  virtqueue_flush s n 1.

(** [virtqueue_num_heads] *)
Definition virtqueue_num_heads s (q : VirtQueue) (idx : Z) : outcome Z :=
  let num_heads := u16 (vring_avail_idx (mem s) (big s) q - idx) in
  if num_heads >? num (vring q) then Exit else Done num_heads.

Definition virtqueue_get_head s (q : VirtQueue) (idx : Z) : outcome Z :=
  if num (vring q) =? 0 then Crash DivByZero else
  let head := vring_avail_ring (mem s) (big s) q (idx mod num (vring q)) in
  if head >=? num (vring q) then Exit else Done head.

Definition virtqueue_next_desc s (desc_pa i max : Z) : outcome Z :=
  if negb (flag_set (vring_desc_flags (mem s) (big s) desc_pa i) VRING_DESC_F_NEXT) then Done max else
  let next := vring_desc_next (mem s) (big s) desc_pa i in
  if next >=? max then Exit else Done next.

(** The [do] loop of [virtqueue_get_avail_bytes] over one chain of
    descriptors.  The result tells whether the totals asked for were reached,
    the number of buffers and the two totals. *)
Fixpoint count_chain (fuel : nat) s (desc_pa max i num_bufs in_total out_total : Z)
    (max_in_bytes max_out_bytes : Z) : outcome (bool * Z * Z * Z) :=
  match fuel with
  | O => Crash OutOfFuel
  | S k =>
      let num_bufs := num_bufs + 1 in
      if num_bufs >? max then Exit else
      let len := vring_desc_len (mem s) (big s) desc_pa i in
      let wr := flag_set (vring_desc_flags (mem s) (big s) desc_pa i) VRING_DESC_F_WRITE in
      let in_total := if wr then u32 (in_total + len) else in_total in
      let out_total := if wr then out_total else u32 (out_total + len) in
      if (in_total >=? max_in_bytes) && (out_total >=? max_out_bytes)
      then Done (true, num_bufs, in_total, out_total) else
      i' ← virtqueue_next_desc s desc_pa i max;
      if i' =? max then Done (false, num_bufs, in_total, out_total)
      else count_chain k s desc_pa max i' num_bufs in_total out_total max_in_bytes max_out_bytes
  end.

(** One round of the [while] loop, for the available entry [idx]. *)
Definition count_head s (q : VirtQueue) (idx total_bufs in_total out_total max_in_bytes max_out_bytes : Z)
    : outcome (bool * Z * Z * Z) :=
  i ← virtqueue_get_head s q idx;
  let desc_pa := desc (vring q) in
  let max := num (vring q) in
  if flag_set (vring_desc_flags (mem s) (big s) desc_pa i) VRING_DESC_F_INDIRECT then
    let len := vring_desc_len (mem s) (big s) desc_pa i in
    if negb (len mod SIZEOF_VRingDesc =? 0) then Exit else
    if total_bufs >=? max then Exit else
    let max := len / SIZEOF_VRingDesc in
    '(fin, _, i_t, o_t) ← count_chain (Z.to_nat max + 1) s (vring_desc_addr (mem s) (big s) desc_pa i) max 0 0
                            in_total out_total max_in_bytes max_out_bytes;
    Done (fin, total_bufs + 1, i_t, o_t)
  else
    count_chain (Z.to_nat max + 1) s desc_pa max i total_bufs in_total out_total max_in_bytes max_out_bytes.

Fixpoint count_heads (fuel : nat) s (q : VirtQueue) (idx total_bufs in_total out_total max_in_bytes max_out_bytes : Z)
    : outcome (Z * Z) :=
  match fuel with
  | O => Crash OutOfFuel
  | S k =>
      nh ← virtqueue_num_heads s q idx;
      if nh =? 0 then Done (in_total, out_total) else
      '(fin, tb, i_t, o_t) ← count_head s q idx total_bufs in_total out_total max_in_bytes max_out_bytes;
      if (fin : bool) then Done (i_t, o_t)
      else count_heads k s q (idx + 1) tb i_t o_t max_in_bytes max_out_bytes
  end.

(** [virtqueue_get_avail_bytes]: the bytes to write and to read. *)
Definition virtqueue_get_avail_bytes s (n max_in_bytes max_out_bytes : Z) : outcome (Z * Z) :=
  q ← get_vq s n;
  count_heads (Z.to_nat (num (vring q)) + 1) s q (last_avail_idx q) 0 0 0 max_in_bytes max_out_bytes.

Definition virtqueue_avail_bytes s (n in_bytes out_bytes : Z) : outcome bool :=
  '(in_total, out_total) ← virtqueue_get_avail_bytes s n in_bytes out_bytes;
  Done ((in_bytes <=? in_total) && (out_bytes <=? out_total)).

(** The loop of [virtqueue_map_sg] *)
Fixpoint map_sg (m : AddressSpace) (sg : list iovec) (addr : list Z) (is_write : bool)
    : outcome (list iovec * AddressSpace) :=
  match sg, addr with
  | v :: sg', a :: addr' =>
      match address_space_map m a (iov_len v) is_write with
      | (Some (p, len), m) =>
          if negb (len =? iov_len v) then Exit else
          '(sg'', m) ← map_sg m sg' addr' is_write;
          Done (mkIov p (iov_len v) :: sg'', m)
      | (None, _) => Exit
      end
  | _, _ => Done ([], m)
  end.

Definition virtqueue_map_sg (m : AddressSpace) (sg : list iovec) (addr : list Z) (is_write : bool)
    : outcome (list iovec * AddressSpace) :=
  if Z.of_nat (length sg) >? VIRTQUEUE_MAX_SIZE then Exit else map_sg m sg addr is_write.

(** One round of the loop of [virtqueue_pop] that collects the descriptors. *)
Definition add_desc s (desc_pa i : Z) (e : VirtQueueElement) : outcome VirtQueueElement :=
  let a := vring_desc_addr (mem s) (big s) desc_pa i in
  let v := mkIov Uninit (vring_desc_len (mem s) (big s) desc_pa i) in
  if flag_set (vring_desc_flags (mem s) (big s) desc_pa i) VRING_DESC_F_WRITE then
    if in_num e >=? VIRTQUEUE_MAX_SIZE then Exit else
    Done (mkElem (elem_index e) (in_addr e ++ [a]) (out_addr e) (in_sg e ++ [v]) (out_sg e))
  else
    if out_num e >=? VIRTQUEUE_MAX_SIZE then Exit else
    Done (mkElem (elem_index e) (in_addr e) (out_addr e ++ [a]) (in_sg e) (out_sg e ++ [v])).

Fixpoint collect (fuel : nat) s (desc_pa max i : Z) (e : VirtQueueElement) : outcome VirtQueueElement :=
  match fuel with
  | O => Crash OutOfFuel
  | S k =>
      e ← add_desc s desc_pa i e;
      if in_num e + out_num e >? max then Exit else
      i' ← virtqueue_next_desc s desc_pa i max;
      if i' =? max then Done e else collect k s desc_pa max i' e
  end.

(** Both arrays of the element are full after so many rounds. *)
Definition collect_fuel : nat := 2049.

(** The table of descriptors a chain is in: that of the ring, or the one the
    head points to. *)
Definition desc_table s (q : VirtQueue) (head : Z) : outcome (Z * Z * Z) :=
  let desc_pa := desc (vring q) in
  if flag_set (vring_desc_flags (mem s) (big s) desc_pa head) VRING_DESC_F_INDIRECT then
    let len := vring_desc_len (mem s) (big s) desc_pa head in
    if negb (len mod SIZEOF_VRingDesc =? 0) then Exit else
    Done (vring_desc_addr (mem s) (big s) desc_pa head, len / SIZEOF_VRingDesc, 0)
  else Done (desc_pa, num (vring q), head).

(** [virtqueue_pop]: [None] if nothing is available. *)
Definition virtqueue_pop s (n : Z) : outcome (option VirtQueueElement * vstate B) :=
  q ← get_vq s n;
  nh ← virtqueue_num_heads s q (last_avail_idx q);
  if nh =? 0 then Done (None, s) else
  head ← virtqueue_get_head s q (last_avail_idx q);
  s ← mod_vq s n (fun q => {| q with last_avail_idx := u16 (last_avail_idx q + 1) |});
  q ← get_vq s n;
  let s := if virtio_has_feature (vdev s) VIRTIO_RING_F_EVENT_IDX
           then set_mem s (vring_set_avail_event (mem s) (big s) q (last_avail_idx q)) else s in
  '(desc_pa, max, i) ← desc_table s q head;
  e ← collect collect_fuel s desc_pa max i (mkElem 0 [] [] [] []);
  '(isg, m) ← virtqueue_map_sg (mem s) (in_sg e) (in_addr e) true;
  '(osg, m) ← virtqueue_map_sg m (out_sg e) (out_addr e) false;
  s ← mod_vq (set_mem s m) n (fun q => {| q with inuse := inuse q + 1 |});
  Done (Some (mkElem head (in_addr e) (out_addr e) isg osg), s).

(** ** Interrupts *)

(** [virtio_mmio_update_irq], the [notify] method of the bus *)
Definition virtio_mmio_update_irq s : vstate B :=
  let p := proxy s in {| s with proxy := {| p with irq := negb (isr (vdev s) =? 0) |} |}.

Definition virtio_notify_vector s : vstate B := virtio_mmio_update_irq s.
Definition virtio_update_irq s : vstate B := virtio_notify_vector s.

(** [vdev->isr |= bits] *)
Definition or_isr s (bits : Z) : vstate B :=
  let d := vdev s in set_vdev s {| d with isr := u8 (Z.lor (isr d) bits) |}.

Definition virtio_irq s : vstate B := virtio_notify_vector (or_isr s 1).

(** [vring_notify]: whether to interrupt, and the state with the index that was
    signaled. *)
Definition vring_notify s (n : Z) : outcome (bool * vstate B) :=
  q ← get_vq s n;
  if virtio_has_feature (vdev s) VIRTIO_F_NOTIFY_ON_EMPTY && (inuse q =? 0) && virtio_queue_empty s q
  then Done (true, s) else
  if negb (virtio_has_feature (vdev s) VIRTIO_RING_F_EVENT_IDX)
  then Done (negb (flag_set (vring_avail_flags (mem s) (big s) q) VRING_AVAIL_F_NO_INTERRUPT), s) else
  let v := signalled_used_valid q in
  let old := signalled_used q in
  let new := vring_used_idx (mem s) (big s) q in
  s ← mod_vq s n (fun q => {| {| q with signalled_used_valid := true |} with signalled_used := new |});
  Done (negb v || vring_need_event (vring_get_used_event (mem s) (big s) q) new old, s).

Definition virtio_notify s (n : Z) : outcome (vstate B) :=
  '(yes, s) ← vring_notify s n;
  Done (if (yes : bool) then virtio_notify_vector (or_isr s 1) else s).

Definition virtio_notify_config s : vstate B :=
  if negb (flag_set (status (vdev s)) VIRTIO_CONFIG_S_DRIVER_OK) then s else
  let s := or_isr s 3 in
  let d := vdev s in
  virtio_notify_vector (set_vdev s {| d with generation := u32 (generation d + 1) |}).
End queue_ops.
