(* ===== verification/VirtqueueProofs.v ===== *)
(** * Virtqueues: memory, rings and the logic of outcomes

    A small logic for code that may exit ([safe]: the call returns with the
    postcondition or ends the process, but never does anything undefined), loads
    and stores of ring fields, and the well-formedness of a device that every
    operation on its queues keeps, whatever the guest wrote into its memory. *)

From S2P Require Import Prelude CArray Virtqueue.

(** ** Outcomes *)

Definition safe {A} (Q : A -> Prop) (m : outcome A) : Prop :=
  match m with Done a => Q a | Exit => True | Crash _ => False end.

Lemma safe_bind {A A'} (Q : A -> Prop) (R : A' -> Prop) m (f : A -> outcome A') :
  safe Q m -> (forall a, Q a -> safe R (f a)) -> safe R (m ≫= f).
Proof. destruct m; cbn; auto. Qed.

Lemma safe_mono {A} (Q R : A -> Prop) m : safe Q m -> (forall a, Q a -> R a) -> safe R m.
Proof. destruct m; cbn; auto. Qed.

Lemma safe_lift {A} (Q : A -> Prop) (m : res A) a : m = Ok a -> Q a -> safe Q (lift m).
Proof. by intros ->. Qed.

Lemma bind_Done {A A'} (m : outcome A) (f : A -> outcome A') b :
  m ≫= f = Done b -> exists a, m = Done a /\ f a = Done b.
Proof. destruct m; cbn; [eauto|done..]. Qed.

Lemma lift_Done {A} (m : res A) a : lift m = Done a -> m = Ok a.
Proof. destruct m; cbn; congruence. Qed.

(** Inverts a call that returned. *)
Ltac inv_out :=
  repeat match goal with
  | H : _ ≫= _ = Done _ |- _ => apply bind_Done in H; destruct H as (? & ? & H)
  | H : lift _ = Done _ |- _ => apply lift_Done in H
  | H : (let '(_, _) := ?x in _) = Done _ |- _ => destruct x
  | H : (if ?b then _ else _) = Done _ |- _ => destruct b eqn:?
  | H : (match ?o with Some _ => _ | None => _ end) = Done _ |- _ => destruct o eqn:?
  | H : Done _ = Done _ |- _ => injection H as H; try subst
  | H : (_, _) = (_, _) |- _ => injection H as ? ?; try subst
  | H : Exit = Done _ |- _ => discriminate H
  | H : Crash _ = Done _ |- _ => discriminate H
  end.

(** ** Bytes *)

Lemma le_bytes_ok n z : Forall (in_range 8) (le_bytes n z).
Proof.
  revert z; induction n as [|n IH]; intros z; cbn; constructor; [|done].
  change 256 with (2 ^ 8). apply (wrap_range 8). lia.
Qed.

Lemma length_to_bytes be n v : length (to_bytes be n v) = n.
Proof. unfold to_bytes. destruct be; rewrite ?length_reverse; apply length_le_bytes. Qed.

Lemma to_bytes_ok be n v : Forall (in_range 8) (to_bytes be n v).
Proof. unfold to_bytes. destruct be; rewrite ?Forall_reverse; apply le_bytes_ok. Qed.

Lemma of_to_bytes be n v : of_bytes be (to_bytes be n v) = v mod 256 ^ Z.of_nat n.
Proof. unfold of_bytes, to_bytes. destruct be; rewrite ?reverse_involutive; apply of_le_bytes. Qed.

Lemma of_bytes_range be n bs :
  length bs = n -> Forall (in_range 8) bs -> 0 <= of_bytes be bs < 256 ^ Z.of_nat n.
Proof.
  intros <- Hbs. unfold of_bytes. destruct be.
  - rewrite <- length_reverse. apply of_le_range. by rewrite Forall_reverse.
  - by apply of_le_range.
Qed.

(** ** Memory *)

Record mem_ok (m : AddressSpace) : Prop := {
  ok_ram : forall a b, ram m !! a = Some b -> in_range 8 b;
  ok_base : 0 <= ram_base m;
  ok_size : 0 <= ram_size m;
  ok_end : ram_base m + ram_size m <= 2 ^ 64;
  ok_bounce : forall b, bounce m = Some b -> Forall (in_range 8) (bounce_buffer b)
}.

Lemma in_ram_spec m a n : in_ram m a n = true <-> ram_base m <= a /\ a + n <= ram_base m + ram_size m.
Proof. unfold in_ram. rewrite andb_true_iff, !Z.leb_le. done. Qed.

(** Only the bytes of the RAM may differ. *)
Definition same_space (m m' : AddressSpace) : Prop :=
  ram_base m' = ram_base m /\ ram_size m' = ram_size m.

Lemma in_ram_same m m' a n : same_space m m' -> in_ram m' a n = in_ram m a n.
Proof. intros [Hb Hs]. unfold in_ram. by rewrite Hb, Hs. Qed.

Lemma read_mem_ok (r : gmap Z Z) a n :
  (forall x b, r !! x = Some b -> in_range 8 b) -> Forall (in_range 8) (read_mem r a n).
Proof.
  intros Hr. revert a; induction n as [|n IH]; intros a; cbn; constructor; [|done].
  destruct (r !! a) eqn:E; cbn; [eauto|unfold in_range; lia].
Qed.

Lemma phys_load_ok m a n : mem_ok m -> Forall (in_range 8) (phys_load m a n).
Proof.
  intros Hm. unfold phys_load. destruct (in_ram _ _ _).
  - apply read_mem_ok, Hm.
  - apply Forall_replicate. unfold in_range; lia.
Qed.

Lemma length_phys_load m a n : length (phys_load m a n) = n.
Proof. unfold phys_load. destruct (in_ram _ _ _); [apply length_read_mem|apply length_replicate]. Qed.

Lemma phys_read_ok m a n : mem_ok m -> Forall (in_range 8) (phys_read m a n) /\ length (phys_read m a n) = n.
Proof.
  intros Hm. revert a; induction n as [|n IH]; intros a; cbn; [done|].
  destruct (IH (a + 1)) as [H1 H2]. split; [constructor; [|done]|by rewrite H2].
  destruct (in_ram _ _ _); [|unfold in_range; lia].
  destruct (ram m !! a) eqn:E; cbn; [by eapply ok_ram|unfold in_range; lia].
Qed.

Lemma write_mem_range (r : gmap Z Z) a bs :
  (forall x b, r !! x = Some b -> in_range 8 b) -> Forall (in_range 8) bs ->
  forall x b, write_mem r a bs !! x = Some b -> in_range 8 b.
Proof.
  intros Hr Hbs x b. rewrite write_mem_lookup. case_decide; [|eauto].
  intros Hl. by eapply Forall_lookup_1.
Qed.

Lemma mem_ok_write m a bs :
  mem_ok m -> Forall (in_range 8) bs -> mem_ok {| m with ram := write_mem (ram m) a bs |}.
Proof.
  intros [Hr Hb Hs He Hbo] Hbs. split; cbn; try done. by apply write_mem_range.
Qed.

Lemma mem_ok_store m a bs : mem_ok m -> Forall (in_range 8) bs -> mem_ok (phys_store m a bs).
Proof. intros. unfold phys_store. destruct (in_ram _ _ _); [by apply mem_ok_write|done]. Qed.

Lemma same_space_store m a bs : same_space m (phys_store m a bs).
Proof. unfold phys_store. by destruct (in_ram _ _ _). Qed.

Lemma same_space_refl m : same_space m m.
Proof. done. Qed.

Lemma same_space_trans m1 m2 m3 : same_space m1 m2 -> same_space m2 m3 -> same_space m1 m3.
Proof. intros [] []; split; congruence. Qed.

Lemma bounce_store m a bs : bounce (phys_store m a bs) = bounce m.
Proof. unfold phys_store. by destruct (in_ram _ _ _). Qed.

Lemma mem_ok_phys_write m a bs :
  mem_ok m -> Forall (in_range 8) bs -> mem_ok (phys_write m a bs) /\ same_space m (phys_write m a bs).
Proof.
  intros Hm Hbs. revert m a Hm; induction Hbs as [|b bs Hb _ IH]; intros m a Hm; cbn; [done|].
  destruct (IH (phys_store m a [b]) (a + 1)) as [H1 H2].
  - apply mem_ok_store; [done|by constructor].
  - split; [done|]. eapply same_space_trans; [apply same_space_store|done].
Qed.

(** Loads after a store. *)
Lemma load_store_same m a bs :
  in_ram m a (Z.of_nat (length bs)) = true -> phys_load (phys_store m a bs) a (length bs) = bs.
Proof.
  intros Hin. unfold phys_load, phys_store. rewrite Hin. change (in_ram _ a _) with (in_ram m a (Z.of_nat (length bs))).
  rewrite Hin. apply read_write_mem.
Qed.

Lemma load_store_other m a bs b n :
  b + Z.of_nat n <= a \/ a + Z.of_nat (length bs) <= b ->
  phys_load (phys_store m a bs) b n = phys_load m b n.
Proof.
  intros Hd. unfold phys_load. rewrite (in_ram_same m) by apply same_space_store.
  destruct (in_ram m b _); [|done]. unfold phys_store. destruct (in_ram m a _); [|done].
  by apply read_write_mem_other.
Qed.

(** ** Well-formed devices *)

Record queue_ok (q : VirtQueue) : Prop := {
  ok_num : 0 <= num (vring q) <= VIRTQUEUE_MAX_SIZE;
  ok_align : in_range 32 (align (vring q));
  ok_desc : in_range 64 (desc (vring q));
  ok_avail : in_range 64 (avail (vring q));
  ok_used : in_range 64 (used (vring q));
  ok_last : in_range 16 (last_avail_idx q);
  ok_signalled : in_range 16 (signalled_used q);
  ok_handler : handle_output q = true -> num (vring q) <> 0
}.

Definition queues_ok (l : list VirtQueue) : Prop := arr VIRTIO_QUEUE_MAX queue_ok l.

Section queues.
Context {B : Type}.
Implicit Types s : vstate B.

(** The queue of a well-formed device, and the device with it changed. *)
Definition queue s (n : Z) : VirtQueue := at_ (vq (vdev s)) n.
Definition upd_queue s (n : Z) (f : VirtQueue -> VirtQueue) : vstate B :=
  let d := vdev s in set_vdev s {| d with vq := upd (vq d) n (f (queue s n)) |}.

(** What the operations on queues rely on and keep. *)
Record rings_ok s : Prop := {
  ok_mem : mem_ok (mem s);
  ok_queues : queues_ok (vq (vdev s))
}.

Lemma get_vq_in s n : rings_ok s -> 0 <= n < VIRTIO_QUEUE_MAX -> get_vq s n = Done (queue s n).
Proof. intros Hs Hn. unfold get_vq. by rewrite (aget_in _ _ _ _ (ok_queues s Hs)). Qed.

Lemma mod_vq_in s n f :
  rings_ok s -> 0 <= n < VIRTIO_QUEUE_MAX -> mod_vq s n f = Done (upd_queue s n f).
Proof.
  intros Hs Hn. unfold mod_vq. rewrite get_vq_in by done. cbn.
  by rewrite (aset_in _ _ _ _ _ (ok_queues s Hs)).
Qed.

Lemma queue_ok_at s n : rings_ok s -> 0 <= n < VIRTIO_QUEUE_MAX -> queue_ok (queue s n).
Proof. intros Hs. by apply (arr_at _ _ _ _ (ok_queues s Hs)). Qed.

Lemma rings_ok_upd s n f :
  rings_ok s -> queue_ok (f (queue s n)) -> rings_ok (upd_queue s n f).
Proof. intros [Hm Hq] Hf. split; cbn; [done|]. by apply arr_upd. Qed.

Lemma rings_ok_mem s m : rings_ok s -> mem_ok m -> rings_ok (set_mem s m).
Proof. intros [_ Hq] Hm. by split. Qed.

Lemma queue_upd s n f : rings_ok s -> 0 <= n < VIRTIO_QUEUE_MAX -> queue (upd_queue s n f) n = f (queue s n).
Proof. intros Hs Hn. apply (at_upd_eq _ _ _ _ _ (ok_queues s Hs) Hn). Qed.

Lemma queue_upd_ne s n n' f : 0 <= n -> 0 <= n' -> n <> n' -> queue (upd_queue s n f) n' = queue s n'.
Proof. intros. by apply at_upd_ne. Qed.
End queues.

(** Accesses to the memory of the guest keep it well formed. *)
Lemma mem_ok_stw m be pa v : mem_ok m -> mem_ok (virtio_stw_phys m be pa v).
Proof. intros. apply mem_ok_store; [done|apply to_bytes_ok]. Qed.
Lemma mem_ok_stl m be pa v : mem_ok m -> mem_ok (virtio_stl_phys m be pa v).
Proof. intros. apply mem_ok_store; [done|apply to_bytes_ok]. Qed.

Lemma ld_range m be pa n : mem_ok m -> 0 <= of_bytes be (phys_load m pa n) < 256 ^ Z.of_nat n.
Proof. intros. apply of_bytes_range; [apply length_phys_load|by apply phys_load_ok]. Qed.

Lemma lduw_range m be pa : mem_ok m -> in_range 16 (virtio_lduw_phys m be pa).
Proof. apply (ld_range m be (u64 pa) 2). Qed.
Lemma ldl_range m be pa : mem_ok m -> in_range 32 (virtio_ldl_phys m be pa).
Proof. apply (ld_range m be (u64 pa) 4). Qed.
Lemma ldq_range m be pa : mem_ok m -> in_range 64 (virtio_ldq_phys m be pa).
Proof. apply (ld_range m be (u64 pa) 8). Qed.

Create HintDb virtio.
#[export] Hint Resolve mem_ok_stw mem_ok_stl lduw_range ldl_range ldq_range rings_ok_mem same_space_refl : virtio.

(** ** Mapping and unmapping the buffers of a request *)

(** A buffer that is mapped in [m]. *)
Definition iov_mapped (m : AddressSpace) (v : iovec) : Prop :=
  0 < iov_len v /\
  match iov_base v with
  | RamPtr a => in_ram m a (iov_len v) = true
  | BouncePtr => exists b, bounce m = Some b /\ Z.of_nat (length (bounce_buffer b)) = iov_len v
  | Uninit => False
  end.

(** The number of buffers that are the bounce buffer. *)
Definition bounces (sg : list iovec) : nat := length (filter (fun v => iov_base v = BouncePtr) sg).

(** The bounce buffer is in use exactly if one of the buffers is it. *)
Definition bounce_owned (m : AddressSpace) (k : nat) : Prop :=
  match bounce m with None => k = 0%nat | Some _ => k = 1%nat end.

Lemma bounces_cons v sg :
  bounces (v :: sg) = ((if decide (iov_base v = BouncePtr) then 1 else 0) + bounces sg)%nat.
Proof. unfold bounces. rewrite filter_cons. by case_decide. Qed.

Lemma bounces_app sg sg' : bounces (sg ++ sg') = (bounces sg + bounces sg')%nat.
Proof. unfold bounces. by rewrite filter_app, length_app. Qed.

(** What mapping buffers does: the RAM does not change, the bounce buffer may
    come into use. *)
Record maps_to (m m' : AddressSpace) : Prop := {
  mt_ok : mem_ok m';
  mt_ram : ram m' = ram m;
  mt_space : same_space m m';
  mt_bounce : forall b, bounce m = Some b -> bounce m' = Some b
}.

Lemma maps_to_refl m : mem_ok m -> maps_to m m.
Proof. by split. Qed.

Lemma maps_to_trans m1 m2 m3 : maps_to m1 m2 -> maps_to m2 m3 -> maps_to m1 m3.
Proof.
  intros [O1 R1 S1 B1] [O2 R2 S2 B2]. split; [done|congruence| |auto].
  by eapply same_space_trans.
Qed.

Lemma iov_mapped_mono m m' v : maps_to m m' -> iov_mapped m v -> iov_mapped m' v.
Proof.
  intros Hm [Hl Hv]. split; [done|]. destruct (iov_base v); [| |done].
  - by rewrite (in_ram_same m) by apply Hm.
  - destruct Hv as (b & Hb & Hlen). exists b. split; [by eapply mt_bounce|done].
Qed.

Lemma address_space_map_spec m addr len is_write p l m' :
  mem_ok m -> 0 <= len -> address_space_map m addr len is_write = (Some (p, l), m') -> l = len ->
  maps_to m m' /\ iov_mapped m' (mkIov p len) /\
  bounce_owned m' (bounces [mkIov p len] + match bounce m with Some _ => 1 | None => 0 end).
Proof.
  intros Hm Hlen E ->. unfold address_space_map in E.
  destruct (len =? 0) eqn:E0; [done|]. zb. unfold bounces.
  destruct (in_ram m addr 1) eqn:Ein.
  - injection E as <- E' <-. cbn. split; [by apply maps_to_refl|].
    apply in_ram_spec in Ein. unfold bounce_owned. destruct (bounce m); (split; [|done]);
      split; cbn; try lia; apply in_ram_spec; lia.
  - destruct (bounce m) eqn:Eb; [done|]. injection E as <- E' <-.
    split; [|split].
    + split; cbn; [|done|done|by rewrite Eb]. destruct Hm. split; cbn; try done.
      intros b [= <-]. cbn. destruct is_write; [apply Forall_replicate; unfold in_range; lia|].
      by apply phys_read_ok.
    + split; cbn; [lia|]. eexists. split; [done|]. cbn.
      destruct is_write; [rewrite length_replicate; lia|].
      rewrite (proj2 (phys_read_ok m addr _ Hm)). lia.
    + done.
Qed.

Lemma map_sg_safe m sg addr is_write :
  mem_ok m -> Forall (fun v => 0 <= iov_len v) sg ->
  safe (fun '(sg', m') => maps_to m m' /\ Forall (iov_mapped m') sg' /\
          (forall k, bounce_owned m k -> bounce_owned m' (bounces sg' + k)))
    (map_sg m sg addr is_write).
Proof.
  intros Hm Hsg. revert m addr Hm. induction Hsg as [|v sg Hv _ IH]; intros m addr Hm; [by cbn|].
  destruct addr as [|a addr]; [by cbn|]. cbn [map_sg].
  destruct (address_space_map m a (iov_len v) is_write) as [[[p l]|] m1] eqn:E; [|done].
  destruct (l =? iov_len v) eqn:El; cbn [negb]; [|done]. zb.
  destruct (address_space_map_spec _ _ _ _ _ _ _ Hm Hv E El) as (H1 & H2 & H3).
  eapply safe_bind; [apply (IH m1 addr (mt_ok _ _ H1))|].
  intros [sg' m'] (G1 & G2 & G3). cbn [safe]. split; [by eapply maps_to_trans|].
  split; [constructor; [by eapply iov_mapped_mono|done]|].
  intros k Hk.
  replace (bounces (mkIov p (iov_len v) :: sg') + k)%nat
    with (bounces sg' + (bounces [mkIov p (iov_len v)] + k))%nat
    by (change (mkIov p (iov_len v) :: sg') with ([mkIov p (iov_len v)] ++ sg'); rewrite bounces_app; lia).
  apply G3. unfold bounce_owned in Hk. destruct (bounce m); subst k; done.
Qed.

Lemma address_space_unmap_spec m v is_write l k :
  mem_ok m -> iov_mapped m v -> bounce_owned m (bounces [v] + k) ->
  exists m', address_space_unmap m (iov_base v) is_write l = Ok m' /\ mem_ok m' /\
    same_space m m' /\ bounce_owned m' k /\ (iov_base v <> BouncePtr -> m' = m) /\
    (iov_base v = BouncePtr -> bounce m' = None).
Proof.
  intros Hm [Hl Hv] Hb. rewrite bounces_cons in Hb. unfold address_space_unmap.
  destruct (iov_base v) eqn:Ev; [| |done].
  - exists m. rewrite decide_False in Hb by done. done.
  - rewrite decide_True in Hb by done. destruct Hv as (b & Eb & Hlen). rewrite Eb.
    unfold bounce_owned in Hb. rewrite Eb in Hb. change (bounces []) with 0%nat in Hb. assert (k = 0%nat) as -> by lia.
    eexists; split; [reflexivity|].
    destruct (mem_ok_phys_write m (bounce_addr b) (take (Z.to_nat l) (bounce_buffer b))) as [G1 G2];
      [done|by apply Forall_take; eapply ok_bounce|].
    destruct is_write; (split; [|repeat split; try done; try apply G2]).
    + destruct G1. by split.
    + destruct Hm. by split.
Qed.

(** Unmapping buffers of which none is the bounce buffer does nothing. *)
Lemma bounces_0 sg : bounces sg = 0%nat -> Forall (fun v => iov_base v <> BouncePtr) sg.
Proof.
  induction sg as [|v sg IH]; [done|]. rewrite bounces_cons. case_decide; [lia|].
  intros. constructor; [done|]. by apply IH.
Qed.

Lemma iov_mapped_ram m m' v :
  same_space m m' -> iov_base v <> BouncePtr -> iov_mapped m v -> iov_mapped m' v.
Proof.
  intros Hs Hv [Hl Hm]. split; [done|]. destruct (iov_base v); [|done..].
  by rewrite (in_ram_same m).
Qed.

(** The two unmapping loops go through a list of mapped buffers. *)
Lemma unmap_step m v sg is_write l k :
  mem_ok m -> Forall (iov_mapped m) (v :: sg) -> bounce_owned m (bounces (v :: sg) + k) ->
  exists m', address_space_unmap m (iov_base v) is_write l = Ok m' /\ mem_ok m' /\ same_space m m' /\
    Forall (iov_mapped m') sg /\ bounce_owned m' (bounces sg + k).
Proof.
  intros Hm Hsg Hb. apply Forall_cons in Hsg as [Hv Hsg].
  change (v :: sg) with ([v] ++ sg) in Hb. rewrite bounces_app, <- Nat.add_assoc in Hb.
  destruct (address_space_unmap_spec m v is_write l _ Hm Hv Hb) as (m' & E & G1 & G2 & G3 & G4 & G5).
  exists m'. split; [done|]. split; [done|]. split; [done|]. split; [|done].
  destruct (decide (iov_base v = BouncePtr)) as [Ev|Ev]; [|by rewrite (G4 Ev)].
  unfold bounce_owned in G3. rewrite (G5 Ev) in G3.
  assert (bounces sg = 0%nat) as H0 by lia. apply bounces_0 in H0.
  rewrite Forall_forall in *. intros x Hx. eapply iov_mapped_ram; eauto.
Qed.

Lemma unmap_in_spec m sg len off k :
  mem_ok m -> Forall (iov_mapped m) sg -> bounce_owned m (bounces sg + k) ->
  exists m', unmap_in m sg len off = Ok m' /\ mem_ok m' /\ same_space m m' /\ bounce_owned m' k.
Proof.
  revert m off. induction sg as [|v sg IH]; intros m off Hm Hsg Hb; cbn [unmap_in]; [by exists m|].
  destruct (unmap_step m v sg true (Z.min (u32 (len - off)) (iov_len v)) k Hm Hsg Hb)
    as (m1 & -> & H1 & H2 & H3 & H4). cbn [mbind res_bind].
  destruct (IH m1 (u32 (off + Z.min (u32 (len - off)) (iov_len v))) H1 H3 H4) as (m' & -> & G1 & G2 & G3).
  exists m'. split; [done|]. split; [done|]. split; [by eapply same_space_trans|done].
Qed.

Lemma unmap_out_spec m sg k :
  mem_ok m -> Forall (iov_mapped m) sg -> bounce_owned m (bounces sg + k) ->
  exists m', unmap_out m sg = Ok m' /\ mem_ok m' /\ same_space m m' /\ bounce_owned m' k.
Proof.
  revert m. induction sg as [|v sg IH]; intros m Hm Hsg Hb; cbn [unmap_out]; [by exists m|].
  destruct (unmap_step m v sg false (iov_len v) k Hm Hsg Hb) as (m1 & -> & H1 & H2 & H3 & H4).
  cbn [mbind res_bind].
  destruct (IH m1 H1 H3 H4) as (m' & -> & G1 & G2 & G3).
  exists m'. split; [done|]. split; [done|]. split; [by eapply same_space_trans|done].
Qed.

(** ** A request the device holds *)

Record elem_ok (m : AddressSpace) (max : Z) (e : VirtQueueElement) : Prop := {
  ok_index : 0 <= elem_index e < max;
  ok_in_num : in_num e <= VIRTQUEUE_MAX_SIZE;
  ok_out_num : out_num e <= VIRTQUEUE_MAX_SIZE;
  ok_mapped : Forall (iov_mapped m) (in_sg e ++ out_sg e);
  ok_owned : bounce_owned m (bounces (in_sg e ++ out_sg e))
}.

Section ops.
Context {B : Type}.
Implicit Types s : vstate B.

(** What the collection of descriptors keeps. *)
Record collected (e : VirtQueueElement) : Prop := {
  co_in : in_num e <= VIRTQUEUE_MAX_SIZE;
  co_out : out_num e <= VIRTQUEUE_MAX_SIZE;
  co_lens : Forall (fun v => 0 <= iov_len v) (in_sg e ++ out_sg e)
}.

Lemma add_desc_safe s pa i e :
  mem_ok (mem s) -> collected e ->
  safe (fun e' => collected e' /\ in_num e' + out_num e' = in_num e + out_num e + 1) (add_desc s pa i e).
Proof.
  intros Hm [Hi Ho Hl]. unfold add_desc, in_num, out_num in *.
  pose proof (ldl_range (mem s) (big s) (pa + SIZEOF_VRingDesc * i + 8) Hm) as [Hlen _].
  fold (vring_desc_len (mem s) (big s) pa i) in Hlen. apply Forall_app in Hl as [Hl1 Hl2].
  destruct (flag_set _ _); destruct (_ >=? _) eqn:E; zb; cbn; try done;
    (split; [split; unfold in_num, out_num; cbn; rewrite ?length_app; cbn; try lia|rewrite !length_app; cbn; lia]).
  - rewrite <- app_assoc. rewrite !Forall_app. repeat split; [done|by constructor|done].
  - rewrite !Forall_app. repeat split; [done..|by constructor].
Qed.

(** The loop ends: every round adds an entry to one of the two arrays. *)
Lemma collect_safe fuel s pa max i e :
  mem_ok (mem s) -> collected e ->
  2 * VIRTQUEUE_MAX_SIZE < Z.of_nat fuel + in_num e + out_num e ->
  safe collected (collect fuel s pa max i e).
Proof.
  intros Hm. revert i e. induction fuel as [|fuel IH]; intros i e He Hf; cbn [collect].
  - destruct He. cbn. lia.
  - eapply safe_bind; [by apply add_desc_safe|]. intros e' [He' Hcount]. cbn.
    destruct (_ >? max); [done|]. unfold virtqueue_next_desc.
    destruct (negb _); cbn; [by rewrite Z.eqb_refl|].
    destruct (_ >=? max); cbn; [done|]. destruct (_ =? max); [done|]. apply IH; [done|lia].
Qed.

Lemma virtqueue_map_sg_safe m sg addr is_write :
  mem_ok m -> Forall (fun v => 0 <= iov_len v) sg ->
  safe (fun '(sg', m') => maps_to m m' /\ Forall (iov_mapped m') sg' /\
          (forall k, bounce_owned m k -> bounce_owned m' (bounces sg' + k)) /\ (length sg' <= length sg)%nat)
    (virtqueue_map_sg m sg addr is_write).
Proof.
  intros Hm Hsg. unfold virtqueue_map_sg. destruct (_ >? _); [done|].
  assert (Hlen : forall sg' m', map_sg m sg addr is_write = Done (sg', m') -> (length sg' <= length sg)%nat).
  { clear. revert m addr. induction sg as [|v sg IH]; intros m addr sg' m' E; cbn in E.
    - by injection E as <- <-.
    - destruct addr; [injection E as <- <-; cbn; lia|].
      destruct (address_space_map _ _ _ _) as [[[p l]|] m1]; [|done]. inv_out.
      cbn. apply le_n_S. by eapply IH. }
  pose proof (map_sg_safe m sg addr is_write Hm Hsg) as Hs.
  destruct (map_sg m sg addr is_write) as [[sg' m']| |] eqn:E; cbn in *; [|done..].
  destruct Hs as (H1 & H2 & H3). refine (conj H1 (conj H2 (conj H3 _))). by eapply Hlen.
Qed.

(** The next entry of the ring is taken: the state in which its descriptors are
    read. *)
Definition take_head s (n : Z) : vstate B :=
  let s1 := upd_queue s n (fun q => {| q with last_avail_idx := u16 (last_avail_idx q + 1) |}) in
  if virtio_has_feature (vdev s1) VIRTIO_RING_F_EVENT_IDX
  then set_mem s1 (vring_set_avail_event (mem s1) (big s1) (queue s1 n) (last_avail_idx (queue s1 n)))
  else s1.

Lemma rings_ok_take s n :
  rings_ok s -> 0 <= n < VIRTIO_QUEUE_MAX -> rings_ok (take_head s n).
Proof.
  intros Hs Hn. unfold take_head. cbv zeta.
  set (s1 := upd_queue s n _).
  assert (Hs1 : rings_ok s1).
  { apply rings_ok_upd; [done|]. destruct (queue_ok_at s n Hs Hn). split; cbn; try done.
    apply wrap_range. lia. }
  destruct (virtio_has_feature _ _); [|done]. apply rings_ok_mem; [done|].
  unfold vring_set_avail_event. destruct (negb _); [apply Hs1|]. apply mem_ok_stw, Hs1.
Qed.

(** [virtqueue_pop] once an entry is there. *)
Lemma virtqueue_pop_take s n nh :
  rings_ok s -> 0 <= n < VIRTIO_QUEUE_MAX ->
  virtqueue_num_heads s (queue s n) (last_avail_idx (queue s n)) = Done nh -> nh <> 0 ->
  virtqueue_pop s n =
    (head ← virtqueue_get_head s (queue s n) (last_avail_idx (queue s n));
     let s1 := take_head s n in
     '(desc_pa, max, i) ← desc_table s1 (queue s1 n) head;
     e ← collect collect_fuel s1 desc_pa max i (mkElem 0 [] [] [] []);
     '(isg, m) ← virtqueue_map_sg (mem s1) (in_sg e) (in_addr e) true;
     '(osg, m) ← virtqueue_map_sg m (out_sg e) (out_addr e) false;
     s ← mod_vq (set_mem s1 m) n (fun q => {| q with inuse := inuse q + 1 |});
     Done (Some (mkElem head (in_addr e) (out_addr e) isg osg), s)).
Proof.
  intros Hs Hn Hnh Hne. unfold virtqueue_pop. rewrite get_vq_in by done.
  change (Done (queue s n) ≫= ?f) with (f (queue s n)). cbv beta. rewrite Hnh.
  change (Done nh ≫= ?f) with (f nh). cbv beta. apply Z.eqb_neq in Hne. rewrite Hne.
  destruct (virtqueue_get_head _ _ _) as [head| |]; [|done..].
  change (Done head ≫= ?f) with (f head). cbv beta.
  rewrite mod_vq_in by done. change (Done ?x ≫= ?f) with (f x). cbv beta.
  rewrite get_vq_in.
  - change (Done ?x ≫= ?f) with (f x). cbv beta zeta. unfold take_head. cbv zeta.
    destruct (virtio_has_feature _ _); reflexivity.
  - apply rings_ok_upd; [done|]. destruct (queue_ok_at s n Hs Hn). split; cbn; try done.
    apply wrap_range. lia.
  - done.
Qed.

(** What [virtqueue_pop] does to the queue. *)
Definition pop_queue (q : VirtQueue) : VirtQueue :=
  let q := {| q with last_avail_idx := u16 (last_avail_idx q + 1) |} in {| q with inuse := inuse q + 1 |}.

Lemma pop_queue_ok q : queue_ok q -> queue_ok (pop_queue q).
Proof. intros []. split; cbn; try done. apply wrap_range. lia. Qed.

Lemma take_head_mem s n : exists m,
  take_head s n = set_mem (upd_queue s n (fun q => {| q with last_avail_idx := u16 (last_avail_idx q + 1) |})) m /\
  same_space (mem s) m /\ bounce m = bounce (mem s).
Proof.
  unfold take_head. cbv zeta. destruct (virtio_has_feature _ _).
  - eexists. split; [reflexivity|]. unfold vring_set_avail_event. destruct (negb _); [done|].
    split; [apply same_space_store|apply bounce_store].
  - exists (mem s). by destruct s.
Qed.

Lemma upd_queue_twice s n f g m :
  rings_ok s -> 0 <= n < VIRTIO_QUEUE_MAX ->
  upd_queue (set_mem (upd_queue s n f) m) n g = set_mem (upd_queue s n (fun q => g (f q))) m.
Proof.
  intros Hs Hn. unfold upd_queue at 1 3, set_mem, set_vdev, queue. cbn.
  rewrite (at_upd_eq _ _ _ _ _ (ok_queues s Hs) Hn), upd_upd. done.
Qed.

Lemma desc_table_safe s q head : safe (fun _ => True) (desc_table s q head).
Proof. unfold desc_table. destruct (flag_set _ _); [|done]. by destruct (negb _). Qed.

Lemma rings_ok_set s n f m :
  rings_ok s -> queue_ok (f (queue s n)) -> mem_ok m -> rings_ok (set_mem (upd_queue s n f) m).
Proof. intros. apply rings_ok_mem; [by apply rings_ok_upd|done]. Qed.

(** Whatever is in the memory of the guest, [virtqueue_pop] returns or exits; a
    request it returns has at most 1024 buffers of each kind, all mapped. *)
Lemma virtqueue_pop_safe s n :
  rings_ok s -> 0 <= n < VIRTIO_QUEUE_MAX -> num (vring (queue s n)) <> 0 -> bounce (mem s) = None ->
  safe (fun '(r, s') => match r with
    | None => s' = s
    | Some e => exists m, s' = set_mem (upd_queue s n pop_queue) m /\ rings_ok s' /\
                  same_space (mem s) m /\ elem_ok m (num (vring (queue s n))) e
    end) (virtqueue_pop s n).
Proof.
  intros Hs Hn Hnum Hb.
  destruct (virtqueue_num_heads s (queue s n) (last_avail_idx (queue s n))) as [nh| |f] eqn:Enh.
  2: { unfold virtqueue_pop. rewrite get_vq_in by done.
       change (Done (queue s n) ≫= ?f) with (f (queue s n)). cbv beta. by rewrite Enh. }
  2: { unfold virtqueue_num_heads in Enh. by destruct (_ >? _). }
  destruct (decide (nh = 0)) as [->|Hne].
  { unfold virtqueue_pop. rewrite get_vq_in by done.
    change (Done (queue s n) ≫= ?f) with (f (queue s n)). cbv beta. by rewrite Enh. }
  rewrite (virtqueue_pop_take s n nh Hs Hn Enh Hne).
  destruct (take_head_mem s n) as (m1 & E1 & Hsp1 & Hb1).
  pose proof (rings_ok_take s n Hs Hn) as Hs1. cbv zeta. rewrite E1 in *.
  set (s1 := set_mem _ m1) in *.
  assert (Hm1 : mem_ok m1) by apply Hs1.
  eapply (safe_bind (fun head => 0 <= head < num (vring (queue s n)))).
  { unfold virtqueue_get_head. apply Z.eqb_neq in Hnum. rewrite Hnum.
    destruct (_ >=? _) eqn:E; cbn; [done|]. zb. split; [|lia].
    apply lduw_range, Hs. }
  intros head Hhead. eapply safe_bind; [apply desc_table_safe|]. intros [[pa max] i] _.
  eapply safe_bind.
  { apply (collect_safe collect_fuel s1); [done|split; done|by vm_compute]. }
  intros e [He1 He2 He3]. apply Forall_app in He3 as [Hin Hout].
  eapply safe_bind; [by apply virtqueue_map_sg_safe|]. intros [isg m2] (M1 & M2 & M3 & M4).
  eapply safe_bind; [apply virtqueue_map_sg_safe; [apply M1|done]|].
  intros [osg m3] (N1 & N2 & N3 & N4).
  assert (Hq : queue_ok (pop_queue (queue s n))) by by apply pop_queue_ok, queue_ok_at.
  rewrite mod_vq_in; [|apply rings_ok_mem; [done|apply N1]|done].
  change (set_mem s1 m3) with (set_mem (upd_queue s n
    (fun q => {| q with last_avail_idx := u16 (last_avail_idx q + 1) |})) m3).
  rewrite upd_queue_twice by done. exists m3. split; [reflexivity|].
  split; [apply rings_ok_set; [done|done|apply N1]|].
  split; [eapply same_space_trans; [exact Hsp1|]; eapply same_space_trans; [apply M1|apply N1]|].
  unfold in_num, out_num in *. split; unfold in_num, out_num; cbn [elem_index in_sg out_sg]; [done|lia..| |].
  - apply Forall_app. split; [|done]. eapply Forall_impl; [exact M2|]. intros v. by apply iov_mapped_mono.
  - rewrite bounces_app, Nat.add_comm. apply N3. rewrite <- (Nat.add_0_r (bounces isg)). apply M3.
    unfold bounce_owned. change (mem s1) with m1. by rewrite Hb1, Hb.
Qed.

(** The memory after the entry is stored, and after the index is. *)
Definition fill_mem (m : AddressSpace) (be : bool) (q : VirtQueue) (idx len : Z) : AddressSpace :=
  let i := vring_used_idx m be q mod num (vring q) in
  vring_used_ring_len (vring_used_ring_id m be q i idx) be q i len.
Definition push_mem (m : AddressSpace) (be : bool) (q : VirtQueue) (idx len : Z) : AddressSpace :=
  let m1 := fill_mem m be q idx len in
  vring_used_idx_set m1 be q (u16 (vring_used_idx m1 be q + 1)).

(** What [virtqueue_push] does to the queue; [old] is the used index. *)
Definition push_queue (old : Z) (q : VirtQueue) : VirtQueue :=
  let new := u16 (old + 1) in
  let q := {| q with inuse := inuse q - 1 |} in
  if signed 16 (new - signalled_used q) <? u16 (new - old)
  then {| q with signalled_used_valid := false |} else q.

Lemma push_queue_ok old q : queue_ok q -> queue_ok (push_queue old q).
Proof. intros []. unfold push_queue. cbv zeta. by destruct (_ <? _). Qed.

Lemma push_queue_fields old q :
  vring (push_queue old q) = vring q /\ signalled_used (push_queue old q) = signalled_used q /\
  last_avail_idx (push_queue old q) = last_avail_idx q /\ notification (push_queue old q) = notification q /\
  handle_output (push_queue old q) = handle_output q /\ host_notifier (push_queue old q) = host_notifier q.
Proof. unfold push_queue. cbv zeta. by destruct (_ <? _). Qed.

Lemma mem_ok_fill m be q idx len : mem_ok m -> mem_ok (fill_mem m be q idx len).
Proof. intros. unfold fill_mem, vring_used_ring_len, vring_used_ring_id. auto with virtio. Qed.

Lemma mem_ok_push m be q idx len : mem_ok m -> mem_ok (push_mem m be q idx len).
Proof. intros. unfold push_mem, vring_used_idx_set. auto using mem_ok_fill with virtio. Qed.

Lemma same_space_push m be q idx len :
  same_space m (push_mem m be q idx len) /\ bounce (push_mem m be q idx len) = bounce m.
Proof.
  unfold push_mem, fill_mem, vring_used_idx_set, vring_used_ring_len, vring_used_ring_id,
    virtio_stw_phys, virtio_stl_phys. cbv zeta. rewrite !bounce_store. split; [|done].
  do 2 (eapply same_space_trans; [|apply same_space_store]). apply same_space_store.
Qed.

(** Unmapping buffers in RAM does nothing. *)
Lemma unmap_in_id m sg len off m' :
  bounces sg = 0%nat -> unmap_in m sg len off = Ok m' -> m' = m.
Proof.
  intros H0%bounces_0. revert off. induction H0 as [|v sg Hv _ IH]; intros off E; cbn in E; [congruence|].
  destruct (iov_base v); [|done..]. cbn in E. eauto.
Qed.

Lemma unmap_out_id m sg m' : bounces sg = 0%nat -> unmap_out m sg = Ok m' -> m' = m.
Proof.
  intros H0%bounces_0. induction H0 as [|v sg Hv _ IH]; intros E; cbn in E; [congruence|].
  destruct (iov_base v); [|done..]. cbn in E. eauto.
Qed.

(** Unmapping all the buffers of a request the device holds. *)
Lemma unmap_elem m max e len :
  mem_ok m -> elem_ok m max e ->
  exists m1 m2, unmap_in m (in_sg e) len 0 = Ok m1 /\ unmap_out m1 (out_sg e) = Ok m2 /\ mem_ok m2 /\
    same_space m m2 /\ bounce m2 = None /\ (bounce m = None -> m2 = m).
Proof.
  intros Hm [_ _ _ Hmap Hown]. apply Forall_app in Hmap as [Hin Hout]. rewrite bounces_app in Hown.
  destruct (unmap_in_spec m (in_sg e) len 0 (bounces (out_sg e)) Hm Hin Hown) as (m1 & E1 & H1 & H2 & H3).
  assert (Hout1 : Forall (iov_mapped m1) (out_sg e)).
  { destruct (decide (bounces (out_sg e) = 0%nat)) as [H0|H0].
    - apply bounces_0 in H0. rewrite Forall_forall in *. intros v Hv. eapply iov_mapped_ram; eauto.
    - assert (bounces (in_sg e) = 0%nat) as Hi0.
      { unfold bounce_owned in Hown. destruct (bounce m); lia. }
      by rewrite (unmap_in_id _ _ _ _ _ Hi0 E1). }
  destruct (unmap_out_spec m1 (out_sg e) 0 H1 Hout1) as (m2 & E2 & G1 & G2 & G3); [by rewrite Nat.add_0_r|].
  exists m1, m2. split; [done|]. split; [done|]. split; [done|]. split; [by eapply same_space_trans|].
  split; [unfold bounce_owned in G3; by destruct (bounce m2)|].
  intros Hb. unfold bounce_owned in Hown. rewrite Hb in Hown.
  rewrite (unmap_out_id m1 (out_sg e) m2) by (done || lia). eapply unmap_in_id; [|exact E1]. lia.
Qed.

Lemma virtqueue_push_spec s n max e len :
  rings_ok s -> 0 <= n < VIRTIO_QUEUE_MAX -> num (vring (queue s n)) <> 0 -> elem_ok (mem s) max e ->
  exists m, mem_ok m /\ same_space (mem s) m /\ bounce m = None /\ (bounce (mem s) = None -> m = mem s) /\
    virtqueue_push s n e len =
      Done (set_mem (upd_queue s n (push_queue (vring_used_idx (fill_mem m (big s) (queue s n) (elem_index e) (u32 len))
                                                  (big s) (queue s n))))
              (push_mem m (big s) (queue s n) (elem_index e) (u32 len))).
Proof.
  intros Hs Hn Hnum He.
  destruct (unmap_elem (mem s) max e (u32 len) (ok_mem s Hs) He) as (m1 & m2 & E1 & E2 & H1 & H2 & H3 & H4).
  exists m2. split; [done|]. split; [done|]. split; [done|]. split; [done|].
  unfold virtqueue_push, virtqueue_fill. rewrite get_vq_in by done.
  change (Done (queue s n) ≫= ?f) with (f (queue s n)). cbv beta. rewrite E1. cbn [lift].
  change (Done m1 ≫= ?f) with (f m1). cbv beta. rewrite E2. cbn [lift].
  change (Done m2 ≫= ?f) with (f m2). cbv beta. apply Z.eqb_neq in Hnum. rewrite Hnum. cbv zeta.
  assert (Hu : u32 (0 + vring_used_idx m2 (big s) (queue s n)) = vring_used_idx m2 (big s) (queue s n)).
  { rewrite Z.add_0_l. apply wrap_small. pose proof (lduw_range m2 (big s) (used (vring (queue s n)) + 2) H1) as [? Hlt].
    unfold vring_used_idx. split; [done|]. change (2 ^ 16) with 65536 in Hlt. lia. }
  rewrite Hu. change (Done ?x ≫= ?f) with (f x). cbv beta. unfold virtqueue_flush.
  change (vring_used_ring_len _ _ _ _ _) with (fill_mem m2 (big s) (queue s n) (elem_index e) (u32 len)).
  assert (Hs2 : rings_ok (set_mem s (fill_mem m2 (big s) (queue s n) (elem_index e) (u32 len)))).
  { apply rings_ok_mem; [done|by apply mem_ok_fill]. }
  rewrite get_vq_in by done. change (Done ?x ≫= ?f) with (f x). cbv beta zeta.
  rewrite mod_vq_in; [reflexivity| |done].
  apply rings_ok_mem; [done|]. by apply mem_ok_stw, mem_ok_fill.
Qed.

(** A notification changes only what was signaled, and interrupts unless the
    guest asked not to. *)
Definition signal_only (f : VirtQueue -> VirtQueue) : Prop := forall q,
  vring (f q) = vring q /\ last_avail_idx (f q) = last_avail_idx q /\ notification (f q) = notification q /\
  inuse (f q) = inuse q /\ handle_output (f q) = handle_output q /\ host_notifier (f q) = host_notifier q /\
  (queue_ok q -> queue_ok (f q)).

Lemma upd_queue_id s n : rings_ok s -> 0 <= n < VIRTIO_QUEUE_MAX -> upd_queue s n (fun q => q) = s.
Proof.
  intros Hs Hn. unfold upd_queue, set_vdev, upd, queue, at_. destruct s as [? [] ? ?]; cbn.
  do 2 f_equal. apply list_insert_id. apply list_lookup_lookup_total_lt.
  pose proof (proj1 (ok_queues _ Hs)) as Hlen. cbn in Hlen. lia.
Qed.

Lemma vring_notify_spec s n :
  rings_ok s -> 0 <= n < VIRTIO_QUEUE_MAX ->
  exists yes f, vring_notify s n = Done (yes, upd_queue s n f) /\ signal_only f /\
    (virtio_has_feature (vdev s) VIRTIO_RING_F_EVENT_IDX = false ->
     flag_set (vring_avail_flags (mem s) (big s) (queue s n)) VRING_AVAIL_F_NO_INTERRUPT = false -> yes = true).
Proof.
  intros Hs Hn. unfold vring_notify. rewrite get_vq_in by done.
  change (Done (queue s n) ≫= ?f) with (f (queue s n)). cbv beta.
  destruct (_ && _ && _); [exists true, (fun q => q); by rewrite upd_queue_id|].
  destruct (virtio_has_feature (vdev s) VIRTIO_RING_F_EVENT_IDX) eqn:Eev; cbn [negb].
  - cbv zeta. rewrite mod_vq_in by done. eexists _, _. split; [reflexivity|]. split; [|done].
    intros q. repeat (split; [done|]). intros []. split; cbn; try done. apply lduw_range, Hs.
  - eexists _, (fun q => q). rewrite upd_queue_id by done. split; [reflexivity|]. split; [done|].
    intros _ ->. done.
Qed.

Lemma virtio_notify_spec s n :
  rings_ok s -> 0 <= n < VIRTIO_QUEUE_MAX ->
  exists yes f, virtio_notify s n =
      Done (if (yes : bool) then virtio_notify_vector (or_isr (upd_queue s n f) 1) else upd_queue s n f) /\
    signal_only f /\
    (virtio_has_feature (vdev s) VIRTIO_RING_F_EVENT_IDX = false ->
     flag_set (vring_avail_flags (mem s) (big s) (queue s n)) VRING_AVAIL_F_NO_INTERRUPT = false -> yes = true).
Proof.
  intros Hs Hn. destruct (vring_notify_spec s n Hs Hn) as (yes & f & E & Hf & Hy). exists yes, f.
  unfold virtio_notify. by rewrite E.
Qed.
End ops.

(** ** Counting the bytes available *)

Section counting.
Context {B : Type} (s : vstate B) (Hs : rings_ok s) (mi mo : Z).

Lemma next_desc_safe pa i max : safe (fun _ => True) (virtqueue_next_desc s pa i max).
Proof. unfold virtqueue_next_desc. by repeat case_match. Qed.

(** Each round counts a buffer, and there are at most [max]. *)
Lemma count_chain_safe fuel pa max i nb it ot :
  (0 < fuel)%nat -> max - nb < Z.of_nat fuel ->
  safe (fun '(_, nb', _, _) => nb <= nb') (count_chain fuel s pa max i nb it ot mi mo).
Proof.
  revert i nb it ot; induction fuel as [|k IH]; intros i nb it ot Hpos Hf; [lia|]. cbn [count_chain]. cbv zeta.
  destruct (nb + 1 >? max) eqn:E; [done|]. rewrite Z.gtb_ltb, Z.ltb_ge in E.
  destruct (_ && _); [cbn; lia|]. eapply safe_bind; [apply next_desc_safe|]. intros i' _.
  destruct (i' =? max); [cbn; lia|]. eapply safe_mono; [apply IH; lia|]. intros [[[? ?] ?] ?]. cbn. lia.
Qed.

Lemma count_head_safe q idx tb it ot :
  num (vring q) <> 0 -> 0 <= num (vring q) -> 0 <= tb ->
  safe (fun '(_, tb', _, _) => 0 <= tb') (count_head s q idx tb it ot mi mo).
Proof.
  intros Hq Hnum Htb. unfold count_head.
  apply safe_bind with (Q := fun _ => True).
  { unfold virtqueue_get_head. rewrite (proj2 (Z.eqb_neq _ _)) by done. by case_match. }
  intros i _. destruct (flag_set _ _).
  - destruct (negb _); [done|]. destruct (_ >=? _); [done|].
    pose proof (ld_range (mem s) (big s) (u64 (desc (vring q) + SIZEOF_VRingDesc * i + 8)) 4 (ok_mem s Hs)) as [Hlen _].
    set (m := vring_desc_len _ _ _ _ / SIZEOF_VRingDesc).
    assert (0 <= m) by (apply Z.div_pos; [exact Hlen|done]).
    eapply safe_bind; [apply count_chain_safe; lia|]. intros [[[? ?] ?] ?] _. cbn. lia.
  - eapply safe_mono; [apply count_chain_safe; lia|]. intros [[[? ?] ?] ?]. cbn. lia.
Qed.

(** Each round leaves one entry less. *)
Lemma count_heads_safe fuel q idx tb it ot :
  num (vring q) <> 0 -> 0 <= num (vring q) -> 0 <= tb ->
  u16 (vring_avail_idx (mem s) (big s) q - idx) < Z.of_nat fuel ->
  safe (fun _ => True) (count_heads fuel s q idx tb it ot mi mo).
Proof.
  intros Hq Hnum. revert idx tb it ot; induction fuel as [|k IH]; intros idx tb it ot Htb Hf.
  { pose proof (wrap_range 16 (vring_avail_idx (mem s) (big s) q - idx)). unfold in_range in *. lia. }
  cbn [count_heads]. unfold virtqueue_num_heads. cbv zeta. set (a := vring_avail_idx _ _ _) in *.
  destruct (u16 (a - idx) >? _); [done|]. cbn [mbind outcome_bind].
  destruct (u16 (a - idx) =? 0) eqn:E0; [done|]. apply Z.eqb_neq in E0.
  eapply safe_bind; [by apply count_head_safe|]. intros [[[fin tb'] it'] ot'] Htb'. destruct fin; [done|].
  apply IH; [done|]. enough (u16 (a - (idx + 1)) = u16 (a - idx) - 1) by lia.
  unfold wrap in *. change (2 ^ 16) with 65536 in *.
  replace (a - (idx + 1)) with ((a - idx) - 1) by lia. generalize dependent (a - idx). intros z _ Hz.
  pose proof (Z.mod_pos_bound z 65536). rewrite Zminus_mod. change (1 mod 65536) with 1. apply Z.mod_small. lia.
Qed.

Lemma virtqueue_avail_bytes_safe n :
  0 <= n < VIRTIO_QUEUE_MAX -> num (vring (queue s n)) <> 0 -> safe (fun _ => True) (virtqueue_avail_bytes s n mi mo).
Proof.
  intros Hn Hnum. unfold virtqueue_avail_bytes, virtqueue_get_avail_bytes. rewrite get_vq_in by done.
  change (Done (queue s n) ≫= ?f) with (f (queue s n)). cbv beta.
  pose proof (ok_num _ (queue_ok_at s n Hs Hn)) as [Hq _]. apply safe_bind with (Q := fun _ => True); [|by intros [? ?]].
  set (a := vring_avail_idx (mem s) (big s) (queue s n)).
  destruct (decide (u16 (a - last_avail_idx (queue s n)) <= num (vring (queue s n)))) as [Hle|Hgt].
  - apply count_heads_safe; try done. fold a. lia.
  - rewrite Nat.add_comm. cbn [count_heads Nat.add]. unfold virtqueue_num_heads. fold a. cbv zeta.
    by rewrite Z.gtb_ltb, (proj2 (Z.ltb_lt _ _)) by lia.
Qed.
End counting.
