(* ===== verification/VirtqueueTheorems.v ===== *)
(** * Virtqueues: what the two ends of a queue see

    The contract of a virtqueue: a request is a chain of descriptors the guest
    laid out in its memory; [virtqueue_pop] returns exactly the buffers of the
    chain, [virtqueue_push] makes exactly one entry of the used ring visible, and
    the event indices suppress an interrupt only if the guest did not ask for
    it. *)

From S2P Require Import Prelude CArray Virtqueue VirtqueueProofs.

(** ** Memory the device only reads *)

(** The [n] bytes from [a] on are below the end of the address space and all in
    the region [P]. *)
Definition footprint (P : Z -> Prop) (a n : Z) : Prop :=
  0 <= a /\ a + n <= 2 ^ 64 /\ forall x, a <= x < a + n -> P x.

(** Two memories that agree on the region [P]. *)
Record agree (P : Z -> Prop) (m m' : AddressSpace) : Prop := {
  ag_space : same_space m m';
  ag_bytes : forall x, P x -> ram m' !! x = ram m !! x
}.

Lemma agree_refl P m : agree P m m.
Proof. done. Qed.

Lemma agree_trans P m1 m2 m3 : agree P m1 m2 -> agree P m2 m3 -> agree P m1 m3.
Proof.
  intros [S1 B1] [S2 B2]. split; [by eapply same_space_trans|]. intros x Hx. by rewrite B2, B1.
Qed.

Lemma agree_mono (P Q : Z -> Prop) m m' : (forall x, Q x -> P x) -> agree P m m' -> agree Q m m'.
Proof. intros HPQ [S B]. split; [done|]. auto. Qed.

(** A store outside of the region. *)
Lemma agree_store P m a bs :
  (forall x, a <= x < a + Z.of_nat (length bs) -> ~ P x) -> agree P m (phys_store m a bs).
Proof.
  intros Hd. split; [apply same_space_store|]. intros x Hx. unfold phys_store.
  destruct (in_ram m a _); [|done]. cbn. rewrite write_mem_lookup, decide_False; [done|].
  intros Hin. by eapply Hd.
Qed.

Lemma load_agree P m m' a n :
  agree P m m' -> footprint P a (Z.of_nat n) -> phys_load m' (u64 a) n = phys_load m (u64 a) n.
Proof.
  intros [Hs Hb] (H0 & H1 & HP). unfold phys_load. rewrite (in_ram_same m) by done.
  destruct (in_ram m _ _) eqn:E; [|done]. apply in_ram_spec in E.
  destruct n as [|n]; [done|]. rewrite (wrap_small 64 a) by (split; lia).
  apply read_mem_ext. intros i Hi. apply Hb, HP. lia.
Qed.

Lemma footprint_sub P a n b k : footprint P a n -> a <= b -> b + k <= a + n -> footprint P b k.
Proof. intros (H0 & H1 & H2) Hb Hk. repeat split; [lia..|]. intros x Hx. apply H2. lia. Qed.

(** ** Chains of descriptors *)

(** A buffer of a request; [b_write] tells that the device writes it. *)
Record buffer : Type := mkBuf { b_addr : Z; b_len : Z; b_write : bool }.

Section chains.
Variables (P : Z -> Prop) (m : AddressSpace) (be : bool).

Definition buffer_at (pa i : Z) : buffer :=
  mkBuf (vring_desc_addr m be pa i) (vring_desc_len m be pa i)
    (flag_set (vring_desc_flags m be pa i) VRING_DESC_F_WRITE).

(** [desc_chain pa max i is l]: in the table at [pa] of [max] entries, the chain
    that starts at descriptor [i] goes through the descriptors [ds] and
    describes the buffers [l]. *)
Inductive desc_chain (pa max : Z) : Z -> list Z -> list buffer -> Prop :=
| chain_last i :
    footprint P (pa + 16 * i) 16 ->
    flag_set (vring_desc_flags m be pa i) VRING_DESC_F_NEXT = false ->
    desc_chain pa max i [i] [buffer_at pa i]
| chain_link i ds l :
    footprint P (pa + 16 * i) 16 ->
    flag_set (vring_desc_flags m be pa i) VRING_DESC_F_NEXT = true ->
    vring_desc_next m be pa i < max ->
    desc_chain pa max (vring_desc_next m be pa i) ds l ->
    desc_chain pa max i (i :: ds) (buffer_at pa i :: l).

(** The request whose first descriptor is [head], directly in the table of the
    queue or in a table of its own. *)
Inductive request (q : VirtQueue) (head : Z) (l : list buffer) : Prop :=
| request_direct ds :
    flag_set (vring_desc_flags m be (desc (vring q)) head) VRING_DESC_F_INDIRECT = false ->
    desc_chain (desc (vring q)) (num (vring q)) head ds l ->
    request q head l
| request_indirect ds :
    footprint P (desc (vring q) + 16 * head) 16 ->
    flag_set (vring_desc_flags m be (desc (vring q)) head) VRING_DESC_F_INDIRECT = true ->
    vring_desc_len m be (desc (vring q)) head mod 16 = 0 ->
    0 < vring_desc_len m be (desc (vring q)) head ->
    desc_chain (vring_desc_addr m be (desc (vring q)) head)
      (vring_desc_len m be (desc (vring q)) head / 16) 0 ds l ->
    request q head l.

Lemma desc_chain_det pa max i ds ds' l l' :
  desc_chain pa max i ds l -> desc_chain pa max i ds' l' -> ds = ds' /\ l = l'.
Proof.
  intros Hc. revert ds' l'. induction Hc as [i _ Hn|i ds l _ Hn _ Hc IH]; intros ds' l' Hc';
    inversion Hc'; subst; try congruence; [done|].
  edestruct IH as [-> ->]; [done|]. done.
Qed.

(** A chain visits no descriptor twice. *)
Lemma desc_chain_sub pa max i ds l j :
  desc_chain pa max i ds l -> j ∈ ds ->
  exists ds' l', desc_chain pa max j ds' l' /\ (length ds' <= length ds)%nat.
Proof.
  induction 1 as [i Hf Hn|i ds l Hf Hn Hlt Hc IH]; intros Hj.
  - apply list_elem_of_singleton in Hj as ->. eexists _, _. split; [by constructor|done].
  - apply elem_of_cons in Hj as [->|Hj]; [eexists _, _; split; [by eapply chain_link|done]|].
    destruct (IH Hj) as (ds' & l' & Hc' & Hle). exists ds', l'. split; [done|]. cbn. lia.
Qed.

Lemma desc_chain_NoDup pa max i ds l : desc_chain pa max i ds l -> NoDup ds.
Proof.
  induction 1 as [i Hf Hn|i ds l Hf Hn Hlt Hc IH]; [apply NoDup_singleton|].
  apply NoDup_cons. split; [|done]. intros Hin.
  destruct (desc_chain_sub _ _ _ _ _ _ Hc Hin) as (ds' & l' & Hc' & Hle).
  destruct (desc_chain_det pa max i (i :: ds) ds' _ _ (chain_link _ _ _ _ _ Hf Hn Hlt Hc) Hc') as [<- _].
  cbn in Hle. lia.
Qed.

Lemma desc_chain_bound pa max i ds l :
  mem_ok m -> 0 <= i < max -> desc_chain pa max i ds l -> Forall (fun j => 0 <= j < max) ds.
Proof.
  intros Hm Hi Hc. revert Hi. induction Hc as [i|i ds l _ _ Hlt _ IH]; intros Hi; constructor; [done..| |].
  - done.
  - apply IH. split; [apply lduw_range, Hm|done].
Qed.

Lemma length_chain pa max i ds l : desc_chain pa max i ds l -> length ds = length l.
Proof. induction 1; cbn; congruence. Qed.

(** A chain is no longer than its table, so it is never taken for a loop. *)
Lemma desc_chain_length pa max i ds l :
  mem_ok m -> 0 <= i < max -> desc_chain pa max i ds l -> Z.of_nat (length l) <= max.
Proof.
  intros Hm Hi Hc. rewrite <- (length_chain _ _ _ _ _ Hc).
  pose proof (desc_chain_bound _ _ _ _ _ Hm Hi Hc) as Hb. rewrite Forall_forall in Hb.
  assert (Hsub : ds ⊆ seqZ 0 max) by (intros j Hj; apply elem_of_seqZ; specialize (Hb j Hj); lia).
  assert (Hle : (length ds <= length (seqZ 0 max))%nat).
  { apply submseteq_length, NoDup_submseteq; [by eapply desc_chain_NoDup|exact Hsub]. }
  rewrite length_seqZ in Hle. lia.
Qed.
End chains.

(** Chains and requests are the same in memories that agree. *)
Section stable.
Context (P : Z -> Prop) (m m' : AddressSpace) (be : bool) (Hag : agree P m m').

Lemma desc_agree pa i :
  footprint P (pa + 16 * i) 16 ->
  vring_desc_addr m' be pa i = vring_desc_addr m be pa i /\
  vring_desc_len m' be pa i = vring_desc_len m be pa i /\
  vring_desc_flags m' be pa i = vring_desc_flags m be pa i /\
  vring_desc_next m' be pa i = vring_desc_next m be pa i.
Proof.
  intros Hf. unfold vring_desc_addr, vring_desc_len, vring_desc_flags, vring_desc_next,
    virtio_ldq_phys, virtio_ldl_phys, virtio_lduw_phys, SIZEOF_VRingDesc.
  rewrite !(load_agree P m m'); try done; eapply footprint_sub; try exact Hf; cbn; lia.
Qed.

Lemma desc_chain_agree pa max i ds l : desc_chain P m be pa max i ds l -> desc_chain P m' be pa max i ds l.
Proof.
  induction 1 as [i Hf Hn|i ds l Hf Hn Hlt Hc IH];
    destruct (desc_agree pa i Hf) as (Ea & El & Efl & En).
  - replace (buffer_at m be pa i) with (buffer_at m' be pa i) by (unfold buffer_at; congruence).
    constructor; [done|congruence].
  - replace (buffer_at m be pa i) with (buffer_at m' be pa i) by (unfold buffer_at; congruence).
    constructor; [done|congruence..].
Qed.

Lemma request_agree q head l : request P m be q head l -> request P m' be q head l.
Proof.
  intros [ds Hi Hc|ds Hf Hi Hmod Hpos Hc].
  - apply (request_direct _ _ _ _ _ _ ds); [|by apply desc_chain_agree].
    inversion Hc as [i Hf|i ds' l' Hf]; subst; by destruct (desc_agree _ _ Hf) as (_ & _ & -> & _).
  - destruct (desc_agree _ _ Hf) as (Ea & El & Efl & En).
    apply (request_indirect _ _ _ _ _ _ ds); rewrite ?Ea, ?El, ?Efl; try done.
    by apply desc_chain_agree.
Qed.
End stable.

(** ** Taking a request *)

Definition writes (l : list buffer) : list buffer := filter (fun b => b_write b = true) l.
Definition reads (l : list buffer) : list buffer := filter (fun b => b_write b = false) l.

(** A buffer before and after it is mapped. *)
Definition raw_iov (b : buffer) : iovec := mkIov Uninit (b_len b).
Definition ram_iov (b : buffer) : iovec := mkIov (RamPtr (b_addr b)) (b_len b).

(** The element that describes a request. *)
Definition elem_of (head : Z) (l : list buffer) : VirtQueueElement :=
  mkElem head (b_addr <$> writes l) (b_addr <$> reads l) (ram_iov <$> writes l) (ram_iov <$> reads l).

Definition add_bufs (e : VirtQueueElement) (l : list buffer) : VirtQueueElement :=
  mkElem (elem_index e) (in_addr e ++ (b_addr <$> writes l)) (out_addr e ++ (b_addr <$> reads l))
    (in_sg e ++ (raw_iov <$> writes l)) (out_sg e ++ (raw_iov <$> reads l)).

Lemma writes_cons b l : writes (b :: l) = if b_write b then b :: writes l else writes l.
Proof. unfold writes. rewrite filter_cons. by destruct (b_write b). Qed.
Lemma reads_cons b l : reads (b :: l) = if b_write b then reads l else b :: reads l.
Proof. unfold reads. rewrite filter_cons. by destruct (b_write b). Qed.

Lemma add_bufs_cons e b l : add_bufs (add_bufs e [b]) l = add_bufs e (b :: l).
Proof.
  destruct b as [a n []]; unfold add_bufs, writes, reads; cbn; by rewrite ?app_nil_r, <- ?app_assoc.
Qed.

Lemma num_add_buf e b :
  in_num (add_bufs e [b]) = in_num e + (if b_write b then 1 else 0) /\
  out_num (add_bufs e [b]) = out_num e + (if b_write b then 0 else 1).
Proof.
  unfold in_num, out_num, add_bufs. cbn [in_sg out_sg]. rewrite writes_cons, reads_cons, !length_app.
  change (writes []) with (@nil buffer). change (reads []) with (@nil buffer).
  destruct (b_write b); cbn [fmap list_fmap length]; lia.
Qed.

(** A buffer the device can reach. *)
Definition buf_ok (m : AddressSpace) (b : buffer) : Prop :=
  0 < b_len b /\ in_ram m (b_addr b) (b_len b) = true.

Lemma map_sg_ram m l is_write :
  Forall (buf_ok m) l -> map_sg m (raw_iov <$> l) (b_addr <$> l) is_write = Done (ram_iov <$> l, m).
Proof.
  induction 1 as [|b l [Hl Hin] _ IH]; [done|]. rewrite !fmap_cons. cbn [map_sg raw_iov iov_len].
  unfold address_space_map. replace (b_len b =? 0) with false by lia.
  apply in_ram_spec in Hin as Hin'.
  rewrite (proj2 (in_ram_spec m (b_addr b) 1)) by lia.
  replace (Z.min (b_len b) _) with (b_len b) by lia. rewrite Z.eqb_refl. cbn [negb].
  by rewrite IH.
Qed.

Section pop.
Context {B : Type}.
Implicit Types s : vstate B.

Lemma add_desc_buf s pa i e :
  let b := buffer_at (mem s) (big s) pa i in
  in_num e + (if b_write b then 1 else 0) <= VIRTQUEUE_MAX_SIZE ->
  out_num e + (if b_write b then 0 else 1) <= VIRTQUEUE_MAX_SIZE ->
  add_desc s pa i e = Done (add_bufs e [b]).
Proof.
  cbv zeta. unfold add_desc, add_bufs. rewrite writes_cons, reads_cons.
  change (writes []) with (@nil buffer). change (reads []) with (@nil buffer).
  unfold buffer_at. cbn [b_write]. destruct (flag_set _ _); intros Hi Ho;
    rewrite Z.geb_leb, (proj2 (Z.leb_gt _ _)) by lia; cbn; by rewrite ?app_nil_r.
Qed.

Lemma collect_chain P s pa max i ds l fuel e :
  desc_chain P (mem s) (big s) pa max i ds l ->
  in_num e + Z.of_nat (length (writes l)) <= VIRTQUEUE_MAX_SIZE ->
  out_num e + Z.of_nat (length (reads l)) <= VIRTQUEUE_MAX_SIZE ->
  in_num e + out_num e + Z.of_nat (length l) <= max -> (length l <= fuel)%nat ->
  collect fuel s pa max i e = Done (add_bufs e l).
Proof.
  intros Hc. revert fuel e. induction Hc as [i _ Hn|i ds l _ Hn Hlt Hc IH]; intros fuel e Hw Hr Hmax Hf;
    (destruct fuel as [|fuel]; [cbn in Hf; lia|]); cbn [collect];
    rewrite writes_cons in Hw; rewrite reads_cons in Hr; cbn [length] in Hmax, Hf;
    destruct (num_add_buf e (buffer_at (mem s) (big s) pa i)) as [Ni No];
    set (b := buffer_at (mem s) (big s) pa i) in *;
    rewrite add_desc_buf by (fold b; destruct (b_write b); cbn [length] in *; lia);
    cbn [mbind outcome_bind]; fold b; unfold virtqueue_next_desc; rewrite Hn; cbn [negb].
  - rewrite Z.gtb_ltb, (proj2 (Z.ltb_ge _ _)) by (destruct (b_write b); lia). cbn. by rewrite Z.eqb_refl.
  - rewrite Z.gtb_ltb, (proj2 (Z.ltb_ge _ _)) by (destruct (b_write b); lia).
    rewrite Z.geb_leb, (proj2 (Z.leb_gt _ _)) by lia. cbn [mbind outcome_bind].
    rewrite (proj2 (Z.eqb_neq _ _)) by lia. rewrite <- (add_bufs_cons e b l).
    apply IH; destruct (b_write b); cbn [length] in *; lia.
Qed.

Lemma Forall_kinds (Q : buffer -> Prop) l : Forall Q l -> Forall Q (writes l) /\ Forall Q (reads l).
Proof.
  induction 1 as [|b l Hb _ [IH1 IH2]]; [done|]. rewrite writes_cons, reads_cons.
  destruct (b_write b); auto.
Qed.

(** The numbers of buffers fit the arrays of an element. *)
Definition bufs_fit (l : list buffer) : Prop :=
  Z.of_nat (length (writes l)) <= VIRTQUEUE_MAX_SIZE /\ Z.of_nat (length (reads l)) <= VIRTQUEUE_MAX_SIZE.

Lemma length_writes_reads l : (length (writes l) + length (reads l))%nat = length l.
Proof.
  induction l as [|b l IH]; [done|]. rewrite writes_cons, reads_cons. destruct (b_write b); cbn; lia.
Qed.

(** The table a request is in, and its length. *)
Lemma request_table P s q head l :
  mem_ok (mem s) -> 0 <= head < num (vring q) -> request P (mem s) (big s) q head l ->
  exists pa max i ds, desc_table s q head = Done (pa, max, i) /\
    desc_chain P (mem s) (big s) pa max i ds l /\ Z.of_nat (length l) <= max.
Proof.
  intros Hm Hh [ds Hi Hc|ds Hf Hi Hmod Hpos Hc]; unfold desc_table; rewrite Hi.
  - eexists _, _, _, _. split; [done|]. split; [exact Hc|]. by eapply desc_chain_length.
  - unfold SIZEOF_VRingDesc. rewrite Hmod. eexists _, _, _, _. split; [done|]. split; [exact Hc|].
    eapply desc_chain_length; [done| |exact Hc]. split; [done|].
    apply Z.div_str_pos. split; [lia|]. apply Z.mod_divide in Hmod; [|done].
    apply Z.divide_pos_le; [lia|done].
Qed.

(** Taking the next request: [virtqueue_pop] returns exactly its buffers. *)
Lemma virtqueue_pop_request P s n head l :
  rings_ok s -> 0 <= n < VIRTIO_QUEUE_MAX ->
  let q := queue s n in
  1 <= u16 (vring_avail_idx (mem s) (big s) q - last_avail_idx q) <= num (vring q) ->
  vring_avail_ring (mem s) (big s) q (last_avail_idx q mod num (vring q)) = head -> head < num (vring q) ->
  request P (mem (take_head s n)) (big s) q head l -> bufs_fit l -> Forall (buf_ok (mem s)) l ->
  virtqueue_pop s n =
    Done (Some (elem_of head l), set_mem (upd_queue s n pop_queue) (mem (take_head s n))).
Proof.
  intros Hs Hn q Hav Hring Hlt Hreq [Hw Hr] Hbufs.
  assert (Hh : 0 <= head < num (vring q)) by (rewrite <- Hring in *; split; [apply lduw_range, Hs|done]).
  erewrite virtqueue_pop_take; [|done|done| |].
  2: { unfold virtqueue_num_heads. fold q. rewrite Z.gtb_ltb, (proj2 (Z.ltb_ge _ _)) by lia. reflexivity. }
  2: { lia. }
  unfold virtqueue_get_head. fold q. rewrite (proj2 (Z.eqb_neq (num _) 0)) by lia. rewrite Hring. cbv zeta.
  rewrite Z.geb_leb, (proj2 (Z.leb_gt _ _)) by done. change (Done head ≫= ?f) with (f head). cbv beta zeta.
  destruct (take_head_mem s n) as (m1 & E1 & Hsp1 & Hb1).
  pose proof (rings_ok_take s n Hs Hn) as Hs1. rewrite E1 in *. set (s1 := set_mem _ m1) in *.
  change (mem s1) with m1 in Hreq. change (big s) with (big s1) in Hreq.
  assert (Eq : vring (queue s1 n) = vring q).
  { change (queue s1 n) with (queue (upd_queue s n (fun q => {| q with last_avail_idx := u16 (last_avail_idx q + 1) |})) n).
    by rewrite queue_upd. }
  assert (Hreq1 : request P (mem s1) (big s1) (queue s1 n) head l).
  { destruct Hreq as [ds Hi Hc|ds Hf Hi Hmod Hpos Hc].
    - apply (request_direct _ _ _ _ _ _ ds); by rewrite Eq.
    - apply (request_indirect _ _ _ _ _ _ ds); by rewrite Eq. }
  destruct (request_table P s1 (queue s1 n) head l) as (pa & max & i & ds & -> & Hc & Hlen);
    [apply Hs1|by rewrite Eq|done|].
  change (Done ?x ≫= ?f) with (f x). cbv beta iota.
  rewrite (collect_chain P s1 pa max i ds l); [|done|
    change (in_num (mkElem 0 [] [] [] [])) with 0; change (out_num (mkElem 0 [] [] [] [])) with 0; lia..|].
  2: { pose proof (length_writes_reads l). unfold collect_fuel, VIRTQUEUE_MAX_SIZE in *. lia. }
  change (Done ?x ≫= ?f) with (f x). cbv beta. cbn [add_bufs in_sg out_sg in_addr out_addr app].
  assert (Hb2 : Forall (buf_ok m1) l).
  { eapply Forall_impl; [exact Hbufs|]. intros b [H1 H2]. split; [done|]. by rewrite (in_ram_same (mem s)). }
  assert (Hmap : forall l' w, Z.of_nat (length l') <= VIRTQUEUE_MAX_SIZE -> Forall (buf_ok m1) l' ->
    virtqueue_map_sg m1 (raw_iov <$> l') (b_addr <$> l') w = Done (ram_iov <$> l', m1)).
  { intros l' w Hl' Hok. unfold virtqueue_map_sg. rewrite length_fmap.
    rewrite Z.gtb_ltb, (proj2 (Z.ltb_ge _ _)) by done. by apply map_sg_ram. }
  change (mem s1) with m1. rewrite (Hmap (writes l)) by (done || by apply Forall_kinds).
  change (Done ?x ≫= ?f) with (f x). cbv beta iota.
  rewrite (Hmap (reads l)) by (done || by apply Forall_kinds).
  change (Done ?x ≫= ?f) with (f x). cbv beta iota.
  rewrite mod_vq_in by done. subst s1. change (set_mem (set_mem ?x ?y) m1) with (set_mem x m1).
  rewrite upd_queue_twice by done. reflexivity.
Qed.
End pop.

(** ** The used ring *)

(** The bytes the device writes: flags, index, entries and the event index. *)
Definition used_region (q : VirtQueue) (x : Z) : Prop :=
  used (vring q) <= x < used (vring q) + 6 + 8 * num (vring q).

(** The used ring lies in RAM. *)
Definition used_ok (m : AddressSpace) (q : VirtQueue) : Prop :=
  mem_ok m /\ 0 < num (vring q) /\ in_ram m (used (vring q)) (6 + 8 * num (vring q)) = true.

(** Entry [j]: the head of the request and the length written. *)
Definition used_entry (m : AddressSpace) (be : bool) (q : VirtQueue) (j : Z) : Z * Z :=
  (virtio_ldl_phys m be (used (vring q) + 4 + 8 * j), virtio_ldl_phys m be (used (vring q) + 4 + 8 * j + 4)).

Lemma used_small m q a :
  used_ok m q -> used (vring q) <= a < used (vring q) + 6 + 8 * num (vring q) -> u64 a = a.
Proof.
  intros ([_ Hb _ He _] & _ & [Hin1 Hin2]%in_ram_spec) Ha. apply wrap_small.
  split; lia.
Qed.

Lemma used_in_ram m q a n :
  used_ok m q -> used (vring q) <= a -> a + n <= used (vring q) + 6 + 8 * num (vring q) -> in_ram m a n = true.
Proof. intros (_ & _ & [? ?]%in_ram_spec) ? ?. apply in_ram_spec. lia. Qed.

(** Loads and stores of fields of the used ring. *)
Section used_fields.
Context (m : AddressSpace) (be : bool) (q : VirtQueue) (Hu : used_ok m q).
#[local] Abbreviation lo := (used (vring q)).
#[local] Abbreviation hi := (used (vring q) + 6 + 8 * num (vring q)).

Lemma store_same a n v :
  lo <= a -> a + Z.of_nat n <= hi -> (0 < n)%nat -> 0 <= v < 256 ^ Z.of_nat n ->
  of_bytes be (phys_load (phys_store m (u64 a) (to_bytes be n v)) (u64 a) n) = v.
Proof.
  intros Ha Hn Hpos Hv. rewrite (used_small m q a Hu) by lia.
  pose proof (load_store_same m a (to_bytes be n v)) as E. rewrite length_to_bytes in E.
  rewrite E; [|by apply (used_in_ram m q)]. rewrite of_to_bytes. by apply Z.mod_small.
Qed.

Lemma store_other a n v b k :
  lo <= a -> a + Z.of_nat n <= hi -> (0 < n)%nat -> lo <= b -> b + Z.of_nat k <= hi -> (0 < k)%nat ->
  b + Z.of_nat k <= a \/ a + Z.of_nat n <= b ->
  phys_load (phys_store m (u64 a) (to_bytes be n v)) (u64 b) k = phys_load m (u64 b) k.
Proof.
  intros Ha Hn Hp Hb Hk Hp' Hd. rewrite (used_small m q a Hu), (used_small m q b Hu) by lia.
  apply load_store_other. by rewrite length_to_bytes.
Qed.

Lemma used_ok_store a n v : used_ok (phys_store m a (to_bytes be n v)) q.
Proof.
  destruct Hu as (H1 & H2 & H3). split; [apply mem_ok_store; [done|apply to_bytes_ok]|].
  split; [done|]. by rewrite (in_ram_same m) by apply same_space_store.
Qed.

Lemma agree_used_store a n v :
  lo <= a -> a + Z.of_nat n <= hi -> (0 < n)%nat ->
  agree (fun x => ~ used_region q x) m (phys_store m (u64 a) (to_bytes be n v)).
Proof.
  intros Ha Hn Hp. rewrite (used_small m q a Hu) by lia. apply agree_store.
  rewrite length_to_bytes. intros x Hx Hnot. apply Hnot. unfold used_region. lia.
Qed.
End used_fields.

Ltac used_tac := (assumption || lia || (cbn; lia)).

(** [virtqueue_push] adds the request to the used ring and changes nothing else
    of the memory. *)
Lemma push_mem_used m be q idx len :
  used_ok m q -> in_range 32 idx -> in_range 32 len ->
  let m' := push_mem m be q idx len in
  let j := vring_used_idx m be q mod num (vring q) in
  used_ok m' q /\ vring_used_idx m' be q = u16 (vring_used_idx m be q + 1) /\
  vring_used_idx (fill_mem m be q idx len) be q = vring_used_idx m be q /\
  used_entry m' be q j = (idx, len) /\
  (forall i, 0 <= i < num (vring q) -> i <> j -> used_entry m' be q i = used_entry m be q i) /\
  agree (fun x => ~ used_region q x) m m'.
Proof.
  intros Hu Hidx Hlen m' j. pose proof (proj1 (proj2 Hu)) as Hnum.
  assert (Hj : 0 <= j < num (vring q)) by (apply Z.mod_pos_bound; lia).
  set (m1 := vring_used_ring_id m be q j idx).
  set (m2 := vring_used_ring_len m1 be q j len).
  change (fill_mem m be q idx len) with m2.
  assert (Hu1 : used_ok m1 q) by by apply used_ok_store.
  assert (Hu2 : used_ok m2 q) by by apply used_ok_store.
  assert (Eidx : vring_used_idx m2 be q = vring_used_idx m be q).
  { unfold vring_used_idx, virtio_lduw_phys, m2, vring_used_ring_len, virtio_stl_phys.
    rewrite (store_other m1 be q Hu1) by used_tac. unfold m1, vring_used_ring_id, virtio_stl_phys.
    by rewrite (store_other m be q Hu) by used_tac. }
  change m' with (vring_used_idx_set m2 be q (u16 (vring_used_idx m2 be q + 1))). clear m'.
  rewrite Eidx. split; [by apply used_ok_store|].
  assert (Hold : in_range 16 (u16 (vring_used_idx m be q + 1))) by (apply wrap_range; lia).
  split.
  { unfold vring_used_idx at 1, vring_used_idx_set, virtio_lduw_phys, virtio_stw_phys.
    rewrite wrap_wrap by lia. apply (store_same m2 be q Hu2); [lia|cbn; lia|lia|exact Hold]. }
  split; [done|].
  assert (Eent : forall i, 0 <= i < num (vring q) ->
    used_entry (vring_used_idx_set m2 be q (u16 (vring_used_idx m be q + 1))) be q i = used_entry m2 be q i).
  { intros i Hi. unfold used_entry, virtio_ldl_phys, vring_used_idx_set, virtio_stw_phys.
    f_equal; by rewrite (store_other m2 be q Hu2) by used_tac. }
  split; [|split].
  - rewrite Eent by done. unfold used_entry. f_equal; unfold virtio_ldl_phys, m2, vring_used_ring_len, virtio_stl_phys.
    + rewrite (store_other m1 be q Hu1) by used_tac. unfold m1, vring_used_ring_id, virtio_stl_phys.
      rewrite (wrap_small 32 idx) by done. apply (store_same m be q Hu); [lia|cbn; lia|lia|exact Hidx].
    + rewrite (wrap_small 32 len) by done. apply (store_same m1 be q Hu1); [lia|cbn; lia|lia|exact Hlen].
  - intros i Hi Hne. rewrite Eent by done. unfold used_entry.
    f_equal; unfold virtio_ldl_phys, m2, vring_used_ring_len, virtio_stl_phys;
      rewrite (store_other m1 be q Hu1) by used_tac; unfold m1, vring_used_ring_id, virtio_stl_phys;
      by rewrite (store_other m be q Hu) by used_tac.
  - eapply agree_trans; [|eapply agree_trans].
    + apply (agree_used_store m be q Hu (used (vring q) + 4 + 8 * j) 4 (u32 idx)); used_tac.
    + apply (agree_used_store m1 be q Hu1 (used (vring q) + 4 + 8 * j + 4) 4 (u32 len)); used_tac.
    + apply (agree_used_store m2 be q Hu2 (used (vring q) + 2) 2); used_tac.
Qed.

(** ** Event indices *)

Lemma u16_add a b : u16 (u16 a + b) = u16 (a + b).
Proof. unfold wrap. by rewrite Zplus_mod_idemp_l. Qed.

(** [vring_need_event] tells whether the index the other side waits for is among
    those passed since [old]. *)
Lemma vring_need_event_spec e new old :
  in_range 16 e ->
  vring_need_event e new old = true <-> exists k, 0 <= k < u16 (new - old) /\ e = u16 (old + k).
Proof.
  intros He. unfold vring_need_event. rewrite Z.ltb_lt. unfold in_range in He. change (2 ^ 16) with 65536 in He.
  assert (Hw : forall a, exists t, u16 a = a + 65536 * t /\ 0 <= u16 a < 65536).
  { intros a. exists (- (a / 65536)). unfold wrap. change (2 ^ 16) with 65536.
    pose proof (Z.div_mod a 65536). pose proof (Z.mod_pos_bound a 65536). lia. }
  split.
  - intros Hlt. exists (u16 (e - old)).
    destruct (Hw (new - e - 1)) as (t1 & E1 & B1), (Hw (new - old)) as (t2 & E2 & B2),
      (Hw (e - old)) as (t3 & E3 & B3), (Hw (old + u16 (e - old))) as (t4 & E4 & B4).
    rewrite E1 in *. rewrite E2 in *. rewrite E3 in *. lia.
  - intros (k & Hk & ->).
    destruct (Hw (new - u16 (old + k) - 1)) as (t1 & E1 & B1), (Hw (new - old)) as (t2 & E2 & B2),
      (Hw (old + k)) as (t3 & E3 & B3).
    rewrite E1 in *. rewrite E2 in *. rewrite E3 in *. lia.
Qed.

(** The notifications of a queue are exact as long as less than 2^15 entries were
    added since the last one. *)
Lemma push_queue_valid u k q :
  0 <= k -> signalled_used q = u -> signalled_used_valid q = (k <? 32768) ->
  signalled_used_valid (push_queue (u16 (u + k)) q) = (k + 1 <? 32768).
Proof.
  intros Hk Hsig Hval. unfold push_queue. cbv zeta. cbn [signalled_used]. rewrite Hsig.
  assert (E1 : u16 (u16 (u16 (u + k) + 1) - u16 (u + k)) = 1).
  { unfold wrap. rewrite Zminus_mod_idemp_l, Zminus_mod_idemp_r.
    rewrite Zminus_mod, Zplus_mod_idemp_l, <- Zminus_mod. by replace (_ - _) with 1 by lia. }
  assert (E2 : signed 16 (u16 (u16 (u + k) + 1) - u) = signed 16 (k + 1)).
  { assert (E : u16 (u16 (u16 (u + k) + 1) - u) = u16 (k + 1)).
    { unfold wrap. rewrite Zminus_mod_idemp_l, Zminus_mod, Zplus_mod_idemp_l, <- Zminus_mod. f_equal. lia. }
    unfold signed. by rewrite E. }
  rewrite E1, E2. unfold signed. destruct (decide (k + 1 < 65536)).
  - rewrite (wrap_small 16 (k + 1)) by (split; lia). change (2 ^ (16 - 1)) with 32768. change (2 ^ 16) with 65536.
    destruct (k + 1 <? 32768) eqn:E3; zb.
    + rewrite (proj2 (Z.ltb_ge _ _)) by lia. cbn. rewrite Hval. lia.
    + by rewrite (proj2 (Z.ltb_lt _ _)) by lia.
  - replace (k + 1 <? 32768) with false by lia. replace (k <? 32768) with false in Hval by lia.
    destruct (_ <? 1); [done|]. cbn. by rewrite Hval.
Qed.

Section events.
Context {B : Type} (n : Z).
Implicit Types s : vstate B.

(** A device that returns several requests and then notifies once. *)
Fixpoint push_all s (es : list (VirtQueueElement * Z)) : outcome (vstate B) :=
  match es with
  | [] => Done s
  | (e, len) :: es' => s ← virtqueue_push s n e len; push_all s es'
  end.

(** A request whose buffers are in RAM. *)
Definition ram_elem (m : AddressSpace) (e : VirtQueueElement) : Prop :=
  elem_ok m VIRTQUEUE_MAX_SIZE e /\ bounces (in_sg e ++ out_sg e) = 0%nat.

Lemma ram_elem_same m m' e : same_space m m' -> bounce m' = None -> ram_elem m e -> ram_elem m' e.
Proof.
  intros Hs Hb [[H1 H2 H3 H4 H5] H0]. split; [|done]. split; try done.
  - apply bounces_0 in H0. rewrite Forall_forall in *. intros v Hv. eapply iov_mapped_ram; eauto.
  - unfold bounce_owned. by rewrite Hb.
Qed.

(** The state after [k] pushes since the last notification, in the state [s0]. *)
Record pushed s0 s (k : Z) : Prop := {
  pu_ok : rings_ok s;
  pu_used : used_ok (mem s) (queue s0 n);
  pu_bounce : bounce (mem s) = None;
  pu_agree : agree (fun x => ~ used_region (queue s0 n) x) (mem s0) (mem s);
  pu_vring : vring (queue s n) = vring (queue s0 n);
  pu_signalled : signalled_used (queue s n) = signalled_used (queue s0 n);
  pu_valid : signalled_used_valid (queue s n) = (k <? 32768);
  pu_idx : vring_used_idx (mem s) (big s0) (queue s0 n) = u16 (vring_used_idx (mem s0) (big s0) (queue s0 n) + k);
  pu_features : guest_features (vdev s) = guest_features (vdev s0) /\ device_endian (vdev s) = device_endian (vdev s0)
}.

Lemma used_ok_ring m q q' : vring q = vring q' -> used_ok m q -> used_ok m q'.
Proof. unfold used_ok. by intros ->. Qed.

Lemma pushed_big s0 s k : pushed s0 s k -> big s = big s0.
Proof.
  intros [_ _ _ _ _ _ _ _ [H1 H2]]. unfold big, virtio_access_is_big_endian, virtio_has_feature.
  by rewrite H1, H2.
Qed.

Lemma pushed_step s0 s k e len :
  0 <= n < VIRTIO_QUEUE_MAX -> 0 <= k -> pushed s0 s k -> ram_elem (mem s0) e ->
  signalled_used (queue s0 n) = vring_used_idx (mem s0) (big s0) (queue s0 n) ->
  exists s', virtqueue_push s n e len = Done s' /\ pushed s0 s' (k + 1).
Proof.
  intros Hn Hk Hp He Hsig. pose proof (pushed_big _ _ _ Hp) as Hbig.
  destruct Hp as [Hs Hu Hb Hag Hvr Hsg Hval Hidx Hft].
  assert (Hnum : num (vring (queue s n)) <> 0) by (rewrite Hvr; destruct Hu as (_ & ? & _); lia).
  destruct (ram_elem_same _ (mem s) e (ag_space _ _ _ Hag) Hb He) as [He1 _].
  destruct (virtqueue_push_spec s n _ e len Hs Hn Hnum He1) as (m & Hm & Hsp & Hbm & Hmm & ->).
  rewrite (Hmm Hb) in *. clear m Hmm Hbm Hsp.
  eexists. split; [reflexivity|].
  assert (Hin : in_range 32 (elem_index e)).
  { destruct He as [[[? ?] _ _ _ _] _]. unfold VIRTQUEUE_MAX_SIZE in *. split; lia. }
  assert (Eq : forall m, push_mem m (big s) (queue s n) (elem_index e) (u32 len)
                         = push_mem m (big s0) (queue s0 n) (elem_index e) (u32 len)).
  { intros m. unfold push_mem, fill_mem, vring_used_ring_len, vring_used_ring_id, vring_used_idx, vring_used_idx_set.
    by rewrite Hvr, Hbig. }
  assert (Ef : vring_used_idx (fill_mem (mem s) (big s) (queue s n) (elem_index e) (u32 len)) (big s) (queue s n)
    = vring_used_idx (mem s) (big s0) (queue s0 n)).
  { destruct (push_mem_used (mem s) (big s) (queue s n) (elem_index e) (u32 len))
      as (_ & _ & E & _); [by eapply used_ok_ring|done|apply wrap_range; lia|].
    rewrite E. unfold vring_used_idx. by rewrite Hvr, Hbig. }
  rewrite Eq, Ef.
  destruct (push_mem_used (mem s) (big s0) (queue s0 n) (elem_index e) (u32 len))
    as (G1 & G2 & _ & _ & _ & G6); [done|done|apply wrap_range; lia|].
  destruct (same_space_push (mem s) (big s0) (queue s0 n) (elem_index e) (u32 len)) as [G7 G8].
  set (old := vring_used_idx (mem s) (big s0) (queue s0 n)) in *.
  assert (Eqn : queue (set_mem (upd_queue s n (push_queue old)) (push_mem (mem s) (big s0) (queue s0 n) (elem_index e) (u32 len))) n
                = push_queue old (queue s n)) by (apply (queue_upd s n); done).
  split.
  - apply rings_ok_set; [done|by apply push_queue_ok, queue_ok_at|]. by apply mem_ok_push, Hs.
  - done.
  - etransitivity; [exact G8|done].
  - by eapply agree_trans.
  - rewrite Eqn. by rewrite (proj1 (push_queue_fields _ _)).
  - rewrite Eqn. by rewrite (proj1 (proj2 (push_queue_fields _ _))).
  - rewrite Eqn. rewrite Hidx. apply push_queue_valid; [done|by rewrite Hsg|exact Hval].
  - cbn. rewrite G2. fold old. rewrite Hidx, u16_add. f_equal. lia.
  - done.
Qed.

Lemma push_all_pushed s0 s k es :
  0 <= n < VIRTIO_QUEUE_MAX -> 0 <= k -> pushed s0 s k -> Forall (fun x => ram_elem (mem s0) x.1) es ->
  signalled_used (queue s0 n) = vring_used_idx (mem s0) (big s0) (queue s0 n) ->
  exists s', push_all s es = Done s' /\ pushed s0 s' (k + Z.of_nat (length es)).
Proof.
  intros Hn Hk Hp Hes Hsig. revert s k Hk Hp. induction Hes as [|[e len] es He _ IH]; intros s k Hk Hp.
  - exists s. split; [done|]. cbn. by rewrite Z.add_0_r.
  - cbn [push_all]. destruct (pushed_step s0 s k e len Hn Hk Hp He Hsig) as (s1 & -> & Hp1).
    cbn [mbind outcome_bind]. destruct (IH s1 (k + 1)) as (s' & -> & Hp'); [lia|done|].
    exists s'. split; [done|]. replace (k + Z.of_nat (length ((e, len) :: es)))
      with (k + 1 + Z.of_nat (length es)) by (cbn [length]; lia). done.
Qed.

(** What holds right after a notification. *)
Lemma pushed_refl s :
  rings_ok s -> used_ok (mem s) (queue s n) -> bounce (mem s) = None ->
  signalled_used_valid (queue s n) = true -> pushed s s 0.
Proof.
  intros Hs Hu Hb Hv. split; try done. rewrite Z.add_0_r. symmetry. apply wrap_small, lduw_range, Hs.
Qed.

(** C25: with event indices, a device that returns any number of requests and
    then notifies once interrupts exactly if the guest asked for one of the
    entries added since the last notification, or if there were too many
    (32768 or more) to tell, wrap-around of the 16-bit indices included; and it
    then remembers the index it signalled. *)
Theorem vring_notify_exact s es :
  rings_ok s -> 0 <= n < VIRTIO_QUEUE_MAX -> used_ok (mem s) (queue s n) -> bounce (mem s) = None ->
  virtio_has_feature (vdev s) VIRTIO_RING_F_EVENT_IDX = true ->
  virtio_has_feature (vdev s) VIRTIO_F_NOTIFY_ON_EMPTY = false ->
  footprint (fun x => ~ used_region (queue s n) x) (avail (vring (queue s n)) + 4 + 2 * num (vring (queue s n))) 2 ->
  signalled_used_valid (queue s n) = true ->
  signalled_used (queue s n) = vring_used_idx (mem s) (big s) (queue s n) ->
  Forall (fun x => ram_elem (mem s) x.1) es ->
  exists s1 s2 yes, push_all s es = Done s1 /\ vring_notify s1 n = Done (yes, s2) /\
    (yes = true <-> 32768 <= Z.of_nat (length es) \/
       exists k, 0 <= k < Z.of_nat (length es) /\
         vring_get_used_event (mem s) (big s) (queue s n) = u16 (vring_used_idx (mem s) (big s) (queue s n) + k)) /\
    signalled_used_valid (queue s2 n) = true /\
    signalled_used (queue s2 n) = vring_used_idx (mem s2) (big s2) (queue s2 n).
Proof.
  intros Hs Hn Hu Hb Hev Hne Hfoot Hval Hsig Hes.
  destruct (push_all_pushed s s 0 es Hn) as (s1 & E1 & Hp); [lia|by apply pushed_refl|done|done|].
  rewrite Z.add_0_l in Hp. set (k := Z.of_nat (length es)) in *. exists s1.
  pose proof (pushed_big _ _ _ Hp) as Hbig. destruct Hp as [Hs1 Hu1 Hb1 Hag Hvr Hsg Hv1 Hidx [Hf1 Hf2]].
  unfold vring_notify. rewrite get_vq_in by done. change (Done ?x ≫= ?f) with (f x). cbv beta.
  unfold virtio_has_feature in *. rewrite Hf1, Hne, Hev. cbn [andb negb].
  rewrite mod_vq_in by done. eexists _, _. split; [exact E1|]. split; [reflexivity|].
  assert (Ei : vring_used_idx (mem s1) (big s1) (queue s1 n) = u16 (vring_used_idx (mem s) (big s) (queue s n) + k)).
  { rewrite <- Hidx, Hbig. unfold vring_used_idx. by rewrite Hvr. }
  assert (Ee : forall d, vring_get_used_event (mem (upd_queue s1 n d)) (big (upd_queue s1 n d)) (queue s1 n)
               = vring_get_used_event (mem s) (big s) (queue s n)).
  { intros d. change (big (upd_queue s1 n d)) with (big s1). change (mem (upd_queue s1 n d)) with (mem s1).
    rewrite Hbig. unfold vring_get_used_event, vring_avail_ring, virtio_lduw_phys. rewrite Hvr.
    f_equal. by eapply load_agree. }
  split; [|split].
  - rewrite Ee, Hv1, Ei, Hsg, Hsig. rewrite orb_true_iff, negb_true_iff, Z.ltb_ge.
    rewrite vring_need_event_spec by (apply lduw_range, Hs).
    assert (Hd : k < 32768 -> u16 (u16 (vring_used_idx (mem s) (big s) (queue s n) + k)
                    - vring_used_idx (mem s) (big s) (queue s n)) = k).
    { intros Hlt. unfold wrap. rewrite Zminus_mod_idemp_l. replace (_ + k - _) with k by lia.
      apply Z.mod_small. change (2 ^ 16) with 65536. unfold k in *. lia. }
    destruct (decide (k < 32768)) as [Hlt|Hge].
    + rewrite (Hd Hlt). done.
    + split; intros; left; lia.
  - by rewrite queue_upd by done.
  - rewrite queue_upd by done. reflexivity.
Qed.
End events.

(** ** Returning a request *)

Section complete.
Context {B : Type}.
Implicit Types s : vstate B.

(** The device pushed a request and notified the guest. *)
Record completed s (n idx len : Z) s' : Prop := {
  cp_ok : rings_ok s';
  cp_bounce : bounce (mem s') = None;
  cp_used : used_ok (mem s') (queue s n);
  cp_idx : vring_used_idx (mem s') (big s) (queue s n) = u16 (vring_used_idx (mem s) (big s) (queue s n) + 1);
  cp_entry : used_entry (mem s') (big s) (queue s n)
               (vring_used_idx (mem s) (big s) (queue s n) mod num (vring (queue s n))) = (idx, u32 len);
  cp_others : forall i, 0 <= i < num (vring (queue s n)) ->
    i <> vring_used_idx (mem s) (big s) (queue s n) mod num (vring (queue s n)) ->
    used_entry (mem s') (big s) (queue s n) i = used_entry (mem s) (big s) (queue s n) i;
  cp_agree : agree (fun x => ~ used_region (queue s n) x) (mem s) (mem s');
  cp_queue : vring (queue s' n) = vring (queue s n) /\ last_avail_idx (queue s' n) = last_avail_idx (queue s n) /\
             notification (queue s' n) = notification (queue s n);
  cp_backend : backend s' = backend s;
  cp_dev : guest_features (vdev s') = guest_features (vdev s) /\ device_endian (vdev s') = device_endian (vdev s);
  cp_irq : virtio_has_feature (vdev s) VIRTIO_RING_F_EVENT_IDX = false ->
    footprint (fun x => ~ used_region (queue s n) x) (avail (vring (queue s n))) 2 ->
    flag_set (vring_avail_flags (mem s) (big s) (queue s n)) VRING_AVAIL_F_NO_INTERRUPT = false ->
    irq (proxy s') = true /\ isr (vdev s') <> 0
}.

Lemma or_isr_ne d : u8 (Z.lor d 1) <> 0.
Proof.
  intros E. apply (f_equal (fun z => Z.testbit z 0)) in E.
  rewrite testbit_u8, Z.lor_spec in E by lia. cbn in E. by rewrite orb_true_r in E.
Qed.

Lemma push_notify s n max e len :
  rings_ok s -> 0 <= n < VIRTIO_QUEUE_MAX -> used_ok (mem s) (queue s n) -> bounce (mem s) = None ->
  elem_ok (mem s) max e -> max <= VIRTQUEUE_MAX_SIZE ->
  exists s', (s1 ← virtqueue_push s n e len; virtio_notify s1 n) = Done s' /\ completed s n (elem_index e) len s'.
Proof.
  intros Hs Hn Hu Hb He Hmax.
  assert (Hnum : num (vring (queue s n)) <> 0) by (destruct Hu as (_ & ? & _); lia).
  destruct (virtqueue_push_spec s n max e len Hs Hn Hnum He) as (m & Hm & _ & _ & Hmm & ->).
  rewrite (Hmm Hb) in *. clear m Hmm. cbn [mbind outcome_bind].
  assert (Hidx : in_range 32 (elem_index e)).
  { destruct He as [[? ?] _ _ _ _]. unfold VIRTQUEUE_MAX_SIZE in *. split; lia. }
  assert (Hlen : in_range 32 (u32 len)) by (apply wrap_range; lia).
  destruct (push_mem_used (mem s) (big s) (queue s n) (elem_index e) (u32 len) Hu Hidx Hlen)
    as (G1 & G2 & G3 & G4 & G5 & G6).
  destruct (same_space_push (mem s) (big s) (queue s n) (elem_index e) (u32 len)) as [_ G7].
  rewrite G3. set (old := vring_used_idx (mem s) (big s) (queue s n)) in *.
  set (m' := push_mem _ _ _ _ _) in *. set (s1 := set_mem (upd_queue s n (push_queue old)) m').
  assert (Hs1 : rings_ok s1).
  { apply rings_ok_set; [done|by apply push_queue_ok, queue_ok_at|apply G1]. }
  assert (Eq1 : queue s1 n = push_queue old (queue s n)) by (apply (queue_upd s n); done).
  destruct (push_queue_fields old (queue s n)) as (P1 & P2 & P3 & P4 & P5 & P6).
  destruct (virtio_notify_spec s1 n Hs1 Hn) as (yes & f & -> & Hf & Hyes).
  assert (Hs2 : rings_ok (upd_queue s1 n f)).
  { apply rings_ok_upd; [done|]. apply Hf. rewrite Eq1. by apply push_queue_ok, queue_ok_at. }
  assert (Eq2 : queue (upd_queue s1 n f) n = f (queue s1 n)) by (apply queue_upd; done).
  destruct (Hf (queue s1 n)) as (F1 & F2 & F3 & _).
  set (s' := if yes then _ else _). exists s'. split; [reflexivity|].
  assert (Em : mem s' = m') by (unfold s'; by destruct yes).
  assert (Eq : queue s' n = f (queue s1 n)) by (unfold s'; destruct yes; exact Eq2).
  split; rewrite ?Em, ?Eq; try done.
  - unfold s'. destruct yes; [|done]. destruct Hs2 as [A1 A2]. by split.
  - by rewrite G7.
  - rewrite F1, F2, F3, Eq1, P1, P3, P4. done.
  - unfold s'. by destruct yes.
  - unfold s'. by destruct yes.
  - intros Hev Hfoot Hfl. assert (Hy : yes = true).
    { apply Hyes; [exact Hev|]. rewrite <- Hfl. f_equal. change (big s1) with (big s). change (mem s1) with m'.
      unfold vring_avail_flags, virtio_lduw_phys. rewrite Eq1, P1. f_equal. by eapply load_agree. }
    unfold s'. rewrite Hy. split; [|apply or_isr_ne]. apply negb_true_iff, Z.eqb_neq, or_isr_ne.
Qed.
End complete.

(** A request whose buffers are in RAM can be held and returned. *)
Lemma elem_of_ok m max head l :
  0 <= head < max -> bufs_fit l -> Forall (buf_ok m) l -> bounce m = None -> elem_ok m max (elem_of head l).
Proof.
  intros Hh [Hw Hr] Hl Hb. destruct (Forall_kinds _ l Hl) as [Hlw Hlr].
  assert (Hmap : forall l', Forall (buf_ok m) l' -> Forall (iov_mapped m) (ram_iov <$> l') /\ bounces (ram_iov <$> l') = 0%nat).
  { clear. induction 1 as [|b l' [H1 H2] _ [IH1 IH2]]; [done|]. rewrite fmap_cons. split; [by constructor|].
    by rewrite bounces_cons, IH2. }
  split; cbn [elem_index elem_of in_sg out_sg]; unfold in_num, out_num; cbn [elem_of in_sg out_sg];
    rewrite ?length_fmap; try done.
  - apply Forall_app. split; by apply Hmap.
  - unfold bounce_owned. by rewrite Hb, bounces_app, (proj2 (Hmap _ Hlw)), (proj2 (Hmap _ Hlr)).
Qed.

Section taking.
Context {B : Type} (s : vstate B) (n : Z) (Hs : rings_ok s) (Hn : 0 <= n < VIRTIO_QUEUE_MAX).
Context (Hu : used_ok (mem s) (queue s n)).

(** Taking a request writes at most the event index at the end of the used ring. *)
Lemma take_head_used :
  agree (fun x => ~ used_region (queue s n) x) (mem s) (mem (take_head s n)) /\
  used_ok (mem (take_head s n)) (queue s n) /\
  vring_used_idx (mem (take_head s n)) (big s) (queue s n) = vring_used_idx (mem s) (big s) (queue s n) /\
  (forall i, 0 <= i < num (vring (queue s n)) ->
     used_entry (mem (take_head s n)) (big s) (queue s n) i = used_entry (mem s) (big s) (queue s n) i).
Proof.
  pose proof (proj1 (proj2 Hu)) as Hnum. unfold take_head. cbv zeta.
  set (f := fun q : VirtQueue => _). set (s1 := upd_queue s n f).
  assert (Hid : agree (fun x => ~ used_region (queue s n) x) (mem s) (mem s)) by apply agree_refl.
  destruct (virtio_has_feature (vdev s1) _); [|by refine (conj Hid (conj Hu (conj eq_refl _)))].
  cbn [mem set_mem]. unfold vring_set_avail_event. destruct (negb _); [by refine (conj Hid (conj Hu (conj eq_refl _)))|].
  assert (Eq : vring (queue s1 n) = vring (queue s n)) by (unfold s1; by rewrite queue_upd).
  rewrite Eq. change (mem s1) with (mem s). change (big s1) with (big s). unfold virtio_stw_phys.
  set (a := used (vring (queue s n)) + 4 + 8 * num (vring (queue s n))). unfold a.
  split; [apply (agree_used_store (mem s) (big s) (queue s n) Hu); used_tac|].
  split; [by apply used_ok_store|]. split.
  - unfold vring_used_idx, virtio_lduw_phys. by rewrite (store_other (mem s) (big s) (queue s n) Hu) by used_tac.
  - intros i Hi. unfold used_entry, virtio_ldl_phys.
    f_equal; by rewrite (store_other (mem s) (big s) (queue s n) Hu) by used_tac.
Qed.
End taking.

(** ** A request from the queue and back *)

(** The device took the request at [head] from queue [n], changed only the bytes
    [R] of the guest's memory besides the used ring, and returned it with [len]. *)
Record exchanged {B} (s : vstate B) (n head len : Z) (R : Z -> Prop) (s' : vstate B) : Prop := {
  ex_ok : rings_ok s' /\ bounce (mem s') = None /\ used_ok (mem s') (queue s n);
  ex_idx : vring_used_idx (mem s') (big s) (queue s n) = u16 (vring_used_idx (mem s) (big s) (queue s n) + 1);
  ex_entry : used_entry (mem s') (big s) (queue s n)
               (vring_used_idx (mem s) (big s) (queue s n) mod num (vring (queue s n))) = (head, u32 len);
  ex_others : forall i, 0 <= i < num (vring (queue s n)) ->
    i <> vring_used_idx (mem s) (big s) (queue s n) mod num (vring (queue s n)) ->
    used_entry (mem s') (big s) (queue s n) i = used_entry (mem s) (big s) (queue s n) i;
  ex_agree : agree (fun x => ~ used_region (queue s n) x /\ ~ R x) (mem s) (mem s');
  ex_queue : vring (queue s' n) = vring (queue s n) /\ last_avail_idx (queue s' n) = u16 (last_avail_idx (queue s n) + 1);
  ex_dev : guest_features (vdev s') = guest_features (vdev s) /\ device_endian (vdev s') = device_endian (vdev s);
  ex_irq : virtio_has_feature (vdev s) VIRTIO_RING_F_EVENT_IDX = false ->
    footprint (fun x => ~ used_region (queue s n) x /\ ~ R x) (avail (vring (queue s n))) 2 ->
    flag_set (vring_avail_flags (mem s) (big s) (queue s n)) VRING_AVAIL_F_NO_INTERRUPT = false ->
    irq (proxy s') = true /\ isr (vdev s') <> 0
}.
Arguments ex_ok {B s n head len R s'} _.
Arguments ex_idx {B s n head len R s'} _.
Arguments ex_entry {B s n head len R s'} _.
Arguments ex_others {B s n head len R s'} _.
Arguments ex_agree {B s n head len R s'} _.
Arguments ex_queue {B s n head len R s'} _.
Arguments ex_dev {B s n head len R s'} _.
Arguments ex_irq {B s n head len R s'} _.

(** Putting the steps together: the request is taken ([mt]), the device writes
    into its buffers ([s2]), and it is returned ([s3]). *)
Lemma exchange_intro {B} (s s2 s3 : vstate B) n head len R mt :
  let q := queue s n in
  rings_ok s -> 0 <= n < VIRTIO_QUEUE_MAX -> vdev s2 = vdev (upd_queue s n pop_queue) ->
  (forall x, R x -> ~ used_region q x) ->
  agree (fun x => ~ used_region q x) (mem s) mt -> agree (fun x => ~ R x) mt (mem s2) ->
  vring_used_idx mt (big s) q = vring_used_idx (mem s) (big s) q ->
  (forall i, 0 <= i < num (vring q) -> used_entry mt (big s) q i = used_entry (mem s) (big s) q i) ->
  used_ok mt q -> completed s2 n head len s3 -> exchanged s n head len R s3.
Proof.
  intros q Hs Hn Ed Hap T1 A2 T3 T4 Hu [C1 C2 C3 C4 C5 C6 C7 [C8 [C8' C8'']] C9 C10 C11].
  assert (Eq2 : queue s2 n = pop_queue q).
  { etransitivity; [|exact (queue_upd s n pop_queue Hs Hn)]. unfold queue. by rewrite Ed. }
  assert (Hvr : vring (queue s2 n) = vring q) by by rewrite Eq2.
  assert (Hbig : big s2 = big s) by (unfold big; by rewrite Ed). rewrite Hbig in *.
  assert (Hused : forall x, used_region (queue s2 n) x <-> used_region q x) by (intros; unfold used_region; by rewrite Hvr).
  assert (Hfld : forall b k, used (vring q) <= b -> b + Z.of_nat k <= used (vring q) + 6 + 8 * num (vring q) -> (0 < k)%nat ->
    phys_load (mem s2) (u64 b) k = phys_load mt (u64 b) k).
  { intros b k' Hb1 Hb2 Hk. eapply load_agree; [exact A2|].
    pose proof (used_in_ram mt q b (Z.of_nat k') Hu Hb1 Hb2) as Hr. apply in_ram_spec in Hr.
    destruct Hu as ([_ ? _ ? _] & _ & _). split; [lia|]. split; [lia|].
    intros x Hx Hin. apply (Hap x Hin). unfold used_region. lia. }
  pose proof (proj1 (proj2 Hu)) as Hnum.
  assert (Eidx : vring_used_idx (mem s2) (big s) (queue s2 n) = vring_used_idx (mem s) (big s) q).
  { rewrite <- T3. unfold vring_used_idx, virtio_lduw_phys. rewrite Hvr. f_equal. apply Hfld; used_tac. }
  assert (Eent : forall i, 0 <= i < num (vring q) -> used_entry (mem s2) (big s) (queue s2 n) i = used_entry (mem s) (big s) q i).
  { intros i Hi. rewrite <- T4 by done. unfold used_entry, virtio_ldl_phys. rewrite Hvr.
    f_equal; f_equal; apply Hfld; used_tac. }
  assert (Eq3 : forall m i, used_entry m (big s) (queue s2 n) i = used_entry m (big s) q i)
    by (intros; unfold used_entry; by rewrite Hvr).
  assert (Ag : agree (fun x => ~ used_region q x /\ ~ R x) (mem s) (mem s2)).
  { eapply agree_trans; [eapply agree_mono; [|exact T1]|eapply agree_mono; [|exact A2]]; by intros x []. }
  split; fold q.
  - split; [done|]. split; [done|]. by eapply used_ok_ring.
  - rewrite <- Eidx, <- C4. unfold vring_used_idx. by rewrite Hvr.
  - rewrite Eidx, Hvr, Eq3 in C5. exact C5.
  - intros i Hi Hne. rewrite <- (Eq3 (mem s3)), C6; [by apply Eent|by rewrite Hvr|by rewrite Eidx, Hvr].
  - eapply agree_trans; [exact Ag|]. eapply agree_mono; [|exact C7]. intros x [Hx _] Hx'. by apply Hx, Hused.
  - split; [congruence|]. by rewrite C8', Eq2.
  - by rewrite Ed in C10.
  - intros Hev Hfoot Hfl. apply C11.
    + unfold virtio_has_feature in *. by rewrite Ed.
    + rewrite Hvr. destruct Hfoot as (F1 & F2 & F3). split; [done|]. split; [done|]. intros x Hx Hx'.
      destruct (F3 x Hx) as [F4 _]. by apply F4, Hused.
    + rewrite <- Hfl. f_equal. unfold vring_avail_flags, virtio_lduw_phys. rewrite Hvr. f_equal. by eapply load_agree.
Qed.
