(* ===== verification/VirtioMmio.v ===== *)
(** * Virtio devices and the MMIO transport

    Model of the part of [src/host-qemu/hw/virtio/virtio.c] above the rings
    (status, features, reset, configuration space, setting up queues) and of the
    registers of the transport, [src/host-qemu/hw/virtio/virtio-mmio.c], with the
    event descriptors that replace its notification register under KVM.  A device
    class is a record of methods over the state of the device. *)

From S2P Require Import Prelude CArray Virtqueue.

(** ** Registers *)

Definition VIRTIO_MMIO_MAGIC : Z := 0x0.
Definition VIRTIO_MMIO_VERSION : Z := 0x4.
Definition VIRTIO_MMIO_DEVICEID : Z := 0x8.
Definition VIRTIO_MMIO_VENDORID : Z := 0xc.
Definition VIRTIO_MMIO_HOSTFEATURES : Z := 0x10.
Definition VIRTIO_MMIO_HOSTFEATURESSEL : Z := 0x14.
Definition VIRTIO_MMIO_GUESTFEATURES : Z := 0x20.
Definition VIRTIO_MMIO_GUESTFEATURESSEL : Z := 0x24.
Definition VIRTIO_MMIO_GUESTPAGESIZE : Z := 0x28.
Definition VIRTIO_MMIO_QUEUESEL : Z := 0x30.
Definition VIRTIO_MMIO_QUEUENUMMAX : Z := 0x34.
Definition VIRTIO_MMIO_QUEUENUM : Z := 0x38.
Definition VIRTIO_MMIO_QUEUEALIGN : Z := 0x3c.
Definition VIRTIO_MMIO_QUEUEPFN : Z := 0x40.
Definition VIRTIO_MMIO_QUEUENOTIFY : Z := 0x50.
Definition VIRTIO_MMIO_INTERRUPTSTATUS : Z := 0x60.
Definition VIRTIO_MMIO_INTERRUPTACK : Z := 0x64.
Definition VIRTIO_MMIO_STATUS : Z := 0x70.
Definition VIRTIO_MMIO_CONFIG : Z := 0x100.

Definition VIRT_MAGIC : Z := 0x74726976.
Definition VIRT_VERSION : Z := 1.
Definition VIRT_VENDOR : Z := 0x554D4551.

Definition EINVAL : Z := 22.

(** ** Device classes *)

(** [VirtioDeviceClass], the methods the modelled code calls, and the handler
    [virtio_add_queue] was given.  [get_config] fills the array of the
    configuration space. *)
Record VirtioDeviceClass (B : Type) : Type := mkClass {
  k_get_features : Z -> Z;
  k_set_features : option (Z -> B -> B);
  k_validate_features : option (B -> Z);
  k_get_config : B -> list Z -> list Z;
  k_set_config : option (list Z -> B -> B);
  k_reset : option (B -> B);
  k_set_status : option (Z -> B -> B);
  k_handle_output : vstate B -> Z -> outcome (vstate B);
  k_guest_notifier_mask : option (Z * bool -> B -> B)
}.
Arguments mkClass {B}.
Arguments k_get_features {B}.
Arguments k_set_features {B}.
Arguments k_validate_features {B}.
Arguments k_get_config {B}.
Arguments k_set_config {B}.
Arguments k_reset {B}.
Arguments k_set_status {B}.
Arguments k_handle_output {B}.
Arguments k_guest_notifier_mask {B}.

(** [if (k->method) k->method(...)] *)
Definition call_opt {B A} (f : option (A -> B -> B)) (a : A) (b : B) : B :=
  match f with Some f => f a b | None => b end.

Section device.
Context {B : Type} (k : VirtioDeviceClass B).
Implicit Types s : vstate B.

(** The event descriptors: whether KVM offers them, and what
    [event_notifier_init] returns for a queue. *)
Variables (kvm_eventfds_enabled : bool) (event_notifier_init : Z -> Z).

Definition set_backend s (b : B) : vstate B := {| s with backend := b |}.
Definition mod_proxy s (f : VirtIOMMIOProxy -> VirtIOMMIOProxy) : vstate B := {| s with proxy := f (proxy s) |}.
Definition mod_vdev s (f : VirtIODevice -> VirtIODevice) : vstate B := set_vdev s (f (vdev s)).

(** ** [virtio.c] *)

Definition virtio_validate_features s : Z :=
  match k_validate_features k with Some f => f (backend s) | None => 0 end.

Definition virtio_set_status s (val : Z) : Z * vstate B :=
  let ret :=
    if virtio_has_feature (vdev s) VIRTIO_F_VERSION_1
       && negb (flag_set (status (vdev s)) VIRTIO_CONFIG_S_FEATURES_OK)
       && flag_set val VIRTIO_CONFIG_S_FEATURES_OK
    then virtio_validate_features s else 0 in
  if negb (ret =? 0) then (ret, s) else
  let s := set_backend s (call_opt (k_set_status k) val (backend s)) in
  (0, mod_vdev s (fun d => {| d with status := val |})).

(** What [virtio_reset] does to a queue. *)
Definition reset_queue (q : VirtQueue) : VirtQueue :=
  let q := {| q with vring := mkVRing (num (vring q)) (align (vring q)) 0 0 0 |} in
  let q := {| {| q with last_avail_idx := 0 |} with vector := VIRTIO_NO_VECTOR |} in
  let q := {| {| q with signalled_used := 0 |} with signalled_used_valid := false |} in
  {| q with notification := true |}.

(** [virtio_reset]; [cpu] is the byte order of the processor that asked for it,
    none for a reset of the system. *)
Definition virtio_reset s (cpu : option bool) : vstate B :=
  let s := (virtio_set_status s 0).2 in
  let s := mod_vdev s (fun d => {| d with device_endian :=
    match cpu with Some true => VIRTIO_DEVICE_ENDIAN_BIG | _ => VIRTIO_DEVICE_ENDIAN_LITTLE end |}) in
  let s := set_backend s (match k_reset k with Some f => f (backend s) | None => backend s end) in
  let s := mod_vdev s (fun d =>
    let d := {| {| d with guest_features := 0 |} with queue_sel := 0 |} in
    let d := {| {| d with status := 0 |} with isr := 0 |} in
    {| d with config_vector := VIRTIO_NO_VECTOR |}) in
  let s := virtio_notify_vector s in
  mod_vdev s (fun d => {| d with vq := reset_queue <$> vq d |}).

Definition config_len s : Z := Z.of_nat (length (config (vdev s))).

(** [virtio_config_readb], [readw] and [readl], by the size of the access *)
Definition virtio_config_read s (addr : Z) (size : nat) : Z * vstate B :=
  if addr + Z.of_nat size >? config_len s then (0xffffffff, s) else
  let s := mod_vdev s (fun d => {| d with config := k_get_config k (backend s) (config d) |}) in
  (of_le (take size (drop (Z.to_nat addr) (config (vdev s)))), s).

(** [virtio_config_writeb], [writew] and [writel] *)
Definition virtio_config_write s (addr : Z) (size : nat) (data : Z) : vstate B :=
  if addr + Z.of_nat size >? config_len s then s else
  let s := mod_vdev s (fun d => {| d with config := blit (config d) (Z.to_nat addr) (le_bytes size data) |}) in
  set_backend s (call_opt (k_set_config k) (config (vdev s)) (backend s)).

(** [virtio_config_modern_readb], [readw] and [readl], and the writes: in the byte
    order of virtio 1.0, which is that of the target *)
Definition virtio_config_modern_read s (addr : Z) (size : nat) : Z * vstate B :=
  if addr + Z.of_nat size >? config_len s then (0xffffffff, s) else
  let s := mod_vdev s (fun d => {| d with config := k_get_config k (backend s) (config d) |}) in
  (of_le (take size (drop (Z.to_nat addr) (config (vdev s)))), s).

Definition virtio_config_modern_write s (addr : Z) (size : nat) (data : Z) : vstate B :=
  if addr + Z.of_nat size >? config_len s then s else
  let s := mod_vdev s (fun d => {| d with config := blit (config d) (Z.to_nat addr) (le_bytes size data) |}) in
  set_backend s (call_opt (k_set_config k) (config (vdev s)) (backend s)).

Definition virtio_queue_set_addr s (n addr : Z) : outcome (vstate B) :=
  s ← mod_vq s n (fun q => let r := vring q in {| q with vring := {| r with desc := addr |} |});
  virtio_queue_update_rings s n.

Definition virtio_queue_get_addr s (n : Z) : outcome Z := q ← get_vq s n; Done (desc (vring q)).
Definition virtio_queue_get_num s (n : Z) : outcome Z := q ← get_vq s n; Done (num (vring q)).

(** [virtio_queue_set_rings] *)
Definition virtio_queue_set_rings s (n d a u : Z) : outcome (vstate B) :=
  mod_vq s n (fun q => {| q with vring := mkVRing (num (vring q)) (align (vring q)) d a u |}).

(** The extent of the rings. *)
Definition virtio_queue_get_desc_addr s (n : Z) : outcome Z := q ← get_vq s n; Done (desc (vring q)).
Definition virtio_queue_get_avail_addr s (n : Z) : outcome Z := q ← get_vq s n; Done (avail (vring q)).
Definition virtio_queue_get_used_addr s (n : Z) : outcome Z := q ← get_vq s n; Done (used (vring q)).
Definition virtio_queue_get_ring_addr s (n : Z) : outcome Z := q ← get_vq s n; Done (desc (vring q)).
Definition virtio_queue_get_desc_size s (n : Z) : outcome Z :=
  q ← get_vq s n; Done (u64 (SIZEOF_VRingDesc * num (vring q))).
Definition virtio_queue_get_avail_size s (n : Z) : outcome Z := q ← get_vq s n; Done (u64 (4 + 8 * num (vring q))).
Definition virtio_queue_get_used_size s (n : Z) : outcome Z := q ← get_vq s n; Done (u64 (4 + 8 * num (vring q))).
Definition virtio_queue_get_ring_size s (n : Z) : outcome Z :=
  q ← get_vq s n;
  us ← virtio_queue_get_used_size s n;
  Done (u64 (used (vring q) - desc (vring q) + us)).

Definition virtio_queue_get_last_avail_idx s (n : Z) : outcome Z := q ← get_vq s n; Done (last_avail_idx q).
Definition virtio_queue_set_last_avail_idx s (n idx : Z) : outcome (vstate B) :=
  mod_vq s n (fun q => {| q with last_avail_idx := u16 idx |}).
Definition virtio_queue_invalidate_signalled_used s (n : Z) : outcome (vstate B) :=
  mod_vq s n (fun q => {| q with signalled_used_valid := false |}).

(** Interrupt vectors, of which the transport has none. *)
Definition virtio_queue_vector s (n : Z) : outcome Z :=
  if n <? VIRTIO_QUEUE_MAX then q ← get_vq s n; Done (vector q) else Done VIRTIO_NO_VECTOR.
Definition virtio_queue_set_vector s (n v : Z) : outcome (vstate B) :=
  if n <? VIRTIO_QUEUE_MAX then mod_vq s n (fun q => {| q with vector := u16 v |}) else Done s.

(** [virtio_queue_set_num]; [v] is an [int]. *)
Definition virtio_queue_set_num s (n v : Z) : outcome (vstate B) :=
  q ← get_vq s n;
  if negb (Bool.eqb (negb (v =? 0)) (negb (num (vring q) =? 0))) || (v >? VIRTQUEUE_MAX_SIZE) || (v <? 0)
  then Done s
  else mod_vq s n (fun q => let r := vring q in {| q with vring := {| r with num := v |} |}).

(** [virtio_queue_set_align]; the transport has a variable alignment. *)
Definition virtio_queue_set_align s (n al : Z) : outcome (vstate B) :=
  if virtio_has_feature (vdev s) VIRTIO_F_VERSION_1 then Done s else
  s ← mod_vq s n (fun q => let r := vring q in {| q with vring := {| r with align := u32 al |} |});
  virtio_queue_update_rings s n.

(** [virtio_queue_notify] and [virtio_queue_notify_vq] *)
Definition virtio_queue_notify s (n : Z) : outcome (vstate B) :=
  q ← get_vq s n;
  if negb (desc (vring q) =? 0) && handle_output q then k_handle_output k s n else Done s.

(** The search of [virtio_add_queue] and [virtio_get_num_queues] for the first
    queue that does not exist. *)
Fixpoint first_free (l : list VirtQueue) (i : Z) : Z :=
  match l with
  | [] => i
  | q :: l' => if num (vring q) =? 0 then i else first_free l' (i + 1)
  end.

Definition virtio_get_num_queues s : Z := first_free (vq (vdev s)) 0.

(** [virtio_add_queue]; [abort] fails the assertion. *)
Definition virtio_add_queue s (queue_size : Z) : outcome (Z * vstate B) :=
  let i := first_free (vq (vdev s)) 0 in
  if (i =? VIRTIO_QUEUE_MAX) || (queue_size >? VIRTQUEUE_MAX_SIZE) then Crash AssertFailed else
  s ← mod_vq s i (fun q =>
    let r := vring q in
    let q := {| q with vring := {| {| r with num := queue_size |} with align := VIRTIO_PCI_VRING_ALIGN |} |} in
    {| q with handle_output := true |});
  Done (i, s).

Definition virtio_del_queue s (n : Z) : outcome (vstate B) :=
  if (n <? 0) || (n >=? VIRTIO_QUEUE_MAX) then Crash AssertFailed else
  mod_vq s n (fun q => let r := vring q in {| q with vring := {| r with num := 0 |} |}).

Definition virtio_set_features_nocheck s (val : Z) : Z * vstate B :=
  let bad := negb (Z.land val (Z.lnot (host_features (vdev s))) =? 0) in
  let val := Z.land val (host_features (vdev s)) in
  let s := set_backend s (call_opt (k_set_features k) val (backend s)) in
  (if bad then -1 else 0, mod_vdev s (fun d => {| d with guest_features := val |})).

Definition virtio_set_features s (val : Z) : Z * vstate B :=
  if flag_set (status (vdev s)) VIRTIO_CONFIG_S_FEATURES_OK then (- EINVAL, s)
  else virtio_set_features_nocheck s val.

(** [virtio_init]: a device with no queue yet; [feats] are the features its
    properties offer. *)
Definition virtio_init (m : AddressSpace) (b : B) (id : Z) (config_size : nat) (feats : Z) : vstate B :=
  let queue i := mkQueue (mkVRing 0 0 0 0 0) 0 0 false false i 0 VIRTIO_NO_VECTOR false
                   (mkNotifier false false false) (mkNotifier false false false) in
  mkVstate m
    (mkVdev 0 0 0 0 feats (replicate config_size 0) VIRTIO_NO_VECTOR 0
       (queue <$> seqZ 0 VIRTIO_QUEUE_MAX) id VIRTIO_DEVICE_ENDIAN_LITTLE)
    (mkProxy 0 0 0 false false [] false) b.

(** [virtio_bus_device_plugged] *)
Definition virtio_bus_device_plugged s : vstate B :=
  mod_vdev s (fun d => {| d with host_features := k_get_features k (host_features d) |}).

(** ** Event descriptors for the notification register *)

Definition mod_notifier s (n : Z) (f : EventNotifier -> EventNotifier) : outcome (vstate B) :=
  mod_vq s n (fun q => {| q with host_notifier := f (host_notifier q) |}).

(** [virtio_queue_host_notifier_read]: called by the main loop when the
    descriptor is readable. *)
Definition virtio_queue_host_notifier_read s (n : Z) : outcome (vstate B) :=
  q ← get_vq s n;
  if en_set (host_notifier q) then
    s ← mod_notifier s n (fun e => {| e with en_set := false |});
    virtio_queue_notify s n
  else Done s.

Definition virtio_queue_set_host_notifier_fd_handler s (n : Z) (assign set_handler : bool) : outcome (vstate B) :=
  s ← mod_notifier s n (fun e => {| e with en_handler := assign && set_handler |});
  if negb assign then virtio_queue_host_notifier_read s n else Done s.

(** [memory_region_add_eventfd] and [memory_region_del_eventfd] on the
    notification register, for the value [n] *)
Definition add_eventfd s (n : Z) : vstate B := mod_proxy s (fun p => {| p with ioeventfds := n :: ioeventfds p |}).
Definition del_eventfd s (n : Z) : vstate B :=
  mod_proxy s (fun p => {| p with ioeventfds := filter (fun x => x <> n) (ioeventfds p) |}).

Definition virtio_mmio_set_host_notifier_internal s (n : Z) (assign set_handler : bool) : outcome (Z * vstate B) :=
  if assign then
    let r := event_notifier_init n in
    if r <? 0 then Done (r, s) else
    s ← mod_notifier s n (fun _ => mkNotifier true false true);
    s ← virtio_queue_set_host_notifier_fd_handler s n true set_handler;
    Done (r, add_eventfd s n)
  else
    s ← virtio_queue_set_host_notifier_fd_handler (del_eventfd s n) n false false;
    s ← mod_notifier s n (fun e => {| e with en_open := false |});
    Done (0, s).

(** The loops that take the event descriptors away: of the queues below [n],
    from the last one, when the setup failed; of all queues, from the first
    one, when they are no longer wanted. *)
Fixpoint unassign_down (n : nat) s : outcome (vstate B) :=
  match n with
  | O => Done s
  | S i =>
      nm ← virtio_queue_get_num s (Z.of_nat i);
      s ← (if nm =? 0 then Done s else
           '(r, s) ← virtio_mmio_set_host_notifier_internal s (Z.of_nat i) false false;
           if r <? 0 then Crash AssertFailed else Done s);
      unassign_down i s
  end.

Fixpoint unassign_up (fuel : nat) (n : Z) s : outcome (vstate B) :=
  match fuel with
  | O => Done s
  | S f =>
      nm ← virtio_queue_get_num s n;
      s ← (if nm =? 0 then Done s else
           '(r, s) ← virtio_mmio_set_host_notifier_internal s n false false;
           if r <? 0 then Crash AssertFailed else Done s);
      unassign_up f (n + 1) s
  end.

(** The loop of [virtio_mmio_start_ioeventfd]; the result is the queue whose
    notifier could not be set up. *)
Fixpoint assign_up (fuel : nat) (n : Z) s : outcome (option Z * vstate B) :=
  match fuel with
  | O => Done (None, s)
  | S f =>
      nm ← virtio_queue_get_num s n;
      if nm =? 0 then assign_up f (n + 1) s else
      '(r, s) ← virtio_mmio_set_host_notifier_internal s n true true;
      if r <? 0 then Done (Some n, s) else assign_up f (n + 1) s
  end.

Definition set_started s (b : bool) : vstate B := mod_proxy s (fun p => {| p with ioeventfd_started := b |}).

Definition virtio_mmio_start_ioeventfd s : outcome (vstate B) :=
  if negb kvm_eventfds_enabled || ioeventfd_disabled (proxy s) || ioeventfd_started (proxy s) then Done s else
  '(failed, s) ← assign_up (Z.to_nat VIRTIO_QUEUE_MAX) 0 s;
  match failed with
  | None => Done (set_started s true)
  | Some n => s ← unassign_down (Z.to_nat n) s; Done (set_started s false)
  end.

Definition virtio_mmio_stop_ioeventfd s : outcome (vstate B) :=
  if negb (ioeventfd_started (proxy s)) then Done s else
  s ← unassign_up (Z.to_nat VIRTIO_QUEUE_MAX) 0 s;
  Done (set_started s false).

(** ** The registers *)

(** [virtio_mmio_read] *)
Definition virtio_mmio_read s (offset : Z) (size : nat) : outcome (Z * vstate B) :=
  if offset >=? VIRTIO_MMIO_CONFIG then
    match size with
    | 1%nat | 2%nat | 4%nat => Done (virtio_config_read s (u32 (offset - VIRTIO_MMIO_CONFIG)) size)
    | _ => Crash AssertFailed
    end
  else if negb (Nat.eqb size 4) then Done (0, s) else
  let d := vdev s in
  if (offset =? VIRTIO_MMIO_MAGIC) then Done (VIRT_MAGIC, s) else
  if (offset =? VIRTIO_MMIO_VERSION) then Done (VIRT_VERSION, s) else
  if (offset =? VIRTIO_MMIO_DEVICEID) then Done (device_id d, s) else
  if (offset =? VIRTIO_MMIO_VENDORID) then Done (VIRT_VENDOR, s) else
  if (offset =? VIRTIO_MMIO_HOSTFEATURES) then
    Done (if negb (host_features_sel (proxy s) =? 0) then 0 else host_features d, s) else
  if (offset =? VIRTIO_MMIO_QUEUENUMMAX) then
    nm ← virtio_queue_get_num s (queue_sel d);
    Done (if nm =? 0 then 0 else VIRTQUEUE_MAX_SIZE, s) else
  if (offset =? VIRTIO_MMIO_QUEUEPFN) then
    a ← virtio_queue_get_addr s (queue_sel d);
    Done (Z.shiftr a (guest_page_shift (proxy s)), s) else
  if (offset =? VIRTIO_MMIO_INTERRUPTSTATUS) then Done (isr d, s) else
  if (offset =? VIRTIO_MMIO_STATUS) then Done (status d, s) else
  Done (0, s).

(** The write to [VIRTIO_MMIO_STATUS] *)
Definition virtio_mmio_write_status s (cpu : option bool) (value : Z) : outcome (vstate B) :=
  let ok := flag_set value VIRTIO_CONFIG_S_DRIVER_OK in
  s ← (if negb ok then virtio_mmio_stop_ioeventfd s else Done s);
  let s := (virtio_set_status s (Z.land value 0xff)).2 in
  s ← (if ok then virtio_mmio_start_ioeventfd s else Done s);
  Done (if status (vdev s) =? 0 then virtio_reset s cpu else s).

(** [virtio_mmio_write] *)
Definition virtio_mmio_write s (cpu : option bool) (offset value : Z) (size : nat) : outcome (vstate B) :=
  if offset >=? VIRTIO_MMIO_CONFIG then
    match size with
    | 1%nat | 2%nat | 4%nat => Done (virtio_config_write s (u32 (offset - VIRTIO_MMIO_CONFIG)) size value)
    | _ => Crash AssertFailed
    end
  else if negb (Nat.eqb size 4) then Done s else
  let sel := queue_sel (vdev s) in
  if offset =? VIRTIO_MMIO_HOSTFEATURESSEL then
    Done (mod_proxy s (fun p => {| p with host_features_sel := u32 value |})) else
  if offset =? VIRTIO_MMIO_GUESTFEATURES then
    Done (if guest_features_sel (proxy s) =? 0 then (virtio_set_features s value).2 else s) else
  if offset =? VIRTIO_MMIO_GUESTFEATURESSEL then
    Done (mod_proxy s (fun p => {| p with guest_features_sel := u32 value |})) else
  if offset =? VIRTIO_MMIO_GUESTPAGESIZE then
    let sh := ctz32 (u32 value) in
    Done (mod_proxy s (fun p => {| p with guest_page_shift := if sh >? 31 then 0 else sh |})) else
  if offset =? VIRTIO_MMIO_QUEUESEL then
    Done (if value <? VIRTIO_QUEUE_MAX then mod_vdev s (fun d => {| d with queue_sel := value |}) else s) else
  if offset =? VIRTIO_MMIO_QUEUENUM then
    s ← virtio_queue_set_num s sel (s32 value);
    virtio_queue_update_rings s sel else
  if offset =? VIRTIO_MMIO_QUEUEALIGN then virtio_queue_set_align s sel (s32 value) else
  if offset =? VIRTIO_MMIO_QUEUEPFN then
    (if value =? 0 then Done (virtio_reset s cpu)
     else virtio_queue_set_addr s sel (u64 (Z.shiftl value (guest_page_shift (proxy s))))) else
  if offset =? VIRTIO_MMIO_QUEUENOTIFY then
    (if value <? VIRTIO_QUEUE_MAX then virtio_queue_notify s value else Done s) else
  if offset =? VIRTIO_MMIO_INTERRUPTACK then
    Done (virtio_update_irq (mod_vdev s (fun d => {| d with isr := u8 (Z.land (isr d) (Z.lnot value)) |}))) else
  if offset =? VIRTIO_MMIO_STATUS then virtio_mmio_write_status s cpu value else
  Done s.

(** A write of the guest: one to the notification register that matches an event
    descriptor signals it and goes no further. *)
Definition guest_write s (cpu : option bool) (offset value : Z) (size : nat) : outcome (vstate B) :=
  if (offset =? VIRTIO_MMIO_QUEUENOTIFY) && Nat.eqb size 4 && bool_decide (value ∈ ioeventfds (proxy s))
  then mod_notifier s value (fun e => {| e with en_set := true |})
  else virtio_mmio_write s cpu offset value size.

(** The main loop finds the notifier of queue [n] readable. *)
Definition main_loop_notifier s (n : Z) : outcome (vstate B) :=
  q ← get_vq s n;
  if en_handler (host_notifier q) then virtio_queue_host_notifier_read s n else Done s.

(** [virtio_mmio_set_host_notifier] *)
Definition virtio_mmio_set_host_notifier s (n : Z) (assign : bool) : outcome (Z * vstate B) :=
  let s := mod_proxy s (fun p => {| p with ioeventfd_disabled := assign |}) in
  s ← (if assign then virtio_mmio_stop_ioeventfd s else Done s);
  virtio_mmio_set_host_notifier_internal s n assign false.

(** ** Guest notifiers *)

Definition mod_guest_notifier s (n : Z) (f : EventNotifier -> EventNotifier) : outcome (vstate B) :=
  mod_vq s n (fun q => {| q with guest_notifier := f (guest_notifier q) |}).

(** [virtio_queue_guest_notifier_read] *)
Definition virtio_queue_guest_notifier_read s (n : Z) : outcome (vstate B) :=
  q ← get_vq s n;
  if en_set (guest_notifier q) then
    s ← mod_guest_notifier s n (fun e => {| e with en_set := false |});
    Done (virtio_irq s)
  else Done s.

Definition virtio_queue_set_guest_notifier_fd_handler s (n : Z) (assign with_irqfd : bool) : outcome (vstate B) :=
  s ← mod_guest_notifier s n (fun e => {| e with en_handler := assign && negb with_irqfd |});
  if negb assign then virtio_queue_guest_notifier_read s n else Done s.

(** [virtio_mmio_set_guest_notifier] *)
Definition virtio_mmio_set_guest_notifier s (n : Z) (assign with_irqfd : bool) : outcome (Z * vstate B) :=
  let mask s := set_backend s (call_opt (k_guest_notifier_mask k) (n, negb assign) (backend s)) in
  if assign then
    let r := event_notifier_init n in
    if r <? 0 then Done (r, s) else
    s ← mod_guest_notifier s n (fun _ => mkNotifier true false false);
    s ← virtio_queue_set_guest_notifier_fd_handler s n true with_irqfd;
    Done (0, mask s)
  else
    s ← virtio_queue_set_guest_notifier_fd_handler s n false with_irqfd;
    s ← mod_guest_notifier s n (fun e => {| e with en_open := false |});
    Done (0, mask s).

(** The loops of [virtio_mmio_set_guest_notifiers]: over the queues that exist,
    with the queue at which it failed; and back from it. *)
Fixpoint guest_notifiers_up (fuel : nat) (n : Z) s (assign : bool) : outcome (Z * Z * vstate B) :=
  match fuel with
  | O => Done (0, n, s)
  | S f =>
      nm ← virtio_queue_get_num s n;
      if nm =? 0 then Done (0, n, s) else
      '(r, s) ← virtio_mmio_set_guest_notifier s n assign false;
      if r <? 0 then Done (r, n, s) else guest_notifiers_up f (n + 1) s assign
  end.

Fixpoint guest_notifiers_down (n : nat) s (assign : bool) : outcome (vstate B) :=
  match n with
  | O => Done s
  | S i =>
      '(_, s) ← virtio_mmio_set_guest_notifier s (Z.of_nat i) assign false;
      guest_notifiers_down i s assign
  end.

(** [virtio_mmio_set_guest_notifiers] *)
Definition virtio_mmio_set_guest_notifiers s (nvqs : Z) (assign : bool) : outcome (Z * vstate B) :=
  '(r, n, s) ← guest_notifiers_up (Z.to_nat (Z.min nvqs VIRTIO_QUEUE_MAX)) 0 s assign;
  if r <? 0 then
    if negb assign then Crash AssertFailed else
    s ← guest_notifiers_down (Z.to_nat n) s (negb assign);
    Done (r, s)
  else Done (0, s).

(** A back end signals the notifier of queue [n], and the main loop finds it
    readable. *)
Definition signal_guest_notifier s (n : Z) : outcome (vstate B) :=
  mod_guest_notifier s n (fun e => {| e with en_set := en_set e || en_open e |}).
Definition main_loop_guest_notifier s (n : Z) : outcome (vstate B) :=
  q ← get_vq s n;
  if en_handler (guest_notifier q) then virtio_queue_guest_notifier_read s n else Done s.

(** [virtio_vmstate_change]; the transport has no method of its own for it. *)
Definition virtio_vmstate_change s (running : bool) : vstate B :=
  let backend_run := running && flag_set (status (vdev s)) VIRTIO_CONFIG_S_DRIVER_OK in
  let s := if backend_run then (virtio_set_status s (status (vdev s))).2 else s in
  if negb backend_run then (virtio_set_status s (status (vdev s))).2 else s.

(** [virtio_mmio_reset] *)
Definition virtio_mmio_reset s : outcome (vstate B) :=
  s ← virtio_mmio_stop_ioeventfd s;
  let s := virtio_reset s None in
  Done (mod_proxy s (fun p =>
    let p := {| {| p with host_features_sel := 0 |} with guest_features_sel := 0 |} in
    {| p with guest_page_shift := 0 |})).
End device.

(** [virtio_mmio_read] of a transport with no device behind it; writes to it are
    ignored. *)
Definition virtio_mmio_read_empty (offset : Z) : Z :=
  if offset =? VIRTIO_MMIO_MAGIC then VIRT_MAGIC else
  if offset =? VIRTIO_MMIO_VERSION then VIRT_VERSION else
  if offset =? VIRTIO_MMIO_VENDORID then VIRT_VENDOR else 0.
