(* ===== verification/VirtioDevs.v ===== *)
(** * The message and touch panel devices

    Model of the two virtio devices this emulator adds to the board: the message
    device, through which the guest calls the frame buffer of the host
    ([src/host-qemu/hw/virtio/virtio-msg.c] with [fb_backend.c]), and the touch
    panel, which hands the events of the host's panel to the guest
    ([src/host-qemu/hw/virtio/virtio-tp.c]).  The system calls of the host are a
    parameter.  Host pointers have eight bytes: a request, [struct MsgReq], has
    200 bytes and its fields lie at the offsets below. *)

From S2P Require Import Prelude CArray Virtqueue VirtioMmio.

(** ** Constants *)

Definition MSG_REQ_TYPE_FUNC : Z := 1.
Definition MSG_FUNC_FB_OPEN : Z := 1.
Definition MSG_FUNC_FB_IOCTL : Z := 2.
Definition MSG_FUNC_FB_CLOSE : Z := 3.
Definition VIRTIO_MSG_S_OK : Z := 0.
Definition VIRTIO_ID_MSG : Z := 30.
Definition VIRTIO_ID_INPUT : Z := 18.

Definition FBIOGET_VSCREENINFO : Z := 0x4600.
Definition FBIOPUT_VSCREENINFO : Z := 0x4601.
Definition FBIOGET_FSCREENINFO : Z := 0x4602.
Definition FBIOPAN_DISPLAY : Z := 0x4606.

(** Offsets in [struct MsgReq], and the sizes of [struct fb_fix_screeninfo],
    [struct fb_var_screeninfo] and of the whole request. *)
Definition OFF_status : Z := 12.
Definition OFF_ret : Z := 16.
Definition OFF_cmd_type : Z := 20.
Definition OFF_func_idx : Z := 24.
Definition OFF_fd : Z := 28.
Definition OFF_cmd : Z := 32.
Definition OFF_screeninfo : Z := 40.
Definition SIZEOF_fix : nat := 80.
Definition SIZEOF_var : nat := 160.
Definition SIZEOF_MsgReq : Z := 200.

(** [DEFINE_VIRTIO_COMMON_FEATURES]: the features every device offers. *)
Definition VIRTIO_COMMON_FEATURES : Z := bit 28 + bit 29 + bit 24 + bit 27.

Definition virtio_add_feature (features fbit : Z) : Z := Z.lor features (bit fbit).

(** [iov_size] *)
Definition iov_size (sg : list iovec) : Z := foldr (fun v acc => u64 (iov_len v + acc)) 0 sg.

(** ** The host *)

(** The system calls on the frame buffer.  [sys_ioctl fd cmd arg] gives the
    result and what the structure it was passed holds afterwards. *)
Class FbHost (H : Type) : Type := {
  sys_open : H -> Z * H;
  sys_close : Z -> H -> Z * H;
  sys_ioctl : Z -> Z -> list Z -> H -> Z * list Z * H
}.

(** ** The message device *)

Section msg.
Context {H : Type} `{FbHost H}.

(** [struct VirtIOMsg]: the queue, the [iothread] of its configuration, the
    host, and the request [rq] that is carried over by a migration. *)
Record VirtIOMsg : Type := mkMsg {
  msg_vq : Z;
  msg_iothread : Z;
  msg_host : H;
  msg_rq : option VirtQueueElement
}.

Implicit Types s : vstate VirtIOMsg.

(** Fields of a request, through the pointer to it. *)
Definition rd32 s (p : hptr) (off : Z) : outcome Z :=
  bs ← lift (host_read (mem s) p off 4); Done (s32 (of_le bs)).
Definition wr s (p : hptr) (off : Z) (bs : list Z) : outcome (vstate VirtIOMsg) :=
  m ← lift (host_write (mem s) p off bs); Done (set_mem s m).
Definition wr32 s (p : hptr) (off v : Z) : outcome (vstate VirtIOMsg) := wr s p off (le_bytes 4 (u32 v)).

(** A system call: the state of the host is part of the device's. *)
Definition set_host s (h : H) : vstate VirtIOMsg :=
  let b := backend s in set_backend s {| b with msg_host := h |}.

Definition fb_open s : Z * vstate VirtIOMsg :=
  let '(fb, h) := sys_open (msg_host (backend s)) in
  (if fb =? 0 then -1 else fb, set_host s h).

Definition fb_close s (p : hptr) : outcome (Z * vstate VirtIOMsg) :=
  fd ← rd32 s p OFF_fd;
  let '(r, h) := sys_close fd (msg_host (backend s)) in
  Done (r, set_host s h).

(** [ioctl_get_fsinfo], [ioctl_get_vsinfo] and [ioctl_get_put_vsinfo]: the call
    on the structure in the request, of [n] bytes. *)
Definition ioctl_screeninfo s (fd cmd : Z) (p : hptr) (n : nat) : outcome (Z * vstate VirtIOMsg) :=
  arg ← lift (host_read (mem s) p OFF_screeninfo n);
  let '(r, arg', h) := sys_ioctl fd cmd arg (msg_host (backend s)) in
  s ← wr (set_host s h) p OFF_screeninfo arg';
  Done (if r =? -1 then -1 else 0, s).

Definition fb_ioctl s (p : hptr) : outcome (Z * vstate VirtIOMsg) :=
  fd ← rd32 s p OFF_fd;
  cmd ← rd32 s p OFF_cmd;
  if cmd =? FBIOGET_FSCREENINFO then ioctl_screeninfo s fd cmd p SIZEOF_fix else
  if (cmd =? FBIOGET_VSCREENINFO) || (cmd =? FBIOPAN_DISPLAY) || (cmd =? FBIOPUT_VSCREENINFO)
  then ioctl_screeninfo s fd cmd p SIZEOF_var else
  Done (-1, s).

Definition virtio_msg_func_dispatch s (p : hptr) : outcome (vstate VirtIOMsg) :=
  func_idx ← rd32 s p OFF_func_idx;
  if func_idx =? MSG_FUNC_FB_OPEN then
    let '(r, s) := fb_open s in
    s ← wr32 s p OFF_ret r;
    wr32 s p OFF_fd r
  else if func_idx =? MSG_FUNC_FB_IOCTL then
    '(r, s) ← fb_ioctl s p;
    wr32 s p OFF_ret r
  else if func_idx =? MSG_FUNC_FB_CLOSE then
    '(r, s) ← fb_close s p;
    wr32 s p OFF_ret r
  else Done s.

(** The pointer [iov->iov_base] of the first buffer. *)
Definition first_base (sg : list iovec) : hptr :=
  match sg with v :: _ => iov_base v | [] => Uninit end.

Definition virtio_msg_complete_request s (elem : VirtQueueElement) (in_len : Z) : outcome (vstate VirtIOMsg) :=
  s ← virtqueue_push s (msg_vq (backend s)) elem in_len;
  virtio_notify s (msg_vq (backend s)).

Definition virtio_msg_handle_request s (elem : VirtQueueElement) : outcome (vstate VirtIOMsg) :=
  let p := first_base (out_sg elem) in
  let in_len := iov_size (out_sg elem) in
  bs ← lift (host_read (mem s) p OFF_cmd_type 4);
  s ← (if of_bytes (big s) bs =? MSG_REQ_TYPE_FUNC then
         s ← virtio_msg_func_dispatch s p;
         wr s p OFF_status [VIRTIO_MSG_S_OK]
       else Done s);
  virtio_msg_complete_request s elem in_len.

(** [virtio_msg_handle_output], with [virtio_msg_get_request] *)
Fixpoint virtio_msg_handle_output (fuel : nat) s : outcome (vstate VirtIOMsg) :=
  match fuel with
  | O => Crash OutOfFuel
  | S f =>
      '(req, s) ← virtqueue_pop s (msg_vq (backend s));
      match req with
      | None => Done s
      | Some elem => s ← virtio_msg_handle_request s elem; virtio_msg_handle_output f s
      end
  end.

(** At most 1024 requests are available when the handler is called. *)
Definition msg_fuel : nat := 1025.

Definition virtio_msg_get_features (features : Z) : Z :=
  virtio_add_feature (virtio_add_feature features 0) 1.

(** [virtio_msg_update_config] and [virtio_msg_set_config]: the configuration
    space is the pointer [iothread]. *)
Definition virtio_msg_update_config (b : VirtIOMsg) (cfg : list Z) : list Z :=
  blit cfg 0 (le_bytes 8 (msg_iothread b)).
Definition virtio_msg_set_config (cfg : list Z) (b : VirtIOMsg) : VirtIOMsg :=
  {| b with msg_iothread := of_le (take 8 cfg) |}.

(** [virtio_msg_class_init] *)
Definition virtio_msg_class : VirtioDeviceClass VirtIOMsg :=
  mkClass virtio_msg_get_features None None virtio_msg_update_config (Some virtio_msg_set_config)
    (Some (fun b => b)) (Some (fun _ b => b)) (fun s _ => virtio_msg_handle_output msg_fuel s) None.

(** [virtio_msg_device_realize] *)
Definition virtio_msg_device_realize (m : AddressSpace) (iothread : Z) (h : H) : outcome (vstate VirtIOMsg) :=
  let s := virtio_init m (mkMsg 0 iothread h None) VIRTIO_ID_MSG 8 VIRTIO_COMMON_FEATURES in
  '(i, s) ← virtio_add_queue s 128;
  let b := backend s in
  Done (virtio_bus_device_plugged virtio_msg_class (set_backend s {| b with msg_vq := i |})).
End msg.
Arguments VirtIOMsg : clear implicits.

(** ** The touch panel *)

(** [struct VirtIOTp] *)
Record VirtIOTp : Type := mkTp {
  tp_vq : Z;
  tp_iothread : Z;
  queue_state : bool;
  tp_rq : option VirtQueueElement
}.

Section tp.
Implicit Types s : vstate VirtIOTp.

Definition virtio_tp_handle_output s : outcome (vstate VirtIOTp) :=
  let b := backend s in Done (set_backend s {| b with queue_state := true |}).

Definition virtio_tp_complete_request s (elem : VirtQueueElement) (len : Z) : outcome (vstate VirtIOTp) :=
  s ← virtqueue_push s (tp_vq (backend s)) elem len;
  virtio_notify s (tp_vq (backend s)).

(** [tp_input_report]; [ev] are the bytes the events were read into. *)
Definition tp_input_report s (pMsg : option VirtQueueElement) (ev : list Z) (len : Z) : outcome (vstate VirtIOTp) :=
  match pMsg with
  | None => Crash NullDeref
  | Some elem =>
      let iov := hd (mkIov Uninit 0) (in_sg elem) in
      m ← lift (host_write (mem s) (iov_base iov) 0 (le_bytes 4 len));
      if len >? Z.of_nat (length ev) then Crash OutOfBounds else
      m ← lift (host_write m (iov_base iov) 4 (take (Z.to_nat len) ev));
      virtio_tp_complete_request (set_mem s m) elem (iov_len iov)
  end.

(** One round of the loop of [tp_poll_thread_fn]; [count] is the result of
    [read] and [ev] the array it read into. *)
Definition tp_poll_round s (count : Z) (ev : list Z) : outcome (vstate VirtIOTp) :=
  '(pMsg, s) ← virtqueue_pop s (tp_vq (backend s));
  tp_input_report s pMsg ev (u32 count).

Definition virtio_tp_get_features (features : Z) : Z :=
  virtio_add_feature (virtio_add_feature features 0) 1.
Definition virtio_tp_update_config (b : VirtIOTp) (cfg : list Z) : list Z :=
  blit cfg 0 (le_bytes 8 (tp_iothread b)).
Definition virtio_tp_set_config (cfg : list Z) (b : VirtIOTp) : VirtIOTp :=
  {| b with tp_iothread := of_le (take 8 cfg) |}.

(** [virtio_tp_class_init] *)
Definition virtio_tp_class : VirtioDeviceClass VirtIOTp :=
  mkClass virtio_tp_get_features None None virtio_tp_update_config (Some virtio_tp_set_config)
    (Some (fun b => b)) (Some (fun _ b => b)) (fun s _ => virtio_tp_handle_output s) None.

(** [virtio_tp_device_realize] *)
Definition virtio_tp_device_realize (m : AddressSpace) (iothread : Z) : outcome (vstate VirtIOTp) :=
  let s := virtio_init m (mkTp 0 iothread false None) VIRTIO_ID_INPUT 8 VIRTIO_COMMON_FEATURES in
  '(i, s) ← virtio_add_queue s 1024;
  let b := backend s in
  Done (virtio_bus_device_plugged virtio_tp_class (set_backend s {| b with tp_vq := i |})).
End tp.
