(* ===== verification/VirtioMigrate.v ===== *)
(** * Saving and loading virtio devices

    Model of the migration of a virtio device on the MMIO transport:
    [virtio_save] and [virtio_load] of [src/host-qemu/hw/virtio/virtio.c] with the
    three optional subsections, the registers of the transport
    ([virtio_mmio_save_config], [virtio_mmio_load_config]), the devices' own
    parts, the framing of subsections of [src/host-qemu/migration/vmstate.c] and
    the big-endian stream of [src/host-qemu/migration/qemu-file.c].  Saving gives
    the bytes that are written; loading consumes a stream. *)

From Stdlib Require Import String Ascii.
From S2P Require Import Prelude CArray Virtqueue VirtioMmio VirtioDevs.

(** ** The stream *)

(** A [QEMUFile] that is read: the bytes to come, and the first error. *)
Record QEMUFile : Type := mkFile {
  f_data : list Z;
  last_error : Z
}.

Definition ERR_IO : Z := 5.
Definition ERR_NOENT : Z := 2.

Definition qemu_file_set_error (f : QEMUFile) (e : Z) : QEMUFile :=
  if last_error f =? 0 then {| f with last_error := e |} else f.

(** Peeking beyond the end of the stream is an error. *)
Definition qemu_peek_byte (f : QEMUFile) (offset : nat) : Z * QEMUFile :=
  match f_data f !! offset with
  | Some b => (b, f)
  | None => (0, qemu_file_set_error f (- ERR_IO))
  end.

Definition qemu_file_skip (f : QEMUFile) (n : nat) : QEMUFile :=
  if (n <=? length (f_data f))%nat then {| f with f_data := drop n (f_data f) |} else f.

Definition qemu_get_byte (f : QEMUFile) : Z * QEMUFile :=
  let '(b, f) := qemu_peek_byte f 0 in (b, qemu_file_skip f 1).

Definition qemu_peek_buffer (f : QEMUFile) (size offset : nat) : list Z * QEMUFile :=
  let bs := take size (drop offset (f_data f)) in
  (bs, if (length bs <? size)%nat then qemu_file_set_error f (- ERR_IO) else f).

(** [qemu_get_buffer]: fewer bytes at the end of the stream *)
Definition qemu_get_buffer (f : QEMUFile) (size : nat) : list Z * QEMUFile :=
  let '(bs, f) := qemu_peek_buffer f size 0 in (bs, {| f with f_data := drop (length bs) (f_data f) |}).

Definition qemu_get_be16 (f : QEMUFile) : Z * QEMUFile :=
  let '(b1, f) := qemu_get_byte f in
  let '(b0, f) := qemu_get_byte f in
  (Z.lor (Z.shiftl b1 8) b0, f).

Definition qemu_get_be32 (f : QEMUFile) : Z * QEMUFile :=
  let '(b3, f) := qemu_get_byte f in
  let '(b2, f) := qemu_get_byte f in
  let '(b1, f) := qemu_get_byte f in
  let '(b0, f) := qemu_get_byte f in
  (Z.lor (Z.lor (Z.lor (Z.shiftl b3 24) (Z.shiftl b2 16)) (Z.shiftl b1 8)) b0, f).

Definition qemu_get_be64 (f : QEMUFile) : Z * QEMUFile :=
  let '(hi, f) := qemu_get_be32 f in
  let '(lo, f) := qemu_get_be32 f in
  (Z.lor (Z.shiftl hi 32) lo, f).

(** What the writing functions append. *)
Definition qemu_put_byte (v : Z) : list Z := [u8 v].
Definition qemu_put_be16 (v : Z) : list Z := qemu_put_byte (Z.shiftr v 8) ++ qemu_put_byte v.
Definition qemu_put_be32 (v : Z) : list Z :=
  qemu_put_byte (Z.shiftr v 24) ++ qemu_put_byte (Z.shiftr v 16) ++ qemu_put_byte (Z.shiftr v 8) ++ qemu_put_byte v.
Definition qemu_put_be64 (v : Z) : list Z := qemu_put_be32 (u32 (Z.shiftr v 32)) ++ qemu_put_be32 (u32 v).

(** ** Subsections *)

Definition QEMU_VM_SUBSECTION : Z := 5.

(** A subsection of a device: its name, whether it is needed, and its fields. *)
Record VMStateDescription : Type := mkVMSD {
  vmsd_name : list Z;
  vmsd_needed : VirtIODevice -> bool;
  vmsd_put : VirtIODevice -> list Z;
  vmsd_get : VirtIODevice -> QEMUFile -> VirtIODevice * QEMUFile
}.

Definition name_bytes (s : string) : list Z := (fun a => Z.of_N (N_of_ascii a)) <$> list_ascii_of_string s.

(** [vmstate_subsection_save] *)
Fixpoint vmstate_subsection_save (subs : list VMStateDescription) (d : VirtIODevice) : list Z :=
  match subs with
  | [] => []
  | v :: subs' =>
      (if vmsd_needed v d then
         qemu_put_byte QEMU_VM_SUBSECTION ++ qemu_put_byte (Z.of_nat (length (vmsd_name v))) ++ vmsd_name v
           ++ qemu_put_be32 1 ++ vmsd_put v d
       else []) ++ vmstate_subsection_save subs' d
  end.

(** [vmstate_get_subsection] *)
Definition vmstate_get_subsection (subs : list VMStateDescription) (idstr : list Z) : option VMStateDescription :=
  snd <$> list_find (fun v => c_string idstr = vmsd_name v) subs.

(** The tests at the start of a round of [vmstate_subsection_load]: whether a
    subsection of the section [name] follows, and its name. *)
Definition peek_subsection (name : list Z) (f : QEMUFile) : option (list Z) * QEMUFile :=
  let '(t, f) := qemu_peek_byte f 0 in
  if negb (t =? QEMU_VM_SUBSECTION) then (None, f) else
  let '(len, f) := qemu_peek_byte f 1 in
  if len <? Z.of_nat (length name) + 1 then (None, f) else
  let '(idstr, f) := qemu_peek_buffer f (Z.to_nat len) 2 in
  if negb (Z.of_nat (length idstr) =? len) then (None, f) else
  if negb (list_eqb (take (length name) idstr) name) then (None, f) else
  (Some idstr, f).

(** [vmstate_load_state] of a subsection: the version, the fields, and no
    subsection of its own. *)
Definition vmstate_load_sub (v : VMStateDescription) (d : VirtIODevice) (f : QEMUFile) (version_id : Z)
    : Z * VirtIODevice * QEMUFile :=
  if negb (version_id =? 1) then (- EINVAL, d, f) else
  let '(d, f) := vmsd_get v d f in
  if last_error f <? 0 then (last_error f, d, f) else
  let '(sub, f) := peek_subsection (vmsd_name v) f in
  match sub with
  | None => (0, d, f)
  | Some _ => (- ERR_NOENT, d, f)
  end.

(** [vmstate_subsection_load]; each round consumes bytes of the stream. *)
Fixpoint vmstate_subsection_load (fuel : nat) (name : list Z) (subs : list VMStateDescription)
    (d : VirtIODevice) (f : QEMUFile) : outcome (Z * VirtIODevice * QEMUFile) :=
  match fuel with
  | O => Crash OutOfFuel
  | S k =>
      let '(sub, f) := peek_subsection name f in
      match sub with
      | None => Done (0, d, f)
      | Some idstr =>
          match vmstate_get_subsection subs idstr with
          | None => Done (- ERR_NOENT, d, f)
          | Some v =>
              let f := qemu_file_skip (qemu_file_skip (qemu_file_skip f 1) 1) (length idstr) in
              let '(version_id, f) := qemu_get_be32 f in
              let '(ret, d, f) := vmstate_load_sub v d f (u8 version_id) in
              if negb (ret =? 0) then Done (ret, d, f) else vmstate_subsection_load k name subs d f
          end
      end
  end.

(** The three subsections of a virtio device *)

Definition endian_byte (e : virtio_device_endian) : Z :=
  match e with
  | VIRTIO_DEVICE_ENDIAN_UNKNOWN => 0
  | VIRTIO_DEVICE_ENDIAN_LITTLE => 1
  | VIRTIO_DEVICE_ENDIAN_BIG => 2
  end.
(** A byte that is no byte order is treated as little-endian, as
    [virtio_is_big_endian] does. *)
Definition byte_endian (b : Z) : virtio_device_endian :=
  if b =? 0 then VIRTIO_DEVICE_ENDIAN_UNKNOWN else
  if b =? 2 then VIRTIO_DEVICE_ENDIAN_BIG else VIRTIO_DEVICE_ENDIAN_LITTLE.

(** [virtio_default_endian], on ARM *)
Definition virtio_default_endian : virtio_device_endian := VIRTIO_DEVICE_ENDIAN_LITTLE.

(** [virtio_device_endian_needed]; the assertion is made by [virtio_save]. *)
Definition virtio_device_endian_needed (d : VirtIODevice) : bool :=
  if negb (virtio_has_feature d VIRTIO_F_VERSION_1)
  then bool_decide (device_endian d <> virtio_default_endian)
  else bool_decide (device_endian d <> VIRTIO_DEVICE_ENDIAN_LITTLE).

Definition virtio_64bit_features_needed (d : VirtIODevice) : bool := negb (Z.shiftr (host_features d) 32 =? 0).
Definition virtio_virtqueue_needed (d : VirtIODevice) : bool := flag_set (host_features d) (bit VIRTIO_F_VERSION_1).

Definition put_virtqueue_state (d : VirtIODevice) : list Z :=
  concat ((fun q => qemu_put_be64 (avail (vring q)) ++ qemu_put_be64 (used (vring q))) <$> vq d).

Fixpoint get_virtqueues (qs : list VirtQueue) (f : QEMUFile) : list VirtQueue * QEMUFile :=
  match qs with
  | [] => ([], f)
  | q :: qs' =>
      let '(a, f) := qemu_get_be64 f in
      let '(u, f) := qemu_get_be64 f in
      let r := vring q in
      let '(qs', f) := get_virtqueues qs' f in
      ({| q with vring := mkVRing (num r) (align r) (desc r) a u |} :: qs', f)
  end.

Definition get_virtqueue_state (d : VirtIODevice) (f : QEMUFile) : VirtIODevice * QEMUFile :=
  let '(qs, f) := get_virtqueues (vq d) f in ({| d with vq := qs |}, f).

Definition vmstate_virtio_device_endian : VMStateDescription :=
  mkVMSD (name_bytes "virtio/device_endian") virtio_device_endian_needed
    (fun d => qemu_put_byte (endian_byte (device_endian d)))
    (fun d f => let '(b, f) := qemu_get_byte f in ({| d with device_endian := byte_endian b |}, f)).

Definition vmstate_virtio_64bit_features : VMStateDescription :=
  mkVMSD (name_bytes "virtio/64bit_features") virtio_64bit_features_needed
    (fun d => qemu_put_be64 (guest_features d))
    (fun d f => let '(v, f) := qemu_get_be64 f in ({| d with guest_features := v |}, f)).

Definition vmstate_virtio_virtqueues : VMStateDescription :=
  mkVMSD (name_bytes "virtio/virtqueues") virtio_virtqueue_needed put_virtqueue_state get_virtqueue_state.

Definition virtio_subsections : list VMStateDescription :=
  [vmstate_virtio_device_endian; vmstate_virtio_64bit_features; vmstate_virtio_virtqueues].

Definition vmstate_virtio_name : list Z := name_bytes "virtio".

(** [vmstate_load_state(f, &vmstate_virtio, vdev, 1)] *)
Definition vmstate_load_virtio (d : VirtIODevice) (f : QEMUFile) : outcome (Z * VirtIODevice * QEMUFile) :=
  vmstate_subsection_load (4 + length (f_data f)) vmstate_virtio_name virtio_subsections d f.

(** ** The device *)

(** The methods [save] and [load] of a device class, where it has them. *)
Record VirtioSaveClass (B : Type) : Type := mkSaveClass {
  k_save : option (B -> list Z);
  k_load : option (vstate B -> QEMUFile -> outcome (Z * vstate B * QEMUFile))
}.
Arguments mkSaveClass {B}.
Arguments k_save {B}.
Arguments k_load {B}.

Section migrate.
Context {B : Type} (k : VirtioDeviceClass B) (ks : VirtioSaveClass B).
Implicit Types s : vstate B.

(** [virtio_mmio_save_config] and [virtio_mmio_load_config] *)
Definition virtio_mmio_save_config (p : VirtIOMMIOProxy) : list Z :=
  qemu_put_be32 (host_features_sel p) ++ qemu_put_be32 (guest_features_sel p) ++ qemu_put_be32 (guest_page_shift p).

Definition virtio_mmio_load_config s (f : QEMUFile) : vstate B * QEMUFile :=
  let '(h, f) := qemu_get_be32 f in
  let '(g, f) := qemu_get_be32 f in
  let '(sh, f) := qemu_get_be32 f in
  (mod_proxy s (fun p =>
     let p := {| {| p with host_features_sel := h |} with guest_features_sel := g |} in
     {| p with guest_page_shift := sh |}), f).

(** The loop over the queues that exist; the transport has a variable alignment
    and nothing of its own to save per queue. *)
Definition save_queue (q : VirtQueue) : list Z :=
  qemu_put_be32 (num (vring q)) ++ qemu_put_be32 (align (vring q)) ++ qemu_put_be64 (desc (vring q))
    ++ qemu_put_be16 (last_avail_idx q).

Fixpoint save_queues (qs : list VirtQueue) : list Z :=
  match qs with
  | [] => []
  | q :: qs' => if num (vring q) =? 0 then [] else save_queue q ++ save_queues qs'
  end.

Definition virtio_save s : outcome (list Z) :=
  let d := vdev s in
  if bool_decide (device_endian d = VIRTIO_DEVICE_ENDIAN_UNKNOWN) then Crash AssertFailed else
  Done (virtio_mmio_save_config (proxy s)
    ++ qemu_put_byte (status d) ++ qemu_put_byte (isr d) ++ qemu_put_be16 (queue_sel d)
    ++ qemu_put_be32 (Z.land (guest_features d) 0xffffffff)
    ++ qemu_put_be32 (config_len s) ++ config d
    ++ qemu_put_be32 (first_free (vq d) 0) ++ save_queues (vq d)
    ++ match k_save ks with Some sv => sv (backend s) | None => [] end
    ++ vmstate_subsection_save virtio_subsections d).

(** Bytes of a longer configuration space that are skipped. *)
Definition skip_bytes (f : QEMUFile) (n : Z) : QEMUFile :=
  if n <=? Z.of_nat (length (f_data f)) then {| f with f_data := drop (Z.to_nat n) (f_data f) |}
  else qemu_file_set_error {| f with f_data := [] |} (- ERR_IO).

(** One round of the loop over the queues. *)
Definition load_queue s (i : Z) (f : QEMUFile) : outcome (Z * vstate B * QEMUFile) :=
  let '(nm, f) := qemu_get_be32 f in
  let '(al, f) := qemu_get_be32 f in
  let '(de, f) := qemu_get_be64 f in
  let '(la, f) := qemu_get_be16 f in
  s ← mod_vq s i (fun q =>
    let r := vring q in
    let q := {| q with vring := mkVRing nm al de (avail r) (used r) |} in
    let q := {| {| q with last_avail_idx := la |} with signalled_used_valid := false |} in
    {| q with notification := true |});
  if negb (de =? 0) then s ← virtio_queue_update_rings s i; Done (0, s, f)
  else Done (if la =? 0 then 0 else -1, s, f).

Fixpoint load_queues (n : nat) s (i : Z) (f : QEMUFile) : outcome (Z * vstate B * QEMUFile) :=
  match n with
  | O => Done (0, s, f)
  | S n' =>
      '(ret, s, f) ← load_queue s i f;
      if negb (ret =? 0) then Done (ret, s, f) else load_queues n' s (i + 1) f
  end.

(** The last loop: the indices of the queues must be consistent. *)
Fixpoint check_heads (n : nat) s (i : Z) : outcome bool :=
  match n with
  | O => Done true
  | S n' =>
      q ← get_vq s i;
      if negb (desc (vring q) =? 0)
         && (u16 (vring_avail_idx (mem s) (big s) q - last_avail_idx q) >? num (vring q))
      then Done false else check_heads n' s (i + 1)
  end.

(** The configuration space: as much as fits, the rest is skipped.  The length
    is an [int32_t] that is compared as a [size_t]; a negative one makes the
    loop go through all of [int]. *)
Definition load_config_space s (f : QEMUFile) : vstate B * QEMUFile :=
  let '(cl, f) := qemu_get_be32 f in
  let '(bs, f) := qemu_get_buffer f (Z.to_nat (Z.min (u64 (s32 cl)) (config_len s))) in
  let f := skip_bytes f (Z.max 0 (u32 cl - config_len s)) in
  (mod_vdev s (fun d => {| d with config := blit (config d) 0 bs |}), f).

(** What follows the queues: the device's part, the subsections, the features. *)
Definition load_rest s (features : Z) (num_queues : nat) (f : QEMUFile) : outcome (Z * vstate B * QEMUFile) :=
  let s := virtio_notify_vector s in
  '(ret, s, f) ← match k_load ks with Some ld => ld s f | None => Done (0, s, f) end;
  if negb (ret =? 0) then Done (ret, s, f) else
  '(ret, d, f) ← vmstate_load_virtio (vdev s) f;
  let s := set_vdev s d in
  if negb (ret =? 0) then Done (ret, s, f) else
  let s := if bool_decide (device_endian (vdev s) = VIRTIO_DEVICE_ENDIAN_UNKNOWN)
           then mod_vdev s (fun d => {| d with device_endian := virtio_default_endian |}) else s in
  let feats := if virtio_64bit_features_needed (vdev s) then guest_features (vdev s) else features in
  let '(r, s) := virtio_set_features_nocheck k s feats in
  if r <? 0 then Done (-1, s, f) else
  ok ← check_heads num_queues s 0;
  Done (if (ok : bool) then 0 else -1, s, f).

Definition virtio_load s (f : QEMUFile) : outcome (Z * vstate B * QEMUFile) :=
  let s := mod_vdev s (fun d => {| d with device_endian := VIRTIO_DEVICE_ENDIAN_UNKNOWN |}) in
  let '(s, f) := virtio_mmio_load_config s f in
  let '(st, f) := qemu_get_byte f in
  let '(isr0, f) := qemu_get_byte f in
  let '(sel, f) := qemu_get_be16 f in
  let s := mod_vdev s (fun d => {| {| {| d with status := st |} with isr := isr0 |} with queue_sel := sel |}) in
  if sel >=? VIRTIO_QUEUE_MAX then Done (-1, s, f) else
  let '(features, f) := qemu_get_be32 f in
  let '(s, f) := load_config_space s f in
  let '(nq, f) := qemu_get_be32 f in
  if nq >? VIRTIO_QUEUE_MAX then Done (-1, s, f) else
  '(ret, s, f) ← load_queues (Z.to_nat nq) s 0 f;
  if negb (ret =? 0) then Done (ret, s, f) else
  load_rest s features (Z.to_nat nq) f.

(** [virtio_msg_load] and [virtio_tp_load]: the version of the section is 2. *)
Definition load_section s (f : QEMUFile) (version_id : Z) : outcome (Z * vstate B * QEMUFile) :=
  if negb (version_id =? 2) then Done (- EINVAL, s, f) else virtio_load s f.
End migrate.

(** ** Notifiers *)

(** [NotifierList]: the functions to call when the state of a migration
    changes; [None] is a null pointer. *)
Section notifiers.
Context {W : Type}.

Definition notifier_list_add (l : list (option (W -> W))) (n : option (W -> W)) : list (option (W -> W)) := n :: l.

Fixpoint notifier_list_notify (l : list (option (W -> W))) (w : W) : outcome W :=
  match l with
  | [] => Done w
  | None :: _ => Crash NullDeref
  | Some f :: l' => notifier_list_notify l' (f w)
  end.

(** What [virtio_msg_device_realize] and [virtio_tp_device_realize] register. *)
Definition realize_notifier (l : list (option (W -> W))) : list (option (W -> W)) := notifier_list_add l None.
End notifiers.

(** The entries of [vm_change_state_head], by their addresses. *)
Definition qemu_del_vm_change_state_handler (l : list Z) (e : Z) : outcome (list Z) :=
  if e =? 0 then Crash NullDeref
  else if decide (e ∈ l) then Done (filter (fun x => x <> e) l) else Crash BadPointer.

(** [virtio_msg_device_unrealize] and [virtio_tp_device_unrealize] on the entries:
    [change] is the field of the device, which nothing sets after the device was
    allocated with zeros; [vmstate] is the entry [virtio_init] added, which
    [virtio_cleanup] removes. *)
Definition device_unrealize (change vmstate : Z) (l : list Z) : outcome (list Z) :=
  l ← qemu_del_vm_change_state_handler l change;
  qemu_del_vm_change_state_handler l vmstate.

(** ** The two devices *)

(** The devices save the request [rq], if there is one, as the bytes of the
    structure in the memory of the host: [image] gives them, pointers, padding
    and array entries that were never set included. *)
Section devices.
Variable image : VirtQueueElement -> list Z.

(** Offsets in [VirtQueueElement], and its size. *)
Definition ELEM_in_addr : Z := 16.
Definition ELEM_out_addr : Z := 8208.
Definition ELEM_in_sg : Z := 16400.
Definition ELEM_out_sg : Z := 32784.
Definition SIZEOF_VirtQueueElement : Z := 49168.

(** [virtio_msg_save_device] and [virtio_tp_save_device] *)
Definition save_request (rq : option VirtQueueElement) : list Z :=
  match rq with Some e => qemu_put_byte 1 ++ image e | None => [] end ++ qemu_put_byte 0.

Definition word_at (img : list Z) (off : Z) (n : nat) : Z := of_le (take n (drop (Z.to_nat off) img)).

(** [num] addresses or buffers of the structure *)
Definition addrs_at (img : list Z) (off n : Z) : list Z :=
  (fun i => word_at img (off + 8 * i) 8) <$> seqZ 0 n.
Definition iovs_at (img : list Z) (off n : Z) : list iovec :=
  (fun i => mkIov Uninit (word_at img (off + 16 * i + 8) 8)) <$> seqZ 0 n.

(** [virtio_msg_load_device] and [virtio_tp_load_device]: the request, mapped.  A
    stream that ends within the structure leaves a part of it unset. *)
Definition load_request {B} (set_rq : VirtQueueElement -> B -> B) (s : vstate B) (f : QEMUFile)
    : outcome (Z * vstate B * QEMUFile) :=
  let '(b, f) := qemu_get_byte f in
  if b =? 0 then Done (0, s, f) else
  let '(img, f) := qemu_get_buffer f (Z.to_nat SIZEOF_VirtQueueElement) in
  if Z.of_nat (length img) <? SIZEOF_VirtQueueElement then Crash BadPointer else
  let out_num := word_at img 4 4 in
  let in_num := word_at img 8 4 in
  let ia := addrs_at img ELEM_in_addr in_num in
  let oa := addrs_at img ELEM_out_addr out_num in
  '(isg, m) ← virtqueue_map_sg (mem s) (iovs_at img ELEM_in_sg in_num) ia true;
  '(osg, m) ← virtqueue_map_sg m (iovs_at img ELEM_out_sg out_num) oa false;
  Done (0, set_backend (set_mem s m) (set_rq (mkElem (word_at img 0 4) ia oa isg osg) (backend s)), f).

Definition virtio_msg_save_class {H} : VirtioSaveClass (VirtIOMsg H) :=
  mkSaveClass (Some (fun b => save_request (msg_rq b)))
    (Some (load_request (fun e b => {| b with msg_rq := Some e |}))).

Definition virtio_tp_save_class : VirtioSaveClass VirtIOTp :=
  mkSaveClass (Some (fun b => save_request (tp_rq b)))
    (Some (load_request (fun e b => {| b with tp_rq := Some e |}))).
End devices.
