(* ===== verification/VirtioMmioProofs.v ===== *)
(** * The MMIO transport: invariant and safety

    What a device class promises to the transport ([DeviceLaws]), the invariant
    of a transport with such a device, and that every access of the guest, every
    notification and every reset keeps it: the registers stay within their
    widths, a queue never appears or vanishes, the interrupt line is the
    interrupt status, and the event descriptors are those of the existing queues
    while they are started and none otherwise. *)

From S2P Require Import Prelude CArray Virtqueue VirtqueueProofs VirtioMmio.

Section invariant.
Context {B : Type}.
Implicit Types s : vstate B.

(** Queue [i] exists. *)
Definition exists_queue s (i : Z) : Prop := 0 <= i < VIRTIO_QUEUE_MAX /\ num (vring (queue s i)) <> 0.

(** The part of the invariant that holds also while the event descriptors are
    set up or taken away. *)
Record core_ok s : Prop := {
  co_rings : rings_ok s;
  co_bounce : bounce (mem s) = None;
  co_status : in_range 8 (status (vdev s));
  co_isr : in_range 8 (isr (vdev s));
  co_sel : 0 <= queue_sel (vdev s) < VIRTIO_QUEUE_MAX;
  co_features : 0 <= host_features (vdev s) /\ 0 <= guest_features (vdev s) /\
                Z.land (guest_features (vdev s)) (Z.lnot (host_features (vdev s))) = 0;
  co_config : Forall (in_range 8) (config (vdev s));
  co_shift : 0 <= guest_page_shift (proxy s) <= 31;
  co_sels : in_range 32 (host_features_sel (proxy s)) /\ in_range 32 (guest_features_sel (proxy s));
  co_irq : irq (proxy s) = negb (isr (vdev s) =? 0)
}.

(** What no operation but the setup of the event descriptors changes. *)
Record frame s s' : Prop := {
  fr_exists : forall i, exists_queue s' i <-> exists_queue s i;
  fr_fds : ioeventfds (proxy s') = ioeventfds (proxy s);
  fr_started : ioeventfd_started (proxy s') = ioeventfd_started (proxy s);
  fr_config : length (config (vdev s')) = length (config (vdev s))
}.

Lemma dev_frame_refl s : frame s s.
Proof. by split. Qed.

Lemma dev_frame_trans s1 s2 s3 : frame s1 s2 -> frame s2 s3 -> frame s1 s3.
Proof.
  intros [E1 F1 S1 C1] [E2 F2 S2 C2]. split; [|congruence..].
  intros i. by rewrite E2, E1.
Qed.

(** The whole invariant of a transport between two operations. *)
Record mmio_ok (size : nat) s : Prop := {
  mo_core : core_ok s;
  mo_size : length (config (vdev s)) = size;
  mo_fds : forall i, i ∈ ioeventfds (proxy s) <-> ioeventfd_started (proxy s) = true /\ exists_queue s i
}.

(** The state changes in ways the invariant does not depend on. *)
Definition kept s s' : Prop := core_ok s' /\ frame s s'.

Lemma dev_kept_refl s : core_ok s -> kept s s.
Proof. intros. split; [done|apply dev_frame_refl]. Qed.

Lemma dev_kept_trans s1 s2 s3 : kept s1 s2 -> kept s2 s3 -> kept s1 s3.
Proof. intros [_ F1] [C2 F2]. split; [done|by eapply dev_frame_trans]. Qed.

Lemma safe_kept s s1 (m : outcome (vstate B)) : kept s s1 -> safe (kept s1) m -> safe (kept s) m.
Proof. intros Hk Hm. eapply safe_mono; [exact Hm|]. intros s'. by apply dev_kept_trans. Qed.
End invariant.

(** What a device class promises: its handler returns or exits, whatever the
    guest put on the queue, and leaves the transport alone; it fills a
    configuration space of [size] bytes. *)
Class DeviceLaws {B} (k : VirtioDeviceClass B) (size : nat) : Prop := {
  law_handle_output : forall (s : vstate B) n,
    core_ok s -> exists_queue s n -> safe (kept s) (k_handle_output k s n);
  law_get_config : forall b cfg, Forall (in_range 8) cfg -> length cfg = size ->
    Forall (in_range 8) (k_get_config k b cfg) /\ length (k_get_config k b cfg) = size
}.

Section transport.
Context {B : Type} (k : VirtioDeviceClass B) (size : nat) `{!DeviceLaws k size}.
Context (kvm_eventfds_enabled : bool) (event_notifier_init : Z -> Z).
Implicit Types s : vstate B.

(** ** Operations that change the device but not its queues *)

Lemma kept_backend s b : core_ok s -> kept s (set_backend s b).
Proof. intros [[Hm Hq] ? ? ? ? ? ? ? ? ?]. split; split; done. Qed.

Lemma kept_vdev s d :
  core_ok s -> vq d = vq (vdev s) -> in_range 8 (status d) -> isr d = isr (vdev s) ->
  0 <= queue_sel d < VIRTIO_QUEUE_MAX ->
  (0 <= host_features d /\ 0 <= guest_features d /\ Z.land (guest_features d) (Z.lnot (host_features d)) = 0) ->
  Forall (in_range 8) (config d) -> length (config d) = length (config (vdev s)) ->
  kept s (set_vdev s d).
Proof.
  intros [[Hm Hq] Hb Hst Hisr Hsel Hf Hc Hsh Hse Hirq] Evq H1 H2 H3 H4 H5 H6.
  split; split; cbn; rewrite ?H2; try done.
  - split; cbn; [done|by rewrite Evq].
  - intros i. unfold exists_queue, queue. cbn. by rewrite Evq.
Qed.

Lemma virtio_set_status_kept s v : core_ok s -> in_range 8 v -> kept s (virtio_set_status k s v).2.
Proof.
  intros Hs Hv. unfold virtio_set_status. cbv zeta. destruct (negb _); [by apply dev_kept_refl|]. cbn.
  eapply dev_kept_trans; [by apply kept_backend|]. destruct (kept_backend s (call_opt (k_set_status k) v (backend s)) Hs) as [Hs1 _].
  destruct Hs1. apply kept_vdev; by (done || split).
Qed.

(** A change of the interrupt status with the update of the line. *)
Lemma kept_notify s d :
  core_ok s -> vq d = vq (vdev s) -> in_range 8 (status d) -> in_range 8 (isr d) ->
  0 <= queue_sel d < VIRTIO_QUEUE_MAX ->
  (0 <= host_features d /\ 0 <= guest_features d /\ Z.land (guest_features d) (Z.lnot (host_features d)) = 0) ->
  config d = config (vdev s) -> kept s (virtio_notify_vector (set_vdev s d)).
Proof.
  intros [[Hm Hq] Hb Hst Hisr Hsel Hf Hc Hsh Hse Hirq] Evq H1 H2 H3 H4 H5.
  split; split; cbn; try done; rewrite ?H5; try done.
  - split; cbn; [done|by rewrite Evq].
  - intros i. unfold exists_queue, queue. cbn. by rewrite Evq.
Qed.

Lemma reset_queue_ok q : queue_ok q -> queue_ok (reset_queue q).
Proof. intros []. split; cbn; try done; unfold in_range; lia. Qed.

Lemma kept_reset_queues s :
  core_ok s -> kept s (mod_vdev s (fun d => {| d with vq := reset_queue <$> vq d |})).
Proof.
  intros [[Hm [Hlen Hq]] Hb Hst Hisr Hsel Hf Hc Hsh Hse Hirq].
  split; split; cbn; try done.
  - split; cbn; [done|]. split; [by rewrite length_fmap|].
    rewrite Forall_fmap. eapply Forall_impl; [exact Hq|]. intros q. by apply reset_queue_ok.
  - intros i. unfold exists_queue, queue. cbn. split; intros [Hi Hn]; (split; [done|]); revert Hn.
    all: replace (at_ (reset_queue <$> vq (vdev s)) i) with (reset_queue (at_ (vq (vdev s)) i)); [done|].
    all: unfold at_; symmetry; apply list_lookup_total_fmap; unfold VIRTIO_QUEUE_MAX in *; lia.
Qed.

(** The fields a reset clears, with the interrupt line. *)
Lemma kept_clear s :
  core_ok s ->
  kept s (virtio_notify_vector (mod_vdev s (fun d =>
    let d := {| {| d with guest_features := 0 |} with queue_sel := 0 |} in
    let d := {| {| d with status := 0 |} with isr := 0 |} in
    {| d with config_vector := VIRTIO_NO_VECTOR |}))).
Proof.
  intros Hs. pose proof (co_features s Hs) as [Hf _].
  by apply kept_notify.
Qed.

Lemma kept_endian s e : core_ok s -> kept s (mod_vdev s (fun d => {| d with device_endian := e |})).
Proof. intros []. apply kept_vdev; by (done || split). Qed.

Lemma virtio_reset_kept s cpu : core_ok s -> kept s (virtio_reset k s cpu).
Proof.
  intros Hs. unfold virtio_reset. cbv zeta.
  assert (H0 : in_range 8 0) by (unfold in_range; lia).
  pose proof (virtio_set_status_kept s 0 Hs H0) as K1. set (s1 := (virtio_set_status k s 0).2) in *. clearbody s1.
  eapply dev_kept_trans; [exact K1|]. destruct K1 as [C1 _].
  match goal with |- kept s1 ?s' => set (e := match cpu with Some true => _ | _ => _ end) end.
  eapply dev_kept_trans; [exact (kept_endian s1 e C1)|].
  pose proof (proj1 (kept_endian s1 e C1)) as C2. set (s2 := mod_vdev s1 _) in *. clearbody s2 e.
  set (b := match k_reset k with Some f => f (backend s2) | None => backend s2 end).
  eapply dev_kept_trans; [exact (kept_backend s2 b C2)|].
  pose proof (proj1 (kept_backend s2 b C2)) as C3. set (s3 := set_backend s2 b) in *. clearbody s3.
  eapply dev_kept_trans; [exact (kept_clear s3 C3)|]. apply kept_reset_queues, kept_clear, C3.
Qed.

(** ** The configuration space *)

Lemma blit_ok cfg off bs : Forall (in_range 8) cfg -> Forall (in_range 8) bs -> Forall (in_range 8) (blit cfg off bs).
Proof.
  intros. unfold blit. rewrite !Forall_app. repeat split; [by apply Forall_take|done|by apply Forall_drop].
Qed.

Lemma virtio_config_read_kept s a n :
  core_ok s -> length (config (vdev s)) = size -> kept s (virtio_config_read k s a n).2.
Proof.
  intros Hs Hlen. unfold virtio_config_read. destruct (_ >? _); [by apply dev_kept_refl|]. cbn.
  destruct Hs as [? ? ? ? ? ? Hc ? ? ?].
  destruct (law_get_config (backend s) _ Hc Hlen) as [H1 H2].
  apply kept_vdev; cbn; by (done || split || congruence).
Qed.

Lemma virtio_config_write_kept s a n v :
  core_ok s -> 0 <= a -> kept s (virtio_config_write k s a n v).
Proof.
  intros Hs Ha. unfold virtio_config_write. destruct (_ >? _) eqn:E; [by apply dev_kept_refl|]. cbv zeta.
  match goal with |- kept s (set_backend ?s1 _) => assert (K1 : kept s s1) end.
  { destruct Hs as [? ? ? ? ? ? Hc ? ? ?]. apply kept_vdev; cbn; try done; [by apply blit_ok, le_bytes_ok|].
    apply length_blit. rewrite length_le_bytes. unfold config_len in E. zb. lia. }
  eapply dev_kept_trans; [exact K1|]. apply kept_backend, K1.
Qed.

(** ** Changing one queue *)

Lemma kept_queue s n f :
  core_ok s -> 0 <= n < VIRTIO_QUEUE_MAX -> queue_ok (f (queue s n)) ->
  (num (vring (f (queue s n))) = 0 <-> num (vring (queue s n)) = 0) ->
  kept s (upd_queue s n f).
Proof.
  intros [Hr Hb Hst Hisr Hsel Hf Hc Hsh Hse Hirq] Hn Hq Hz. split; split; try done.
  - by apply rings_ok_upd.
  - intros i. unfold exists_queue. destruct (decide (i = n)) as [->|Hne].
    + rewrite queue_upd by done. tauto.
    + split; intros [Hi Hx]; (split; [done|]); rewrite queue_upd_ne in *; lia || done.
Qed.

(** The rings of a queue that is set up anew. *)
Lemma update_rings_ok q r :
  queue_ok q -> 0 <= num r <= VIRTQUEUE_MAX_SIZE -> in_range 32 (align r) -> in_range 64 (desc r) ->
  in_range 64 (avail r) -> in_range 64 (used r) -> (num r = 0 <-> num (vring q) = 0) ->
  queue_ok {| q with vring := update_rings r |}.
Proof.
  intros [] Hnum Hal Hd Ha Hu Hz. unfold update_rings. destruct (desc r =? 0).
  { split; cbn; try done. naive_solver. }
  assert (Hav : in_range 64 (u64 (desc r + num r * SIZEOF_VRingDesc))) by (apply wrap_range; lia).
  split; cbn; try done; [|naive_solver].
  unfold vring_align. rewrite Z.land_comm.
  assert (Hw := wrap_range 64 (u64 (u64 (desc r + num r * SIZEOF_VRingDesc) + 4 + 2 * num r) + align r - 1)).
  apply in_range_bits; [lia|]. apply in_range_bits in Hw; [|lia..]. destruct Hw as [W1 W2]. split.
  - apply Z.land_nonneg. by right.
  - intros i Hi. rewrite Z.land_spec, W2 by done. apply andb_false_r.
Qed.

Lemma kept_update_rings s n :
  core_ok s -> 0 <= n < VIRTIO_QUEUE_MAX ->
  kept s (upd_queue s n (fun q => {| q with vring := update_rings (vring q) |})).
Proof.
  intros Hs Hn. pose proof (queue_ok_at s n (co_rings s Hs) Hn) as Hq.
  apply kept_queue; [done|done| |].
  - destruct Hq. apply update_rings_ok; done.
  - cbn. unfold update_rings. by destruct (_ =? 0).
Qed.

(** Setting a field of the ring of queue [n], then its rings. *)
Lemma kept_set_ring s n (f : VRing -> VRing) :
  core_ok s -> 0 <= n < VIRTIO_QUEUE_MAX ->
  let q := queue s n in
  queue_ok {| q with vring := f (vring q) |} ->
  (num (f (vring q)) = 0 <-> num (vring q) = 0) ->
  safe (kept s) (s ← mod_vq s n (fun q => {| q with vring := f (vring q) |}); virtio_queue_update_rings s n).
Proof.
  intros Hs Hn q Hq Hz. rewrite mod_vq_in by (done || apply Hs). cbn [mbind outcome_bind].
  assert (K : kept s (upd_queue s n (fun q => {| q with vring := f (vring q) |}))) by by apply kept_queue.
  unfold virtio_queue_update_rings. rewrite mod_vq_in; [|apply K|done].
  eapply dev_kept_trans; [exact K|]. apply kept_update_rings; [apply K|done].
Qed.

Lemma virtio_queue_set_addr_kept s n a :
  core_ok s -> 0 <= n < VIRTIO_QUEUE_MAX -> in_range 64 a -> safe (kept s) (virtio_queue_set_addr s n a).
Proof.
  intros Hs Hn Ha. apply (kept_set_ring s n (fun r => {| r with desc := a |})); [done|done| |done].
  destruct (queue_ok_at s n (co_rings s Hs) Hn). by split.
Qed.

Lemma virtio_queue_set_align_kept s n a :
  core_ok s -> 0 <= n < VIRTIO_QUEUE_MAX -> safe (kept s) (virtio_queue_set_align s n a).
Proof.
  intros Hs Hn. unfold virtio_queue_set_align. destruct (virtio_has_feature _ _); [by apply dev_kept_refl|].
  apply (kept_set_ring s n (fun r => {| r with align := u32 a |})); [done|done| |done].
  destruct (queue_ok_at s n (co_rings s Hs) Hn). split; cbn; try done. apply wrap_range. lia.
Qed.

Lemma virtio_queue_set_num_kept s n v :
  core_ok s -> 0 <= n < VIRTIO_QUEUE_MAX -> safe (kept s) (virtio_queue_set_num s n v).
Proof.
  intros Hs Hn. unfold virtio_queue_set_num. rewrite get_vq_in by (done || apply Hs). cbn [mbind outcome_bind].
  destruct (_ || _ || _) eqn:E; [by apply dev_kept_refl|]. zb. apply eqb_prop in H.
  rewrite mod_vq_in by (done || apply Hs).
  assert (Hz : v = 0 <-> num (vring (queue s n)) = 0).
  { destruct (v =? 0) eqn:E1, (num _ =? 0) eqn:E2; zb; done. }
  apply kept_queue; [done|done| |done].
  destruct (queue_ok_at s n (co_rings s Hs) Hn). split; cbn; first [done|lia|naive_solver].
Qed.

(** ** Notifications and event descriptors *)

Lemma virtio_queue_notify_kept s n :
  core_ok s -> 0 <= n < VIRTIO_QUEUE_MAX -> safe (kept s) (virtio_queue_notify k s n).
Proof.
  intros Hs Hn. unfold virtio_queue_notify. rewrite get_vq_in by (done || apply Hs). cbn [mbind outcome_bind].
  destruct (_ && _) eqn:E; [|by apply dev_kept_refl]. zb.
  apply law_handle_output; [done|]. split; [done|].
  by apply (ok_handler _ (queue_ok_at s n (co_rings s Hs) Hn)).
Qed.

Lemma mod_notifier_kept s n f :
  core_ok s -> 0 <= n < VIRTIO_QUEUE_MAX -> exists s', mod_notifier s n f = Done s' /\ kept s s'.
Proof.
  intros Hs Hn. unfold mod_notifier. rewrite mod_vq_in by (done || apply Hs). eexists. split; [done|].
  apply kept_queue; [done|done| |done]. destruct (queue_ok_at s n (co_rings s Hs) Hn). by split.
Qed.

Lemma host_notifier_read_kept s n :
  core_ok s -> 0 <= n < VIRTIO_QUEUE_MAX -> safe (kept s) (virtio_queue_host_notifier_read k s n).
Proof.
  intros Hs Hn. unfold virtio_queue_host_notifier_read. rewrite get_vq_in by (done || apply Hs). cbn [mbind outcome_bind].
  destruct (en_set _); [|by apply dev_kept_refl].
  destruct (mod_notifier_kept s n (fun e => {| e with en_set := false |}) Hs Hn) as (s1 & -> & K1).
  cbn [mbind outcome_bind]. eapply safe_kept; [exact K1|]. apply virtio_queue_notify_kept; [apply K1|done].
Qed.

Lemma set_fd_handler_kept s n assign set_handler :
  core_ok s -> 0 <= n < VIRTIO_QUEUE_MAX ->
  safe (kept s) (virtio_queue_set_host_notifier_fd_handler k s n assign set_handler).
Proof.
  intros Hs Hn. unfold virtio_queue_set_host_notifier_fd_handler.
  destruct (mod_notifier_kept s n (fun e => {| e with en_handler := assign && set_handler |}) Hs Hn) as (s1 & -> & K1).
  cbn [mbind outcome_bind]. destruct (negb assign); [|done].
  eapply safe_kept; [exact K1|]. apply host_notifier_read_kept; [apply K1|done].
Qed.

(** Changing the event descriptors of the memory region. *)
Record fds_kept s s' : Prop := {
  fk_core : core_ok s';
  fk_exists : forall i, exists_queue s' i <-> exists_queue s i;
  fk_started : ioeventfd_started (proxy s') = ioeventfd_started (proxy s);
  fk_config : length (config (vdev s')) = length (config (vdev s))
}.

Lemma fds_kept_refl s : core_ok s -> fds_kept s s.
Proof. by split. Qed.

Lemma fds_kept_trans s1 s2 s3 : fds_kept s1 s2 -> fds_kept s2 s3 -> fds_kept s1 s3.
Proof. intros [C1 E1 S1 L1] [C2 E2 S2 L2]. split; [done| |congruence..]. intros i. by rewrite E2, E1. Qed.

Lemma core_ok_proxy s p :
  core_ok s -> guest_page_shift p = guest_page_shift (proxy s) -> host_features_sel p = host_features_sel (proxy s) ->
  guest_features_sel p = guest_features_sel (proxy s) -> irq p = irq (proxy s) -> core_ok {| s with proxy := p |}.
Proof.
  intros [[Hm Hq] ? ? ? ? ? ? ? ? ?] E1 E2 E3 E4. split; cbn; rewrite ?E1, ?E2, ?E3, ?E4; try done.
Qed.

(** Taking the event descriptor of a queue away, and setting it up. *)
Lemma unassign_kept s n :
  core_ok s -> 0 <= n < VIRTIO_QUEUE_MAX ->
  safe (fun '(r, s') => r = 0 /\ fds_kept s s' /\ forall i, i ∈ ioeventfds (proxy s') <-> i ∈ ioeventfds (proxy s) /\ i <> n)
    (virtio_mmio_set_host_notifier_internal k event_notifier_init s n false false).
Proof.
  intros Hs Hn. unfold virtio_mmio_set_host_notifier_internal.
  assert (C0 : core_ok (del_eventfd s n)) by by apply core_ok_proxy.
  eapply safe_bind; [by apply set_fd_handler_kept|]. intros s1 [C1 [E1 F1 S1 L1]].
  destruct (mod_notifier_kept s1 n (fun e => {| e with en_open := false |}) C1 Hn) as (s2 & -> & [C2 [E2 F2 S2 L2]]).
  cbn in S1, L1. cbn. split; [done|]. split.
  - split; [done| |congruence..]. intros i. by rewrite E2, E1.
  - intros i. rewrite F2, F1. cbn. rewrite list_elem_of_filter. tauto.
Qed.

Lemma assign_kept s n :
  core_ok s -> 0 <= n < VIRTIO_QUEUE_MAX ->
  safe (fun '(r, s') => fds_kept s s' /\
          forall i, i ∈ ioeventfds (proxy s') <-> i ∈ ioeventfds (proxy s) \/ (0 <= r /\ i = n))
    (virtio_mmio_set_host_notifier_internal k event_notifier_init s n true true).
Proof.
  intros Hs Hn. unfold virtio_mmio_set_host_notifier_internal. cbv zeta.
  destruct (_ <? 0) eqn:E; zb.
  { cbn. split; [by apply fds_kept_refl|]. intros i. split; [tauto|]. intros [|[? ?]]; [done|lia]. }
  destruct (mod_notifier_kept s n (fun _ => mkNotifier true false true) Hs Hn) as (s1 & -> & [C1 [E1 F1 S1 L1]]).
  cbn [mbind outcome_bind]. eapply safe_bind; [by apply set_fd_handler_kept|]. intros s2 [C2 [E2 F2 S2 L2]].
  cbn. split.
  - split; [by apply core_ok_proxy| |cbn; congruence..]. intros i.
    change (exists_queue (add_eventfd s2 n) i) with (exists_queue s2 i). by rewrite E2, E1.
  - intros i. rewrite elem_of_cons, F2, F1. naive_solver.
Qed.

(** The loops over the queues. *)
Lemma unassign_queue_kept s n :
  core_ok s -> 0 <= n < VIRTIO_QUEUE_MAX -> (forall i, i ∈ ioeventfds (proxy s) -> exists_queue s i) ->
  safe (fun s' => fds_kept s s' /\ forall i, i ∈ ioeventfds (proxy s') <-> i ∈ ioeventfds (proxy s) /\ i <> n)
    (nm ← virtio_queue_get_num s n;
     if nm =? 0 then Done s else
     '(r, s) ← virtio_mmio_set_host_notifier_internal k event_notifier_init s n false false;
     if r <? 0 then Crash AssertFailed else Done s).
Proof.
  intros Hs Hn Hex. unfold virtio_queue_get_num. rewrite get_vq_in by (done || apply Hs). cbn [mbind outcome_bind].
  destruct (_ =? 0) eqn:E; zb.
  - cbn. split; [by apply fds_kept_refl|]. intros i. split; [|tauto]. intros Hi. split; [done|].
    intros ->. by destruct (Hex _ Hi).
  - eapply safe_bind; [by apply unassign_kept|]. intros [r s1] (-> & H1 & H2). done.
Qed.

Lemma unassign_down_kept n s :
  core_ok s -> Z.of_nat n <= VIRTIO_QUEUE_MAX ->
  (forall i, i ∈ ioeventfds (proxy s) -> exists_queue s i /\ i < Z.of_nat n) ->
  safe (fun s' => fds_kept s s' /\ forall i, i ∉ ioeventfds (proxy s')) (unassign_down k event_notifier_init n s).
Proof.
  revert s. induction n as [|n IH]; intros s Hs Hn Hfds; cbn [unassign_down].
  - cbn. split; [by apply fds_kept_refl|]. intros i Hi. destruct (Hfds i Hi) as [[? _] ?]. lia.
  - pose proof (unassign_queue_kept s (Z.of_nat n) Hs) as HU.
    assert (HU' := HU ltac:(lia) ltac:(intros; by apply Hfds)). clear HU.
    unfold virtio_queue_get_num in *. rewrite get_vq_in in * by (done || apply Hs || lia). cbn [mbind outcome_bind] in *.
    eapply safe_bind; [exact HU'|]. intros s1 (K1 & F1).
    eapply safe_mono; [apply IH; [apply K1|lia|]|].
    + intros i [Hi Hne]%F1. rewrite (fk_exists _ _ K1). destruct (Hfds i Hi). split; [done|lia].
    + intros s2 (K2 & F2). split; [by eapply fds_kept_trans|done].
Qed.

Lemma unassign_up_kept f n s :
  core_ok s -> 0 <= n -> n + Z.of_nat f = VIRTIO_QUEUE_MAX ->
  (forall i, i ∈ ioeventfds (proxy s) -> exists_queue s i /\ n <= i) ->
  safe (fun s' => fds_kept s s' /\ forall i, i ∉ ioeventfds (proxy s')) (unassign_up k event_notifier_init f n s).
Proof.
  revert n s. induction f as [|f IH]; intros n s Hs Hn Hf Hfds; cbn [unassign_up].
  - cbn. split; [by apply fds_kept_refl|]. intros i Hi. destruct (Hfds i Hi) as [[? _] ?]. lia.
  - pose proof (unassign_queue_kept s n Hs) as HU.
    assert (HU' := HU ltac:(lia) ltac:(intros; by apply Hfds)). clear HU.
    unfold virtio_queue_get_num in *. rewrite get_vq_in in * by (done || apply Hs || lia). cbn [mbind outcome_bind] in *.
    eapply safe_bind; [exact HU'|]. intros s1 (K1 & F1).
    eapply safe_mono; [apply IH; [apply K1|lia|lia|]|].
    + intros i [Hi Hne]%F1. rewrite (fk_exists _ _ K1). destruct (Hfds i Hi). split; [done|lia].
    + intros s2 (K2 & F2). split; [by eapply fds_kept_trans|done].
Qed.

Lemma assign_up_kept f n s :
  core_ok s -> 0 <= n -> n + Z.of_nat f = VIRTIO_QUEUE_MAX ->
  (forall i, i ∈ ioeventfds (proxy s) <-> exists_queue s i /\ i < n) ->
  safe (fun '(failed, s') => fds_kept s s' /\
          match failed with
          | None => forall i, i ∈ ioeventfds (proxy s') <-> exists_queue s i
          | Some n' => 0 <= n' <= VIRTIO_QUEUE_MAX /\ forall i, i ∈ ioeventfds (proxy s') <-> exists_queue s i /\ i < n'
          end) (assign_up k event_notifier_init f n s).
Proof.
  revert n s. induction f as [|f IH]; intros n s Hs Hn Hf Hfds; cbn [assign_up].
  - cbn. split; [by apply fds_kept_refl|]. intros i. rewrite Hfds. split; [tauto|]. intros Hi.
    split; [done|]. destruct Hi as [? _]. lia.
  - unfold virtio_queue_get_num. rewrite get_vq_in by (done || apply Hs || lia). cbn [mbind outcome_bind].
    destruct (_ =? 0) eqn:E; zb.
    + apply IH; [done|lia|lia|]. intros i. rewrite Hfds. split; intros [Hi Hlt]; (split; [done|]); [lia|].
      destruct (decide (i = n)) as [->|]; [by destruct Hi|lia].
    + eapply safe_bind; [apply assign_kept; [done|lia]|]. intros [r s1] (K1 & F1).
      destruct (r <? 0) eqn:Er; zb.
      * cbn. split; [done|]. split; [lia|]. intros i. rewrite F1, Hfds. split; [|tauto].
        intros [?|[? ?]]; [done|lia].
      * eapply safe_mono; [apply IH; [apply K1|lia|lia|]|].
        -- intros i. rewrite F1, Hfds, (fk_exists _ _ K1). split.
           ++ intros [[? ?]|[_ ->]]; [split; [done|lia]|]. split; [|lia]. split; [lia|done].
           ++ intros [Hi Hlt]. destruct (decide (i = n)) as [->|]; [by right|left; split; [done|lia]].
        -- intros [failed s2] (K2 & F2). split; [by eapply fds_kept_trans|].
           destruct failed as [n'|].
           ++ destruct F2 as [Hn' F2]. split; [done|]. intros i. by rewrite F2, (fk_exists _ _ K1).
           ++ intros i. by rewrite F2, (fk_exists _ _ K1).
Qed.

Lemma set_started_ok s s' b :
  fds_kept s s' -> length (config (vdev s)) = size ->
  (forall i, i ∈ ioeventfds (proxy s') <-> b = true /\ exists_queue s i) -> mmio_ok size (set_started s' b).
Proof.
  intros [C E _ L] Hlen HF. split; cbn; [by apply core_ok_proxy|congruence|].
  intros i. change (exists_queue (set_started s' b) i) with (exists_queue s' i). by rewrite E.
Qed.

Lemma start_ioeventfd_ok s :
  mmio_ok size s -> safe (mmio_ok size) (virtio_mmio_start_ioeventfd k kvm_eventfds_enabled event_notifier_init s).
Proof.
  intros [Hs Hlen Hfds]. unfold virtio_mmio_start_ioeventfd. destruct (_ || _ || _) eqn:E; [done|]. zb.
  eapply safe_bind; [apply assign_up_kept; [done|lia|done|]|].
  { intros i. rewrite Hfds. split; [intros [? _]; congruence|]. intros [[? ?] ?]. lia. }
  intros [[n|] s1] (K1 & F1).
  - destruct F1 as [Hn F1]. eapply safe_bind.
    + apply unassign_down_kept; [apply K1|lia|]. intros i Hi%F1. rewrite (fk_exists _ _ K1). split; [tauto|lia].
    + intros s2 (K2 & F2). apply (set_started_ok s); [by eapply fds_kept_trans|done|].
      intros i. split; [intros Hi; by destruct (F2 i)|by intros []].
  - apply (set_started_ok s); [done|done|]. intros i. rewrite F1. naive_solver.
Qed.

Lemma stop_ioeventfd_ok s :
  mmio_ok size s -> safe (mmio_ok size) (virtio_mmio_stop_ioeventfd k event_notifier_init s).
Proof.
  intros [Hs Hlen Hfds]. unfold virtio_mmio_stop_ioeventfd. destruct (negb _) eqn:E; [done|]. zb.
  eapply safe_bind.
  - apply unassign_up_kept; [done|lia|done|]. intros i [_ Hi]%Hfds. split; [done|]. destruct Hi. lia.
  - intros s1 (K1 & F1). apply (set_started_ok s); [done|done|].
    intros i. split; [intros Hi; by destruct (F1 i)|by intros []].
Qed.

(** ** The registers *)

Lemma kept_ok s s' : mmio_ok size s -> kept s s' -> mmio_ok size s'.
Proof.
  intros [Hs Hlen Hfds] [C [E F S L]]. split; [done|congruence|]. intros i. by rewrite F, S, E.
Qed.

Lemma safe_ok s (m : outcome (vstate B)) : mmio_ok size s -> safe (kept s) m -> safe (mmio_ok size) m.
Proof. intros Hs Hm. eapply safe_mono; [exact Hm|]. intros s'. by apply kept_ok. Qed.

Lemma virtio_set_features_kept s v : core_ok s -> 0 <= v -> kept s (virtio_set_features k s v).2.
Proof.
  intros Hs Hv. unfold virtio_set_features. destruct (flag_set _ _); [by apply dev_kept_refl|].
  unfold virtio_set_features_nocheck. cbn.
  eapply dev_kept_trans; [by apply kept_backend|].
  match goal with |- kept ?s1 _ => assert (C1 : core_ok s1) by (by apply kept_backend) end.
  destruct C1 as [? ? ? ? ? (F1 & F2 & F3) ? ? ? ?]. apply kept_vdev; cbn in *; try done.
  split; [done|]. split; [apply Z.land_nonneg; by left|].
  by rewrite <- Z.land_assoc, Z.land_lnot_diag, Z.land_0_r.
Qed.

(** A change of the registers of the transport. *)
Lemma kept_proxy s p :
  core_ok s -> 0 <= guest_page_shift p <= 31 -> in_range 32 (host_features_sel p) ->
  in_range 32 (guest_features_sel p) -> irq p = irq (proxy s) -> ioeventfds p = ioeventfds (proxy s) ->
  ioeventfd_started p = ioeventfd_started (proxy s) -> kept s {| s with proxy := p |}.
Proof.
  intros [[Hm Hq] ? ? ? ? ? ? ? ? Hi] E1 E2 E3 E4 E5 E6. split; split; cbn; try done. congruence.
Qed.

Lemma status_write_ok s cpu v :
  mmio_ok size s -> 0 <= v ->
  safe (mmio_ok size) (virtio_mmio_write_status k kvm_eventfds_enabled event_notifier_init s cpu v).
Proof.
  intros Hs Hv. unfold virtio_mmio_write_status. cbv zeta.
  eapply (safe_bind (mmio_ok size)).
  { destruct (negb _); [by apply stop_ioeventfd_ok|done]. }
  intros s1 H1. eapply (safe_bind (mmio_ok size)).
  { assert (K : mmio_ok size (virtio_set_status k s1 (Z.land v 255)).2).
    { eapply kept_ok; [done|]. apply virtio_set_status_kept; [apply H1|].
      change 255 with (Z.ones 8). rewrite Z.land_ones by lia. apply Z.mod_pos_bound. lia. }
    destruct (flag_set _ _); [by apply start_ioeventfd_ok|done]. }
  intros s2 H2. cbn. destruct (_ =? 0); [|done]. eapply kept_ok; [done|]. apply virtio_reset_kept, H2.
Qed.

(** One more assertion about a register write: the tests of the offset. *)
Lemma mmio_write_ok s cpu offset v sz :
  mmio_ok size s -> 0 <= v -> sz = 1%nat \/ sz = 2%nat \/ sz = 4%nat ->
  safe (mmio_ok size) (virtio_mmio_write k kvm_eventfds_enabled event_notifier_init s cpu offset v sz).
Proof.
  intros Hs Hv Hsz. pose proof (mo_core _ _ Hs) as Hc. pose proof (co_sel _ Hc) as Hsel.
  unfold virtio_mmio_write. destruct (_ >=? _).
  { apply (safe_ok s); [done|]. destruct Hsz as [->|[->| ->]]; cbn;
      (apply virtio_config_write_kept; [done|apply wrap_range; lia]). }
  destruct (negb _); [done|]. cbv zeta.
  destruct (offset =? VIRTIO_MMIO_HOSTFEATURESSEL).
  { apply (safe_ok s); [done|]. destruct Hc as [? ? ? ? ? ? ? ? [? ?] ?]. apply kept_proxy; cbn;
      first [done|apply wrap_range; lia]. }
  destruct (offset =? VIRTIO_MMIO_GUESTFEATURES).
  { apply (safe_ok s); [done|]. cbn. destruct (_ =? 0); [by apply virtio_set_features_kept|by apply dev_kept_refl]. }
  destruct (offset =? VIRTIO_MMIO_GUESTFEATURESSEL).
  { apply (safe_ok s); [done|]. destruct Hc as [? ? ? ? ? ? ? ? [? ?] ?]. apply kept_proxy; cbn;
      first [done|apply wrap_range; lia]. }
  destruct (offset =? VIRTIO_MMIO_GUESTPAGESIZE).
  { apply (safe_ok s); [done|]. destruct Hc as [? ? ? ? ? ? ? ? [? ?] ?].
    destruct (ctz_from_spec 32 0 (u32 v)) as [Hz _]. fold (ctz32 (u32 v)) in Hz.
    apply kept_proxy; cbn [guest_page_shift]; try done.
    destruct (_ >? 31) eqn:E; zb; lia. }
  destruct (offset =? VIRTIO_MMIO_QUEUESEL).
  { apply (safe_ok s); [done|]. cbn. destruct (_ <? _) eqn:E; zb; [|by apply dev_kept_refl].
    destruct Hc. apply kept_vdev; cbn; by (done || split). }
  destruct (offset =? VIRTIO_MMIO_QUEUENUM).
  { apply (safe_ok s); [done|]. eapply safe_bind; [by apply virtio_queue_set_num_kept|]. intros s1 K1.
    unfold virtio_queue_update_rings. rewrite mod_vq_in by (done || apply K1). cbn.
    eapply dev_kept_trans; [exact K1|]. apply kept_update_rings; [apply K1|done]. }
  destruct (offset =? VIRTIO_MMIO_QUEUEALIGN).
  { apply (safe_ok s); [done|]. by apply virtio_queue_set_align_kept. }
  destruct (offset =? VIRTIO_MMIO_QUEUEPFN).
  { apply (safe_ok s); [done|]. destruct (v =? 0); [by apply virtio_reset_kept|].
    apply virtio_queue_set_addr_kept; [done..|apply wrap_range; lia]. }
  destruct (offset =? VIRTIO_MMIO_QUEUENOTIFY).
  { apply (safe_ok s); [done|]. destruct (_ <? _) eqn:E; zb; [by apply virtio_queue_notify_kept|by apply dev_kept_refl]. }
  destruct (offset =? VIRTIO_MMIO_INTERRUPTACK).
  { apply (safe_ok s); [done|]. destruct Hc. apply kept_notify; cbn; first [done|apply wrap_range; lia|by split]. }
  destruct (offset =? VIRTIO_MMIO_STATUS); [by apply status_write_ok|done].
Qed.

Lemma mmio_read_ok s offset sz :
  mmio_ok size s -> sz = 1%nat \/ sz = 2%nat \/ sz = 4%nat ->
  safe (fun '(_, s') => mmio_ok size s') (virtio_mmio_read k s offset sz).
Proof.
  intros Hs Hsz. pose proof (mo_core _ _ Hs) as Hc. pose proof (co_sel _ Hc) as Hsel.
  unfold virtio_mmio_read. destruct (_ >=? _).
  { set (a := u32 _).
    assert (K : mmio_ok size (virtio_config_read k s a sz).2).
    { eapply kept_ok; [done|]. apply virtio_config_read_kept; [done|apply Hs]. }
    destruct Hsz as [->|[->| ->]]; cbn [safe]; by destruct (virtio_config_read _ _ _ _). }
  destruct (negb _); [done|]. cbv zeta. unfold virtio_queue_get_num, virtio_queue_get_addr.
  rewrite !get_vq_in by (done || apply Hc). cbn [mbind outcome_bind].
  repeat (destruct (offset =? _); [done|]). done.
Qed.

Lemma guest_write_ok s cpu offset v sz :
  mmio_ok size s -> 0 <= v -> sz = 1%nat \/ sz = 2%nat \/ sz = 4%nat ->
  safe (mmio_ok size) (guest_write k kvm_eventfds_enabled event_notifier_init s cpu offset v sz).
Proof.
  intros Hs Hv Hsz. unfold guest_write. destruct (_ && _ && _) eqn:E; [|by apply mmio_write_ok].
  apply andb_true_iff in E as [_ E%bool_decide_eq_true]. apply (mo_fds _ _ Hs) in E as [_ [Hi _]].
  destruct (mod_notifier_kept s v (fun e => {| e with en_set := true |}) (mo_core _ _ Hs) Hi) as (s1 & -> & K).
  by eapply kept_ok.
Qed.

(** ** Guest notifiers *)

Lemma mod_guest_notifier_kept s n f :
  core_ok s -> 0 <= n < VIRTIO_QUEUE_MAX -> exists s', mod_guest_notifier s n f = Done s' /\ kept s s'.
Proof.
  intros Hs Hn. unfold mod_guest_notifier. rewrite mod_vq_in by (done || apply Hs). eexists. split; [done|].
  apply kept_queue; [done|done| |done]. destruct (queue_ok_at s n (co_rings s Hs) Hn). by split.
Qed.

Lemma virtio_irq_kept s : core_ok s -> kept s (virtio_irq s).
Proof. intros Hs. pose proof Hs as []. apply kept_notify; try done. apply wrap_range. lia. Qed.

Lemma guest_notifier_read_kept s n :
  core_ok s -> 0 <= n < VIRTIO_QUEUE_MAX -> safe (kept s) (virtio_queue_guest_notifier_read s n).
Proof.
  intros Hs Hn. unfold virtio_queue_guest_notifier_read. rewrite get_vq_in by (done || apply Hs). cbn [mbind outcome_bind].
  destruct (en_set _); [|by apply dev_kept_refl].
  destruct (mod_guest_notifier_kept s n (fun e => {| e with en_set := false |}) Hs Hn) as (s1 & -> & K1).
  cbn. eapply dev_kept_trans; [exact K1|]. apply virtio_irq_kept, K1.
Qed.

Lemma set_guest_handler_kept s n assign irqfd :
  core_ok s -> 0 <= n < VIRTIO_QUEUE_MAX ->
  safe (kept s) (virtio_queue_set_guest_notifier_fd_handler s n assign irqfd).
Proof.
  intros Hs Hn. unfold virtio_queue_set_guest_notifier_fd_handler.
  destruct (mod_guest_notifier_kept s n (fun e => {| e with en_handler := assign && negb irqfd |}) Hs Hn) as (s1 & -> & K1).
  cbn [mbind outcome_bind]. destruct (negb assign); [|done].
  eapply safe_kept; [exact K1|]. apply guest_notifier_read_kept; [apply K1|done].
Qed.

Lemma set_guest_notifier_kept s n assign irqfd :
  core_ok s -> 0 <= n < VIRTIO_QUEUE_MAX ->
  safe (fun '(r, s') => kept s s' /\ (assign = false -> r = 0)) (virtio_mmio_set_guest_notifier k event_notifier_init s n assign irqfd).
Proof.
  intros Hs Hn. unfold virtio_mmio_set_guest_notifier. cbv zeta. destruct assign.
  - destruct (_ <? 0); [by split; [apply dev_kept_refl|]|].
    destruct (mod_guest_notifier_kept s n (fun _ => mkNotifier true false false) Hs Hn) as (s1 & -> & K1).
    cbn [mbind outcome_bind]. eapply safe_bind; [apply set_guest_handler_kept; [apply K1|done]|].
    intros s2 K2. cbn. split; [|done]. eapply dev_kept_trans; [exact K1|]. eapply dev_kept_trans; [exact K2|]. apply kept_backend, K2.
  - eapply safe_bind; [by apply set_guest_handler_kept|]. intros s2 K2.
    destruct (mod_guest_notifier_kept s2 n (fun e => {| e with en_open := false |}) (proj1 K2) Hn) as (s3 & -> & K3).
    cbn. split; [|done]. eapply dev_kept_trans; [exact K2|]. eapply dev_kept_trans; [exact K3|]. apply kept_backend, K3.
Qed.

Lemma guest_notifiers_up_kept f n s assign :
  core_ok s -> 0 <= n -> n + Z.of_nat f <= VIRTIO_QUEUE_MAX ->
  safe (fun '(r, m, s') => kept s s' /\ 0 <= m <= VIRTIO_QUEUE_MAX /\ (assign = false -> r = 0))
    (guest_notifiers_up k event_notifier_init f n s assign).
Proof.
  revert n s. induction f as [|f IH]; intros n s Hs Hn Hf; cbn [guest_notifiers_up].
  { cbn. split; [by apply dev_kept_refl|]. split; [lia|done]. }
  unfold virtio_queue_get_num. rewrite get_vq_in by (apply Hs || lia). cbn [mbind outcome_bind].
  destruct (_ =? 0); [cbn; split; [by apply dev_kept_refl|]; split; [lia|done]|].
  eapply safe_bind; [apply set_guest_notifier_kept; [done|lia]|]. intros [r s1] [K1 Hr].
  destruct (r <? 0) eqn:E; [cbn; split; [done|]; split; [lia|done]|].
  eapply safe_mono; [apply IH; [apply K1|lia..]|]. intros [[r' m] s2] (K2 & Hm & Hr'). split; [by eapply dev_kept_trans|done].
Qed.

Lemma guest_notifiers_down_kept n s assign :
  core_ok s -> Z.of_nat n <= VIRTIO_QUEUE_MAX -> safe (kept s) (guest_notifiers_down k event_notifier_init n s assign).
Proof.
  revert s. induction n as [|n IH]; intros s Hs Hn; cbn [guest_notifiers_down]; [by apply dev_kept_refl|].
  eapply safe_bind; [apply set_guest_notifier_kept; [done|lia]|]. intros [r s1] [K1 _].
  eapply safe_kept; [exact K1|]. apply IH; [apply K1|lia].
Qed.

Lemma set_guest_notifiers_ok s nvqs assign :
  mmio_ok size s -> safe (fun '(_, s') => mmio_ok size s') (virtio_mmio_set_guest_notifiers k event_notifier_init s nvqs assign).
Proof.
  intros Hs. unfold virtio_mmio_set_guest_notifiers.
  eapply safe_bind; [apply guest_notifiers_up_kept; [apply Hs|lia|unfold VIRTIO_QUEUE_MAX; lia]|].
  intros [[r m] s1] (K1 & Hm & Hr). destruct (Z.ltb_spec r 0); [|cbn; by eapply kept_ok].
  destruct assign; [|specialize (Hr eq_refl); lia]. cbn [negb].
  eapply safe_bind; [apply guest_notifiers_down_kept; [apply K1|lia]|]. intros s2 K2. cbn.
  eapply kept_ok; [exact Hs|]. by eapply dev_kept_trans.
Qed.

Lemma signal_guest_ok s n :
  mmio_ok size s -> 0 <= n < VIRTIO_QUEUE_MAX -> safe (mmio_ok size) (signal_guest_notifier s n).
Proof.
  intros Hs Hn. unfold signal_guest_notifier.
  destruct (mod_guest_notifier_kept s n (fun e => {| e with en_set := en_set e || en_open e |})
    (mo_core _ _ Hs) Hn) as (s1 & -> & K1). cbn. by eapply kept_ok.
Qed.

Lemma main_loop_guest_ok s n :
  mmio_ok size s -> 0 <= n < VIRTIO_QUEUE_MAX -> safe (mmio_ok size) (main_loop_guest_notifier s n).
Proof.
  intros Hs Hn. unfold main_loop_guest_notifier. rewrite get_vq_in by (done || apply Hs). cbn [mbind outcome_bind].
  destruct (en_handler _); [|done]. apply (safe_ok s); [done|]. by apply guest_notifier_read_kept; [apply Hs|].
Qed.

Lemma vmstate_change_ok s running : mmio_ok size s -> mmio_ok size (virtio_vmstate_change k s running).
Proof.
  intros Hs. unfold virtio_vmstate_change. cbv zeta. destruct (_ && _); cbn [negb];
    (apply (kept_ok s); [done|]; apply virtio_set_status_kept; [apply Hs|]; apply (co_status _ (mo_core _ _ Hs))).
Qed.

Lemma main_loop_notifier_ok s n :
  mmio_ok size s -> 0 <= n < VIRTIO_QUEUE_MAX -> safe (mmio_ok size) (main_loop_notifier k s n).
Proof.
  intros Hs Hn. pose proof (mo_core _ _ Hs) as Hc. unfold main_loop_notifier.
  rewrite get_vq_in by (done || apply Hc). cbn [mbind outcome_bind]. apply (safe_ok s); [done|].
  destruct (en_handler _); [by apply host_notifier_read_kept|by apply dev_kept_refl].
Qed.

Lemma mmio_reset_ok s : mmio_ok size s -> safe (mmio_ok size) (virtio_mmio_reset k event_notifier_init s).
Proof.
  intros Hs. unfold virtio_mmio_reset. eapply safe_bind; [by apply stop_ioeventfd_ok|]. intros s1 H1. cbv zeta.
  pose proof (virtio_reset_kept s1 None (mo_core _ _ H1)) as K.
  eapply kept_ok; [by eapply kept_ok|]. apply kept_proxy; cbn; try done; [apply K|unfold in_range; lia..].
Qed.
End transport.
