(* ===== verification/VirtioMigrateProofs.v ===== *)
(** * Saving and loading virtio devices: the round trip

    Reading back what was written to the stream, the subsections, the queues,
    and the theorem that a device loaded from the stream of another one is that
    device. *)

From S2P Require Import Prelude CArray Virtqueue VirtqueueProofs VirtioMmio VirtioMmioProofs VirtioDevs VirtioMigrate.

(** ** Integers in the stream *)

Lemma get_byte_cons b r e : qemu_get_byte (mkFile (b :: r) e) = (b, mkFile r e).
Proof. done. Qed.

Lemma get_byte_put v r e : in_range 8 v -> qemu_get_byte (mkFile (qemu_put_byte v ++ r) e) = (v, mkFile r e).
Proof. intros Hv. unfold qemu_put_byte. cbn [app]. by rewrite get_byte_cons, u8_small. Qed.

(** A bit of a byte of [v]. *)
Lemma testbit_byte v sh i : 0 <= sh -> 0 <= i ->
  Z.testbit (u8 (Z.shiftr v sh)) i = (i <? 8) && Z.testbit v (i + sh).
Proof.
  intros Hs Hi. destruct (Z.ltb_spec i 8).
  - rewrite testbit_u8, Z.shiftr_spec by lia. done.
  - unfold wrap. by rewrite Z.mod_pow2_bits_high by lia.
Qed.

Lemma testbit_small v w i : in_range w v -> 0 <= w <= i -> Z.testbit v i = false.
Proof.
  intros [Hv1 Hv2] [Hw Hi]. rewrite <- (Z.mod_small v (2 ^ w)) by lia. apply Z.mod_pow2_bits_high. lia.
Qed.

Ltac byte_bits :=
  apply Z.bits_inj'; intros i Hi; rewrite ?Z.lor_spec, ?Z.shiftl_spec by lia;
  repeat match goal with
  | |- context [Z.testbit (u8 (Z.shiftr ?v ?s)) ?j] =>
      destruct (Z.ltb_spec j 0);
      [rewrite (Z.testbit_neg_r (u8 (Z.shiftr v s)) j) by lia
      |rewrite (testbit_byte v s j) by lia; destruct (Z.ltb_spec j 8)]; cbn [andb]
  end; rewrite ?orb_false_r, ?orb_false_l; cbn [orb]; try lia.

Lemma be16_join v : in_range 16 v -> Z.lor (Z.shiftl (u8 (Z.shiftr v 8)) 8) (u8 v) = v.
Proof.
  intros Hv. rewrite <- (Z.shiftr_0_r v) at 2. byte_bits.
  all: rewrite ?Z.sub_add, ?Z.add_0_r, ?Z.sub_0_r; try done.
  by rewrite (testbit_small v 16 i Hv) by lia.
Qed.

Lemma be32_join v : in_range 32 v ->
  Z.lor (Z.lor (Z.lor (Z.shiftl (u8 (Z.shiftr v 24)) 24) (Z.shiftl (u8 (Z.shiftr v 16)) 16))
    (Z.shiftl (u8 (Z.shiftr v 8)) 8)) (u8 v) = v.
Proof.
  intros Hv. rewrite <- (Z.shiftr_0_r v) at 4. byte_bits.
  all: rewrite ?Z.sub_add, ?Z.add_0_r, ?Z.sub_0_r; try done.
  by rewrite (testbit_small v 32 i Hv) by lia.
Qed.

Lemma be64_join v : in_range 64 v -> Z.lor (Z.shiftl (u32 (Z.shiftr v 32)) 32) (u32 v) = v.
Proof.
  intros Hv. apply Z.bits_inj'. intros i Hi. rewrite Z.lor_spec, Z.shiftl_spec by lia. unfold wrap.
  destruct (Z.ltb_spec i 32).
  - rewrite Z.testbit_neg_r, Z.mod_pow2_bits_low by lia. done.
  - rewrite (Z.mod_pow2_bits_high v) by lia. rewrite orb_false_r. destruct (Z.ltb_spec i 64).
    + rewrite Z.mod_pow2_bits_low, Z.shiftr_spec by lia. by rewrite Z.sub_add.
    + rewrite Z.mod_pow2_bits_high by lia. by rewrite (testbit_small v 64 i Hv) by lia.
Qed.

Section stream.
Variables (r : list Z) (e : Z).

Lemma get_be16_put v : in_range 16 v -> qemu_get_be16 (mkFile (qemu_put_be16 v ++ r) e) = (v, mkFile r e).
Proof.
  intros Hv. unfold qemu_get_be16, qemu_put_be16, qemu_put_byte. cbn [app]. rewrite !get_byte_cons. by rewrite be16_join.
Qed.

Lemma get_be32_put v : in_range 32 v -> qemu_get_be32 (mkFile (qemu_put_be32 v ++ r) e) = (v, mkFile r e).
Proof.
  intros Hv. unfold qemu_get_be32, qemu_put_be32, qemu_put_byte. cbn [app]. rewrite !get_byte_cons. by rewrite be32_join.
Qed.
End stream.

Lemma get_be64_put r e v : in_range 64 v -> qemu_get_be64 (mkFile (qemu_put_be64 v ++ r) e) = (v, mkFile r e).
Proof.
  intros Hv. unfold qemu_get_be64, qemu_put_be64. rewrite <- app_assoc.
  rewrite get_be32_put by (apply wrap_range; lia). rewrite get_be32_put by (apply wrap_range; lia).
  by rewrite be64_join.
Qed.

Lemma get_buffer_app bs r e : qemu_get_buffer (mkFile (bs ++ r) e) (length bs) = (bs, mkFile r e).
Proof.
  unfold qemu_get_buffer, qemu_peek_buffer. cbn [f_data]. rewrite drop_0, take_app_length, Nat.ltb_irrefl.
  cbn [f_data]. by rewrite drop_app_length.
Qed.

Lemma skip_app bs r e : qemu_file_skip (mkFile (bs ++ r) e) (length bs) = mkFile r e.
Proof.
  unfold qemu_file_skip. cbn [f_data]. rewrite length_app, (proj2 (Nat.leb_le _ _)) by lia. by rewrite drop_app_length.
Qed.
Lemma skip_cons b r e : qemu_file_skip (mkFile (b :: r) e) 1 = mkFile r e.
Proof. apply (skip_app [b]). Qed.

(** ** Subsections *)

(** What follows on the stream is no subsection of [name]. *)
Definition no_sub (name : list Z) (f : QEMUFile) : Prop := peek_subsection name f = (None, f).

Lemma no_sub_rest name b r e : b <> QEMU_VM_SUBSECTION -> no_sub name (mkFile (b :: r) e).
Proof. intros Hb. unfold no_sub, peek_subsection. cbn. by rewrite (proj2 (Z.eqb_neq _ _)) by done. Qed.

Definition sub_header (v : VMStateDescription) : list Z :=
  qemu_put_byte QEMU_VM_SUBSECTION ++ qemu_put_byte (Z.of_nat (length (vmsd_name v))) ++ vmsd_name v ++ qemu_put_be32 1.

(** A subsection that [name] has. *)
Record is_sub (name : list Z) (subs : list VMStateDescription) (v : VMStateDescription) : Prop := {
  su_find : vmstate_get_subsection subs (vmsd_name v) = Some v;
  su_prefix : take (length name) (vmsd_name v) = name;
  su_len : (length name < length (vmsd_name v) < 256)%nat
}.

Lemma peek_sub name subs v r e :
  is_sub name subs v -> peek_subsection name (mkFile (sub_header v ++ r) e) = (Some (vmsd_name v), mkFile (sub_header v ++ r) e).
Proof.
  intros [_ Hp [Hl1 Hl2]]. unfold peek_subsection, qemu_peek_byte, sub_header, qemu_put_byte.
  rewrite (u8_small (Z.of_nat _)) by (split; [lia|change (2 ^ 8) with 256; lia]).
  cbn [f_data app lookup list_lookup]. change (u8 QEMU_VM_SUBSECTION =? QEMU_VM_SUBSECTION) with true. cbn [negb].
  rewrite (proj2 (Z.ltb_ge _ _)) by lia. unfold qemu_peek_buffer. cbn [f_data drop]. rewrite Nat2Z.id.
  rewrite <- !(app_assoc (vmsd_name v)), drop_0, take_app_length, Nat.ltb_irrefl, Z.eqb_refl. cbn [negb].
  unfold list_eqb. by rewrite Hp, bool_decide_true.
Qed.

Lemma load_sub_step fuel name subs v d d0 d1 r :
  is_sub name subs v -> vmsd_get v d0 (mkFile (vmsd_put v d ++ r) 0) = (d1, mkFile r 0) ->
  no_sub (vmsd_name v) (mkFile r 0) ->
  vmstate_subsection_load (S fuel) name subs d0 (mkFile (sub_header v ++ vmsd_put v d ++ r) 0)
  = vmstate_subsection_load fuel name subs d1 (mkFile r 0).
Proof.
  intros Hv Hget Hno. cbn [vmstate_subsection_load]. rewrite (peek_sub name subs v) by done. rewrite (su_find _ _ _ Hv).
  unfold sub_header, qemu_put_byte. cbn [app]. rewrite !skip_cons, <- app_assoc, skip_app, get_be32_put by (split; lia). unfold vmstate_load_sub. change (u8 1 =? 1) with true. cbn [negb].
  rewrite Hget. cbn [last_error Z.ltb Z.compare]. by rewrite Hno.
Qed.

(** The rings of the queues *)

Definition with_rings (q q0 : VirtQueue) : VirtQueue :=
  let r := vring q0 in {| q0 with vring := mkVRing (num r) (align r) (desc r) (avail (vring q)) (used (vring q)) |}.

Lemma get_virtqueues_put qs qs0 r :
  Forall queue_ok qs -> length qs0 = length qs ->
  get_virtqueues qs0 (mkFile (concat ((fun q => qemu_put_be64 (avail (vring q)) ++ qemu_put_be64 (used (vring q))) <$> qs) ++ r) 0)
  = (zip_with with_rings qs qs0, mkFile r 0).
Proof.
  intros Hqs. revert qs0. induction Hqs as [|q qs [? ? ? Ha Hu] _ IH]; intros [|q0 qs0] Hlen; try done.
  cbn [fmap list_fmap concat get_virtqueues zip_with]. rewrite <- !app_assoc, get_be64_put, get_be64_put by done.
  rewrite IH by (cbn in Hlen; lia). done.
Qed.

(** What loading the subsections does to a device. *)
Definition restore_endian (d d0 : VirtIODevice) : VirtIODevice :=
  if virtio_device_endian_needed d then {| d0 with device_endian := device_endian d |} else d0.
Definition restore_features (d d0 : VirtIODevice) : VirtIODevice :=
  if virtio_64bit_features_needed d then {| d0 with guest_features := guest_features d |} else d0.
Definition restore_rings (d d0 : VirtIODevice) : VirtIODevice :=
  if virtio_virtqueue_needed d then {| d0 with vq := zip_with with_rings (vq d) (vq d0) |} else d0.

Lemma byte_endian_id e : byte_endian (endian_byte e) = e.
Proof. by destruct e. Qed.

Lemma subs_ok : Forall (is_sub vmstate_virtio_name virtio_subsections) virtio_subsections.
Proof. repeat constructor; try reflexivity; vm_compute; lia. Qed.

(** The bytes of one subsection. *)
Definition sub_bytes (v : VMStateDescription) (d : VirtIODevice) : list Z :=
  if vmsd_needed v d then sub_header v ++ vmsd_put v d else [].

Lemma save_subs d :
  vmstate_subsection_save virtio_subsections d =
  sub_bytes vmstate_virtio_device_endian d ++ sub_bytes vmstate_virtio_64bit_features d ++ sub_bytes vmstate_virtio_virtqueues d.
Proof.
  unfold virtio_subsections, sub_bytes, sub_header. cbn [vmstate_subsection_save]. rewrite app_nil_r.
  by repeat (f_equal; try (destruct (vmsd_needed _ d); [rewrite <- !app_assoc|]; done)).
Qed.

Lemma load_sub_bytes fuel v d d0 d1 r :
  is_sub vmstate_virtio_name virtio_subsections v -> vmsd_get v d0 (mkFile (vmsd_put v d ++ r) 0) = (d1, mkFile r 0) ->
  no_sub (vmsd_name v) (mkFile r 0) ->
  vmstate_subsection_load (S fuel) vmstate_virtio_name virtio_subsections d0 (mkFile (sub_bytes v d ++ r) 0)
  = vmstate_subsection_load (if vmsd_needed v d then fuel else S fuel) vmstate_virtio_name virtio_subsections
      (if vmsd_needed v d then d1 else d0) (mkFile r 0).
Proof.
  intros Hv Hg Hno. unfold sub_bytes. destruct (vmsd_needed v d); [|done]. rewrite <- app_assoc. by apply load_sub_step.
Qed.

(** No name of a subsection begins with that of an earlier one. *)
Lemma no_sub_features r e : no_sub (vmsd_name vmstate_virtio_device_endian) (mkFile (sub_header vmstate_virtio_64bit_features ++ r) e).
Proof. reflexivity. Qed.
Lemma no_sub_rings1 r e : no_sub (vmsd_name vmstate_virtio_device_endian) (mkFile (sub_header vmstate_virtio_virtqueues ++ r) e).
Proof. reflexivity. Qed.
Lemma no_sub_rings2 r e : no_sub (vmsd_name vmstate_virtio_64bit_features) (mkFile (sub_header vmstate_virtio_virtqueues ++ r) e).
Proof. reflexivity. Qed.

(** Loading the subsections that were saved, before a stream that goes on with
    something else. *)
Lemma load_virtio_put d d0 b r :
  b <> QEMU_VM_SUBSECTION -> in_range 64 (guest_features d) -> Forall queue_ok (vq d) -> length (vq d0) = length (vq d) ->
  vmstate_load_virtio d0 (mkFile (vmstate_subsection_save virtio_subsections d ++ b :: r) 0)
  = Done (0, restore_rings d (restore_features d (restore_endian d d0)), mkFile (b :: r) 0).
Proof.
  intros Hb Hgf Hqs Hlen. unfold vmstate_load_virtio. cbn [Nat.add].
  generalize (length (f_data (mkFile (vmstate_subsection_save virtio_subsections d ++ b :: r) 0))) as n. intros n.
  pose proof subs_ok as Hsubs. apply Forall_cons in Hsubs as [S1 [S2 [S3 _]%Forall_cons]%Forall_cons].
  rewrite save_subs, <- !app_assoc. pose proof (fun nm => no_sub_rest nm b r 0 Hb) as Hend.
  rewrite (load_sub_bytes _ vmstate_virtio_device_endian d d0 ({| d0 with device_endian := device_endian d |})); [|done| |].
  2: { cbn [vmsd_get vmsd_put vmstate_virtio_device_endian]. rewrite get_byte_put, byte_endian_id; [done|].
       by destruct (device_endian d). }
  2: { unfold sub_bytes. destruct (vmsd_needed vmstate_virtio_64bit_features d);
         [rewrite <- app_assoc; apply no_sub_features|].
       destruct (vmsd_needed vmstate_virtio_virtqueues d); [cbn [app]; rewrite <- app_assoc; apply no_sub_rings1|apply Hend]. }
  change (if vmsd_needed vmstate_virtio_device_endian d then _ else d0) with (restore_endian d d0).
  set (d1 := restore_endian d d0). set (n1 := if vmsd_needed vmstate_virtio_device_endian d then _ else _).
  assert (exists m, n1 = S (S (S m))) as [m1 ->] by (unfold n1; destruct (vmsd_needed _ d); eauto).
  rewrite (load_sub_bytes _ vmstate_virtio_64bit_features d d1 ({| d1 with guest_features := guest_features d |})); [|done| |].
  2: { cbn [vmsd_get vmsd_put vmstate_virtio_64bit_features]. by rewrite get_be64_put. }
  2: { unfold sub_bytes. destruct (vmsd_needed vmstate_virtio_virtqueues d); [rewrite <- app_assoc; apply no_sub_rings2|apply Hend]. }
  change (if vmsd_needed vmstate_virtio_64bit_features d then _ else d1) with (restore_features d d1).
  set (d2 := restore_features d d1). set (n2 := if vmsd_needed vmstate_virtio_64bit_features d then _ else _).
  assert (exists m, n2 = S (S m)) as [m2 ->] by (unfold n2; destruct (vmsd_needed _ d); eauto).
  assert (Hl2 : length (vq d2) = length (vq d)).
  { unfold d2, restore_features, d1, restore_endian. by repeat case_match. }
  rewrite (load_sub_bytes _ vmstate_virtio_virtqueues d d2 ({| d2 with vq := zip_with with_rings (vq d) (vq d2) |})); [|done| |apply Hend].
  2: { cbn [vmsd_get vmsd_put vmstate_virtio_virtqueues]. unfold get_virtqueue_state, put_virtqueue_state.
       by rewrite get_virtqueues_put. }
  change (if vmsd_needed vmstate_virtio_virtqueues d then _ else d2) with (restore_rings d d2).
  set (n3 := if vmsd_needed vmstate_virtio_virtqueues d then _ else _).
  assert (exists m, n3 = S m) as [m3 ->] by (unfold n3; destruct (vmsd_needed _ d); eauto).
  cbn [vmstate_subsection_load]. by rewrite Hend.
Qed.

(** ** Queues *)

(** What loading the fields of [q] makes of the queue [q0]. *)
Definition loaded (q q0 : VirtQueue) : VirtQueue :=
  let r := mkVRing (num (vring q)) (align (vring q)) (desc (vring q)) (avail (vring q0)) (used (vring q0)) in
  let q1 := {| {| q0 with vring := update_rings r |} with last_avail_idx := last_avail_idx q |} in
  {| {| q1 with signalled_used_valid := false |} with notification := true |}.

Lemma loaded_ok q q0 : queue_ok q -> queue_ok q0 -> num (vring q) <> 0 -> queue_ok (loaded q q0).
Proof.
  intros [] [] Hnum. unfold loaded. set (r := mkVRing _ _ _ _ _).
  assert (Hq : queue_ok {| q0 with vring := r |}) by by split.
  assert (Hr : queue_ok {| q0 with vring := update_rings r |}) by by apply (update_rings_ok _ r Hq).
  destruct Hr. by split.
Qed.

(** The queues [qs] loaded into those from [i] on. *)
Fixpoint load_all {B} (s : vstate B) (i : Z) (qs : list VirtQueue) : vstate B :=
  match qs with
  | [] => s
  | q :: qs' => load_all (upd_queue s i (loaded q)) (i + 1) qs'
  end.

(** A queue that can be saved: it exists, and one without rings was not used. *)
Definition queue_saved (q : VirtQueue) : Prop :=
  queue_ok q /\ num (vring q) <> 0 /\ (desc (vring q) = 0 -> last_avail_idx q = 0).

Section load_queues.
Context {B : Type}.
Implicit Types s : vstate B.

Lemma load_queue_put s i q r :
  rings_ok s -> 0 <= i < VIRTIO_QUEUE_MAX -> queue_saved q ->
  load_queue s i (mkFile (save_queue q ++ r) 0) = Done (0, upd_queue s i (loaded q), mkFile r 0).
Proof.
  intros Hs Hi ([Hn Hal Hd _ _ Hla _ _] & Hnum & Hz). unfold load_queue, save_queue. rewrite <- !app_assoc.
  rewrite get_be32_put by (destruct Hn; unfold VIRTQUEUE_MAX_SIZE in *; split; lia).
  rewrite get_be32_put, get_be64_put, get_be16_put by done. rewrite mod_vq_in by done. cbn [mbind outcome_bind].
  set (f := fun q0 : VirtQueue => _). destruct (Z.eqb_spec (desc (vring q)) 0) as [E|E]; cbn [negb].
  - rewrite (Hz E), Z.eqb_refl. do 3 f_equal. unfold upd_queue. do 3 f_equal. unfold f, loaded, update_rings. cbn.
    by rewrite E, (Hz E).
  - assert (Hf : queue_ok (f (queue s i))) by (destruct (queue_ok_at s i Hs Hi); split; done).
    unfold virtio_queue_update_rings. rewrite mod_vq_in by (done || by apply rings_ok_upd).
    cbn [mbind outcome_bind]. do 3 f_equal. unfold upd_queue at 1. rewrite queue_upd by done.
    unfold upd_queue. cbn [vdev set_vdev vq]. by rewrite upd_upd.
Qed.

Lemma load_queues_put s i qs r :
  rings_ok s -> 0 <= i -> i + Z.of_nat (length qs) <= VIRTIO_QUEUE_MAX -> Forall queue_saved qs ->
  load_queues (length qs) s i (mkFile (concat (save_queue <$> qs) ++ r) 0) = Done (0, load_all s i qs, mkFile r 0) /\
  rings_ok (load_all s i qs).
Proof.
  intros Hs Hi Hlen Hqs. revert s i Hs Hi Hlen.
  induction Hqs as [|q qs Hq Hqs IH]; intros s i Hs Hi Hlen; [done|]. cbn [length] in Hlen.
  cbn [length load_queues fmap list_fmap concat load_all]. rewrite <- app_assoc, load_queue_put by (done || lia).
  cbn [mbind outcome_bind Z.eqb negb]. apply IH; [|lia..]. apply rings_ok_upd; [done|].
  destruct Hq as (Hq & Hnum & _). apply loaded_ok; [done| |done]. apply queue_ok_at; [done|lia].
Qed.

Lemma load_all_other s i qs :
  mem (load_all s i qs) = mem s /\ proxy (load_all s i qs) = proxy s /\ backend (load_all s i qs) = backend s /\
  vdev (load_all s i qs) = (let d := vdev s in {| d with vq := vq (vdev (load_all s i qs)) |}).
Proof.
  revert s i. induction qs as [|q qs IH]; intros s i; cbn [load_all].
  - destruct s as [? [] ? ?]. done.
  - destruct (IH (upd_queue s i (loaded q)) (i + 1)) as (-> & -> & -> & E). split; [done|]. split; [done|].
    split; [done|]. rewrite E. by destruct s as [? [] ? ?].
Qed.

Lemma queue_load_all s i qs j :
  rings_ok s -> 0 <= i -> i + Z.of_nat (length qs) <= VIRTIO_QUEUE_MAX -> 0 <= j < VIRTIO_QUEUE_MAX -> Forall queue_saved qs ->
  queue (load_all s i qs) j =
  match (if j <? i then None else qs !! Z.to_nat (j - i)) with Some q => loaded q (queue s j) | None => queue s j end.
Proof.
  intros Hs Hi Hlen Hj Hqs. revert s i Hs Hi Hlen.
  induction Hqs as [|q qs (Hq & Hnum & _) Hqs IH]; intros s i Hs Hi Hlen; cbn [load_all length] in *.
  { by destruct (_ <? _). }
  rewrite IH; [|apply rings_ok_upd; [done|]; apply loaded_ok; [done| |done]; apply queue_ok_at; [done|lia]|lia..].
  destruct (Z.ltb_spec j i), (Z.ltb_spec j (i + 1)); try lia.
  - by rewrite queue_upd_ne by lia.
  - assert (j = i) as -> by lia. rewrite Z.sub_diag, queue_upd by (done || lia). done.
  - rewrite queue_upd_ne by lia. replace (Z.to_nat (j - i)) with (S (Z.to_nat (j - (i + 1)))) by lia. done.
Qed.
End load_queues.

(** ** The round trip *)

Lemma first_free_spec qs i :
  i <= first_free qs i <= i + Z.of_nat (length qs) /\
  save_queues qs = concat (save_queue <$> take (Z.to_nat (first_free qs i - i)) qs) /\
  Forall (fun q => num (vring q) <> 0) (take (Z.to_nat (first_free qs i - i)) qs).
Proof.
  revert i. induction qs as [|q qs IH]; intros i; cbn [first_free save_queues length].
  - rewrite take_nil. split; [lia|]. by split.
  - destruct (Z.eqb_spec (num (vring q)) 0) as [E|E].
    + rewrite Z.sub_diag. split; [lia|]. by split.
    + destruct (IH (i + 1)) as (Hb & Es & Hf). split; [lia|].
      replace (Z.to_nat (first_free qs (i + 1) - i)) with (S (Z.to_nat (first_free qs (i + 1) - (i + 1)))) by lia.
      cbn [take fmap list_fmap concat]. by split; [rewrite Es|constructor].
Qed.

(** The parts of [virtio_load] that do not depend on the queues. *)
Lemma load_config_space_put {B} (s : vstate B) cfg r :
  length cfg = length (config (vdev s)) -> Z.of_nat (length cfg) < 2 ^ 31 ->
  load_config_space s (mkFile (qemu_put_be32 (Z.of_nat (length cfg)) ++ cfg ++ r) 0)
  = (mod_vdev s (fun d => {| d with config := cfg |}), mkFile r 0).
Proof.
  intros Hlen Hsmall. unfold load_config_space. assert (Hr : in_range 32 (Z.of_nat (length cfg))) by (split; lia).
  rewrite get_be32_put by done. unfold config_len. rewrite <- Hlen.
  assert (Es : s32 (Z.of_nat (length cfg)) = Z.of_nat (length cfg)).
  { unfold signed. rewrite wrap_small by done. by rewrite (proj2 (Z.ltb_lt _ _)) by lia. }
  rewrite Es, wrap_small by (split; lia). rewrite Z.min_id, Nat2Z.id, get_buffer_app.
  rewrite wrap_small, Z.sub_diag by done. unfold skip_bytes. cbn [f_data]. rewrite (proj2 (Z.leb_le _ _)) by lia.
  cbn [Z.max Z.to_nat drop]. f_equal. unfold mod_vdev. do 2 f_equal. unfold blit. cbn [take app Nat.add].
  by rewrite Hlen, drop_all, app_nil_r.
Qed.

Lemma check_heads_ok {B} m (s : vstate B) i :
  rings_ok s -> 0 <= i -> i + Z.of_nat m <= VIRTIO_QUEUE_MAX ->
  (forall j, i <= j < i + Z.of_nat m -> desc (vring (queue s j)) <> 0 ->
     u16 (vring_avail_idx (mem s) (big s) (queue s j) - last_avail_idx (queue s j)) <= num (vring (queue s j))) ->
  check_heads m s i = Done true.
Proof.
  intros Hs. revert i. induction m as [|m IH]; intros i Hi Hm Hq; [done|]. cbn [check_heads].
  rewrite get_vq_in by (done || lia). change (Done (queue s i) ≫= ?f) with (f (queue s i)). cbv beta.
  rewrite IH; [|lia..|intros j Hj; apply Hq; lia]. destruct (Z.eqb_spec (desc (vring (queue s i))) 0); [done|].
  cbn [negb andb]. by rewrite Z.gtb_ltb, (proj2 (Z.ltb_ge _ _)) by (apply Hq; [lia|done]).
Qed.

Lemma load_all_vq {B} (s s1 : vstate B) i qs :
  vq (vdev s) = vq (vdev s1) -> vq (vdev (load_all s i qs)) = vq (vdev (load_all s1 i qs)).
Proof.
  revert s s1 i. induction qs as [|q qs IH]; intros s s1 i E; [done|]. cbn [load_all]. apply IH.
  unfold upd_queue, queue. cbn [vdev set_vdev vq]. by rewrite E.
Qed.

(** What a device class promises: reading its part back gives the state
    [restore] of the saved and of the new device. *)
Class SaveLaws {B} (ks : VirtioSaveClass B) (savable : B -> Prop) (restore : B -> B -> B) : Prop := {
  load_save : forall s b r, savable b ->
    match k_load ks with
    | Some ld => ld s (mkFile (match k_save ks with Some sv => sv b | None => [] end ++ r) 0)
    | None => Done (0, s, mkFile (match k_save ks with Some sv => sv b | None => [] end ++ r) 0)
    end = Done (0, set_backend s (restore b (backend s)), mkFile r 0)
}.

Section roundtrip.
Context {B : Type} (k : VirtioDeviceClass B) (ks : VirtioSaveClass B) (size : nat).
Implicit Types s : vstate B.

(** The rings lie where the transport puts them, a queue without rings was not
    used, and its indices are consistent. *)
Definition ring_saved s (q : VirtQueue) : Prop :=
  update_rings (vring q) = vring q /\
  (desc (vring q) = 0 -> last_avail_idx q = 0 /\ avail (vring q) = 0 /\ used (vring q) = 0) /\
  (desc (vring q) <> 0 -> u16 (vring_avail_idx (mem s) (big s) q - last_avail_idx q) <= num (vring q)).

(** A device that can be saved. *)
Record migratable s : Prop := {
  mg_ok : mmio_ok size s;
  mg_size : Z.of_nat size < 2 ^ 31;
  mg_endian : device_endian (vdev s) <> VIRTIO_DEVICE_ENDIAN_UNKNOWN;
  mg_host : in_range 64 (host_features (vdev s));
  mg_rings : forall i, exists_queue s i -> ring_saved s (queue s i)
}.

(** A new device of the same kind, with the guest's memory. *)
Record counterpart s s0 : Prop := {
  ct_ok : mmio_ok size s0;
  ct_mem : mem s0 = mem s;
  ct_host : host_features (vdev s0) = host_features (vdev s);
  ct_exists : forall i, exists_queue s0 i <-> exists_queue s i;
  ct_rings : forall i, 0 <= i < VIRTIO_QUEUE_MAX -> avail (vring (queue s0 i)) = 0 /\ used (vring (queue s0 i)) = 0
}.

(** The new device is the saved one. *)
Record migrated s s0 s' : Prop := {
  mi_mem : mem s' = mem s0;
  mi_status : status (vdev s') = status (vdev s);
  mi_isr : isr (vdev s') = isr (vdev s);
  mi_sel : queue_sel (vdev s') = queue_sel (vdev s);
  mi_features : guest_features (vdev s') = guest_features (vdev s) /\ host_features (vdev s') = host_features (vdev s);
  mi_config : config (vdev s') = config (vdev s);
  mi_endian : device_endian (vdev s') = device_endian (vdev s);
  mi_proxy : host_features_sel (proxy s') = host_features_sel (proxy s) /\
             guest_features_sel (proxy s') = guest_features_sel (proxy s) /\
             guest_page_shift (proxy s') = guest_page_shift (proxy s) /\ irq (proxy s') = irq (proxy s);
  mi_queues : forall i, 0 <= i < virtio_get_num_queues s ->
    vring (queue s' i) = vring (queue s i) /\ last_avail_idx (queue s' i) = last_avail_idx (queue s i) /\
    signalled_used_valid (queue s' i) = false /\ notification (queue s' i) = true
}.

Section proof.
Context (s s0 : vstate B) (Hs : migratable s) (Hs0 : counterpart s s0).

#[local] Abbreviation n := (Z.to_nat (virtio_get_num_queues s)).
#[local] Abbreviation qs := (take n (vq (vdev s))).

Lemma num_queues_bounds : 0 <= virtio_get_num_queues s <= VIRTIO_QUEUE_MAX.
Proof.
  destruct (first_free_spec (vq (vdev s)) 0) as [Hb _]. unfold virtio_get_num_queues.
  pose proof (proj1 (ok_queues s (co_rings _ (mo_core _ _ (mg_ok _ Hs))))) as Hl. lia.
Qed.

Lemma length_qs : length qs = n.
Proof.
  rewrite length_take. pose proof num_queues_bounds.
  pose proof (proj1 (ok_queues s (co_rings _ (mo_core _ _ (mg_ok _ Hs))))) as Hl. lia.
Qed.

Lemma lookup_qs i q : qs !! i = Some q -> q = queue s (Z.of_nat i) /\ exists_queue s (Z.of_nat i).
Proof.
  intros Hq. pose proof (lookup_lt_Some _ _ _ Hq) as Hlt. rewrite length_qs in Hlt.
  destruct (first_free_spec (vq (vdev s)) 0) as (_ & _ & Hf). rewrite Z.sub_0_r in Hf.
  apply lookup_take_Some in Hq as Hq'. destruct Hq' as [Hq' _].
  assert (E : queue s (Z.of_nat i) = q).
  { unfold queue, at_. rewrite Nat2Z.id. by apply list_lookup_total_correct. }
  split; [done|]. pose proof num_queues_bounds. split; [lia|]. rewrite E. by eapply Forall_lookup_1 in Hf.
Qed.

Lemma queue_qs i : 0 <= i < virtio_get_num_queues s -> qs !! Z.to_nat i = Some (queue s i) /\ exists_queue s i.
Proof.
  intros Hi. destruct (lookup_lt_is_Some_2 qs (Z.to_nat i)) as [q Hq]; [rewrite length_qs; lia|].
  destruct (lookup_qs _ _ Hq) as [-> He]. rewrite Z2Nat.id in * by lia. done.
Qed.

Lemma qs_saved : Forall queue_saved qs.
Proof.
  apply Forall_lookup. intros i q Hq. destruct (lookup_qs _ _ Hq) as [-> He]. destruct (mg_rings _ Hs _ He) as (_ & Hz & _).
  destruct He as [Hi Hn]. split; [|split; [done|naive_solver]].
  apply queue_ok_at; [apply (mg_ok _ Hs)|done].
Qed.

(** The queues of the new device. *)
Definition new_queue (i : Z) : VirtQueue :=
  let q := if i <? virtio_get_num_queues s then loaded (queue s i) (queue s0 i) else queue s0 i in
  if virtio_virtqueue_needed (vdev s) then with_rings (queue s i) q else q.

Lemma loaded_vring i : 0 <= i < virtio_get_num_queues s -> vring (loaded (queue s i) (queue s0 i)) = vring (queue s i).
Proof.
  intros Hi. destruct (queue_qs i Hi) as [_ He]. destruct (mg_rings _ Hs _ He) as (Hr & Hz & _).
  destruct (ct_rings _ _ Hs0 i (proj1 He)) as [Ha Hu]. cbn [loaded vring]. rewrite Ha, Hu.
  destruct (vring (queue s i)) as [nm al de av us]. cbn in *. unfold update_rings in *. cbn in *.
  destruct (Z.eqb_spec de 0) as [E|E]; [|done]. by destruct (Hz E) as (_ & -> & ->).
Qed.

Lemma new_queue_fields i : 0 <= i < virtio_get_num_queues s ->
  vring (new_queue i) = vring (queue s i) /\ last_avail_idx (new_queue i) = last_avail_idx (queue s i) /\
  signalled_used_valid (new_queue i) = false /\ notification (new_queue i) = true.
Proof.
  intros Hi. unfold new_queue. rewrite (proj2 (Z.ltb_lt _ _)) by lia. pose proof (loaded_vring i Hi) as E.
  destruct (virtio_virtqueue_needed _); [|done]. unfold with_rings. cbn [vring]. rewrite E. by destruct (vring (queue s i)).
Qed.

Lemma new_queue_ok i : 0 <= i < VIRTIO_QUEUE_MAX -> queue_ok (new_queue i).
Proof.
  intros Hi. pose proof (queue_ok_at s i (co_rings _ (mo_core _ _ (mg_ok _ Hs))) Hi) as Hq.
  pose proof (queue_ok_at s0 i (co_rings _ (mo_core _ _ (ct_ok _ _ Hs0))) Hi) as Hq0.
  unfold new_queue. cbv zeta.
  set (q := if i <? virtio_get_num_queues s then _ else _). assert (Hq1 : queue_ok q).
  { unfold q. destruct (Z.ltb_spec i (virtio_get_num_queues s)); [|done].
    destruct (queue_qs i) as [_ [_ ?]]; [lia|]. by apply loaded_ok. }
  destruct (virtio_virtqueue_needed _); [|done]. destruct Hq, Hq1. by split.
Qed.

Lemma new_queue_num i : 0 <= i < VIRTIO_QUEUE_MAX -> num (vring (new_queue i)) = 0 <-> num (vring (queue s0 i)) = 0.
Proof.
  intros Hi. destruct (Z.ltb_spec i (virtio_get_num_queues s)) as [Hlt|Hge].
  - destruct (new_queue_fields i) as [-> _]; [lia|]. pose proof (ct_exists _ _ Hs0 i) as [E1 E2].
    unfold exists_queue in *. destruct (decide (num (vring (queue s i)) = 0)), (decide (num (vring (queue s0 i)) = 0)); tauto.
  - unfold new_queue. rewrite (proj2 (Z.ltb_ge _ _)) by lia. by destruct (virtio_virtqueue_needed _).
Qed.

(** The state before the queues are loaded. *)
Definition header_state : vstate B :=
  let d := vdev s in let d0 := vdev s0 in let p := proxy s in let p0 := proxy s0 in
  mkVstate (mem s0)
    (mkVdev (status d) (isr d) (queue_sel d) (guest_features d0) (host_features d0) (config d) (config_vector d0)
       (generation d0) (vq d0) (device_id d0) VIRTIO_DEVICE_ENDIAN_UNKNOWN)
    (mkProxy (host_features_sel p) (guest_features_sel p) (guest_page_shift p) (ioeventfd_disabled p0)
       (ioeventfd_started p0) (ioeventfds p0) (irq p0)) (backend s0).

Lemma header_rings_ok : rings_ok header_state.
Proof. destruct (co_rings _ (mo_core _ _ (ct_ok _ _ Hs0))). by split. Qed.

Lemma queues_loaded i : 0 <= i < VIRTIO_QUEUE_MAX ->
  queue (load_all header_state 0 qs) i = if i <? virtio_get_num_queues s then loaded (queue s i) (queue s0 i) else queue s0 i.
Proof.
  intros Hi. pose proof num_queues_bounds as Hb. rewrite queue_load_all; [|apply header_rings_ok|lia| |done|apply qs_saved].
  2: { rewrite length_qs. lia. }
  change (queue header_state i) with (queue s0 i). rewrite Z.sub_0_r, (proj2 (Z.ltb_ge i 0)) by lia.
  destruct (Z.ltb_spec i (virtio_get_num_queues s)) as [Hlt|Hge].
  - destruct (queue_qs i) as [-> _]; [lia|done].
  - rewrite lookup_ge_None_2; [done|]. rewrite length_qs. lia.
Qed.

(** The array of the queues after the subsections. *)
Lemma restored_vq (l : list VirtQueue) :
  length l = length (vq (vdev s)) ->
  (forall i, 0 <= i < VIRTIO_QUEUE_MAX ->
     l.[i] = if i <? virtio_get_num_queues s then loaded (queue s i) (queue s0 i) else queue s0 i) ->
  let l' := if virtio_virtqueue_needed (vdev s) then zip_with with_rings (vq (vdev s)) l else l in
  length l' = length (vq (vdev s)) /\ forall i, 0 <= i < VIRTIO_QUEUE_MAX -> l'.[i] = new_queue i.
Proof.
  intros Hlen Hl l'. pose proof (proj1 (ok_queues s (co_rings _ (mo_core _ _ (mg_ok _ Hs))))) as Hsl.
  unfold l', new_queue. destruct (virtio_virtqueue_needed (vdev s)); [|by split].
  split; [rewrite length_zip_with; lia|]. intros i Hi. cbv zeta. rewrite <- Hl by done.
  unfold queue, at_. rewrite !list_lookup_total_alt, lookup_zip_with.
  destruct (lookup_lt_is_Some_2 (vq (vdev s)) (Z.to_nat i)) as [q ->]; [lia|].
  by destruct (lookup_lt_is_Some_2 l (Z.to_nat i)) as [q0 ->]; [lia|].
Qed.

(** The features the guest accepted fit where they are saved. *)
Lemma features_saved :
  in_range 64 (guest_features (vdev s)) /\
  Z.land (guest_features (vdev s)) (host_features (vdev s)) = guest_features (vdev s) /\
  (virtio_64bit_features_needed (vdev s) = false ->
   Z.land (guest_features (vdev s)) 0xffffffff = guest_features (vdev s)).
Proof.
  destruct (co_features _ (mo_core _ _ (mg_ok _ Hs))) as (Hh & Hg & Hsub). pose proof (mg_host _ Hs) as Hr.
  set (g := guest_features (vdev s)) in *. set (h := host_features (vdev s)) in *.
  rewrite <- Z.ldiff_land in Hsub. pose proof (Z.ldiff_le g h Hh Hsub) as Hle. split; [split; [lia|apply Z.le_lt_trans with h; [lia|apply Hr]]|].
  split.
  - apply Z.bits_inj'. intros i Hi. apply (f_equal (fun z => Z.testbit z i)) in Hsub.
    rewrite Z.ldiff_spec, Z.bits_0 in Hsub. rewrite Z.land_spec.
    destruct (Z.testbit g i), (Z.testbit h i); done.
  - intros Hn. apply negb_false_iff, Z.eqb_eq in Hn. fold h in Hn. rewrite Z.shiftr_div_pow2 in Hn by lia.
    change 0xffffffff with (Z.ones 32). rewrite Z.land_ones by lia. apply Z.mod_small.
    apply Z.div_small_iff in Hn; [|lia]. lia.
Qed.

(** Loading the subsections restores byte order, features and rings. *)
Lemma restored_fields d d0 :
  let d' := restore_rings d (restore_features d (restore_endian d d0)) in
  (status d' = status d0 /\ isr d' = isr d0 /\ queue_sel d' = queue_sel d0 /\ host_features d' = host_features d0 /\
   config d' = config d0) /\
  device_endian d' = (if virtio_device_endian_needed d then device_endian d else device_endian d0) /\
  guest_features d' = (if virtio_64bit_features_needed d then guest_features d else guest_features d0) /\
  vq d' = (if virtio_virtqueue_needed d then zip_with with_rings (vq d) (vq d0) else vq d0).
Proof. unfold restore_rings, restore_features, restore_endian. by repeat case_match. Qed.

(** A byte order that is not saved is the default one. *)
Lemma endian_default d :
  device_endian d <> VIRTIO_DEVICE_ENDIAN_UNKNOWN ->
  (if virtio_device_endian_needed d then device_endian d else virtio_default_endian) = device_endian d.
Proof.
  intros Hu. unfold virtio_device_endian_needed, virtio_default_endian.
  destruct (virtio_has_feature _ _), (device_endian d); done.
Qed.

Lemma fix_endian d (s5 : vstate B) :
  device_endian d <> VIRTIO_DEVICE_ENDIAN_UNKNOWN ->
  device_endian (vdev s5) = (if virtio_device_endian_needed d then device_endian d else VIRTIO_DEVICE_ENDIAN_UNKNOWN) ->
  (if bool_decide (device_endian (vdev s5) = VIRTIO_DEVICE_ENDIAN_UNKNOWN)
   then mod_vdev s5 (fun d => {| d with device_endian := virtio_default_endian |}) else s5)
  = mod_vdev s5 (fun d5 => {| d5 with device_endian := device_endian d |}).
Proof.
  intros Hu E. pose proof (endian_default d Hu) as Hd. rewrite E. destruct (virtio_device_endian_needed d).
  - rewrite bool_decide_false, <- E by done. by destruct s5 as [? [] ? ?].
  - by rewrite bool_decide_true, Hd.
Qed.

Context {savable : B -> Prop} {restore : B -> B -> B} `{!SaveLaws ks savable restore}.

(** The device after everything was loaded. *)
Definition loaded_device (s' : vstate B) : Prop :=
  mem s' = mem s0 /\
  (status (vdev s') = status (vdev s) /\ isr (vdev s') = isr (vdev s) /\ queue_sel (vdev s') = queue_sel (vdev s) /\
   host_features (vdev s') = host_features (vdev s) /\ config (vdev s') = config (vdev s)) /\
  device_endian (vdev s') = device_endian (vdev s) /\ guest_features (vdev s') = guest_features (vdev s) /\
  length (vq (vdev s')) = length (vq (vdev s)) /\ (forall i, 0 <= i < VIRTIO_QUEUE_MAX -> queue s' i = new_queue i) /\
  proxy s' = (let p := proxy header_state in {| p with irq := negb (isr (vdev s) =? 0) |}) /\
  backend s' = call_opt (k_set_features k) (guest_features (vdev s)) (restore (backend s) (backend s0)).

Lemma loaded_device_rings s' : loaded_device s' -> rings_ok s' /\ big s' = big s.
Proof.
  intros (Em & _ & Ee & Eg & Hl & Hq & _). split.
  - split; [rewrite Em; apply (co_rings _ (mo_core _ _ (ct_ok _ _ Hs0)))|].
    pose proof (proj1 (ok_queues s (co_rings _ (mo_core _ _ (mg_ok _ Hs))))) as Hn.
    split; [lia|]. apply Forall_lookup. intros i q Hi. pose proof (lookup_lt_Some _ _ _ Hi).
    replace q with (queue s' (Z.of_nat i)); [rewrite Hq by lia; apply new_queue_ok; lia|].
    unfold queue, at_. rewrite Nat2Z.id. by apply list_lookup_total_correct.
  - unfold big, virtio_access_is_big_endian, virtio_has_feature. by rewrite Ee, Eg.
Qed.

Lemma loaded_device_heads s' : loaded_device s' -> check_heads n s' 0 = Done true.
Proof.
  intros Hl. destruct (loaded_device_rings s' Hl) as [Hr Eb]. destruct Hl as (Em & _ & _ & _ & _ & Hq & _).
  pose proof num_queues_bounds. apply check_heads_ok; [done|lia..|]. intros j Hj Hd.
  rewrite Hq in * by lia. destruct (new_queue_fields j) as (Ev & Ela & _); [lia|].
  destruct (queue_qs j) as [_ He]; [lia|]. destruct (mg_rings _ Hs _ He) as (_ & _ & Hh).
  rewrite Em, (ct_mem _ _ Hs0), Eb. unfold vring_avail_idx in *. rewrite Ev in *. rewrite Ela. by apply Hh.
Qed.

Lemma load_rest_put b r :
  savable (backend s) -> b <> QEMU_VM_SUBSECTION ->
  exists s', load_rest k ks (load_all header_state 0 qs) (Z.land (guest_features (vdev s)) 0xffffffff) n
      (mkFile (match k_save ks with Some sv => sv (backend s) | None => [] end
               ++ vmstate_subsection_save virtio_subsections (vdev s) ++ b :: r) 0)
    = Done (0, s', mkFile (b :: r) 0) /\ loaded_device s'.
Proof.
  intros Hsav Hb. destruct (load_all_other header_state 0 qs) as (Em & Ep & Eb & Ed). pose proof queues_loaded as Hql.
  pose proof (co_rings _ (mo_core _ _ (mg_ok _ Hs))) as Hrs.
  destruct (load_queues_put header_state 0 qs [] header_rings_ok) as [_ Hr2]; [lia| |apply qs_saved|].
  { rewrite length_qs. pose proof num_queues_bounds. lia. }
  set (s2 := load_all header_state 0 qs) in *. destruct features_saved as (G1 & G2 & G3).
  unfold load_rest. cbv zeta. rewrite load_save by done. cbn [mbind outcome_bind]. change (negb (0 =? 0)) with false. cbv iota.
  set (s4 := set_backend (virtio_notify_vector s2) _). assert (E4 : vdev s4 = vdev s2) by done.
  assert (Hlen : length (vq (vdev s4)) = length (vq (vdev s))).
  { rewrite E4. pose proof (proj1 (ok_queues s2 Hr2)). pose proof (proj1 (ok_queues s Hrs)). lia. }
  rewrite (load_virtio_put (vdev s) (vdev s4)) by (done || apply (ok_queues s Hrs)).
  cbn [mbind outcome_bind]. change (negb (0 =? 0)) with false. cbv iota.
  destruct (restored_fields (vdev s) (vdev s4)) as ((R1 & R2 & R3 & R4 & R5) & R6 & R7 & R8).
  destruct (restored_vq (vq (vdev s4)) Hlen) as [L1 L2]; [rewrite E4; exact Hql|].
  rewrite <- R8 in L1, L2. set (d5 := restore_rings _ _) in *. rewrite E4, Ed in R1, R2, R3, R4, R5, R6.
  cbn in R1, R2, R3, R4, R5, R6. rewrite (ct_host _ _ Hs0) in R4.
  rewrite (fix_endian (vdev s)) by (done || apply (mg_endian _ Hs)). set (s6 := mod_vdev _ _).
  assert (E64 : virtio_64bit_features_needed (vdev s6) = virtio_64bit_features_needed (vdev s)).
  { unfold virtio_64bit_features_needed. cbn. by rewrite R4. }
  set (feats := if virtio_64bit_features_needed (vdev s6) then _ else _).
  assert (Ef : feats = guest_features (vdev s)).
  { unfold feats. rewrite E64. cbn. rewrite R7. destruct (virtio_64bit_features_needed (vdev s)); [done|by apply G3]. }
  clearbody feats. subst feats. unfold virtio_set_features_nocheck. cbv zeta.
  replace (host_features (vdev s6)) with (host_features (vdev s)) by (symmetry; exact R4). rewrite G2.
  destruct (co_features _ (mo_core _ _ (mg_ok _ Hs))) as (_ & _ & ->). cbn [Z.eqb negb Z.ltb Z.compare].
  set (s' := mod_vdev _ _).
  assert (Hl : loaded_device s').
  { unfold loaded_device, s', s6, s4, queue. cbn. rewrite Em, Ep, Eb, R1, R2, R3, R4, R5, Ed. cbn. repeat (split; [done|]). done. }
  exists s'. split; [|done]. by rewrite loaded_device_heads.
Qed.

Lemma loaded_device_ok s' : loaded_device s' -> mmio_ok size s'.
Proof.
  intros Hl. destruct (loaded_device_rings s' Hl) as [Hr _].
  destruct Hl as (Em & (E1 & E2 & E3 & E4 & E5) & Ee & Eg & _ & Hq & Ep & _).
  destruct (mg_ok _ Hs) as [[] Hsz _], (ct_ok _ _ Hs0) as [[] _ Hfds0]. split; [|by rewrite E5|].
  - split; try done; rewrite ?E1, ?E2, ?E3, ?E4, ?E5, ?Ee, ?Eg, ?Em, ?Ep; done.
  - intros i. rewrite Ep. cbn. rewrite (Hfds0 i). unfold exists_queue.
    destruct (decide (0 <= i < VIRTIO_QUEUE_MAX)) as [Hi|]; [|naive_solver].
    rewrite Hq by done. pose proof (new_queue_num i Hi). naive_solver.
Qed.

Lemma loaded_device_migrated s' : loaded_device s' -> migrated s s0 s'.
Proof.
  intros (Em & (E1 & E2 & E3 & E4 & E5) & Ee & Eg & _ & Hq & Ep & _). pose proof num_queues_bounds.
  split; try done.
  - rewrite Ep. cbn. by rewrite (co_irq _ (mo_core _ _ (mg_ok _ Hs))).
  - intros i Hi. rewrite Hq by lia. by apply new_queue_fields.
Qed.

(** [virtio_load] on the stream of [virtio_save]. *)
Lemma virtio_load_put b r :
  savable (backend s) -> b <> QEMU_VM_SUBSECTION ->
  exists bytes s', virtio_save ks s = Done bytes /\
    virtio_load k ks s0 (mkFile (bytes ++ b :: r) 0) = Done (0, s', mkFile (b :: r) 0) /\ loaded_device s'.
Proof.
  intros Hsav Hb. pose proof num_queues_bounds as Hn. destruct (load_rest_put b r Hsav Hb) as (s' & El & Hl).
  destruct (mg_ok _ Hs) as [[Hr _ Hst Hisr Hsel _ _ Hsh [Hs1 Hs2] _] Hsz _]. pose proof (mg_size _ Hs) as Hsz31.
  unfold virtio_save. cbv zeta. rewrite bool_decide_false by apply (mg_endian _ Hs). eexists _, s'.
  split; [reflexivity|]. split; [|done]. unfold virtio_load, virtio_mmio_load_config, virtio_mmio_save_config. cbv zeta.
  rewrite <- !app_assoc. rewrite get_be32_put, get_be32_put by done. rewrite get_be32_put by (split; lia).
  rewrite get_byte_put, get_byte_put by done. rewrite get_be16_put by (unfold VIRTIO_QUEUE_MAX in *; split; lia).
  rewrite Z.geb_leb, (proj2 (Z.leb_gt _ _)) by lia.
  rewrite get_be32_put by (change 0xffffffff with (Z.ones 32); rewrite Z.land_ones by lia; apply (wrap_range 32); lia).
  unfold config_len. rewrite load_config_space_put; [|cbn; rewrite Hsz; symmetry; apply (mo_size _ _ (ct_ok _ _ Hs0))|lia].
  destruct (first_free_spec (vq (vdev s)) 0) as (_ & Esv & _). rewrite Z.sub_0_r in Esv. rewrite Esv.
  change (first_free (vq (vdev s)) 0) with (virtio_get_num_queues s).
  rewrite get_be32_put by (unfold VIRTIO_QUEUE_MAX in *; split; lia). rewrite Z.gtb_ltb, (proj2 (Z.ltb_ge _ _)) by lia.
  match goal with |- context [load_queues _ ?x 0 _] => change x with header_state end.
  destruct (load_queues_put header_state 0 qs
    (match k_save ks with Some sv => sv (backend s) | None => [] end
     ++ vmstate_subsection_save virtio_subsections (vdev s) ++ b :: r) header_rings_ok) as [Eq _];
    [lia|rewrite length_qs; lia|apply qs_saved|].
  rewrite length_qs in Eq. rewrite Eq. cbn [mbind outcome_bind]. change (negb (0 =? 0)) with false. cbv iota. exact El.
Qed.
End proof.
End roundtrip.
