(* ===== verification/VirtioMigrateTheorems.v ===== *)
(** * Saving and loading virtio devices: theorems

    The round trip for every device class that can restore its own part, the two
    devices of this emulator among them, and that a device goes on where it was
    saved. *)

From S2P Require Import Prelude CArray Virtqueue VirtqueueProofs VirtioMmio VirtioMmioProofs VirtioDevs VirtioMigrate VirtioMigrateProofs.

(** ** The devices' own parts *)

(** A device that carries no request over. *)
Lemma load_save_none {B} image set_rq (s : vstate B) r :
  load_request set_rq s (mkFile (save_request image None ++ r) 0) = Done (0, s, mkFile r 0).
Proof. unfold load_request, save_request. cbn [app]. by rewrite get_byte_put. Qed.

Lemma set_backend_id {B} (s : vstate B) : set_backend s (backend s) = s.
Proof. by destruct s. Qed.

#[export] Instance virtio_msg_saves H image :
  SaveLaws (@virtio_msg_save_class image H) (fun b => msg_rq b = None) (fun _ b => b).
Proof. split. intros s b r Hb. cbn. rewrite Hb, set_backend_id. apply load_save_none. Qed.

#[export] Instance virtio_tp_saves image : SaveLaws (virtio_tp_save_class image) (fun b => tp_rq b = None) (fun _ b => b).
Proof. split. intros s b r Hb. cbn. rewrite Hb, set_backend_id. apply load_save_none. Qed.

(** ** Taking the next request *)

(** What the device is handed, without the state it goes on in. *)
Definition popped {B} (o : outcome (option VirtQueueElement * vstate B)) : outcome (option VirtQueueElement) :=
  match o with Done (e, _) => Done e | Exit => Exit | Crash f => Crash f end.

Section same.
Context {B : Type} (s s' : vstate B).

(** Two devices that see the same memory in the same byte order. *)
Record same_view : Prop := {
  sv_mem : mem s' = mem s;
  sv_big : big s' = big s
}.
Context (Hv : same_view).

Lemma next_desc_same pa i max : virtqueue_next_desc s' pa i max = virtqueue_next_desc s pa i max.
Proof. destruct Hv as [Em Eb]. unfold virtqueue_next_desc. by rewrite Em, Eb. Qed.

Lemma add_desc_same pa i e : add_desc s' pa i e = add_desc s pa i e.
Proof. destruct Hv as [Em Eb]. unfold add_desc. by rewrite Em, Eb. Qed.

Lemma collect_same fuel pa max i e : collect fuel s' pa max i e = collect fuel s pa max i e.
Proof.
  revert i e. induction fuel as [|k IH]; intros i e; [done|]. cbn [collect]. rewrite add_desc_same.
  destruct (add_desc s pa i e) as [e'| |]; [|done..]. cbn [mbind outcome_bind]. destruct (_ >? max); [done|].
  rewrite next_desc_same. destruct (virtqueue_next_desc s pa i max) as [i'| |]; [|done..]. cbn [mbind outcome_bind].
  by rewrite IH.
Qed.

Lemma desc_table_same q q' head : vring q' = vring q -> desc_table s' q' head = desc_table s q head.
Proof. destruct Hv as [Em Eb]. intros E. unfold desc_table. by rewrite Em, Eb, E. Qed.

Lemma heads_same q q' idx : vring q' = vring q ->
  virtqueue_num_heads s' q' idx = virtqueue_num_heads s q idx /\ virtqueue_get_head s' q' idx = virtqueue_get_head s q idx.
Proof.
  destruct Hv as [Em Eb]. intros E. unfold virtqueue_num_heads, virtqueue_get_head, vring_avail_idx, vring_avail_ring.
  by rewrite Em, Eb, E.
Qed.
End same.

(** The next request is the same on two devices whose queues are at the same
    point. *)
Lemma pop_same {B} (s s' : vstate B) n :
  rings_ok s -> rings_ok s' -> 0 <= n < VIRTIO_QUEUE_MAX -> same_view s s' ->
  vring (queue s' n) = vring (queue s n) -> last_avail_idx (queue s' n) = last_avail_idx (queue s n) ->
  guest_features (vdev s') = guest_features (vdev s) ->
  virtio_has_feature (vdev s) VIRTIO_RING_F_EVENT_IDX = false \/ notification (queue s' n) = notification (queue s n) ->
  popped (virtqueue_pop s' n) = popped (virtqueue_pop s n).
Proof.
  intros Hs Hs' Hn Hv Er El Eg Hev. unfold virtqueue_pop. rewrite !get_vq_in by done.
  change (Done (queue ?x n) ≫= ?f) with (f (queue x n)). cbv beta.
  destruct (heads_same s s' Hv (queue s n) (queue s' n) (last_avail_idx (queue s n)) Er) as [Eh Eg'].
  rewrite El, Eh, Eg'. destruct (virtqueue_num_heads s _ _) as [nh| |]; [|done..]. cbn [mbind outcome_bind].
  destruct (nh =? 0); [done|]. destruct (virtqueue_get_head s _ _) as [head| |]; [|done..]. cbn [mbind outcome_bind].
  rewrite !mod_vq_in by done. cbn [mbind outcome_bind]. set (f := fun q : VirtQueue => {| q with last_avail_idx := u16 (last_avail_idx q + 1) |}).
  assert (Hf : forall x : vstate B, rings_ok x -> rings_ok (upd_queue x n f)).
  { intros x Hx. apply rings_ok_upd; [done|]. destruct (queue_ok_at x n Hx Hn). split; try done. by apply wrap_range. }
  rewrite !get_vq_in, !queue_upd by auto. change (Done ?x ≫= ?f) with (f x). cbv beta zeta.
  set (t' := if virtio_has_feature (vdev (upd_queue s' n f)) _ then _ else _).
  set (t := if virtio_has_feature (vdev (upd_queue s n f)) _ then _ else _).
  assert (Hq : forall x : vstate B, rings_ok x -> queues_ok (vq (vdev (upd_queue x n f)))) by (intros x Hx; apply Hf, Hx).
  assert (Ht : same_view t t' /\ vq (vdev t') = vq (vdev (upd_queue s' n f)) /\ vq (vdev t) = vq (vdev (upd_queue s n f))).
  { destruct Hv as [Em Eb]. unfold t, t', virtio_has_feature in *. cbn. rewrite Eg.
    destruct (flag_set (guest_features (vdev s)) _) eqn:Ef; [|by split; [split|]]. split; [|done]. split; [|done]. cbn.
    change (big (upd_queue s' n f)) with (big s'). change (big (upd_queue s n f)) with (big s).
    unfold vring_set_avail_event. cbn. rewrite Em, Eb, Er, El. by destruct Hev as [Hev| ->]; [congruence|]. }
  destruct Ht as (Ht & Q' & Q). clearbody t t'.
  rewrite (desc_table_same t t' Ht (f (queue s n)) (f (queue s' n)) head Er).
  destruct (desc_table t _ head) as [[[pa max] i]| |]; [|done..]. cbn [mbind outcome_bind].
  rewrite (collect_same t t' Ht). destruct (collect _ t pa max i _) as [e| |]; [|done..]. cbn [mbind outcome_bind].
  rewrite (sv_mem _ _ Ht). destruct (virtqueue_map_sg (mem t) _ _ _) as [[isg m]| |]; [|done..]. cbn [mbind outcome_bind].
  destruct (virtqueue_map_sg m _ _ _) as [[osg m']| |]; [|done..]. cbn [mbind outcome_bind].
  unfold mod_vq, get_vq. cbn [vdev set_mem vq]. rewrite Q, Q'.
  rewrite !(aget_in _ _ _ _ (Hq _ Hs)), !(aget_in _ _ _ _ (Hq _ Hs')) by done. cbn [lift mbind outcome_bind].
  by rewrite !(aset_in _ _ _ _ _ (Hq _ Hs)), !(aset_in _ _ _ _ _ (Hq _ Hs')).
Qed.

(** ** The round trip *)

(** C8: saving a virtio device of any class that can restore its own part and
    loading the stream into a new device of the same kind succeeds, consumes
    exactly what was saved, and makes the new device the saved one: registers,
    accepted features, byte order, configuration space, transport registers,
    interrupt line, and every queue with its rings and its position; the new
    device satisfies the invariant of the transport, notifies the guest anew, and
    takes the same next request from each queue. *)
Theorem virtio_migration_roundtrip {B} (k : VirtioDeviceClass B) ks size savable restore
    `{!SaveLaws ks savable restore} (s s0 : vstate B) b rest :
  migratable size s -> counterpart size s s0 -> savable (backend s) -> b <> QEMU_VM_SUBSECTION ->
  exists bytes s', virtio_save ks s = Done bytes /\
    virtio_load k ks s0 (mkFile (bytes ++ b :: rest) 0) = Done (0, s', mkFile (b :: rest) 0) /\
    mmio_ok size s' /\ migrated s s0 s' /\
    backend s' = call_opt (k_set_features k) (guest_features (vdev s)) (restore (backend s) (backend s0)) /\
    (forall n, 0 <= n < virtio_get_num_queues s ->
       virtio_has_feature (vdev s) VIRTIO_RING_F_EVENT_IDX = false \/ notification (queue s n) = true ->
       popped (virtqueue_pop s' n) = popped (virtqueue_pop s n)).
Proof.
  intros Hs Hs0 Hsav Hb. destruct (virtio_load_put k ks size s s0 Hs Hs0 b rest Hsav Hb) as (bytes & s' & Es & El & Hl).
  pose proof (loaded_device_migrated k size s s0 Hs Hs0 s' Hl) as Hm.
  exists bytes, s'. split; [done|]. split; [done|]. split; [by eapply loaded_device_ok|]. split; [done|].
  split; [apply Hl|]. intros n Hn Hev. pose proof (num_queues_bounds size s Hs).
  destruct (loaded_device_rings k size s s0 Hs Hs0 s' Hl) as [Hr Hbig].
  destruct (mi_queues _ _ _ Hm n Hn) as (Ev & Ela & _ & Enot).
  apply pop_same; try done; [apply (mg_ok _ _ Hs)|lia| |apply (mi_features _ _ _ Hm)|].
  - split; [|done]. by rewrite (mi_mem _ _ _ Hm), (ct_mem _ _ _ Hs0).
  - rewrite Enot. destruct Hev as [?| ->]; [by left|by right].
Qed.
