(* ===== verification/VirtioLoadProofs.v ===== *)
(** * Loading a virtio device from any stream

    What [virtio_load] of [src/host-qemu/hw/virtio/virtio.c] guarantees when the
    stream is not one that was saved: cut off, corrupted or made up.  Reading
    only moves forward in the stream; the loop over the subsections ends; and what
    is accepted has been checked. *)

From S2P Require Import Prelude CArray Virtqueue VirtqueueProofs VirtioMmio VirtioDevs VirtioMigrate.

(** ** Reading from any stream *)

Definition bytes_ok (f : QEMUFile) : Prop := Forall (in_range 8) (f_data f).

(** [f'] is what is left of [f] after some bytes were read. *)
Definition after (f f' : QEMUFile) : Prop := f_data f' `suffix_of` f_data f.

#[global] Instance after_preorder : PreOrder after.
Proof. split; [by intros f; exists []|]. intros f1 f2 f3 H1 H2. unfold after in *. by etrans. Qed.

Lemma after_bytes f f' : bytes_ok f -> after f f' -> bytes_ok f'.
Proof. unfold bytes_ok, after. intros H [l E]. rewrite E in H. by apply Forall_app in H as [_ ?]. Qed.

Lemma after_length f f' : after f f' -> (length (f_data f') <= length (f_data f))%nat.
Proof. apply suffix_length. Qed.

Lemma suffix_drop {A} n (l : list A) : drop n l `suffix_of` l.
Proof. exists (take n l). by rewrite take_drop. Qed.

(** Errors do not change what is left. *)
Lemma set_error_data f e : f_data (qemu_file_set_error f e) = f_data f.
Proof. unfold qemu_file_set_error. by destruct (_ =? _). Qed.

Lemma peek_byte_spec f n b f' :
  bytes_ok f -> qemu_peek_byte f n = (b, f') -> in_range 8 b /\ f_data f' = f_data f.
Proof.
  unfold qemu_peek_byte. intros Hf E. destruct (f_data f !! n) as [x|] eqn:Ex; injection E as <- <-.
  - split; [|done]. by eapply Forall_lookup_1 in Hf.
  - rewrite set_error_data. done.
Qed.

Lemma file_skip_after f n : after f (qemu_file_skip f n).
Proof. unfold qemu_file_skip, after. destruct (_ <=? _)%nat; cbn; [apply suffix_drop|done]. Qed.

Lemma file_skip_length f n : (n <= length (f_data f))%nat -> length (f_data (qemu_file_skip f n)) = (length (f_data f) - n)%nat.
Proof. intros Hn. unfold qemu_file_skip. rewrite (proj2 (Nat.leb_le _ _)) by done. cbn. by rewrite length_drop. Qed.

Lemma get_byte_spec f b f' : bytes_ok f -> qemu_get_byte f = (b, f') -> in_range 8 b /\ after f f'.
Proof.
  unfold qemu_get_byte. intros Hf. destruct (qemu_peek_byte f 0) as [x f1] eqn:E. intros [= <- <-].
  apply peek_byte_spec in E as [Hb E]; [|done]. split; [done|]. unfold after. rewrite <- E. apply file_skip_after.
Qed.

Lemma peek_buffer_data f size off bs f' : qemu_peek_buffer f size off = (bs, f') -> f_data f' = f_data f.
Proof. unfold qemu_peek_buffer. intros [= <- <-]. destruct (_ <? _)%nat; [apply set_error_data|done]. Qed.

Lemma get_buffer_spec f size bs f' :
  bytes_ok f -> qemu_get_buffer f size = (bs, f') -> Forall (in_range 8) bs /\ (length bs <= size)%nat /\ after f f'.
Proof.
  unfold qemu_get_buffer. intros Hf. destruct (qemu_peek_buffer f size 0) as [x f1] eqn:E. intros [= <- <-].
  pose proof (peek_buffer_data _ _ _ _ _ E) as Ed. unfold qemu_peek_buffer in E. injection E as <- _.
  split; [by apply Forall_take, Forall_drop|]. split; [rewrite length_take; lia|].
  unfold after. cbn [f_data]. rewrite Ed. apply suffix_drop.
Qed.

(** Values composed of bytes have the width of their parts. *)
Lemma shifted_range w n v : 0 <= n <= w -> in_range (w - n) v -> in_range w (Z.shiftl v n).
Proof.
  intros Hn [H1 H2]. rewrite Z.shiftl_mul_pow2 by lia.
  assert (2 ^ w = 2 ^ (w - n) * 2 ^ n) as E by (rewrite <- Z.pow_add_r by lia; f_equal; lia). split; [nia|]. rewrite E. nia.
Qed.

Lemma range_widen v w w' : 0 <= w <= w' -> in_range w v -> in_range w' v.
Proof. intros Hw [H1 H2]. split; [done|]. pose proof (Z.pow_le_mono_r 2 w w'). lia. Qed.

Ltac be_range :=
  repeat first [apply lor_range | apply shifted_range]; try lia;
  match goal with H : in_range _ ?b |- in_range _ ?b => eapply range_widen; [|exact H]; lia end.

(** Follows a sequence of reads. *)
Ltac follow := repeat match goal with
  | |- after ?a ?a => reflexivity
  | H : after ?a ?b |- after ?a _ => etrans; [exact H|]; clear H
  end.

(** Reads the next value with the function [g] of specification [spec]. *)
Ltac read_with g spec :=
  match goal with
  | Hf : bytes_ok ?f |- context [g ?f] =>
      let v := fresh "v" in let f' := fresh "f" in let E := fresh "E" in let Hv := fresh "Hv" in let Ha := fresh "Ha" in
      let Hf' := fresh "Hf" in
      destruct (g f) as [v f'] eqn:E; apply spec in E as [Hv Ha]; [|exact Hf];
      pose proof (after_bytes _ _ Hf Ha) as Hf'
  end.

Lemma get_be16_spec f v f' : bytes_ok f -> qemu_get_be16 f = (v, f') -> in_range 16 v /\ after f f'.
Proof.
  intros Hf. unfold qemu_get_be16. do 2 read_with qemu_get_byte get_byte_spec. intros [= <- <-].
  split; [be_range|follow].
Qed.

Lemma get_be32_spec f v f' : bytes_ok f -> qemu_get_be32 f = (v, f') -> in_range 32 v /\ after f f'.
Proof.
  intros Hf. unfold qemu_get_be32. do 4 read_with qemu_get_byte get_byte_spec. intros [= <- <-].
  split; [be_range|follow].
Qed.

Lemma get_be64_spec f v f' : bytes_ok f -> qemu_get_be64 f = (v, f') -> in_range 64 v /\ after f f'.
Proof.
  intros Hf. unfold qemu_get_be64. do 2 read_with qemu_get_be32 get_be32_spec. intros [= <- <-].
  split; [be_range|follow].
Qed.

Ltac read := first
  [ read_with qemu_get_byte get_byte_spec | read_with qemu_get_be16 get_be16_spec
  | read_with qemu_get_be32 get_be32_spec | read_with qemu_get_be64 get_be64_spec ].

(** ** Subsections *)

Lemma peek_subsection_spec name f sub f' :
  bytes_ok f -> peek_subsection name f = (sub, f') ->
  f_data f' = f_data f /\ (forall idstr, sub = Some idstr -> (2 + length idstr <= length (f_data f))%nat).
Proof.
  intros Hf. unfold peek_subsection. destruct (qemu_peek_byte f 0) as [t f1] eqn:E1.
  apply peek_byte_spec in E1 as [_ D1]; [|done]. destruct (negb _); [by intros [= <- <-]|].
  destruct (qemu_peek_byte f1 1) as [len f2] eqn:E2.
  apply peek_byte_spec in E2 as [Hl D2]; [|unfold bytes_ok; by rewrite D1]. destruct (_ <? _) eqn:Elt; [intros [= <- <-]; split; [congruence|done]|].
  destruct (qemu_peek_buffer f2 (Z.to_nat len) 2) as [ids f3] eqn:E3. pose proof (peek_buffer_data _ _ _ _ _ E3) as D3.
  destruct (negb (_ =? len)) eqn:El; [intros [= <- <-]; split; [congruence|done]|].
  destruct (negb (list_eqb _ _)); intros [= <- <-]; (split; [congruence|]); [done|]. intros idstr [= <-].
  unfold qemu_peek_buffer in E3. injection E3 as <- _. zb. rewrite D2, D1 in *.
  rewrite length_take, length_drop in *. lia.
Qed.

(** What loading a subsection leaves alone. *)
Record dev_kept_by_sub (d d' : VirtIODevice) : Prop := {
  ks_vq : length (vq d') = length (vq d);
  ks_host : host_features d' = host_features d;
  ks_sel : queue_sel d' = queue_sel d;
  ks_status : status d' = status d;
  ks_isr : isr d' = isr d;
  ks_config : config d' = config d
}.

#[global] Instance dev_kept_by_sub_preorder : PreOrder dev_kept_by_sub.
Proof. split; [by intros d; split|]. intros d1 d2 d3 [] []. split; congruence. Qed.

Definition sub_reads (v : VMStateDescription) : Prop :=
  forall d f d' f', bytes_ok f -> vmsd_get v d f = (d', f') -> dev_kept_by_sub d d' /\ after f f'.

Lemma get_virtqueues_spec qs f qs' f' :
  bytes_ok f -> get_virtqueues qs f = (qs', f') -> length qs' = length qs /\ after f f'.
Proof.
  revert f qs' f'. induction qs as [|q qs IH]; intros f qs' f' Hf; cbn [get_virtqueues]; [by intros [= <- <-]|].
  do 2 read. destruct (get_virtqueues qs f1) as [l f2] eqn:E. apply IH in E as [El Ea]; [|done].
  intros [= <- <-]. cbn. split; [congruence|follow].
Qed.

Lemma virtio_subsections_read : Forall sub_reads virtio_subsections.
Proof.
  unfold virtio_subsections. rewrite !Forall_cons. split_and!; [..|done]; intros d f d' f' Hf; cbn.
  - read. intros [= <- <-]. by split; [split|].
  - read. intros [= <- <-]. by split; [split|].
  - unfold get_virtqueue_state. destruct (get_virtqueues (vq d) f) as [qs f1] eqn:E.
    apply get_virtqueues_spec in E as [El Ea]; [|done]. intros [= <- <-]. by split; [split|].
Qed.

Lemma vmstate_load_sub_spec v d f version_id ret d' f' :
  sub_reads v -> bytes_ok f -> vmstate_load_sub v d f version_id = (ret, d', f') -> dev_kept_by_sub d d' /\ after f f'.
Proof.
  intros Hv Hf. unfold vmstate_load_sub. destruct (negb _); [by intros [= <- <- <-]|].
  destruct (vmsd_get v d f) as [d1 f1] eqn:E. apply Hv in E as [Hk Ha]; [|done].
  pose proof (after_bytes _ _ Hf Ha) as Hf1. destruct (_ <? _); [by intros [= <- <- <-]|].
  destruct (peek_subsection (vmsd_name v) f1) as [sub f2] eqn:Ep.
  apply peek_subsection_spec in Ep as [Ed _]; [|done]. assert (after f f2) by (unfold after; by rewrite Ed).
  by destruct sub; intros [= <- <- <-].
Qed.

Lemma get_subsection_in subs idstr v : vmstate_get_subsection subs idstr = Some v -> v ∈ subs.
Proof.
  unfold vmstate_get_subsection. intros E. apply fmap_Some in E as ([i w] & E & ->).
  apply list_find_Some in E as [E _]. by eapply list_elem_of_lookup_2.
Qed.

(** The loop ends: each round consumes at least the name of a subsection. *)
Lemma vmstate_subsection_load_total fuel name subs d f :
  Forall sub_reads subs -> bytes_ok f -> (length (f_data f) < fuel)%nat ->
  exists ret d' f', vmstate_subsection_load fuel name subs d f = Done (ret, d', f') /\ dev_kept_by_sub d d' /\ after f f'.
Proof.
  intros Hsubs. revert d f. induction fuel as [|fuel IH]; intros d f Hf Hlen; [lia|]. cbn [vmstate_subsection_load].
  destruct (peek_subsection name f) as [sub f1] eqn:Ep. apply peek_subsection_spec in Ep as [Ed Hid]; [|done].
  assert (A1 : after f f1) by (unfold after; by rewrite Ed). pose proof (after_bytes _ _ Hf A1) as Hf1.
  destruct sub as [idstr|]; [|by eexists _, _, _]. specialize (Hid idstr eq_refl).
  destruct (vmstate_get_subsection subs idstr) as [v|] eqn:Ev; [|by eexists _, _, _].
  apply get_subsection_in in Ev. rewrite Forall_forall in Hsubs. pose proof (Hsubs v Ev) as Hv.
  rewrite <- Forall_forall in Hsubs.
  set (f2 := qemu_file_skip (qemu_file_skip (qemu_file_skip f1 1) 1) (length idstr)).
  assert (A2 : after f1 f2).
  { etrans; [apply file_skip_after|]. etrans; [apply file_skip_after|]. apply file_skip_after. }
  assert (L2 : (length (f_data f2) < length (f_data f))%nat).
  { assert (L1 : length (f_data (qemu_file_skip f1 1)) = (length (f_data f) - 1)%nat).
    { rewrite file_skip_length; rewrite Ed; lia. }
    assert (L : length (f_data (qemu_file_skip (qemu_file_skip f1 1) 1)) = (length (f_data f) - 2)%nat).
    { rewrite file_skip_length; rewrite L1; lia. }
    unfold f2. rewrite file_skip_length; rewrite L; lia. }
  pose proof (after_bytes _ _ Hf1 A2) as Hf2. clearbody f2. read.
  destruct (vmstate_load_sub v d f0 (u8 v0)) as [[ret d1] f3] eqn:El.
  apply vmstate_load_sub_spec in El as [Hk A3]; [|done..]. pose proof (after_bytes _ _ Hf0 A3) as Hf3.
  assert (A4 : after f f3) by follow.
  destruct (negb (ret =? 0)); [by eexists _, _, _|].
  destruct (IH d1 f3 Hf3) as (ret' & d' & f' & E & Hk' & A'); [apply after_length in Ha, A3; lia|].
  exists ret', d', f'. split; [done|]. split; by etrans.
Qed.

Lemma vmstate_load_virtio_total d f :
  bytes_ok f ->
  exists ret d' f', vmstate_load_virtio d f = Done (ret, d', f') /\ dev_kept_by_sub d d' /\ after f f'.
Proof. intros Hf. apply vmstate_subsection_load_total; [apply virtio_subsections_read|done|lia]. Qed.

(** ** The device *)

(** A computation that may end the process or fault only as [ends] says: [None]
    is an exit. *)
Definition within (ends : option fault -> Prop) {A} (Q : A -> Prop) (m : outcome A) : Prop :=
  match m with Done a => Q a | Exit => ends None | Crash e => ends (Some e) end.

Lemma within_bind ends {A A'} (Q : A -> Prop) (R : A' -> Prop) m (f : A -> outcome A') :
  within ends Q m -> (forall a, Q a -> within ends R (f a)) -> within ends R (m ≫= f).
Proof. destruct m; cbn; auto. Qed.

(** What the [load] method of a device class promises: it reads forward, leaves
    the device of [virtio.c] alone, and fails only as [ends] says. *)
Class LoadLaws {B} (ks : VirtioSaveClass B) (ends : option fault -> Prop) : Prop := {
  law_load : forall ld s f, k_load ks = Some ld -> mem_ok (mem s) -> bytes_ok f ->
    within ends (fun '(_, s', f') => vdev s' = vdev s /\ mem_ok (mem s') /\ after f f') (ld s f)
}.

Section load.
Context {B : Type}.
Implicit Types s : vstate B.

(** The array of queues is complete. *)
Definition queues_there s : Prop := Z.of_nat (length (vq (vdev s))) = VIRTIO_QUEUE_MAX.

Lemma queues_arr s : queues_there s -> arr VIRTIO_QUEUE_MAX (fun _ => True) (vq (vdev s)).
Proof. intros H. split; [done|]. by apply Forall_true. Qed.

Lemma mod_vq_there s i f :
  queues_there s -> 0 <= i < VIRTIO_QUEUE_MAX -> mod_vq s i f = Done (upd_queue s i f).
Proof.
  intros Hs Hi. unfold mod_vq, get_vq. rewrite (aget_in _ _ _ _ (queues_arr s Hs)) by done. cbn.
  by rewrite (aset_in _ _ _ _ _ (queues_arr s Hs)).
Qed.

(** What loading the queues leaves alone. *)
Record kept_by_queues s s' : Prop := {
  kq_mem : mem s' = mem s;
  kq_proxy : proxy s' = proxy s;
  kq_backend : backend s' = backend s;
  kq_dev : dev_kept_by_sub (vdev s) (vdev s')
}.

#[local] Instance kept_by_queues_preorder : PreOrder kept_by_queues.
Proof. split; [by intros s; split|]. intros s1 s2 s3 [] []. split; try congruence. by etrans. Qed.

Lemma upd_queue_kept s i f : kept_by_queues s (upd_queue s i f).
Proof. split; try done. split; try done. cbn. unfold upd. by rewrite length_insert. Qed.

Lemma kept_there s s' : kept_by_queues s s' -> queues_there s -> queues_there s'.
Proof. intros Hk H. unfold queues_there. by rewrite (ks_vq _ _ (kq_dev _ _ Hk)). Qed.

Lemma load_queue_total s i f :
  queues_there s -> 0 <= i < VIRTIO_QUEUE_MAX -> bytes_ok f ->
  exists ret s' f', load_queue s i f = Done (ret, s', f') /\ kept_by_queues s s' /\ after f f'.
Proof.
  intros Hs Hi Hf. unfold load_queue. do 4 read. rewrite mod_vq_there by done. cbn [mbind outcome_bind].
  set (g := fun q : VirtQueue => _). pose proof (upd_queue_kept s i g) as Hk.
  assert (after f f3) by follow. destruct (negb _); [|by eexists _, _, _].
  unfold virtio_queue_update_rings. rewrite mod_vq_there by (done || by eapply kept_there). cbn [mbind outcome_bind].
  eexists _, _, _. split; [done|]. split; [|done]. etrans; [exact Hk|]. apply upd_queue_kept.
Qed.

Lemma load_queues_total n s i f :
  queues_there s -> 0 <= i -> i + Z.of_nat n <= VIRTIO_QUEUE_MAX -> bytes_ok f ->
  exists ret s' f', load_queues n s i f = Done (ret, s', f') /\ kept_by_queues s s' /\ after f f'.
Proof.
  revert s i f. induction n as [|n IH]; intros s i f Hs Hi Hn Hf; cbn [load_queues]; [by eexists _, _, _|].
  destruct (load_queue_total s i f Hs) as (ret & s1 & f1 & -> & Hk & Ha); [lia|done|]. cbn [mbind outcome_bind].
  destruct (negb _); [by eexists _, _, _|].
  destruct (IH s1 (i + 1) f1) as (ret' & s' & f' & -> & Hk' & Ha'); [by eapply kept_there|lia..|by eapply after_bytes|].
  eexists _, _, _. split; [done|]. split; by etrans.
Qed.

(** The queue has rings, and the guest's index is consistent with the host's. *)
Definition heads_ok s (i : Z) : Prop :=
  desc (vring (queue s i)) <> 0 ->
  u16 (vring_avail_idx (mem s) (big s) (queue s i) - last_avail_idx (queue s i)) <= num (vring (queue s i)).

Lemma check_heads_total n s i :
  queues_there s -> 0 <= i -> i + Z.of_nat n <= VIRTIO_QUEUE_MAX ->
  exists ok, check_heads n s i = Done ok /\ (ok = true -> forall j, i <= j < i + Z.of_nat n -> heads_ok s j).
Proof.
  intros Hs. revert i. induction n as [|n IH]; intros i Hi Hn; cbn [check_heads].
  { exists true. split; [done|]. lia. }
  unfold get_vq at 1. rewrite (aget_in _ _ _ _ (queues_arr s Hs)) by lia. cbn [lift mbind outcome_bind].
  fold (queue s i). destruct (negb _ && _) eqn:E; [by exists false|].
  destruct (IH (i + 1)) as (ok & -> & Hok); [lia..|]. exists ok. split; [done|]. intros -> j Hj.
  destruct (decide (j = i)) as [->|]; [|apply Hok; [done|lia]]. intros Hd.
  apply andb_false_iff in E as [E|E]; zb; lia.
Qed.

Lemma skip_bytes_after f n : after f (skip_bytes f n).
Proof.
  unfold skip_bytes, after. destruct (_ <=? _); cbn; [apply suffix_drop|]. rewrite set_error_data. apply suffix_nil.
Qed.

Lemma load_config_space_spec s f s' f' :
  bytes_ok f -> load_config_space s f = (s', f') ->
  after f f' /\ mem s' = mem s /\
  exists cfg, length cfg = length (config (vdev s)) /\ s' = mod_vdev s (fun d => {| d with config := cfg |}).
Proof.
  intros Hf. unfold load_config_space. read.
  destruct (qemu_get_buffer _ _) as [bs f1] eqn:E. apply get_buffer_spec in E as (_ & Hl & A1); [|done]. intros [= <- <-].
  split; [etrans; [exact Ha|]; etrans; [exact A1|]; apply skip_bytes_after|]. split; [done|].
  exists (blit (config (vdev s)) 0 bs). split; [|done].
  unfold blit. rewrite !length_app, length_drop, length_take. unfold config_len in Hl. lia.
Qed.
End load.

(** What [virtio_load] has checked when it answers 0: the device [s'] was loaded
    over [s]. *)
Record accepted {B} (ks : VirtioSaveClass B) (s s' : vstate B) : Prop := {
  ac_registers : in_range 8 (status (vdev s')) /\ in_range 8 (isr (vdev s'));
  ac_sel : 0 <= queue_sel (vdev s') < VIRTIO_QUEUE_MAX;
  ac_features : host_features (vdev s') = host_features (vdev s) /\
                Z.land (guest_features (vdev s')) (Z.lnot (host_features (vdev s'))) = 0;
  ac_queues : queues_there s' /\ exists n, 0 <= n <= VIRTIO_QUEUE_MAX /\ forall i, 0 <= i < n -> heads_ok s' i;
  ac_config : length (config (vdev s')) = length (config (vdev s));
  ac_saves : exists bytes, virtio_save ks s' = Done bytes
}.

Section virtio_load.
Context {B : Type} (k : VirtioDeviceClass B) (ks : VirtioSaveClass B) (ends : option fault -> Prop) `{!LoadLaws ks ends}.
Implicit Types s : vstate B.

(** A state from which the last part of [virtio_load] starts, for the device [s0]
    that is loaded over. *)
Record half_loaded s0 s : Prop := {
  hl_mem : mem_ok (mem s);
  hl_registers : in_range 8 (status (vdev s)) /\ in_range 8 (isr (vdev s));
  hl_sel : 0 <= queue_sel (vdev s) < VIRTIO_QUEUE_MAX;
  hl_host : host_features (vdev s) = host_features (vdev s0);
  hl_queues : queues_there s;
  hl_config : length (config (vdev s)) = length (config (vdev s0))
}.

Lemma half_loaded_kept s0 s s' :
  half_loaded s0 s -> mem_ok (mem s') -> dev_kept_by_sub (vdev s) (vdev s') -> half_loaded s0 s'.
Proof.
  intros [] Hm [E1 E2 E3 E4 E5 E6]. split; rewrite ?E2, ?E3, ?E4, ?E5, ?E6; try done.
  unfold queues_there in *. congruence.
Qed.

(** The answer and the stream that is left. *)
Definition load_result s0 (f : QEMUFile) : Z * vstate B * QEMUFile -> Prop :=
  fun '(ret, s', f') => after f f' /\ (ret = 0 -> accepted ks s0 s').

Lemma failed_result s0 f ret s' f' : after f f' -> ret <> 0 -> load_result s0 f (ret, s', f').
Proof. by split. Qed.

(** The end of [virtio_load], after the subsections. *)
Lemma load_features s0 s f n feats :
  half_loaded s0 s -> device_endian (vdev s) <> VIRTIO_DEVICE_ENDIAN_UNKNOWN -> Z.of_nat n <= VIRTIO_QUEUE_MAX ->
  within ends (load_result s0 f)
    (let '(r, s) := virtio_set_features_nocheck k s feats in
     if r <? 0 then Done (-1, s, f) else
     ok ← check_heads n s 0;
     Done (if (ok : bool) then 0 else -1, s, f)).
Proof.
  intros [] He Hn. unfold virtio_set_features_nocheck. cbv zeta.
  set (s' := mod_vdev _ _). destruct (_ <? 0); [by apply failed_result|].
  destruct (check_heads_total n s' 0) as (ok & -> & Hok); [done|lia|lia|]. cbn [mbind outcome_bind].
  destruct ok; [|by apply failed_result]. split; [done|]. intros _. split; try done.
  - split; [done|]. cbn. rewrite <- Z.land_assoc, Z.land_lnot_diag. apply Z.land_0_r.
  - split; [done|]. exists (Z.of_nat n). split; [lia|]. intros i Hi. by apply Hok.
  - unfold virtio_save. rewrite bool_decide_false by done. by eexists.
Qed.

Lemma load_rest_within s0 s features n f :
  half_loaded s0 s -> Z.of_nat n <= VIRTIO_QUEUE_MAX -> bytes_ok f ->
  within ends (load_result s0 f) (load_rest k ks s features n f).
Proof.
  intros Hs Hn Hf. unfold load_rest. cbv zeta.
  apply within_bind with (fun '(_, s', f') => half_loaded s0 s' /\ after f f').
  { destruct (k_load ks) as [ld|] eqn:E; [|by cbn; split; [destruct Hs|]].
    pose proof (law_load ld (virtio_notify_vector s) f E (hl_mem _ _ Hs) Hf) as Hl.
    destruct (ld _ f) as [[[ret s'] f']| |]; try done. destruct Hl as (Ed & Hm & Ha). split; [|done].
    eapply half_loaded_kept; [exact Hs|done|]. rewrite Ed. by split. }
  intros [[ret s1] f1] [Hs1 Ha]. destruct (negb (ret =? 0)) eqn:Er; [zb; by apply failed_result|].
  destruct (vmstate_load_virtio_total (vdev s1) f1) as (ret' & d & f2 & -> & Hk & Ha'); [by eapply after_bytes|].
  cbn [mbind outcome_bind]. assert (A : after f f2) by follow.
  destruct (negb (ret' =? 0)) eqn:Er'; [zb; by apply failed_result|].
  assert (Hs2 : half_loaded s0 (set_vdev s1 d)) by (eapply half_loaded_kept; [exact Hs1|apply Hs1|done]).
  set (s2 := if bool_decide _ then _ else _).
  assert (H2 : half_loaded s0 s2 /\ device_endian (vdev s2) <> VIRTIO_DEVICE_ENDIAN_UNKNOWN).
  { unfold s2. case_bool_decide; [|done]. split; [|done]. by destruct Hs2. }
  clearbody s2. destruct H2 as [H2 He].
  pose proof (load_features s0 s2 f2 n (if virtio_64bit_features_needed (vdev s2) then guest_features (vdev s2) else features) H2 He Hn) as Hw.
  destruct (virtio_set_features_nocheck _ _ _) as [r s3]. destruct (if r <? 0 then _ else _) as [[[? ?] ?]| |]; try done.
  destruct Hw as [Ha2 Hacc]. split; [by etrans|done].
Qed.

Lemma virtio_load_within s f :
  mem_ok (mem s) -> queues_there s -> bytes_ok f -> within ends (load_result s f) (virtio_load k ks s f).
Proof.
  intros Hm Hq Hf. unfold virtio_load, virtio_mmio_load_config. cbv zeta. do 6 read.
  assert (A : after f f5) by follow. destruct (_ >=? _) eqn:Esel; [by apply failed_result|]. read.
  set (s1 := mod_vdev (mod_proxy _ _) _). destruct (load_config_space s1 f6) as [s2 f7] eqn:Ec.
  apply load_config_space_spec in Ec as (A7 & Em & cfg & Hcfg & ->); [|done]. pose proof (after_bytes _ _ Hf6 A7) as Hf7.
  set (s2 := mod_vdev s1 _) in *. read. assert (A8 : after f f8) by follow.
  destruct (_ >? _) eqn:En; [by apply failed_result|]. zb. destruct Hv6 as [Hn0 _].
  destruct (load_queues_total (Z.to_nat v6) s2 0 f8) as (ret & s3 & f9 & -> & Hk & A9); [done|lia|lia|done|].
  cbn [mbind outcome_bind]. destruct (negb (ret =? 0)) eqn:Er; [zb; apply failed_result; [by etrans|done]|].
  assert (Hs2 : half_loaded s s2) by (destruct Hv4; split; cbn; done || lia).
  assert (Hs3 : half_loaded s s3).
  { eapply half_loaded_kept; [exact Hs2|by rewrite (kq_mem _ _ Hk)|apply Hk]. }
  pose proof (load_rest_within s s3 v5 (Z.to_nat v6) f9 Hs3 ltac:(lia) ltac:(by eapply after_bytes)) as Hw.
  destruct (load_rest _ _ _ _ _ _) as [[[? ?] ?]| |]; try done. destruct Hw as [Hend Hacc]. split; [|done].
  etrans; [exact A8|]. by etrans.
Qed.
End virtio_load.

(** ** The two devices *)

(** They end the process when a buffer of the request cannot be mapped, and use
    memory that was never set when the stream ends within the request. *)
Definition request_ends (e : option fault) : Prop := e = None \/ e = Some BadPointer.

Lemma word_range img off n : Forall (in_range 8) img -> 0 <= word_at img off n.
Proof.
  intros H. unfold word_at. assert (Hf : Forall (in_range 8) (take n (drop (Z.to_nat off) img))) by by apply Forall_take, Forall_drop.
  induction Hf as [|b l [? _] _ IH]; cbn; lia.
Qed.

Lemma map_sg_within m sg addr w :
  mem_ok m -> Forall (fun v => 0 <= iov_len v) sg ->
  within request_ends (fun '(_, m') => mem_ok m') (virtqueue_map_sg m sg addr w).
Proof.
  intros Hm Hsg. pose proof (virtqueue_map_sg_safe m sg addr w Hm Hsg) as H.
  destruct (virtqueue_map_sg _ _ _ _) as [[sg' m']| |]; cbn in *; [|by left|done]. destruct H as (H & _). by apply H.
Qed.

Lemma iovs_nonneg img off n : Forall (in_range 8) img -> Forall (fun v => 0 <= iov_len v) (iovs_at img off n).
Proof. intros H. apply Forall_fmap, Forall_true. intros i. by apply word_range. Qed.

Lemma load_request_within {B} set_rq (s : vstate B) f :
  mem_ok (mem s) -> bytes_ok f ->
  within request_ends (fun '(_, s', f') => vdev s' = vdev s /\ mem_ok (mem s') /\ after f f') (load_request set_rq s f).
Proof.
  intros Hm Hf. unfold load_request. read. destruct (_ =? 0); [done|].
  destruct (qemu_get_buffer _ _) as [img f1] eqn:E. apply get_buffer_spec in E as (Hb & _ & A1); [|done].
  destruct (_ <? _); [by right|].
  eapply within_bind; [by apply map_sg_within, iovs_nonneg|]. intros [isg m1] Hm1.
  eapply within_bind; [by apply map_sg_within, iovs_nonneg|]. intros [osg m2] Hm2.
  split; [done|]. split; [done|]. follow.
Qed.

#[export] Instance virtio_msg_loads H image : LoadLaws (@virtio_msg_save_class image H) request_ends.
Proof. split. intros ld s f [= <-]. apply load_request_within. Qed.

#[export] Instance virtio_tp_loads image : LoadLaws (virtio_tp_save_class image) request_ends.
Proof. split. intros ld s f [= <-]. apply load_request_within. Qed.

