(* ===== verification/VirtioMsgProofs.v ===== *)
(** * The message device serves its queue

    A request of the message device is a block of 200 bytes in guest memory.
    This file states what serving it means for the block and the host
    ([msg_spec]), and shows that the device, which works through pointers into
    guest memory, does exactly that to every request on the queue, in order, and
    returns it through the used ring. *)

From S2P Require Import Prelude CArray Virtqueue VirtqueueProofs VirtqueueTheorems VirtioMmio VirtioDevs.

(** The host keeps to the structure it is given. *)
Class FbHostLaws (H : Type) `{FbHost H} : Prop := {
  ioctl_bytes : forall fd cmd arg (h : H), Forall (in_range 8) arg ->
    let '(_, arg', _) := sys_ioctl fd cmd arg h in Forall (in_range 8) arg' /\ length arg' = length arg
}.

Section msg_spec.
Context {H : Type} `{FbHost H}.

(** ** What serving a request means *)

(** A field of a request, as an [int]. *)
Definition fld (blk : list Z) (off : nat) : Z := s32 (of_le (take 4 (drop off blk))).
Definition put32 (blk : list Z) (off : nat) (v : Z) : list Z := blit blk off (le_bytes 4 (u32 v)).

(** The control call on the [n] bytes of the screen information. *)
Definition ioctl_spec (h : H) (blk : list Z) (n : nat) : H * list Z :=
  let '(r, arg, h') := sys_ioctl (fld blk 28) (fld blk 32) (take n (drop 40 blk)) h in
  (h', put32 (blit blk 40 arg) 16 (if r =? -1 then -1 else 0)).

(** The functions: opening, controlling and closing the frame buffer. *)
Definition func_spec (h : H) (blk : list Z) : H * list Z :=
  let f := fld blk 24 in
  if f =? MSG_FUNC_FB_OPEN then
    let '(fb, h') := sys_open h in
    let r := if fb =? 0 then -1 else fb in (h', put32 (put32 blk 16 r) 28 r)
  else if f =? MSG_FUNC_FB_IOCTL then
    let cmd := fld blk 32 in
    if cmd =? FBIOGET_FSCREENINFO then ioctl_spec h blk SIZEOF_fix
    else if (cmd =? FBIOGET_VSCREENINFO) || (cmd =? FBIOPAN_DISPLAY) || (cmd =? FBIOPUT_VSCREENINFO)
    then ioctl_spec h blk SIZEOF_var
    else (h, put32 blk 16 (-1))
  else if f =? MSG_FUNC_FB_CLOSE then
    let '(r, h') := sys_close (fld blk 28) h in (h', put32 blk 16 r)
  else (h, blk).

(** A request: the function, then the status; one of another type is returned
    as it is. *)
Definition msg_spec (be : bool) (h : H) (blk : list Z) : H * list Z :=
  if of_bytes be (take 4 (drop 20 blk)) =? MSG_REQ_TYPE_FUNC then
    let '(h', blk') := func_spec h blk in (h', blit blk' 12 [VIRTIO_MSG_S_OK])
  else (h, blk).

(** The requests one after the other. *)
Fixpoint serve_all (be : bool) (h : H) (blks : list (list Z)) : H * list (list Z) :=
  match blks with
  | [] => (h, [])
  | blk :: blks' =>
      let '(h1, blk') := msg_spec be h blk in
      let '(h2, rest) := serve_all be h1 blks' in (h2, blk' :: rest)
  end.
End msg_spec.

(** ** Working on a block of memory *)

(** The bytes of a block. *)
Definition in_blk (a x : Z) : Prop := a <= x < a + SIZEOF_MsgReq.
Definition block (m : AddressSpace) (a : Z) : list Z := read_mem (ram m) a 200.

(** [m] is [m0] but for the block at [a], which holds [blk]. *)
Record at_block (m0 m : AddressSpace) (a : Z) (blk : list Z) : Prop := {
  ab_ok : mem_ok m;
  ab_agree : agree (fun x => ~ in_blk a x) m0 m;
  ab_block : block m a = blk;
  ab_bounce : bounce m = bounce m0
}.

Lemma at_block_refl m a : mem_ok m -> at_block m m a (block m a).
Proof. by split. Qed.

Lemma length_block m a : length (block m a) = 200%nat.
Proof. apply length_read_mem. Qed.

Lemma block_ok m a : mem_ok m -> Forall (in_range 8) (block m a).
Proof. intros Hm. apply read_mem_ok, Hm. Qed.

Lemma read_mem_part r a n off k :
  (off + k <= n)%nat -> read_mem r (a + Z.of_nat off) k = take k (drop off (read_mem r a n)).
Proof.
  intros Hle. replace n with (off + (k + (n - off - k)))%nat by lia.
  rewrite read_mem_app, drop_app_length' by (by rewrite length_read_mem).
  rewrite read_mem_app, take_app_length' by (by rewrite length_read_mem). done.
Qed.

Lemma read_mem_blit r a n off bs :
  (off + length bs <= n)%nat ->
  read_mem (write_mem r (a + Z.of_nat off) bs) a n = blit (read_mem r a n) off bs.
Proof.
  intros Hle. unfold blit.
  replace n with (off + (length bs + (n - off - length bs)))%nat at 1 by lia.
  rewrite !read_mem_app, read_write_mem. rewrite !read_write_mem_other by lia.
  f_equal; [|f_equal].
  - replace n with (off + (n - off))%nat by lia. rewrite read_mem_app, take_app_length' by (by rewrite length_read_mem). done.
  - replace n with ((off + length bs) + (n - off - length bs))%nat at 2 by lia.
    rewrite (read_mem_app r a (off + length bs)), drop_app_length' by (by rewrite length_read_mem).
    f_equal. lia.
Qed.

Section block_access.
Context (m0 : AddressSpace) (a : Z) (Hin : in_ram m0 a SIZEOF_MsgReq = true).

Lemma host_read_block m blk off n :
  at_block m0 m a blk -> (off + n <= 200)%nat ->
  host_read m (RamPtr a) (Z.of_nat off) n = Ok (take n (drop off blk)).
Proof.
  intros [_ [Hs _] Hb _] Hle. unfold host_read. rewrite (in_ram_same m0) by done.
  apply in_ram_spec in Hin as Hin'. rewrite (proj2 (in_ram_spec _ _ _)) by (unfold SIZEOF_MsgReq in *; lia).
  rewrite <- Hb. unfold block. by rewrite (read_mem_part _ _ 200).
Qed.

Lemma host_write_block m blk off bs :
  at_block m0 m a blk -> Forall (in_range 8) bs -> (off + length bs <= 200)%nat ->
  exists m', host_write m (RamPtr a) (Z.of_nat off) bs = Ok m' /\ at_block m0 m' a (blit blk off bs).
Proof.
  intros [Hok [Hs Hag] Hb Hbo] Hbs Hle. unfold host_write. rewrite (in_ram_same m0) by done.
  apply in_ram_spec in Hin as Hin'. rewrite (proj2 (in_ram_spec _ _ _)) by (unfold SIZEOF_MsgReq in *; lia).
  eexists. split; [reflexivity|]. split; [by apply mem_ok_write| | |done].
  - split; [done|]. intros x Hx. cbn. rewrite write_mem_lookup, decide_False; [by apply Hag|].
    intros Hx'. apply Hx. unfold in_blk, SIZEOF_MsgReq. lia.
  - unfold block. cbn [ram]. rewrite read_mem_blit by done. by rewrite <- Hb.
Qed.
End block_access.

(** ** The device on one request *)

Section one.
Context {H : Type} `{FbHostLaws H}.
Implicit Types s : vstate (VirtIOMsg H).

(** The state with the block at [a] replaced and the host in state [h]. *)
Definition block_state s (a : Z) (h : H) (blk : list Z) s' : Prop :=
  exists m, s' = set_host (set_mem s m) h /\ at_block (mem s) m a blk.

Context (s : vstate (VirtIOMsg H)) (a : Z) (Hin : in_ram (mem s) a SIZEOF_MsgReq = true).

Lemma rd32_block s' h blk (off : nat) :
  block_state s a h blk s' -> (off + 4 <= 200)%nat -> rd32 s' (RamPtr a) (Z.of_nat off) = Done (fld blk off).
Proof.
  intros (m & -> & Hb) Hoff. unfold rd32. cbn [mem set_host set_backend set_mem].
  by rewrite (host_read_block (mem s) a Hin m blk) by done.
Qed.

Lemma wr_block s' h blk (off : nat) bs :
  block_state s a h blk s' -> Forall (in_range 8) bs -> (off + length bs <= 200)%nat ->
  exists s'', wr s' (RamPtr a) (Z.of_nat off) bs = Done s'' /\ block_state s a h (blit blk off bs) s''.
Proof.
  intros (m & -> & Hb) Hbs Hoff. unfold wr. cbn [mem set_host set_backend set_mem].
  destruct (host_write_block (mem s) a Hin m blk off bs Hb Hbs Hoff) as (m' & -> & Hb').
  eexists. split; [reflexivity|]. by exists m'.
Qed.

Lemma wr32_block s' h blk (off : nat) v :
  block_state s a h blk s' -> (off + 4 <= 200)%nat ->
  exists s'', wr32 s' (RamPtr a) (Z.of_nat off) v = Done s'' /\ block_state s a h (put32 blk off v) s''.
Proof. intros Hb Hoff. apply wr_block; [done|apply le_bytes_ok|by rewrite length_le_bytes]. Qed.

Lemma block_host s' h h' blk : block_state s a h blk s' -> block_state s a h' blk (set_host s' h').
Proof. intros (m & -> & Hb). exists m. by split. Qed.

Lemma host_of s' h blk : block_state s a h blk s' -> msg_host (backend s') = h.
Proof. by intros (m & -> & _). Qed.

(** Sizes and bytes of the block. *)
Definition blk_ok (blk : list Z) : Prop := length blk = 200%nat /\ Forall (in_range 8) blk.

Lemma block_state_ok s' h blk : block_state s a h blk s' -> blk_ok blk.
Proof.
  intros (m & _ & [Hm _ <- _]). split; [apply length_block|by apply block_ok].
Qed.

Lemma ioctl_block s' h blk n :
  block_state s a h blk s' -> (40 + n <= 200)%nat ->
  exists s'' r h' blk', ioctl_screeninfo s' (fld blk 28) (fld blk 32) (RamPtr a) n = Done (r, s'') /\
    block_state s a h' blk' s'' /\ ioctl_spec h blk n = (h', put32 blk' 16 r).
Proof.
  intros Hb Hn. destruct (block_state_ok _ _ _ Hb) as [Hlen Hbytes].
  unfold ioctl_screeninfo, ioctl_spec. change OFF_screeninfo with (Z.of_nat 40). rewrite (host_of _ _ _ Hb).
  destruct Hb as (m & -> & Hb). cbn [mem set_host set_backend set_mem].
  rewrite (host_read_block (mem s) a Hin m blk 40 n Hb) by done. cbn [lift mbind outcome_bind].
  pose proof (ioctl_bytes (fld blk 28) (fld blk 32) (take n (drop 40 blk)) h) as Hio.
  destruct (sys_ioctl _ _ _ h) as [[r arg] h']. destruct Hio as [Hb1 Hl1].
  { by apply Forall_take, Forall_drop. }
  rewrite length_take, length_drop, Hlen in Hl1.
  destruct (wr_block (set_host (set_mem s m) h') h' blk 40 arg) as (s2 & E2 & Hs2); [by exists m|done|lia|].
  change (set_host (set_host ?x h) h') with (set_host x h').
  rewrite E2. cbn [mbind outcome_bind].
  eexists _, _, _, _. split; [reflexivity|]. by split.
Qed.

(** The block and the host after a function. *)
Definition after s' (hb : H * list Z) : Prop := block_state s a hb.1 hb.2 s'.

Lemma fb_ioctl_block s' h blk :
  block_state s a h blk s' -> fld blk 24 = MSG_FUNC_FB_IOCTL ->
  exists s'', ('(r, s1) ← fb_ioctl s' (RamPtr a); wr32 s1 (RamPtr a) OFF_ret r) = Done s'' /\
    after s'' (func_spec h blk).
Proof.
  intros Hb Hf. unfold fb_ioctl, func_spec. rewrite Hf.
  change OFF_fd with (Z.of_nat 28). change OFF_cmd with (Z.of_nat 32). change OFF_ret with (Z.of_nat 16).
  rewrite !(rd32_block s' h blk) by (done || lia). cbn [mbind outcome_bind].
  change (MSG_FUNC_FB_IOCTL =? MSG_FUNC_FB_OPEN) with false. change (MSG_FUNC_FB_IOCTL =? MSG_FUNC_FB_IOCTL) with true.
  cbv iota.
  assert (Hcall : forall n, (40 + n <= 200)%nat ->
    exists s'', ('(r, s1) ← ioctl_screeninfo s' (fld blk 28) (fld blk 32) (RamPtr a) n; wr32 s1 (RamPtr a) (Z.of_nat 16) r)
                = Done s'' /\ after s'' (ioctl_spec h blk n)).
  { intros n Hn. destruct (ioctl_block s' h blk n Hb Hn) as (s1 & r & h' & blk' & -> & Hs1 & ->).
    cbn [mbind outcome_bind]. apply wr32_block; [done|lia]. }
  destruct (fld blk 32 =? FBIOGET_FSCREENINFO); [apply Hcall; unfold SIZEOF_fix, SIZEOF_var; lia|].
  destruct (_ || _ || _); [apply Hcall; unfold SIZEOF_fix, SIZEOF_var; lia|]. cbn [mbind outcome_bind]. apply wr32_block; [done|lia].
Qed.

Lemma func_dispatch_block s' h blk :
  block_state s a h blk s' ->
  exists s'', virtio_msg_func_dispatch s' (RamPtr a) = Done s'' /\ after s'' (func_spec h blk).
Proof.
  intros Hb. unfold virtio_msg_func_dispatch. change OFF_func_idx with (Z.of_nat 24).
  rewrite (rd32_block s' h blk) by (done || lia). cbn [mbind outcome_bind].
  destruct (fld blk 24 =? MSG_FUNC_FB_OPEN) eqn:E1.
  { unfold func_spec. rewrite E1. unfold fb_open. rewrite (host_of _ _ _ Hb). destruct (sys_open h) as [fb h'].
    change OFF_ret with (Z.of_nat 16). change OFF_fd with (Z.of_nat 28).
    destruct (wr32_block _ h' blk 16 (if fb =? 0 then -1 else fb) (block_host _ _ h' _ Hb) ltac:(lia)) as (s1 & -> & G1).
    cbn [mbind outcome_bind]. apply wr32_block; [done|lia]. }
  destruct (fld blk 24 =? MSG_FUNC_FB_IOCTL) eqn:E2; [zb; by apply fb_ioctl_block|].
  unfold func_spec. rewrite E1, E2. destruct (fld blk 24 =? MSG_FUNC_FB_CLOSE).
  - unfold fb_close. change OFF_fd with (Z.of_nat 28). change OFF_ret with (Z.of_nat 16).
    rewrite (rd32_block s' h blk) by (done || lia). cbn [mbind outcome_bind]. rewrite (host_of _ _ _ Hb).
    destruct (sys_close _ h) as [r h']. cbn [mbind outcome_bind].
    apply wr32_block; [by eapply block_host|lia].
  - by exists s'.
Qed.

(** The request up to its completion. *)
Lemma request_block :
  mem_ok (mem s) ->
  exists s', (bs ← lift (host_read (mem s) (RamPtr a) OFF_cmd_type 4);
              if of_bytes (big s) bs =? MSG_REQ_TYPE_FUNC then
                s1 ← virtio_msg_func_dispatch s (RamPtr a);
                wr s1 (RamPtr a) OFF_status [VIRTIO_MSG_S_OK]
              else Done s) = Done s' /\
    after s' (msg_spec (big s) (msg_host (backend s)) (block (mem s) a)).
Proof.
  intros Hm. pose proof (at_block_refl (mem s) a Hm) as Hb0.
  assert (Hbs : block_state s a (msg_host (backend s)) (block (mem s) a) s).
  { exists (mem s). split; [|done]. by destruct s as [? ? ? []]. }
  change OFF_cmd_type with (Z.of_nat 20). rewrite (host_read_block (mem s) a Hin (mem s) _ 20 4 Hb0) by lia.
  cbn [lift mbind outcome_bind]. unfold msg_spec. destruct (_ =? MSG_REQ_TYPE_FUNC); [|by exists s].
  destruct (func_dispatch_block s _ _ Hbs) as (s1 & -> & G1). cbn [mbind outcome_bind].
  destruct (func_spec _ _) as [h' blk']. change OFF_status with (Z.of_nat 12).
  apply (wr_block s1 h' blk'); [done| |cbn; lia]. constructor; [|done]. unfold VIRTIO_MSG_S_OK, in_range. lia.
Qed.
End one.

(** ** One request from the queue *)

(** The block of a request: the start of its first readable buffer. *)
Definition req_addr (l : list buffer) : Z := match reads l with b :: _ => b_addr b | [] => 0 end.

(** A request the guest laid out as the device expects it: its descriptors in
    the region [P], and its block large enough and apart from the descriptors
    and the used ring. *)
Record job_ok (P : Z -> Prop) (m : AddressSpace) (be : bool) (q : VirtQueue) (head : Z) (l : list buffer) : Prop := {
  jo_head : 0 <= head < num (vring q);
  jo_request : request P m be q head l;
  jo_fit : bufs_fit l;
  jo_bufs : Forall (buf_ok m) l;
  jo_first : exists b rest, reads l = b :: rest /\ SIZEOF_MsgReq <= b_len b;
  jo_apart : forall x, in_blk (req_addr l) x -> ~ P x /\ ~ used_region q x
}.

Lemma job_ok_agree P m m' be q head l : agree P m m' -> job_ok P m be q head l -> job_ok P m' be q head l.
Proof.
  intros Hag [H1 H2 H3 H4 H5 H6]. split; try done.
  - by eapply request_agree.
  - eapply Forall_impl; [exact H4|]. intros b [? ?]. split; [done|]. rewrite (in_ram_same m); [done|apply Hag].
Qed.

Lemma job_in_ram P m be q head l : job_ok P m be q head l -> in_ram m (req_addr l) SIZEOF_MsgReq = true.
Proof.
  intros [_ _ _ Hb (b & rest & E & Hlen) _]. unfold req_addr. rewrite E.
  destruct (Forall_kinds _ l Hb) as [_ Hr]. rewrite E in Hr. apply Forall_cons in Hr as [[_ Hin] _].
  apply in_ram_spec in Hin. apply in_ram_spec. lia.
Qed.

Lemma block_agree P m m' a : agree P m m' -> (forall x, in_blk a x -> P x) -> block m' a = block m a.
Proof.
  intros [_ Hb] HP. apply read_mem_ext. intros i Hi. apply Hb, HP. unfold in_blk, SIZEOF_MsgReq. lia.
Qed.

Section queue.
Context {H : Type} `{FbHostLaws H}.
Implicit Types s : vstate (VirtIOMsg H).

(** The queue of the device. *)
#[local] Abbreviation msg_queue s := (queue s (msg_vq (backend s))).

(** The device took the request [l] at [head], served its block and returned it. *)
Record served s (head : Z) (l : list buffer) s' : Prop := {
  sv_ex : exchanged s (msg_vq (backend s)) head (iov_size (ram_iov <$> reads l)) (in_blk (req_addr l)) s';
  sv_spec : (msg_host (backend s'), block (mem s') (req_addr l))
            = msg_spec (big s) (msg_host (backend s)) (block (mem s) (req_addr l));
  sv_vq : msg_vq (backend s') = msg_vq (backend s)
}.

(** [virtio_msg_handle_request] on a request that was just taken. *)
Lemma handle_request_served P s head l :
  rings_ok s -> 0 <= msg_vq (backend s) < VIRTIO_QUEUE_MAX ->
  let q := queue s (msg_vq (backend s)) in
  used_ok (mem s) q -> bounce (mem s) = None -> job_ok P (mem s) (big s) q head l ->
  exists s', virtio_msg_handle_request
      (set_mem (upd_queue s (msg_vq (backend s)) pop_queue) (mem (take_head s (msg_vq (backend s))))) (elem_of head l)
    = Done s' /\ served s head l s'.
Proof.
  intros Hs Hn q Hu Hb Hj. set (n := msg_vq (backend s)) in *. set (a := req_addr l) in *.
  destruct (take_head_used s n Hs Hn Hu) as (T1 & T2 & T3 & T4). fold q in T1, T2, T3, T4.
  destruct (take_head_mem s n) as (mt & Et & _ & Hbt). rewrite Et in *. cbn [mem set_mem] in *. clear Et.
  set (s1 := set_mem (upd_queue s n pop_queue) mt).
  assert (Hs1 : rings_ok s1).
  { apply rings_ok_set; [done|by apply pop_queue_ok, queue_ok_at|apply T2]. }
  assert (Hin : in_ram mt a SIZEOF_MsgReq = true).
  { rewrite (in_ram_same (mem s)) by apply T1. by eapply job_in_ram. }
  assert (Hfb : first_base (out_sg (elem_of head l)) = RamPtr a).
  { destruct (jo_first _ _ _ _ _ _ Hj) as (b & rest & E & _). unfold a, req_addr. cbn [elem_of out_sg]. by rewrite E. }
  destruct (request_block s1 a Hin (ok_mem s1 Hs1)) as (s2 & E2 & m2 & E2' & [B1 B2 B3 B4]).
  change (block (mem s1) a) with (block mt a) in *. change (mem s1) with mt in *. change (big s1) with (big s) in *.
  change (msg_host (backend s1)) with (msg_host (backend s)) in *.
  rewrite (block_agree _ (mem s) mt a T1) in * by (intros x Hx; by apply (jo_apart _ _ _ _ _ _ Hj)).
  assert (Ereq : virtio_msg_handle_request s1 (elem_of head l)
                 = virtio_msg_complete_request s2 (elem_of head l) (iov_size (out_sg (elem_of head l)))).
  { unfold virtio_msg_handle_request. rewrite Hfb. change (mem s1) with mt. change (big s1) with (big s).
    destruct (lift _) as [bs| |]; [|done..]. cbn [mbind outcome_bind] in *. by rewrite E2. }
  rewrite Ereq. clear Ereq E2. unfold virtio_msg_complete_request.
  set (hb := msg_spec _ _ _) in *.
  assert (Hag2 : agree (fun x => ~ in_blk a x) mt m2) by done.
  assert (Eq2 : queue s2 n = pop_queue q) by (rewrite E2'; apply (queue_upd s n); done).
  assert (Hvr2 : vring (queue s2 n) = vring q) by by rewrite Eq2.
  assert (Hu2 : used_ok m2 q).
  { destruct T2 as (_ & U2 & U3). split; [done|]. split; [done|]. by rewrite (in_ram_same mt) by apply Hag2. }
  assert (Hs2 : rings_ok s2) by (rewrite E2'; split; [done|apply Hs1]).
  assert (Hel : elem_ok m2 (num (vring q)) (elem_of head l)).
  { destruct Hj as [J1 J2 J3 J4 _ _]. apply elem_of_ok; [done|done| |congruence].
    eapply Forall_impl; [exact J4|]. intros b [? ?]. split; [done|].
    rewrite (in_ram_same mt) by apply Hag2. by rewrite (in_ram_same (mem s)) by apply T1. }
  assert (Hnum : num (vring q) <= VIRTQUEUE_MAX_SIZE) by apply (queue_ok_at s n Hs Hn).
  assert (Em2 : mem s2 = m2) by by rewrite E2'. assert (Evq : msg_vq (backend s2) = n) by by rewrite E2'.
  destruct (push_notify s2 n (num (vring q)) (elem_of head l) (iov_size (out_sg (elem_of head l))) Hs2 Hn)
    as (s3 & E3 & C); [rewrite Em2; by eapply used_ok_ring|rewrite Em2; congruence|by rewrite Em2|done|].
  exists s3. rewrite Evq. split.
  { destruct (virtqueue_push s2 n _ _) as [s'| |] eqn:Ep; [|done..]. cbn [mbind outcome_bind] in *.
    replace (msg_vq (backend s')) with n; [done|].
    destruct (virtqueue_push_spec s2 n (num (vring q)) (elem_of head l) (iov_size (out_sg (elem_of head l))) Hs2 Hn)
      as (mp & _ & _ & _ & _ & Ep'); [rewrite Hvr2; destruct Hu as (_ & ? & _); lia|by rewrite Em2|].
    rewrite Ep' in Ep. injection Ep as <-. done. }
  assert (A3 : agree (fun x => ~ used_region (queue s2 n) x) m2 (mem s3)) by (rewrite <- Em2; apply C).
  split; [|rewrite (cp_backend _ _ _ _ _ C)|by rewrite (cp_backend _ _ _ _ _ C)].
  - apply (exchange_intro s s2 s3 n head _ _ mt); rewrite ?Em2; try done; [by rewrite E2'|].
    intros x Hx. by apply (jo_apart _ _ _ _ _ _ Hj).
  - fold a. rewrite (block_agree _ _ _ _ A3).
    + rewrite B3, E2'. symmetry. apply surjective_pairing.
    + intros x Hx Hx'. unfold used_region in Hx'. rewrite Hvr2 in Hx'. by apply (jo_apart _ _ _ _ _ _ Hj x).
Qed.

(** ** The whole queue *)

(** The requests [js] wait on the queue: the available ring and the descriptors
    lie in the region [P], which the device only reads, and the blocks are apart
    from each other. *)
Record pending (P : Z -> Prop) s (js : list (Z * list buffer)) : Prop := {
  pe_rings : rings_ok s;
  pe_vq : 0 <= msg_vq (backend s) < VIRTIO_QUEUE_MAX;
  pe_used : used_ok (mem s) (msg_queue s);
  pe_bounce : bounce (mem s) = None;
  pe_apart : forall x, used_region (msg_queue s) x -> ~ P x;
  pe_avail : footprint P (avail (vring (msg_queue s))) (4 + 2 * num (vring (msg_queue s)));
  pe_idx : vring_avail_idx (mem s) (big s) (msg_queue s) = u16 (last_avail_idx (msg_queue s) + Z.of_nat (length js));
  pe_len : Z.of_nat (length js) <= num (vring (msg_queue s));
  pe_jobs : forall i head l, js !! i = Some (head, l) ->
    vring_avail_ring (mem s) (big s) (msg_queue s)
      (u16 (last_avail_idx (msg_queue s) + Z.of_nat i) mod num (vring (msg_queue s))) = head /\
    job_ok P (mem s) (big s) (msg_queue s) head l;
  pe_disj : forall i j ji jj, i <> j -> js !! i = Some ji -> js !! j = Some jj ->
    forall x, in_blk (req_addr ji.2) x -> ~ in_blk (req_addr jj.2) x
}.

Lemma served_queue s head l s' :
  served s head l s' -> vring (msg_queue s') = vring (msg_queue s) /\ big s' = big s /\
    last_avail_idx (msg_queue s') = u16 (last_avail_idx (msg_queue s) + 1).
Proof.
  intros [Hex _ Q3]. destruct (ex_queue Hex) as [Q1 Q2], (ex_dev Hex) as [D1 D2].
  rewrite Q3. split; [done|]. split; [|done].
  unfold big, virtio_access_is_big_endian, virtio_has_feature. by rewrite D1, D2.
Qed.

(** What is read from the region [P] stays. *)
Lemma pending_agree P s js head l s' :
  pending P s ((head, l) :: js) -> served s head l s' -> agree P (mem s) (mem s').
Proof.
  intros Hp Hsv. eapply agree_mono; [|exact (ex_agree (sv_ex _ _ _ _ Hsv))]. intros x Hx.
  destruct (pe_jobs _ _ _ Hp 0%nat head l eq_refl) as [_ Hj].
  split; intros Hin; [by apply (pe_apart _ _ _ Hp x)|by destruct (jo_apart _ _ _ _ _ _ Hj x Hin)].
Qed.

Lemma job_ok_ring P m be q q' head l : vring q = vring q' -> job_ok P m be q head l -> job_ok P m be q' head l.
Proof.
  intros E [J1 J2 J3 J4 J5 J6]. split; rewrite <- ?E; try done.
  2: { intros x Hx. unfold used_region. rewrite <- E. by apply J6. }
  destruct J2 as [ds G1 G2|ds G1 G2 G3 G4 G5].
  - apply (request_direct _ _ _ _ _ _ ds); by rewrite <- E.
  - apply (request_indirect _ _ _ _ _ _ ds); by rewrite <- E.
Qed.

Lemma pending_step P s js head l s' :
  pending P s ((head, l) :: js) -> served s head l s' -> pending P s' js.
Proof.
  intros Hp Hsv. pose proof (pending_agree _ _ _ _ _ _ Hp Hsv) as Hag.
  destruct (served_queue _ _ _ _ Hsv) as (Evr & Ebig & Elast).
  destruct Hp as [P1 P2 P3 P4 P5 P6 P7 P8 P9 P10]. pose proof (ex_ok (sv_ex _ _ _ _ Hsv)) as (O1 & O2 & O3).
  assert (Hfoot : forall off k, 0 <= off -> off + Z.of_nat k <= 4 + 2 * num (vring (msg_queue s)) ->
    phys_load (mem s') (u64 (avail (vring (msg_queue s)) + off)) k = phys_load (mem s) (u64 (avail (vring (msg_queue s)) + off)) k).
  { intros off k Ho Hk. eapply load_agree; [exact Hag|]. eapply footprint_sub; [exact P6|lia..]. }
  assert (Hnum : 0 < num (vring (msg_queue s))) by (destruct P3 as (_ & ? & _); done).
  pose proof (sv_vq _ _ _ _ Hsv) as Evq. rewrite Evq in Evr, Elast.
  split; rewrite ?Evq, ?Evr, ?Ebig, ?Elast; try done.
  - by eapply used_ok_ring.
  - intros x Hx. apply P5. unfold used_region in *. by rewrite <- Evr.
  - unfold vring_avail_idx, virtio_lduw_phys in *. rewrite Evr, Hfoot by lia. rewrite P7, u16_add. f_equal. cbn [length]. lia.
  - cbn [length] in P8. lia.
  - intros i hd' l' Hi. destruct (P9 (S i) hd' l' Hi) as [R1 R2]. split.
    + rewrite u16_add. replace (last_avail_idx (msg_queue s) + 1 + Z.of_nat i)
        with (last_avail_idx (msg_queue s) + Z.of_nat (S i)) by lia.
      rewrite <- R1. unfold vring_avail_ring, virtio_lduw_phys. rewrite Evr, <- Z.add_assoc. f_equal.
      pose proof (Z.mod_pos_bound (u16 (last_avail_idx (msg_queue s) + Z.of_nat (S i))) _ Hnum).
      rewrite Hfoot by lia. done.
    + apply (job_ok_ring _ _ _ (msg_queue s)); [done|]. by eapply job_ok_agree.
  - intros i j ji jj Hne Hi Hj. eapply (P10 (S i) (S j)); [lia|done|done].
Qed.

(** The device served all the requests [js]. *)
Record all_served s (js : list (Z * list buffer)) s' : Prop := {
  al_ok : rings_ok s' /\ bounce (mem s') = None;
  al_spec : (msg_host (backend s'), (fun j => block (mem s') (req_addr j.2)) <$> js)
            = serve_all (big s) (msg_host (backend s)) ((fun j => block (mem s) (req_addr j.2)) <$> js);
  al_idx : vring_used_idx (mem s') (big s) (msg_queue s)
           = u16 (vring_used_idx (mem s) (big s) (msg_queue s) + Z.of_nat (length js));
  al_entries : forall i head l, js !! i = Some (head, l) ->
    used_entry (mem s') (big s) (msg_queue s)
      ((vring_used_idx (mem s) (big s) (msg_queue s) + Z.of_nat i) mod num (vring (msg_queue s)))
    = (head, u32 (iov_size (ram_iov <$> reads l)));
  al_others : forall e, 0 <= e < num (vring (msg_queue s)) ->
    (forall i, (i < length js)%nat ->
       e <> (vring_used_idx (mem s) (big s) (msg_queue s) + Z.of_nat i) mod num (vring (msg_queue s))) ->
    used_entry (mem s') (big s) (msg_queue s) e = used_entry (mem s) (big s) (msg_queue s) e;
  al_agree : agree (fun x => ~ used_region (msg_queue s) x /\ forall j, j ∈ js -> ~ in_blk (req_addr j.2) x) (mem s) (mem s');
  al_last : last_avail_idx (msg_queue s') = u16 (last_avail_idx (msg_queue s) + Z.of_nat (length js));
  al_irq : (js = [] -> irq (proxy s) = true /\ isr (vdev s) <> 0) -> virtio_has_feature (vdev s) VIRTIO_RING_F_EVENT_IDX = false ->
    flag_set (vring_avail_flags (mem s) (big s) (msg_queue s)) VRING_AVAIL_F_NO_INTERRUPT = false ->
    irq (proxy s') = true /\ isr (vdev s') <> 0
}.

Lemma all_served_nil s : rings_ok s -> bounce (mem s) = None -> 0 <= msg_vq (backend s) < VIRTIO_QUEUE_MAX -> all_served s [] s.
Proof.
  intros Hs Hb Hn. split; try done; [| |by auto].
  - cbn [length]. rewrite Z.add_0_r. symmetry. apply wrap_small, lduw_range, Hs.
  - cbn [length]. rewrite Z.add_0_r. symmetry. apply wrap_small, (queue_ok_at s _ Hs Hn).
Qed.

Lemma u16_mod x k : (k | 65536) -> 0 < k -> u16 x mod k = x mod k.
Proof.
  intros [c Hc] Hk. unfold wrap. change (2 ^ 16) with 65536. rewrite Hc, Z.mul_comm.
  destruct (decide (c = 0)) as [->|]; [lia|]. rewrite Z.rem_mul_r by lia.
  rewrite Z.mul_comm, Z.mod_add by lia. apply Z.mod_mod. lia.
Qed.

(** Entries of the used ring do not meet within one round. *)
Lemma entries_apart u a b k : 0 <= a < k -> 0 <= b < k -> a <> b -> (u + a) mod k <> (u + b) mod k.
Proof.
  intros Ha Hb Hne E. assert (Hd : (k | a - b)).
  { apply Z.mod_divide; [lia|]. replace (a - b) with ((u + a) - (u + b)) by lia.
    rewrite Zminus_mod, E, Z.sub_diag. apply Z.mod_0_l. lia. }
  destruct Hd as [c Hc]. assert (c = 0 \/ c <= -1 \/ 1 <= c) as [-> |[?|?]] by lia; [lia|nia..].
Qed.

(** One request, then the others. *)
Section cons.
Context (P : Z -> Prop) (s s1 s' : vstate (VirtIOMsg H)) (head : Z) (l : list buffer) (js : list (Z * list buffer)).
Context (Hp : pending P s ((head, l) :: js)) (Hdiv : (num (vring (msg_queue s)) | 65536)).
Context (Hsv : served s head l s1) (Hal : all_served s1 js s').

Lemma cons_ring :
  (forall m i, used_entry m (big s1) (msg_queue s1) i = used_entry m (big s) (msg_queue s) i) /\
  (forall m, vring_used_idx m (big s1) (msg_queue s1) = vring_used_idx m (big s) (msg_queue s)) /\
  (forall x, used_region (msg_queue s1) x <-> used_region (msg_queue s) x).
Proof using Hsv.
  destruct (served_queue _ _ _ _ Hsv) as (Evr & Ebig & _). unfold used_entry, vring_used_idx, used_region.
  by rewrite Evr, Ebig.
Qed.

(** The blocks are apart from each other and from the used ring. *)
Lemma cons_apart :
  (forall x, in_blk (req_addr l) x -> ~ used_region (msg_queue s) x /\ forall j, j ∈ js -> ~ in_blk (req_addr j.2) x) /\
  (forall j, j ∈ js -> forall x, in_blk (req_addr j.2) x -> ~ used_region (msg_queue s) x /\ ~ in_blk (req_addr l) x).
Proof using Hp.
  destruct (pe_jobs _ _ _ Hp 0%nat head l eq_refl) as [_ Hj0].
  assert (Hdisj : forall j, j ∈ js -> forall x, in_blk (req_addr l) x -> ~ in_blk (req_addr j.2) x).
  { intros j [i Hi]%list_elem_of_lookup_1 x. apply (pe_disj _ _ _ Hp 0%nat (S i) (head, l) j); done. }
  split.
  - intros x Hx. split; [by apply (jo_apart _ _ _ _ _ _ Hj0 x)|]. intros j Hj. by apply Hdisj.
  - intros [hd' l'] Hj x Hx. split; [|intros Hx'; by apply (Hdisj _ Hj x)].
    apply list_elem_of_lookup_1 in Hj as [i Hi].
    destruct (pe_jobs _ _ _ Hp (S i) hd' l' Hi) as [_ Hj]. by apply (jo_apart _ _ _ _ _ _ Hj x).
Qed.

Lemma cons_spec :
  (msg_host (backend s'), (fun j => block (mem s') (req_addr j.2)) <$> (head, l) :: js)
  = serve_all (big s) (msg_host (backend s)) ((fun j => block (mem s) (req_addr j.2)) <$> (head, l) :: js).
Proof using Hp Hsv Hal.
  destruct cons_ring as (_ & _ & Ereg). destruct cons_apart as [Hap1 Hap2].
  destruct (served_queue _ _ _ _ Hsv) as (_ & Ebig & _).
  rewrite !fmap_cons. cbn [serve_all snd]. rewrite <- (sv_spec _ _ _ _ Hsv).
  rewrite (block_agree _ _ _ (req_addr l) (al_agree _ _ _ Hal)).
  2: { intros x Hx. cbv beta. rewrite Ereg. by apply Hap1. }
  replace ((fun j => block (mem s) (req_addr j.2)) <$> js) with ((fun j => block (mem s1) (req_addr j.2)) <$> js).
  { pose proof (al_spec _ _ _ Hal) as E. rewrite Ebig in E. by rewrite <- E. }
  apply list_fmap_ext. intros i j Hi. apply list_elem_of_lookup_2 in Hi.
  eapply block_agree; [exact (ex_agree (sv_ex _ _ _ _ Hsv))|]. intros x Hx. by apply (Hap2 j).
Qed.

(** The next entries of the used ring. *)
Lemma cons_next i :
  (vring_used_idx (mem s1) (big s1) (msg_queue s1) + Z.of_nat i) mod num (vring (msg_queue s1))
  = (vring_used_idx (mem s) (big s) (msg_queue s) + Z.of_nat (S i)) mod num (vring (msg_queue s)).
Proof using Hp Hsv Hdiv.
  destruct cons_ring as (_ & Eidx & _). pose proof (pe_used _ _ _ Hp) as (_ & Hnum & _).
  rewrite (proj1 (served_queue _ _ _ _ Hsv)), Eidx, (ex_idx (sv_ex _ _ _ _ Hsv)).
  rewrite <- Zplus_mod_idemp_l, u16_mod by done. rewrite Zplus_mod_idemp_l. f_equal. lia.
Qed.

Lemma cons_entries i head' l' :
  ((head, l) :: js) !! i = Some (head', l') ->
  used_entry (mem s') (big s) (msg_queue s)
    ((vring_used_idx (mem s) (big s) (msg_queue s) + Z.of_nat i) mod num (vring (msg_queue s)))
  = (head', u32 (iov_size (ram_iov <$> reads l'))).
Proof using Hp Hsv Hal Hdiv.
  destruct cons_ring as (Eent & _ & _). pose proof (pe_used _ _ _ Hp) as (_ & Hnum & _).
  pose proof (pe_len _ _ _ Hp) as Hlen. cbn [length] in Hlen.
  destruct i as [|i]; intros Hi.
  - injection Hi as <- <-. cbn [Z.of_nat]. rewrite Z.add_0_r, <- Eent, (al_others _ _ _ Hal).
    + rewrite Eent. exact (ex_entry (sv_ex _ _ _ _ Hsv)).
    + rewrite (proj1 (served_queue _ _ _ _ Hsv)). apply Z.mod_pos_bound. lia.
    + intros i Hi. rewrite cons_next.
      pose proof (entries_apart (vring_used_idx (mem s) (big s) (msg_queue s)) 0 (Z.of_nat (S i))
        (num (vring (msg_queue s)))) as Hap.
      rewrite Z.add_0_r in Hap. apply Hap; lia.
  - pose proof (al_entries _ _ _ Hal i head' l' Hi) as E. by rewrite Eent, cons_next in E.
Qed.

Lemma cons_irq :
  virtio_has_feature (vdev s) VIRTIO_RING_F_EVENT_IDX = false ->
  flag_set (vring_avail_flags (mem s) (big s) (msg_queue s)) VRING_AVAIL_F_NO_INTERRUPT = false ->
  irq (proxy s') = true /\ isr (vdev s') <> 0.
Proof using Hp Hsv Hal.
  intros Hev Hfl. pose proof (pending_agree _ _ _ _ _ _ Hp Hsv) as HagP.
  pose proof (pe_used _ _ _ Hp) as (_ & Hnum & _).
  assert (Hfoot : footprint P (avail (vring (msg_queue s))) 2).
  { eapply footprint_sub; [exact (pe_avail _ _ _ Hp)|lia..]. }
  destruct (served_queue _ _ _ _ Hsv) as (Evr & Ebig & _). apply (al_irq _ _ _ Hal).
  - intros _. apply (ex_irq (sv_ex _ _ _ _ Hsv)); [done| |done]. destruct Hfoot as (F1 & F2 & F3).
    split; [done|]. split; [done|]. intros x Hx%F3. destruct (pe_jobs _ _ _ Hp 0%nat head l eq_refl) as [_ Hj0].
    split; intros Hin; [by apply (pe_apart _ _ _ Hp x)|by destruct (jo_apart _ _ _ _ _ _ Hj0 x Hin)].
  - unfold virtio_has_feature in *. by rewrite (proj1 (ex_dev (sv_ex _ _ _ _ Hsv))).
  - rewrite <- Hfl. f_equal. unfold vring_avail_flags, virtio_lduw_phys. rewrite Evr, Ebig. f_equal.
    by eapply load_agree.
Qed.

Lemma all_served_cons : all_served s ((head, l) :: js) s'.
Proof using Hp Hsv Hal Hdiv.
  destruct cons_ring as (Eent & Eidx & Ereg). destruct (served_queue _ _ _ _ Hsv) as (Evr & _ & Elast).
  split; [apply Hal|exact cons_spec| |exact cons_entries| | | |intros _; exact cons_irq].
  - rewrite <- Eidx, (al_idx _ _ _ Hal), Eidx, (ex_idx (sv_ex _ _ _ _ Hsv)), u16_add. f_equal. cbn [length]. lia.
  - intros e He Hne. rewrite <- Eent, (al_others _ _ _ Hal); [|by rewrite Evr|].
    + rewrite Eent. apply (ex_others (sv_ex _ _ _ _ Hsv)); [done|]. specialize (Hne 0%nat). rewrite Z.add_0_r in Hne.
      apply Hne. cbn. lia.
    + intros i Hi. rewrite cons_next. apply Hne. cbn. lia.
  - eapply agree_trans; [eapply agree_mono; [|exact (ex_agree (sv_ex _ _ _ _ Hsv))]|eapply agree_mono; [|exact (al_agree _ _ _ Hal)]].
    + intros x [Hx1 Hx2]. split; [done|]. apply (Hx2 (head, l)). by left.
    + intros x [Hx1 Hx2]. cbv beta. rewrite Ereg. split; [done|]. intros j Hj. apply Hx2. by right.
  - rewrite (al_last _ _ _ Hal), Elast, u16_add. f_equal. cbn [length]. lia.
Qed.
End cons.

(** The number of entries the guest made available. *)
Lemma pending_heads P s js :
  pending P s js ->
  u16 (vring_avail_idx (mem s) (big s) (msg_queue s) - last_avail_idx (msg_queue s)) = Z.of_nat (length js).
Proof.
  intros [P1 P2 _ _ _ _ P7 P8 _ _]. rewrite P7. unfold wrap. rewrite Zminus_mod_idemp_l.
  replace (_ + _ - _) with (Z.of_nat (length js)) by lia. apply Z.mod_small. change (2 ^ 16) with 65536.
  pose proof (ok_num _ (queue_ok_at s _ P1 P2)) as Hnum. unfold VIRTQUEUE_MAX_SIZE in Hnum. lia.
Qed.

(** Taking the first request, or finding none. *)
Lemma pending_pop_nil P s : pending P s [] -> virtqueue_pop s (msg_vq (backend s)) = Done (None, s).
Proof.
  intros Hp. pose proof (pending_heads P s [] Hp) as Hh. destruct Hp as [P1 P2 _ _ _ _ _ _ _ _].
  unfold virtqueue_pop. rewrite get_vq_in by done. change (Done ?x ≫= ?f) with (f x). cbv beta.
  unfold virtqueue_num_heads. rewrite Hh.
  rewrite Z.gtb_ltb, (proj2 (Z.ltb_ge _ _)) by apply (queue_ok_at s _ P1 P2). done.
Qed.

Lemma pending_pop_cons P s head l js :
  pending P s ((head, l) :: js) ->
  virtqueue_pop s (msg_vq (backend s)) =
    Done (Some (elem_of head l),
          set_mem (upd_queue s (msg_vq (backend s)) pop_queue) (mem (take_head s (msg_vq (backend s))))).
Proof.
  intros Hp. pose proof (pending_heads _ _ _ Hp) as Hh. cbn [length] in Hh.
  destruct Hp as [P1 P2 P3 P4 P5 _ _ P8 P9 _]. cbn [length] in P8.
  destruct (P9 0%nat head l eq_refl) as [R1 [J1 J2 J3 J4 J5 J6]].
  rewrite Z.add_0_r in R1. rewrite (wrap_small 16) in R1 by apply (queue_ok_at s _ P1 P2).
  destruct (take_head_used s _ P1 P2 P3) as (T1 & _).
  apply (virtqueue_pop_request P); try done; [lia|lia|].
  eapply request_agree; [|exact J2]. eapply agree_mono; [|exact T1]. intros x Hx Hin. by apply (P5 x).
Qed.

(** The handler serves all requests, in order, and returns. *)
Lemma handle_output_served P js s fuel :
  pending P s js -> (num (vring (msg_queue s)) | 65536) -> (length js < fuel)%nat ->
  exists s', virtio_msg_handle_output fuel s = Done s' /\ all_served s js s'.
Proof.
  revert s fuel. induction js as [|[head l] js IH]; intros s fuel Hp Hdiv Hf;
    (destruct fuel as [|fuel]; [cbn in Hf; lia|]); cbn [virtio_msg_handle_output].
  - rewrite (pending_pop_nil P) by done. cbn [mbind outcome_bind]. exists s. split; [done|].
    apply all_served_nil; apply Hp.
  - rewrite (pending_pop_cons P _ _ _ _ Hp). cbn [mbind outcome_bind].
    destruct (pe_jobs _ _ _ Hp 0%nat head l eq_refl) as [_ Hj].
    destruct (handle_request_served P s head l) as (s1 & -> & Hsv); [apply Hp..|exact Hj|].
    cbn [mbind outcome_bind]. pose proof (pending_step _ _ _ _ _ _ Hp Hsv) as Hp1.
    destruct (IH s1 fuel Hp1) as (s' & -> & Hal).
    + by rewrite (proj1 (served_queue _ _ _ _ Hsv)).
    + cbn in Hf. lia.
    + exists s'. split; [done|]. by eapply all_served_cons.
Qed.
End queue.
