(* ===== verification/VirtioTheorems.v ===== *)
(** * The virtio devices: theorems

    The properties of the queues, of the transport and of the two devices on it,
    with the lemmas on the touch panel. *)

From S2P Require Import Prelude CArray Virtqueue VirtqueueProofs VirtqueueTheorems VirtioMmio VirtioMmioProofs VirtioDevs VirtioMsgProofs.

(** ** The touch panel *)

(** Writing bytes through a pointer into RAM. *)
Lemma host_write_ram m a off bs :
  mem_ok m -> in_ram m (a + off) (Z.of_nat (length bs)) = true -> Forall (in_range 8) bs ->
  exists m', host_write m (RamPtr a) off bs = Ok m' /\ mem_ok m' /\ bounce m' = bounce m /\
    ram m' = write_mem (ram m) (a + off) bs /\ same_space m m'.
Proof.
  intros Hm Hin Hbs. unfold host_write. rewrite Hin. eexists. split; [reflexivity|].
  split; [by apply mem_ok_write|done].
Qed.

(** The buffer of [n] bytes at [a]. *)
Definition in_buf (a n x : Z) : Prop := a <= x < a + n.

(** A report in the buffer: its length, then the events. *)
Lemma report_writes m a n ev :
  mem_ok m -> 0 <= n < 2 ^ 32 -> n <= Z.of_nat (length ev) -> Forall (in_range 8) ev -> in_ram m a (4 + n) = true ->
  exists m1 m2, host_write m (RamPtr a) 0 (le_bytes 4 n) = Ok m1 /\
    host_write m1 (RamPtr a) 4 (take (Z.to_nat n) ev) = Ok m2 /\ mem_ok m2 /\ bounce m2 = bounce m /\
    agree (fun x => ~ in_buf a (4 + n) x) m m2 /\
    read_mem (ram m2) a (4 + Z.to_nat n) = le_bytes 4 n ++ take (Z.to_nat n) ev.
Proof.
  intros Hm Hn Hlen Hev Hin. apply in_ram_spec in Hin as [I1 I2].
  assert (Hlt : length (take (Z.to_nat n) ev) = Z.to_nat n) by (rewrite length_take; lia).
  destruct (host_write_ram m a 0 (le_bytes 4 n)) as (m1 & E1 & O1 & B1 & R1 & S1);
    [done|apply in_ram_spec; rewrite length_le_bytes; lia|apply le_bytes_ok|].
  destruct (host_write_ram m1 a 4 (take (Z.to_nat n) ev)) as (m2 & E2 & O2 & B2 & R2 & S2);
    [done|rewrite (in_ram_same m) by done; apply in_ram_spec; rewrite Hlt; lia|by apply Forall_take|].
  exists m1, m2. split; [done|]. split; [done|]. split; [done|]. split; [congruence|]. split.
  - split; [by eapply same_space_trans|]. intros x Hx. unfold in_buf in Hx.
    rewrite R2, write_mem_lookup, decide_False by (rewrite Hlt; lia).
    by rewrite R1, write_mem_lookup, decide_False by (rewrite length_le_bytes; lia).
  - rewrite read_mem_app, R2, read_write_mem_other by lia. f_equal.
    + rewrite R1, Z.add_0_r. change 4%nat with (length (le_bytes 4 n)). apply read_write_mem.
    + pose proof (read_write_mem (ram m1) (a + 4) (take (Z.to_nat n) ev)) as E. rewrite Hlt in E. exact E.
Qed.

(** The guest posted the buffers [l] for the next events. *)
Record posted (s : vstate VirtIOTp) (head : Z) (l : list buffer) (b : buffer) : Prop := {
  po_rings : rings_ok s;
  po_vq : 0 <= tp_vq (backend s) < VIRTIO_QUEUE_MAX;
  po_used : used_ok (mem s) (queue s (tp_vq (backend s)));
  po_bounce : bounce (mem s) = None;
  po_avail : 1 <= u16 (vring_avail_idx (mem s) (big s) (queue s (tp_vq (backend s)))
                       - last_avail_idx (queue s (tp_vq (backend s)))) <= num (vring (queue s (tp_vq (backend s))));
  po_ring : vring_avail_ring (mem s) (big s) (queue s (tp_vq (backend s)))
              (last_avail_idx (queue s (tp_vq (backend s))) mod num (vring (queue s (tp_vq (backend s))))) = head;
  po_head : head < num (vring (queue s (tp_vq (backend s))));
  po_request : request (fun x => ~ used_region (queue s (tp_vq (backend s))) x) (mem s) (big s)
                 (queue s (tp_vq (backend s))) head l;
  po_fit : bufs_fit l;
  po_bufs : Forall (buf_ok (mem s)) l;
  po_first : exists rest, writes l = b :: rest
}.


(** ** The touch panel on the transport *)

#[export] Instance virtio_tp_laws : DeviceLaws virtio_tp_class 8.
Proof.
  split.
  - intros s n Hs _. apply kept_backend, Hs.
  - intros b cfg Hc Hlen. split; [by apply blit_ok, le_bytes_ok|].
    cbn. unfold virtio_tp_update_config. rewrite length_blit; [done|]. rewrite length_le_bytes. lia.
Qed.

(** A device that was just created, and a queue added to it. *)
Lemma virtio_init_ok {B} m (b : B) id size feats :
  mem_ok m -> bounce m = None -> 0 <= feats -> mmio_ok size (virtio_init m b id size feats).
Proof.
  intros Hm Hb Hf. unfold virtio_init. cbv zeta. split; [|apply length_replicate|].
  - split; cbn [mem vdev proxy status isr queue_sel host_features guest_features config guest_page_shift
      host_features_sel guest_features_sel irq]; try done; try (unfold in_range, VIRTIO_QUEUE_MAX; lia).
    + split; [done|]. cbn [vdev vq]. split; [rewrite length_fmap, length_seqZ; done|].
      apply Forall_fmap, Forall_forall. intros i _. split; cbn; unfold in_range, VIRTQUEUE_MAX_SIZE; try lia; done.
    + apply Forall_replicate. unfold in_range. lia.
  - intros i. split; [intros []%not_elem_of_nil|]. by intros [? _].
Qed.

Lemma virtio_add_queue_ok {B} (s : vstate B) size n :
  mmio_ok size s -> ioeventfd_started (proxy s) = false -> num (vring (queue s 0)) = 0 -> 0 < n <= VIRTQUEUE_MAX_SIZE ->
  exists s', virtio_add_queue s n = Done (0, s') /\ mmio_ok size s' /\ ioeventfd_started (proxy s') = false.
Proof.
  intros [Hc Hl Hfds] Hst H0 Hn. pose proof (co_rings _ Hc) as Hr. unfold virtio_add_queue.
  assert (Ef : first_free (vq (vdev s)) 0 = 0).
  { pose proof (proj1 (ok_queues s Hr)) as Hlen. unfold queue, at_ in H0.
    destruct (vq (vdev s)) as [|q qs]; [done|]. change (num (vring q) = 0) in H0. cbn. by rewrite H0. }
  rewrite Ef. change (0 =? VIRTIO_QUEUE_MAX) with false. rewrite Z.gtb_ltb, (proj2 (Z.ltb_ge _ _)) by lia. cbn [orb].
  assert (Hin : 0 <= 0 < VIRTIO_QUEUE_MAX) by (unfold VIRTIO_QUEUE_MAX; lia).
  rewrite mod_vq_in by done. cbn [mbind outcome_bind]. eexists. split; [reflexivity|]. split; [|done].
  split; [|done|].
  - destruct Hc. split; try done. apply rings_ok_upd; [done|]. destruct (queue_ok_at s 0 Hr Hin).
    split; cbn; first [done|unfold VIRTIO_PCI_VRING_ALIGN, in_range; lia|lia].
  - intros i. change (proxy (upd_queue s 0 _)) with (proxy s). rewrite Hfds, Hst. naive_solver.
Qed.

Lemma virtio_tp_realized m iothread :
  mem_ok m -> bounce m = None -> exists s, virtio_tp_device_realize m iothread = Done s /\ mmio_ok 8 s.
Proof.
  intros Hm Hb. unfold virtio_tp_device_realize.
  assert (Hf : 0 <= VIRTIO_COMMON_FEATURES) by by vm_compute.
  pose proof (virtio_init_ok m (mkTp 0 iothread false None) VIRTIO_ID_INPUT 8 _ Hm Hb Hf) as Hi.
  destruct (virtio_add_queue_ok _ 8 1024 Hi) as (s & -> & Hs & _); [done|done|by vm_compute|].
  cbn [mbind outcome_bind]. eexists. split; [reflexivity|].
  destruct Hs as [Hc Hl Hfds]. split; [|done|done].
  destruct Hc as [[] ? ? ? ? (F1 & F2 & F3) ? ? ? ?]. split; try done.
  set (hf := host_features (vdev s)) in *.
  change (0 <= virtio_tp_get_features hf /\ 0 <= guest_features (vdev s) /\
          Z.land (guest_features (vdev s)) (Z.lnot (virtio_tp_get_features hf)) = 0).
  assert (Hbits : 0 <= virtio_tp_get_features hf).
  { unfold virtio_tp_get_features, virtio_add_feature. rewrite !Z.lor_nonneg. by vm_compute. }
  split; [done|]. split; [done|]. apply Z.bits_inj'. intros i Hi'. rewrite Z.bits_0, Z.land_spec, Z.lnot_spec by done.
  apply (f_equal (fun z => Z.testbit z i)) in F3. rewrite Z.bits_0, Z.land_spec, Z.lnot_spec in F3 by done.
  unfold virtio_tp_get_features, virtio_add_feature. rewrite !Z.lor_spec.
  destruct (Z.testbit (guest_features (vdev s)) i); [|done]. cbn in *. by rewrite negb_false_iff in F3 |- *; rewrite F3.
Qed.

(** ** Sequences of accesses *)

(** Everything that happens to a transport from outside: register accesses of
    the guest, the main loop finding a notifier signaled, guest notifiers that
    are set up, taken away or signaled, the machine being stopped or continued, a
    reset of the system. *)
Section reach.
Context {B : Type} (k : VirtioDeviceClass B) (kvm : bool) (init : Z -> Z).

Definition access_size (sz : nat) : Prop := sz = 1%nat \/ sz = 2%nat \/ sz = 4%nat.

Inductive mmio_op : Type :=
| GuestRead (offset : Z) (sz : nat)
| GuestWrite (cpu : bool) (offset v : Z) (sz : nat)
| MainLoop (n : Z)
| SetGuestNotifiers (nvqs : Z) (assign : bool)
| SignalGuest (n : Z)
| MainLoopGuest (n : Z)
| VmStateChange (running : bool)
| SystemReset.

Definition op_ok (o : mmio_op) : Prop :=
  match o with
  | GuestRead _ sz => access_size sz
  | GuestWrite _ _ v sz => access_size sz /\ 0 <= v
  | MainLoop n | SignalGuest n | MainLoopGuest n => 0 <= n < VIRTIO_QUEUE_MAX
  | SetGuestNotifiers _ _ | VmStateChange _ | SystemReset => True
  end.

Definition mmio_run (o : mmio_op) (s : vstate B) : outcome (vstate B) :=
  match o with
  | GuestRead offset sz => '(_, s) ← virtio_mmio_read k s offset sz; Done s
  | GuestWrite cpu offset v sz => guest_write k kvm init s (Some cpu) offset v sz
  | MainLoop n => main_loop_notifier k s n
  | SetGuestNotifiers nvqs assign => '(_, s) ← virtio_mmio_set_guest_notifiers k init s nvqs assign; Done s
  | SignalGuest n => signal_guest_notifier s n
  | MainLoopGuest n => main_loop_guest_notifier s n
  | VmStateChange running => Done (virtio_vmstate_change k s running)
  | SystemReset => virtio_mmio_reset k init s
  end.

Inductive mmio_reach (s0 : vstate B) : vstate B -> Prop :=
| reach_start : mmio_reach s0 s0
| reach_op s s' o : mmio_reach s0 s -> op_ok o -> mmio_run o s = Done s' -> mmio_reach s0 s'.

Lemma mmio_run_ok size `{!DeviceLaws k size} o s :
  mmio_ok size s -> op_ok o -> safe (mmio_ok size) (mmio_run o s).
Proof.
  intros Hs Ho. destruct o as [offset sz|cpu offset v sz|n|nvqs assign|n|n|running|]; cbn in *.
  - eapply safe_bind; [by eapply mmio_read_ok|]. by intros [v s'].
  - destruct Ho. by eapply guest_write_ok.
  - by eapply main_loop_notifier_ok.
  - eapply safe_bind; [by eapply set_guest_notifiers_ok|]. by intros [v s'].
  - by apply signal_guest_ok.
  - by apply main_loop_guest_ok.
  - by apply vmstate_change_ok.
  - by eapply mmio_reset_ok.
Qed.
End reach.

(** C2: a virtio transport keeps its invariant on every state reachable by any
    sequence of register reads and writes of the guest (of any offset and any
    value), signaled notifiers in both directions, changes of the run state and
    resets, for every device class that keeps its
    promises to the transport: registers within their widths, accepted features a
    subset of the offered ones, no queue appearing or vanishing, ring addresses
    within the address space, the interrupt line high exactly while the interrupt
    status is not zero, event descriptors registered exactly for the existing
    queues while they are started; and the next access returns or exits, but never
    uses a bad pointer, indexes out of bounds, fails an assertion or divides by
    zero. *)
Theorem virtio_transport_safe {B} (k : VirtioDeviceClass B) size `{!DeviceLaws k size} kvm init s0 s :
  mmio_ok size s0 -> mmio_reach k kvm init s0 s ->
  mmio_ok size s /\ forall o, op_ok o -> safe (mmio_ok size) (mmio_run k kvm init o s).
Proof.
  intros H0 Hr. assert (Hs : mmio_ok size s).
  { induction Hr as [|s s' o _ IH Ho E]; [done|]. pose proof (mmio_run_ok k kvm init size o s IH Ho) as Hs.
    by rewrite E in Hs. }
  split; [done|]. intros o Ho. by apply mmio_run_ok.
Qed.

(** C24: whatever the guest wrote into its memory (rings, indices, descriptors,
    loops, indirect tables of any size), counting the available bytes and
    [virtqueue_pop] return or exit: they stop, and never use a bad pointer or
    overflow the arrays of the element.  The request [virtqueue_pop] returns has a head below the size of the queue, at most 1024
    buffers of each kind, all mapped, and the device can give it back: the push
    returns, releases the bounce buffer and restores the count of requests in
    use. *)
Theorem virtqueue_hostile_guest {B} (s : vstate B) n len :
  rings_ok s -> 0 <= n < VIRTIO_QUEUE_MAX -> num (vring (queue s n)) <> 0 -> bounce (mem s) = None ->
  (forall in_bytes out_bytes, safe (fun _ => True) (virtqueue_avail_bytes s n in_bytes out_bytes)) /\
  safe (fun '(r, s1) => match r with
    | None => s1 = s
    | Some e =>
        elem_ok (mem s1) (num (vring (queue s n))) e /\
        exists s2, virtqueue_push s1 n e len = Done s2 /\ rings_ok s2 /\ bounce (mem s2) = None /\
          last_avail_idx (queue s2 n) = u16 (last_avail_idx (queue s n) + 1) /\ inuse (queue s2 n) = inuse (queue s n)
    end) (virtqueue_pop s n).
Proof.
  intros Hs Hn Hnum Hb. split; [intros; by apply virtqueue_avail_bytes_safe|].
  eapply safe_mono; [by apply virtqueue_pop_safe|].
  intros [[e|] s1]; [|done]. intros (m & -> & Hs1 & Hsp & He). split; [exact He|].
  set (s1 := set_mem _ m) in *. assert (Eq1 : queue s1 n = pop_queue (queue s n)) by (apply (queue_upd s n); done).
  destruct (virtqueue_push_spec s1 n (num (vring (queue s n))) e len Hs1 Hn) as (m2 & Hm2 & _ & Hb2 & _ & ->); [by rewrite Eq1|exact He|].
  eexists. split; [reflexivity|]. set (old := vring_used_idx _ _ _).
  assert (Eq2 : forall m', queue (set_mem (upd_queue s1 n (push_queue old)) m') n = push_queue old (queue s1 n))
    by (intros; apply (queue_upd s1 n); done).
  split; [|split; [|split]].
  - apply rings_ok_set; [done|by apply push_queue_ok, queue_ok_at|by apply mem_ok_push].
  - cbn [mem set_mem]. by rewrite (proj2 (same_space_push _ _ _ _ _)).
  - rewrite Eq2, Eq1. by destruct (push_queue_fields old (pop_queue (queue s n))) as (_ & _ & -> & _).
  - rewrite Eq2, Eq1. unfold push_queue. cbv zeta. destruct (_ <? _); cbn; lia.
Qed.

(** C9: taking a request is exact: if the next available entry names a chain of
    descriptors (in the table of the queue or in an indirect one) of non-empty
    buffers in RAM, [virtqueue_pop] returns its head and exactly its buffers, the
    readable and the writable ones each in the order of the chain, however long
    the chain; it advances the queue by one and writes nothing but the event
    index at the end of the used ring. *)
Theorem virtqueue_pop_exact {B} (s : vstate B) n head l :
  let q := queue s n in
  rings_ok s -> 0 <= n < VIRTIO_QUEUE_MAX -> used_ok (mem s) q ->
  1 <= u16 (vring_avail_idx (mem s) (big s) q - last_avail_idx q) <= num (vring q) ->
  vring_avail_ring (mem s) (big s) q (last_avail_idx q mod num (vring q)) = head -> head < num (vring q) ->
  request (fun x => ~ used_region q x) (mem s) (big s) q head l -> bufs_fit l -> Forall (buf_ok (mem s)) l ->
  exists s', virtqueue_pop s n = Done (Some (elem_of head l), s') /\ rings_ok s' /\
    queue s' n = pop_queue q /\ agree (fun x => ~ used_region q x) (mem s) (mem s') /\
    vring_used_idx (mem s') (big s) q = vring_used_idx (mem s) (big s) q /\
    (forall i, 0 <= i < num (vring q) -> used_entry (mem s') (big s) q i = used_entry (mem s) (big s) q i).
Proof.
  intros q Hs Hn Hu Hav Hring Hlt Hreq Hfit Hbufs.
  destruct (take_head_used s n Hs Hn Hu) as (T1 & T2 & T3 & T4). fold q in T1, T2, T3, T4.
  eexists. split; [apply (virtqueue_pop_request (fun x => ~ used_region q x)); try done; by eapply request_agree|].
  split; [apply rings_ok_set; [done|by apply pop_queue_ok, queue_ok_at|apply T2]|].
  split; [by apply (queue_upd s n)|]. done.
Qed.

