(* ===== verification/VirtioWitnesses.v ===== *)
(** * The virtio devices: concrete guests

    Guests with a queue of four entries in 64 KiB of RAM, that show the theorems
    on the virtio devices at work and the requests on which the two devices fail. *)

From S2P Require Import Prelude CArray Virtqueue VirtqueueProofs VirtqueueTheorems VirtioMmio VirtioMmioProofs VirtioDevs VirtioMsgProofs VirtioTheorems VirtioMigrate VirtioMigrateProofs VirtioMigrateTheorems VirtioLoadProofs.

(** ** Guests *)

(** The queue: descriptors, available ring and used ring. *)
Definition BASE : Z := 0x40000000.
Definition AVAIL : Z := 0x40000040.
Definition USED : Z := 0x40001000.
(** The block of a request. *)
Definition BLOCK : Z := 0x40002000.

Definition put_desc (r : gmap Z Z) (i addr len flags next : Z) : gmap Z Z :=
  write_mem r (BASE + 16 * i) (le_bytes 8 addr ++ le_bytes 4 len ++ le_bytes 2 flags ++ le_bytes 2 next).

Definition put_avail (r : gmap Z Z) (idx : Z) (ring : list Z) : gmap Z Z :=
  write_mem r AVAIL (le_bytes 2 0 ++ le_bytes 2 idx ++ concat (le_bytes 2 <$> ring)).

Definition guest_ram (r : gmap Z Z) : AddressSpace := mkAS BASE 0x10000 r None.

(** A frame buffer that answers every call. *)
Definition demo_host : FbHost unit := {|
  sys_open := fun h => (7, h);
  sys_close := fun _ h => (0, h);
  sys_ioctl := fun _ _ arg h => (0, arg, h)
|}.
#[local] Existing Instance demo_host.

#[local] Instance demo_host_laws : FbHostLaws unit.
Proof. split. done. Qed.

(** The register writes that set up the queue and kick it. *)
Definition setup : list (Z * Z) :=
  [(VIRTIO_MMIO_GUESTPAGESIZE, 4096); (VIRTIO_MMIO_QUEUESEL, 0); (VIRTIO_MMIO_QUEUENUM, 4);
   (VIRTIO_MMIO_QUEUEPFN, 0x40000); (VIRTIO_MMIO_STATUS, 7)].
Definition kick : list (Z * Z) := [(VIRTIO_MMIO_QUEUENOTIFY, 0)].

Fixpoint drive {B} (k : VirtioDeviceClass B) (s : vstate B) (ws : list (Z * Z)) : outcome (vstate B) :=
  match ws with
  | [] => Done s
  | (off, v) :: ws' => s ← guest_write k false (fun _ => 0) s (Some false) off v 4; drive k s ws'
  end.

(** The message device of a guest with memory [r]; the host pointer in its
    configuration is 0x7f12345678. *)
Definition msg_guest (r : gmap Z Z) (ws : list (Z * Z)) : outcome (vstate (VirtIOMsg unit)) :=
  s ← virtio_msg_device_realize (guest_ram r) 0x7f12345678 tt; drive virtio_msg_class s (setup ++ ws).

Definition tp_guest (r : gmap Z Z) (ws : list (Z * Z)) : outcome (vstate VirtIOTp) :=
  s ← virtio_tp_device_realize (guest_ram r) 0; drive virtio_tp_class s (setup ++ ws).

(** A request: type, function and a result of 77. *)
Definition put_request (r : gmap Z Z) (a ty func : Z) : gmap Z Z :=
  write_mem r (a + 16) (le_bytes 4 77 ++ le_bytes 4 ty ++ le_bytes 4 func).

(** One request in one readable buffer of [len] bytes at [a]. *)
Definition one_request (a len ty func : Z) : gmap Z Z :=
  put_request (put_avail (put_desc ∅ 0 a len 0 0) 1 [0]) a ty func.

(** Status and result of the request at [BLOCK], when the device answered. *)
Definition answer (o : outcome (vstate (VirtIOMsg unit))) : option (Z * Z * bool) :=
  match o with
  | Done s => let blk := block (mem s) BLOCK in Some (default 0 (blk !! 12%nat), fld blk 16, irq (proxy s))
  | _ => None
  end.

Definition crash_of {A} (o : outcome A) : option fault := match o with Crash f => Some f | _ => None end.
Definition done_or {A} (d : A) (o : outcome A) : A := match o with Done a => a | _ => d end.

(** ** A device in the middle of its work *)

(** The queue as the guest set it up, with [signalled_used] valid. *)
Definition demo_queue : VirtQueue :=
  mkQueue (mkVRing 4 4096 BASE AVAIL USED) 0 0 true true 0 0 VIRTIO_NO_VECTOR true (mkNotifier false false false)
    (mkNotifier false false false).

Definition demo_state {B} (b : B) (features : Z) (r : gmap Z Z) : vstate B :=
  mod_vdev (upd_queue (virtio_init (guest_ram r) b 0 8 0) 0 (fun _ => demo_queue))
    (fun d => {| d with guest_features := features |}).

Create HintDb virtio_demo.

Definition bytes_ok (r : gmap Z Z) : Prop := forall x b, r !! x = Some b -> in_range 8 b.

Lemma bytes_ok_empty : bytes_ok ∅.
Proof. intros x b. by rewrite lookup_empty. Qed.

Lemma bytes_ok_write r a bs : bytes_ok r -> Forall (in_range 8) bs -> bytes_ok (write_mem r a bs).
Proof. intros Hr Hbs x b. by apply write_mem_range. Qed.

Lemma bytes_ok_avail r idx ring : bytes_ok r -> bytes_ok (put_avail r idx ring).
Proof.
  intros Hr. apply bytes_ok_write; [done|]. repeat (apply Forall_app; split); try apply le_bytes_ok.
  apply Forall_concat, Forall_fmap, Forall_forall. intros v _. apply le_bytes_ok.
Qed.

Lemma bytes_ok_desc r i addr len flags next : bytes_ok r -> bytes_ok (put_desc r i addr len flags next).
Proof.
  intros Hr. apply bytes_ok_write; [done|]. repeat (apply Forall_app; split); apply le_bytes_ok.
Qed.

Lemma bytes_ok_request r a ty func : bytes_ok r -> bytes_ok (put_request r a ty func).
Proof.
  intros Hr. apply bytes_ok_write; [done|]. repeat (apply Forall_app; split); apply le_bytes_ok.
Qed.
#[local] Hint Resolve bytes_ok_empty bytes_ok_avail bytes_ok_desc bytes_ok_request : virtio_demo.

Lemma guest_ram_ok r : bytes_ok r -> mem_ok (guest_ram r).
Proof. intros Hr. split; cbn; by try (unfold BASE; lia). Qed.

Lemma demo_state_ok {B} (b : B) features r : bytes_ok r -> rings_ok (demo_state b features r).
Proof.
  intros Hr. pose proof (virtio_init_ok (guest_ram r) b 0 8 0 (guest_ram_ok r Hr) eq_refl (Z.le_refl 0)) as [Hc _ _].
  assert (Hq : queue_ok demo_queue) by (by split; vm_compute).
  destruct (rings_ok_upd (virtio_init (guest_ram r) b 0 8 0) 0 (fun _ => demo_queue) (co_rings _ Hc) Hq) as [H1 H2].
  by split.
Qed.

Lemma demo_queue_at {B} (b : B) features r : bytes_ok r -> queue (demo_state b features r) 0 = demo_queue.
Proof.
  intros Hr. pose proof (virtio_init_ok (guest_ram r) b 0 8 0 (guest_ram_ok r Hr) eq_refl (Z.le_refl 0)) as [Hc _ _].
  apply (queue_upd _ 0 (fun _ => demo_queue) (co_rings _ Hc)). by vm_compute.
Qed.

Lemma demo_used_ok r : bytes_ok r -> used_ok (guest_ram r) demo_queue.
Proof. intros Hr. split; [by apply guest_ram_ok|]. by split; vm_compute. Qed.

(** The descriptors and the available ring. *)
Definition demo_region (x : Z) : Prop := BASE <= x < BASE + 0x50.

Lemma demo_apart x : used_region demo_queue x -> ~ demo_region x.
Proof. unfold used_region, demo_region, demo_queue, USED, BASE. cbn. lia. Qed.

Lemma demo_block_apart x :
  BLOCK <= x < BLOCK + 0x1000 -> ~ demo_region x /\ ~ used_region demo_queue x.
Proof. unfold used_region, demo_region, demo_queue, USED, BASE, BLOCK. cbn. lia. Qed.

(** A request of one descriptor. *)
Lemma demo_request (P : Z -> Prop) r b :
  (forall x, demo_region x -> P x) ->
  flag_set (vring_desc_flags (guest_ram r) false BASE 0) VRING_DESC_F_INDIRECT = false ->
  flag_set (vring_desc_flags (guest_ram r) false BASE 0) VRING_DESC_F_NEXT = false ->
  buffer_at (guest_ram r) false BASE 0 = b ->
  request P (guest_ram r) false demo_queue 0 [b].
Proof.
  intros HP Hi Hn <-. apply (request_direct _ _ _ _ _ _ [0]); [exact Hi|]. apply chain_last; [|exact Hn].
  unfold BASE. split; [cbn; lia|]. split; [cbn; lia|]. intros x Hx. apply HP. unfold demo_region, BASE. cbn in Hx. lia.
Qed.

(** ** Theorems at work *)

Definition msg_demo : vstate (VirtIOMsg unit) :=
  demo_state (mkMsg 0 0 tt None) 0 (one_request BLOCK 200 MSG_REQ_TYPE_FUNC MSG_FUNC_FB_OPEN).
Definition msg_buf : buffer := mkBuf BLOCK 200 false.

Lemma msg_demo_bytes : bytes_ok (one_request BLOCK 200 MSG_REQ_TYPE_FUNC MSG_FUNC_FB_OPEN).
Proof. unfold one_request. auto with virtio_demo. Qed.

Lemma msg_demo_pending : pending demo_region msg_demo [(0, [msg_buf])].
Proof.
  pose proof (demo_queue_at (mkMsg 0 0 tt None) 0 _ msg_demo_bytes) as Eq. fold msg_demo in Eq.
  split; change (msg_vq (backend msg_demo)) with 0; rewrite ?Eq.
  - by apply demo_state_ok, msg_demo_bytes.
  - by vm_compute.
  - by apply demo_used_ok, msg_demo_bytes.
  - reflexivity.
  - apply demo_apart.
  - unfold demo_queue, AVAIL. split; [cbn; lia|]. split; [cbn; lia|].
    intros x Hx. unfold demo_region, BASE. cbn in Hx. lia.
  - by vm_compute.
  - by vm_compute.
  - intros [|i] head l; [|done]. intros [= <- <-]. split; [by vm_compute|]. split.
    + by vm_compute.
    + by apply demo_request.
    + by vm_compute.
    + repeat constructor.
    + by exists msg_buf, [].
    + intros x Hx. apply demo_block_apart. change (req_addr [msg_buf]) with BLOCK in Hx. unfold in_blk, SIZEOF_MsgReq in Hx. lia.
  - intros [|i] [|j] ? ? Hij; [done..|]. done.
Qed.


(** The touch panel with one buffer posted by the guest. *)
Definition tp_ram : gmap Z Z := put_avail (put_desc ∅ 0 BLOCK 1000 VRING_DESC_F_WRITE 0) 1 [0].
Definition tp_demo (features : Z) : vstate VirtIOTp := demo_state (mkTp 0 0 false None) features tp_ram.
Definition tp_buf : buffer := mkBuf BLOCK 1000 true.

Lemma tp_demo_bytes : bytes_ok tp_ram.
Proof. unfold tp_ram. auto with virtio_demo. Qed.

Lemma tp_queue features : queue (tp_demo features) 0 = demo_queue.
Proof. apply demo_queue_at, tp_demo_bytes. Qed.

Lemma tp_demo_request : request (fun x => ~ used_region demo_queue x) (guest_ram tp_ram) false demo_queue 0 [tp_buf].
Proof. apply demo_request; [|by vm_compute..]. intros x Hx Hu. by apply (demo_apart x). Qed.

Lemma tp_demo_posted : posted (tp_demo 0) 0 [tp_buf] tp_buf.
Proof.
  split; change (tp_vq (backend (tp_demo 0))) with 0; rewrite ?tp_queue.
  - apply demo_state_ok, tp_demo_bytes.
  - by vm_compute.
  - apply demo_used_ok, tp_demo_bytes.
  - reflexivity.
  - by vm_compute.
  - by vm_compute.
  - by vm_compute.
  - exact tp_demo_request.
  - by vm_compute.
  - repeat constructor.
  - by exists [].
Qed.


Lemma virtqueue_pop_exact_witness :
  exists s', virtqueue_pop (tp_demo 0) 0 = Done (Some (elem_of 0 [tp_buf]), s') /\ rings_ok s' /\
    inuse (queue s' 0) = 1.
Proof.
  destruct (virtqueue_pop_exact (tp_demo 0) 0 0 [tp_buf]) as (s' & E & Hr & Hq & _); rewrite ?tp_queue.
  - apply demo_state_ok, tp_demo_bytes.
  - by vm_compute.
  - apply demo_used_ok, tp_demo_bytes.
  - by vm_compute.
  - by vm_compute.
  - by vm_compute.
  - exact tp_demo_request.
  - by vm_compute.
  - repeat constructor.
  - exists s'. split; [exact E|]. split; [exact Hr|]. by rewrite Hq, tp_queue.
Defined.

(** A descriptor that is its own successor: the device exits. *)
Definition loop_ram : gmap Z Z := put_avail (put_desc ∅ 0 BLOCK 16 VRING_DESC_F_NEXT 0) 1 [0].
Definition loop_demo : vstate unit := demo_state tt 0 loop_ram.

Lemma loop_demo_bytes : bytes_ok loop_ram.
Proof. unfold loop_ram. auto with virtio_demo. Qed.

Lemma virtqueue_hostile_guest_witness :
  virtqueue_pop loop_demo 0 = Exit /\
  (forall in_bytes out_bytes, safe (fun _ => True) (virtqueue_avail_bytes loop_demo 0 in_bytes out_bytes)) /\
  safe (fun '(r, s1) => match r with
    | None => s1 = loop_demo
    | Some e => elem_ok (mem s1) 4 e /\
        exists s2, virtqueue_push s1 0 e 16 = Done s2 /\ rings_ok s2 /\ bounce (mem s2) = None /\
          last_avail_idx (queue s2 0) = 1 /\ inuse (queue s2 0) = 0
    end) (virtqueue_pop loop_demo 0).
Proof.
  pose proof (demo_queue_at tt 0 loop_ram loop_demo_bytes) as Eq. fold loop_demo in Eq.
  split; [vm_compute; reflexivity|]. pose proof (virtqueue_hostile_guest loop_demo 0 16) as Hw. rewrite Eq in Hw. apply Hw; clear Hw Eq.
  - apply demo_state_ok, loop_demo_bytes.
  - by vm_compute.
  - by vm_compute.
  - reflexivity.
Defined.

(** With event indices, the guest waits for entry 1: one request returned does
    not interrupt it, two do. *)
Definition EVENT_FEATURES : Z := bit VIRTIO_RING_F_EVENT_IDX.
Definition event_ram : gmap Z Z := put_avail ∅ 0 [0; 1; 2; 3; 1].
Definition event_demo : vstate unit := demo_state tt EVENT_FEATURES event_ram.
Definition event_elem : VirtQueueElement := elem_of 0 [msg_buf].

Lemma event_demo_bytes : bytes_ok event_ram.
Proof. unfold event_ram. auto with virtio_demo. Qed.

Definition event_yes (k : nat) : option bool :=
  match (s ← push_all 0 event_demo (replicate k (event_elem, 0)); vring_notify s 0) with
  | Done (yes, _) => Some yes
  | _ => None
  end.

Lemma vring_notify_exact_witness :
  event_yes 1 = Some false /\ event_yes 2 = Some true /\
  exists s1 s2 yes, push_all 0 event_demo [(event_elem, 0); (event_elem, 0)] = Done s1 /\ vring_notify s1 0 = Done (yes, s2) /\
    (yes = true <-> 32768 <= 2 \/ exists k, 0 <= k < 2 /\
       vring_get_used_event (mem event_demo) (big event_demo) demo_queue
       = u16 (vring_used_idx (mem event_demo) (big event_demo) demo_queue + k)) /\
    signalled_used_valid (queue s2 0) = true /\
    signalled_used (queue s2 0) = vring_used_idx (mem s2) (big s2) (queue s2 0).
Proof.
  pose proof (demo_queue_at tt EVENT_FEATURES event_ram event_demo_bytes) as Eq. fold event_demo in Eq.
  split; [vm_compute; reflexivity|]. split; [vm_compute; reflexivity|].
  pose proof (vring_notify_exact 0 event_demo [(event_elem, 0); (event_elem, 0)]) as Hw. rewrite Eq in Hw. apply Hw; clear Hw Eq.
  - apply demo_state_ok, event_demo_bytes.
  - by vm_compute.
  - apply demo_used_ok, event_demo_bytes.
  - reflexivity.
  - by vm_compute.
  - by vm_compute.
  - unfold demo_queue, AVAIL. split; [cbn; lia|]. split; [cbn; lia|].
    intros x Hx Hu. apply (demo_apart x Hu). unfold demo_region, BASE. cbn in Hx. lia.
  - reflexivity.
  - by vm_compute.
  - assert (He : ram_elem (mem event_demo) event_elem).
    { split; [|by vm_compute]. apply elem_of_ok; [by vm_compute|by vm_compute|repeat constructor|reflexivity]. }
    by repeat constructor.
Defined.

(** The touch panel as it was realized, and after the guest set up its queue and
    kicked it. *)
Definition tp_ready : vstate VirtIOTp := done_or (tp_demo 0) (virtio_tp_device_realize (guest_ram tp_ram) 0).
Definition tp_op : mmio_op := GuestWrite false VIRTIO_MMIO_QUEUENUM 4 4.
Definition tp_next : vstate VirtIOTp := done_or tp_ready (mmio_run virtio_tp_class true (fun _ => 0) tp_op tp_ready).

Lemma tp_ready_ok : mmio_ok 8 tp_ready.
Proof.
  destruct (virtio_tp_realized (guest_ram tp_ram) 0) as (s & E & Hs);
    [apply guest_ram_ok, tp_demo_bytes|reflexivity|]. unfold tp_ready. by rewrite E.
Qed.

Lemma virtio_transport_safe_witness :
  num (vring (queue tp_next 0)) = 4 /\ mmio_ok 8 tp_next /\
  forall o, op_ok o -> safe (mmio_ok 8) (mmio_run virtio_tp_class true (fun _ => 0) o tp_next).
Proof.
  split; [vm_compute; reflexivity|].
  apply (virtio_transport_safe virtio_tp_class 8 true (fun _ => 0) tp_ready tp_next tp_ready_ok).
  apply (reach_op _ _ _ _ tp_ready _ tp_op); [apply reach_start| |].
  - split; [right; right; reflexivity|lia].
  - vm_compute. reflexivity.
Defined.

(** ** Migration *)

(** A device with the one queue [q]. *)
Definition plain_state {B} (b : B) (q : VirtQueue) (r : gmap Z Z) : vstate B :=
  upd_queue (virtio_init (guest_ram r) b 0 8 0) 0 (fun _ => q).

Section plain.
Context {B : Type} (b : B) (q : VirtQueue) (r : gmap Z Z) (Hq : queue_ok q) (Hr : bytes_ok r).

Lemma plain_init_ok : mmio_ok 8 (virtio_init (guest_ram r) b 0 8 0).
Proof. by apply virtio_init_ok; [apply guest_ram_ok|..]. Qed.

Lemma plain_ok : mmio_ok 8 (plain_state b q r).
Proof.
  destruct plain_init_ok as [[] Hl _]. split; [|exact Hl|].
  - split; try done. by apply rings_ok_upd.
  - intros i. split; [by intros ?%elem_of_nil|by intros [? _]].
Qed.

Lemma plain_queue : queue (plain_state b q r) 0 = q.
Proof. apply (queue_upd _ 0 (fun _ => q)); [apply plain_init_ok|by vm_compute]. Qed.

(** The other queues do not exist and have no rings. *)
Lemma plain_other i : 0 <= i < VIRTIO_QUEUE_MAX -> i <> 0 -> vring (queue (plain_state b q r) i) = mkVRing 0 0 0 0 0.
Proof.
  intros Hi Hne. unfold plain_state. rewrite queue_upd_ne by lia. unfold queue, at_, virtio_init. cbn [vdev vq].
  by rewrite list_lookup_total_alt, list_lookup_fmap, lookup_seqZ_lt by lia.
Qed.

Lemma plain_exists i : num (vring q) <> 0 -> exists_queue (plain_state b q r) i <-> i = 0.
Proof.
  intros Hn. unfold exists_queue. split.
  - intros [Hi Hx]. destruct (decide (i = 0)); [done|]. by rewrite plain_other in Hx.
  - intros ->. by rewrite plain_queue.
Qed.
End plain.

(** The queue of a device that was just realized. *)
Definition new_demo_queue : VirtQueue :=
  mkQueue (mkVRing 4 4096 0 0 0) 0 0 false true 0 0 VIRTIO_NO_VECTOR true (mkNotifier false false false)
    (mkNotifier false false false).

Definition old_tp : vstate VirtIOTp := plain_state (mkTp 0 5 true None) demo_queue tp_ram.
Definition new_tp : vstate VirtIOTp := plain_state (mkTp 0 6 false None) new_demo_queue tp_ram.

Lemma demo_queue_ok : queue_ok demo_queue.
Proof. by split; vm_compute. Qed.
Lemma new_demo_queue_ok : queue_ok new_demo_queue.
Proof. by split; vm_compute. Qed.

Lemma virtio_migration_roundtrip_witness :
  exists bytes s', virtio_save (virtio_tp_save_class (fun _ => [])) old_tp = Done bytes /\
    virtio_load virtio_tp_class (virtio_tp_save_class (fun _ => [])) new_tp (mkFile (bytes ++ [0x7e]) 0)
      = Done (0, s', mkFile [0x7e] 0) /\
    mmio_ok 8 s' /\ migrated old_tp new_tp s' /\ backend s' = mkTp 0 6 false None.
Proof.
  destruct (virtio_migration_roundtrip virtio_tp_class (virtio_tp_save_class (fun _ => [])) 8
    (fun b => tp_rq b = None) (fun _ b => b) old_tp new_tp 0x7e []) as (bytes & s' & E1 & E2 & E3 & E4 & E5 & _).
  - split.
    + apply plain_ok; [apply demo_queue_ok|apply tp_demo_bytes].
    + lia.
    + by vm_compute.
    + by vm_compute.
    + intros i Hi. apply plain_exists in Hi as ->; [|apply tp_demo_bytes|by vm_compute].
      unfold old_tp. rewrite plain_queue by apply tp_demo_bytes. by repeat split; vm_compute.
  - split.
    + apply plain_ok; [apply new_demo_queue_ok|apply tp_demo_bytes].
    + reflexivity.
    + reflexivity.
    + intros i. unfold old_tp, new_tp.
      by rewrite !plain_exists by (apply tp_demo_bytes || by vm_compute).
    + intros i Hi. unfold new_tp. destruct (decide (i = 0)) as [->|].
      * by rewrite plain_queue by apply tp_demo_bytes.
      * by rewrite plain_other.
  - reflexivity.
  - by vm_compute.
  - exists bytes, s'. by split_and!.
Defined.

(** A stream that ends after the transport's registers: the device is loaded with
    zeros, which pass the checks; the error is left in the stream. *)
Definition cut_stream : QEMUFile := mkFile [0; 0; 0; 0; 0; 0; 0; 1; 0; 0; 0; 12] 0.


(** ** Where the two devices fail *)

(** A host whose descriptors start at zero, as after standard input was closed. *)
Definition zero_host : FbHost unit := {|
  sys_open := fun h => (0, h);
  sys_close := fun _ h => (0, h);
  sys_ioctl := fun _ _ arg h => (0, arg, h)
|}.

(** A read of the configuration space by the guest, of four bytes. *)
Definition config_word (o : outcome (vstate (VirtIOMsg unit))) (off : Z) : option Z :=
  match (s ← o; virtio_mmio_read virtio_msg_class s (VIRTIO_MMIO_CONFIG + off) 4) with
  | Done (v, _) => Some v
  | _ => None
  end.

Definition iothread_of (o : outcome (vstate (VirtIOMsg unit))) : option Z :=
  match o with Done s => Some (msg_iothread (backend s)) | _ => None end.

(** A poll round of the touch panel of a guest that set up its queue. *)
Definition poll (r : gmap Z Z) (count : Z) : option fault :=
  crash_of (s ← tp_guest r []; tp_poll_round s count (replicate 840 0)).

