(* ===== verification/VirtioSystem.v ===== *)
(** * From a virtio device through the interrupt controller to the guest

    A virtio transport and the interrupt controller as the board wires them
    ([create_virtio_devices] of [src/host-qemu/hw/arm/virt.c]): a notification of
    the device interrupts a processor, whose handler reads and acknowledges the
    interrupt status and ends the interrupt. *)

From S2P Require Import Prelude CArray Gic GicProofs GicOps GicDelivery GicTheorems Virtqueue VirtqueueProofs VirtioMmio VirtioMmioProofs.

(** ** The wiring *)

(** [NUM_VIRTIO_TRANSPORTS] of [virt.h] and [irqmap[VIRT_MMIO]] *)
Definition NUM_VIRTIO_TRANSPORTS : Z := 32.
Definition VIRT_MMIO_irq : Z := 16.

(** The line of transport [i], and its interrupt in the controller. *)
Definition virtio_irq_line (i : Z) : Z := VIRT_MMIO_irq + i.
Definition virtio_intid (i : Z) : Z := virtio_irq_line i + GIC_INTERNAL.

(** Every transport has an interrupt of the board's controller of its own. *)
Lemma virtio_intids i :
  0 <= i < NUM_VIRTIO_TRANSPORTS ->
  32 <= virtio_intid i < NUM_IRQS + 32 /\ virtio_irq_line i <> VIRT_QEMU_PIPE_irq /\
  (forall j, virtio_intid j = virtio_intid i -> j = i).
Proof.
  unfold virtio_intid, virtio_irq_line, NUM_VIRTIO_TRANSPORTS, VIRT_MMIO_irq, NUM_IRQS, GIC_INTERNAL, VIRT_QEMU_PIPE_irq.
  intros Hi. split; [lia|]. split; [lia|]. intros j. lia.
Qed.

(** The wire [sysbus_create_simple("virtio-mmio", base, pic[irq])] makes. *)
Definition virtio_line {B} (i : Z) (s : vstate B) (g : GICState) : res GICState :=
  gic_set_irq g (virtio_irq_line i) (if irq (proxy s) then 1 else 0).

Section cycle.
Context {B : Type} (k : VirtioDeviceClass B) (size : nat) (kvm : bool) (init : Z -> Z).
Implicit Types (s : vstate B) (g : GICState).

(** ** The transport's side *)

(** A device that notifies the guest, which did not suppress it. *)
Lemma notify_raises s n s0 :
  mmio_ok size s -> 0 <= n < VIRTIO_QUEUE_MAX -> vring_notify s n = Done (true, s0) ->
  exists s1, virtio_notify s n = Done s1 /\ mmio_ok size s1 /\ isr (vdev s1) = u8 (Z.lor (isr (vdev s)) 1) /\
    irq (proxy s1) = true /\ mem s1 = mem s.
Proof.
  intros Hs Hn Ev. pose proof (mo_core _ _ Hs) as Hc.
  destruct (vring_notify_spec s n (co_rings _ Hc) Hn) as (yes & f & E & Hf & _). rewrite E in Ev. injection Ev as -> <-.
  assert (Hk : kept s (upd_queue s n f)).
  { destruct (Hf (queue s n)) as (Evr & _ & _ & _ & _ & _ & Hok).
    apply (kept_queue init); [done|done|apply Hok, queue_ok_at; [apply Hc|done]|by rewrite Evr]. }
  set (s0 := upd_queue s n f) in *. pose proof (proj1 Hk) as H0.
  assert (Hi : in_range 8 (u8 (Z.lor (isr (vdev s0)) 1))) by (apply wrap_range; lia).
  exists (virtio_notify_vector (or_isr s0 1)). split; [unfold virtio_notify; by rewrite E|]. split.
  { eapply kept_ok; [exact Hs|]. eapply dev_kept_trans; [exact Hk|]. destruct H0. by apply kept_notify. }
  split; [done|]. split; [|done]. change (isr (vdev s)) with (isr (vdev s0)). cbn. apply negb_true_iff, Z.eqb_neq.
  intros E0. apply (f_equal (fun z => Z.testbit z 0)) in E0. change (isr (vdev s)) with (isr (vdev s0)) in E0.
  unfold wrap in E0. rewrite Z.mod_pow2_bits_low, Z.lor_spec, orb_true_r in E0 by lia. done.
Qed.

(** The guest's handler reads the interrupt status and writes it back. *)
Lemma acknowledge_lowers s cpu :
  mmio_ok size s ->
  virtio_mmio_read k s VIRTIO_MMIO_INTERRUPTSTATUS 4 = Done (isr (vdev s), s) /\
  exists s', virtio_mmio_write k kvm init s cpu VIRTIO_MMIO_INTERRUPTACK (isr (vdev s)) 4 = Done s' /\
    mmio_ok size s' /\ isr (vdev s') = 0 /\ irq (proxy s') = false /\ mem s' = mem s /\ vq (vdev s') = vq (vdev s).
Proof.
  intros Hs. split; [done|]. pose proof (mo_core _ _ Hs) as Hc.
  assert (E : u8 (Z.land (isr (vdev s)) (Z.lnot (isr (vdev s)))) = 0) by by rewrite Z.land_lnot_diag.
  eexists. split; [reflexivity|]. split.
  - eapply kept_ok; [exact Hs|]. destruct Hc. apply kept_notify; try done. apply wrap_range. lia.
  - cbn. by rewrite E.
Qed.

(** ** The whole cycle *)

(** Raising a line that is up changes nothing. *)
Lemma line_stays_up i s g cpu :
  gic_wf g -> ready g cpu (virtio_intid i) -> level (st_of g (virtio_intid i)) = 255 -> irq (proxy s) = true ->
  virtio_line i s g = Ok g.
Proof.
  intros Hg Hr Hl Hi. unfold virtio_line. rewrite Hi. replace (virtio_irq_line i) with (virtio_intid i - 32) by (unfold virtio_intid, GIC_INTERNAL; lia).
  rewrite (set_irq_spi g (virtio_intid i) 1 Hg (rd_rev _ _ _ Hr) (rd_irq _ _ _ Hr)). by rewrite Hl.
Qed.

(** C35: a virtio device on any of the board's transports notifies the guest while
    its interrupt is idle: the IRQ of the processor goes up, and the acknowledge
    of the controller gives the number of the transport's interrupt and lowers
    it.  The handler reads the interrupt status and writes it back, which lowers
    the line without touching the queues; with the end of the interrupt,
    transport and controller are ready for the next notification.  A notification
    before the handler wrote the status back changes neither the status nor the
    controller, as the handler looks at the used ring afterwards; one that comes
    later, before the end of the interrupt, raises the IRQ again with that end. *)
Theorem virtio_interrupt_cycle s n s0 g i cpu l attrs c :
  mmio_ok size s -> isr (vdev s) = 0 -> 0 <= n < VIRTIO_QUEUE_MAX -> vring_notify s n = Done (true, s0) ->
  gic_wf g -> ready g cpu (virtio_intid i) -> level (st_of g (virtio_intid i)) = 0 ->
  stack g cpu l -> preempts g cpu (virtio_intid i) l ->
  exists s1 g1 g2 s2 g3,
    virtio_notify s n = Done s1 /\
    virtio_line i s1 g = Ok g1 /\ (parent_irq g1).[cpu] = true /\
    gic_acknowledge_irq g1 cpu attrs = Ok (virtio_intid i, g2) /\ (parent_irq g2).[cpu] = false /\
    (forall n' s0', 0 <= n' < VIRTIO_QUEUE_MAX -> vring_notify s1 n' = Done (true, s0') ->
       exists s1', virtio_notify s1 n' = Done s1' /\ isr (vdev s1') = isr (vdev s1) /\ virtio_line i s1' g2 = Ok g2) /\
    virtio_mmio_read k s1 VIRTIO_MMIO_INTERRUPTSTATUS 4 = Done (1, s1) /\
    virtio_mmio_write k kvm init s1 c VIRTIO_MMIO_INTERRUPTACK 1 4 = Done s2 /\
    mmio_ok size s2 /\ isr (vdev s2) = 0 /\ mem s2 = mem s /\ vq (vdev s2) = vq (vdev s1) /\
    virtio_line i s2 g2 = Ok g3 /\
    (exists g4, gic_complete_irq g3 cpu (virtio_intid i) attrs = Ok g4 /\ gic_wf g4 /\ ready g4 cpu (virtio_intid i) /\
       level (st_of g4 (virtio_intid i)) = 0 /\ stack g4 cpu l /\ preempts g4 cpu (virtio_intid i) l /\
       candidate g4 cpu (virtio_intid i) = false) /\
    (forall n' s0', 0 <= n' < VIRTIO_QUEUE_MAX -> vring_notify s2 n' = Done (true, s0') ->
       exists s3 g4 g5, virtio_notify s2 n' = Done s3 /\ virtio_line i s3 g3 = Ok g4 /\
         gic_complete_irq g4 cpu (virtio_intid i) attrs = Ok g5 /\ (parent_irq g5).[cpu] = true).
Proof.
  intros Hs Hisr Hn Ev Hg Hr Hlow Hst Hpre.
  destruct (notify_raises s n s0 Hs Hn Ev) as (s1 & E1 & Hs1 & Hi1 & Hirq1 & Hm1).
  rewrite Hisr in Hi1. change (isr (vdev s1) = 1) in Hi1.
  destruct (acknowledge_lowers s1 c Hs1) as (Er & s2 & Ew & Hs2 & Hi2 & Hirq2 & Hm2 & Hq2). rewrite Hi1 in Er, Ew.
  assert (El : virtio_irq_line i = virtio_intid i - 32) by (unfold virtio_intid, GIC_INTERNAL; lia).
  destruct (irq_cycle g cpu (virtio_intid i) l attrs Hg Hr Hlow Hst Hpre)
    as (g1 & g2 & g3 & Eg1 & Hup & Eg2 & Hdown & Hg2 & Hr2 & Hlv2 & Eg3 & H4 & (g5 & g6 & E5 & E6 & Hup6)).
  exists s1, g1, g2, s2, g3. unfold virtio_line at 1. rewrite Hirq1, El. do 5 (split; [done|]). split.
  { intros n' s0' Hn' Ev'. destruct (notify_raises s1 n' s0' Hs1 Hn' Ev') as (s1' & E1' & _ & Hi1' & Hirq1' & _).
    exists s1'. rewrite Hi1 in *. split; [done|]. split; [done|]. by apply (line_stays_up i s1' g2 cpu). }
  do 4 (split; [done|]). split; [congruence|]. split; [done|].
  split; [unfold virtio_line; by rewrite Hirq2, El|]. split; [exact H4|]. intros n' s0' Hn' Ev'.
  destruct (notify_raises s2 n' s0' Hs2 Hn' Ev') as (s3 & E3 & _ & _ & Hirq3 & _).
  exists s3, g5, g6. split; [done|]. split; [unfold virtio_line; by rewrite Hirq3, El|done].
Qed.
End cycle.
