(* ===== verification/VirtioSystemWitnesses.v ===== *)
(** * A concrete run of a virtio device and the interrupt controller

    The theorem on the board applied to the touch panel on transport 0 and the
    controller of a board with two processors. *)

From S2P Require Import Prelude CArray Gic GicProofs GicOps GicRegs GicDelivery GicTheorems GicWitnesses Virtqueue VirtqueueProofs VirtioMmio VirtioMmioProofs VirtioDevs VirtioWitnesses VirtioSystem.
Import Runs.

(** Interrupt 48 with priority 0x80, routed to processor 0, on, and edge triggered
    as the device tree declares it. *)
Definition virtio_setup : list gic_op :=
  setup ++ [DistWrite 0 (0x400 + 48) 0x80 1 ns; DistWrite 0 (0x800 + 48) 1 1 ns; DistWrite 0 0x106 1 1 ns;
            DistWrite 0 0xc0c 2 1 ns].

Definition gic_virtio : GICState := ok_or board (run_checked board virtio_setup).

Lemma gic_virtio_reach : gic_reach gic_virtio.
Proof. apply (run_checked_reach virtio_setup board); [apply board_reach|]. vm_compute. reflexivity. Qed.

Lemma gic_virtio_ready : ready gic_virtio 0 (virtio_intid 0).
Proof. apply readyb_ready. run_vm. Qed.

Lemma virtio_interrupt_cycle_witness :
  exists s1 g1 g2 s2,
    virtio_notify old_tp 0 = Done s1 /\ virtio_line 0 s1 gic_virtio = Ok g1 /\ (parent_irq g1).[0] = true /\
    gic_acknowledge_irq g1 0 ns = Ok (48, g2) /\
    virtio_mmio_write virtio_tp_class true (fun _ => 0) s1 None VIRTIO_MMIO_INTERRUPTACK 1 4 = Done s2 /\
    isr (vdev s2) = 0.
Proof.
  destruct (virtio_interrupt_cycle virtio_tp_class 8 true (fun _ => 0) old_tp 0 old_tp gic_virtio 0 0 [] ns None)
    as (s1 & g1 & g2 & s2 & g3 & H1 & H2 & H3 & H4 & _ & _ & _ & H5 & _ & H6 & _).
  - apply plain_ok; [apply demo_queue_ok|apply tp_demo_bytes].
  - reflexivity.
  - by vm_compute.
  - vm_compute. reflexivity.
  - apply gic_reach_wf, gic_virtio_reach.
  - apply gic_virtio_ready.
  - run_vm.
  - unfold stack, chain. run_vm.
  - run_vm.
  - exists s1, g1, g2, s2. exact (conj H1 (conj H2 (conj H3 (conj H4 (conj H5 H6))))).
Defined.
